(* ===== verification/_CoqProject ===== *)
-Q . S2P
Prelude.v
GoStrings.v
GoUrl.v
Json.v
Http.v
Queue.v
Build.v
QueueRpc.v
CountProtocol.v
CountBounds.v
Routing.v
ConfigMaps.v
Printing.v
K8s.v
Net.v
Caches.v
Config.v
Forward.v
Interceptor.v
Pinger.v
Scaler.v
Admin.v
TestSupport.v
Supervise.v
InterceptorProcess.v
ScalerProcess.v
Proto.v
Hso.v
DeepCopy.v
Kube.v
Generated.v
Scheme.v
Informers.v
Operator.v
OperatorProofs.v
OperatorLive.v
OperatorFrame.v
OperatorConverge.v
OperatorRollback.v
OperatorController.v
OperatorFailures.v
OperatorRecover.v
OperatorPing.v
OperatorProcess.v
System.v
Deployment.v
ColdStart.v
ProxyRequest.v
ProxyServer.v
ScaleFromZero.v
