(* ===== verification/Prelude.v ===== *)
(** * The KEDA HTTP add-on, verified

    A model of the HTTP add-on for KEDA (this repository) and the theorems that
    make it correct. Names are those of the Go code; line references are to
    src/.

    ** The program

    An interceptor is an HTTP proxy in front of applications that may be scaled
    to zero. It counts the requests that are pending per host, holds a request
    until the Deployment behind its host is ready, and forwards it. A scaler
    asks every interceptor for its counts and answers KEDA's questions with
    their sums. An operator turns each HTTPScaledObject into a ScaledObject of
    KEDA and into entries of a routing table, which it publishes in a ConfigMap;
    interceptors and the scaler follow that ConfigMap.

    ** The files

    - Prelude: errors, results (value, error or panic), the state-and-error
      monad [ST] with Go's [defer], integers at their width, sums.
    - GoStrings, GoUrl, Json, Http: what the program uses of strings, strconv,
      net/url, encoding/json and net/http, with the round trips on which the
      rest relies.
    - Build: build information, the logger and the dialer (pkg/build, pkg/log).
    - Queue: [Memory] and [Counts] (pkg/queue/queue.go, queue_counts.go).
      QueueRpc: the [/queue] handler and its client, the interfaces
      [CountReader] and [Counter] as classes, the fakes (queue_rpc.go,
      queue_fakes.go). CountProtocol: many requests and the enforcer of
      [ProcessPostponedResizes] on one queue, as a step relation whose steps are
      the critical sections of the code (interceptor/middleware.go, queue.go).
      CountBounds: how far the count can be from the requests in flight when the
      enforcer interferes.
    - Routing: [Target] and [Table], with [TableReader] as a class with laws
      (pkg/routing/target.go, table.go). ConfigMaps: the table's JSON, the
      ConfigMap, the updater loop and the admin routes (config_map.go,
      config_map_updater.go, table_rpc.go). Printing: the String methods of
      [Counts] and [Table].
    - K8s: objects, endpoints, the informer-backed caches and the fakes
      (pkg/k8s). Caches: the two caches as objects that feed a broadcaster, and
      the interfaces around them. Net: dialling and backoff (pkg/net). Config: configuration
      (pkg/env, operator/controllers/http/config, interceptor/config,
      scaler/config.go).
    - Forward: [getHost], the wait function, the reverse proxy, the retries, the
      forwarding handler (interceptor/middleware.go, forward_wait_func.go,
      request_forwarder.go, proxy_handlers.go). Interceptor: [countMiddleware]
      and the handler that the proxy serves (middleware.go, main.go).
    - Pinger: [queuePinger], and the goroutines of [fetchCounts] as a step
      relation (scaler/queue_pinger.go). Scaler: the RPCs and the admin handlers
      (scaler/handlers.go, hosts.go, main.go). Proto: the messages, the gRPC
      service and KEDA's client stub (proto/scaler.pb.go, scaler_grpc.pb.go).
    - Admin: [ServeMux], the config and version endpoints, and the admin servers
      of the three programs (pkg/http/config_endpoint.go, the runAdminServer
      functions). TestSupport: the servers and pingers of the tests
      (pkg/net/mock_server.go, scaler/queue_pinger_fake.go and others).
    - Supervise: [ServeContext] (pkg/http/server.go) and a process whose main
      waits for an error group, as a step relation. InterceptorProcess,
      ScalerProcess: the two main functions, from start-up to the exit, with
      everything that runs beside the group (interceptor/main.go,
      scaler/main.go).
    - Hso: the custom resource, its conditions and finalizers
      (operator/apis/http/v1alpha1, condition_provider.go, finalizer.go).
      DeepCopy: its generated deep copies over a heap with pointers and slices
      (zz_generated.deepcopy.go). Kube: the API client as a class [Client] with
      laws [ClientLaws], and an in-memory server [MemCluster] that satisfies
      them, with a script of the fate of every call (served, refused, or served
      with the answer lost) and a log of the ConfigMaps stored. Generated: the typed client, the clientset and their fakes; Informers:
      the lister, the informers and their factory (operator/generated). Scheme:
      the initialisers that register the types (register.go of the clientset and
      of its fake, groupversion_info.go, operator/main.go).
    - Operator: [Reconcile] and all it calls (operator/controllers/http).
      OperatorProofs, OperatorLive, OperatorFrame: what it does, that it
      succeeds, and what it leaves alone. OperatorConverge: sequences of
      reconciliations. OperatorRollback: what a roll-back takes from other objects.
      OperatorController: the events that cause them
      ([SetupWithManager]) and the controller's queue. OperatorFailures: what a
      reconciliation does when calls of the API fail; OperatorRecover: that the
      controller recovers. OperatorPing: [pingInterceptors] with its goroutines
      (ping.go). OperatorProcess: the operator's main (operator/main.go).
    - System, ColdStart, ProxyRequest: the theorems that cross components.
      Deployment: the operator's controller and any number of interceptors and
      scalers that follow the ConfigMap, as one system. ProxyServer: the proxy's
      handler taken apart into the steps of one goroutine per request, beside the
      updater and the enforcer. ScaleFromZero: the chain from a waiting request to
      KEDA's answer.

    ** What the theorems show

    - The count (C1, C2, C19, C27-C29, C35, C40): without interference between
      the enforcer's two critical sections the queue implements an abstract
      counter of requests in flight and hosts cooling down; without a cooldown
      the counts a running interceptor reports through its admin server are
      exact under every interleaving; the cooldown holds and ends; the proxy
      server with its goroutines, its updater and its enforcer runs this protocol.
      The interference is real: under every schedule
      the count is at most one above the requests in flight, and below them by
      no more than the process can hold; a count that was lost stays lost under
      light load, however many requests come and go; and there is a run of the
      whole system in which a pending request is not seen.
    - Routing (C3, C12, C17, C20): the round trip through the ConfigMap, that a
      running interceptor's routes come from the ConfigMap only, the way from an
      HTTPScaledObject to the interceptor's lookup, and that the operator and all
      that follow it end up with one table, the union of the routes of the objects
      that exist, in a bounded number of steps, whichever calls fail, with or
      without effect, and whatever they are late for, miss or restart.
    - Forwarding (C5, C6, C16, C31, C32): a caller in a [dp-] namespace looks up
      hosts under its own namespace only; nothing is sent for a host that is not
      registered; a request that finds no replica is held until one is reported or
      the wait times out, misses no wake-up, and leaves the counts as they were; a
      goroutine of the proxy, step by step, is the handler; what is retried.
    - Scaling (C4, C10, C11, C13, C14, C21, C30, C36): without a cooldown, a request
      that waits in some interceptor makes KEDA, asking over gRPC with what the operator put
      into the ScaledObject, activate its application; the counts fetched are the
      sums over all interceptors whatever the schedule of the goroutines, the
      fetch ends unless a request hangs, which goroutines it leaves behind when one
      fails, a running scaler holds the counts of one fetch, and
      KEDA's stub gets the truth about them; a failed fetch ends the scaler.
    - The operator (C7-C9, C12, C15, C22, C23, C37-C39): what a reconciliation
      that reports no error has done, for creation and deletion; what one with
      any outcome leaves alone, that it causes no other, and that it leaves a
      state to try again from; that the controller's queue empties although calls
      fail; that a running operator's routes come from its objects; what deletion, a restart
      and a roll-back lose.
    - Processes and libraries (C18, C24-C26, C33, C34): how the interceptor ends;
      deep copies share no memory but the hosts; the admin routes; the informer
      factory runs every informer once, and its informer is the same however it
      is asked for; the watches of the caches deliver the events of their object
      that came after them.

    Theorems without a number state the behaviour of single operations on each
    branch; several of them show a defect.

    ** Choices

    Every method that holds a mutex for its whole body is one atomic function
    on the state it guards; where a lock is taken more than once, or goroutines
    and channels matter, there is a step relation. A loop around [select] is a
    function of the inputs it receives, which may be any list: it answers
    [Waiting] when they run out, so a theorem that it returns is not vacuous.

    In a running process a task takes one input of its loop per step, requests
    and the enforcer take the steps of the count protocol, and an admin request
    is one step. What ends a task comes from outside as an input: what the
    listeners report and whether a watch opens ([ienv], [senv]), the ConfigMaps
    delivered, the answers of the endpoints, the signal; an informer runs until
    its context is done. A task's deferred cancel and the recording of its result by the
    group are two steps, so that another task can be recorded first. Theorems
    that a process can end exhibit the steps to the end; a fair scheduler takes
    them.

    The fetch of the counts is a relation over its goroutines: a fetcher and a
    forwarder per endpoint, the closer and the caller. A request may hang, as the
    client has no timeout, so progress is stated for requests that are answered.

    A watch of a cache sees the notifications whose handlers return: the
    broadcasters are of length 0 and wait for their watchers, so an [Action]
    that blocks on a watcher that nobody reads is a handler that has not
    returned. The wait function is given the notifications with their times, and
    those up to the deadline of its context.

    In the proxy server a goroutine's step is one call on the queue, one look-up,
    the wait or the forwarding; the network and the clock may change between any
    two steps. In the deployment a reconciliation is one step and makes at most
    two versions of the ConfigMap (two when the answer to the creation's write is
    lost and the roll-back writes again), and a follower gets any later version
    next, so that informers may skip some. The API server is there the one with a
    script of fates, under which a call fails without effect or with it. A failure that claims an object does not exist is excluded,
    since the operator takes it for an end of the object. The bounds of that
    system are in numbers of requests, objects on their way out, failures,
    followers, versions and restarts.

    A read of the API client answers with the server's current copy. The
    operator reads HTTPScaledObjects through the manager's cache, which may lag
    behind; a reconciliation on an older copy is not in the model. The handler
    of [/queue] encodes the live map of the queue after the lock is released; it
    is modelled on one state of the queue. Durations are integers without bound:
    the retries would have to wait for centuries to wrap them.

    Recursion that is not structural has fuel with a bound that is proved or
    evident to suffice: the JSON parser gets the length of its text plus one
    (its round trip is proved with that fuel), [retryRequest] the number of
    attempts left, [DialContextWithRetry] its number of steps, [Itoa] the binary
    length of its argument. Counters are 64-bit and wrap; the count theorems
    assume fewer than 2^63 - 1 requests in flight at once.

    What is not in src/ is a parameter, or a class with laws and an instance:
    reverse DNS, the transports, [time.Sleep] and the clock, the HTTP client,
    [wait.Backoff.Step], envconfig, the informers and their store
    ([InformerStore]), the error group ([ErrgroupLaws]), the object tracker of
    the fake clientset ([ObjectTrackerLaws]), broadcasters ([BroadcasterLaws]),
    the generations of objects ([GenerationLaws]), gRPC with its wire format
    ([GrpcLaws]), schemes and their builders ([SchemesLaws]), the copies of the Kubernetes
    metadata ([DeepCopies]), and the Kubernetes API, of which [ClientLaws]
    states what the operator relies on: a call that succeeds has its documented
    effect, a call that fails has that effect or none. HTTP streaming, upgrades
    and trailers are left out of the reverse proxy. Logging is left out
    everywhere.

    ** Not modelled

    The descriptor tables and reflection methods of the code generated by protoc,
    which are data and glue for the protobuf runtime; the codecs made from the
    schemes; envconfig, flags and the controller manager, which are libraries (of
    the manager's queue: that a request is kept once, and comes back after an
    error); the seeding of math/rand, which nothing reads; the helpers of the
    end-to-end tests, which run helm and kubectl against a real cluster; the
    compiled-in interface assertions and the empty expansion interfaces of the
    generated code. KEDA itself, which asks the scaler and scales the Deployments,
    and the Deployment controller are outside the repository: that an application
    becomes ready after KEDA was told to activate it is the notification on which
    the cold-start theorem (C16) waits. *)

From Stdlib Require Export ZArith Lia.
From stdpp Require Export base tactics gmap strings list fin_maps relations.

#[global] Arguments String.append !_ _ / : simpl nomatch.

Declare Scope go_scope.
Delimit Scope go_scope with go.
#[global] Open Scope Z_scope.
#[global] Open Scope go_scope.

(** ** Go's errors

    The errors the program builds ([fmt.Errorf], [errors.New]), wraps
    ([errors.Wrap] of github.com/pkg/errors) and inspects
    ([IsNotFound] and [IsAlreadyExists] of the Kubernetes API machinery,
    the context errors, the sentinel of pkg/routing). *)

Inductive error : Type :=
| Errorf (msg : string)
| Wrap (inner : error) (msg : string)
| ApiNotFound (msg : string)
| ApiAlreadyExists (msg : string)
| ApiOther (msg : string)
| ContextCanceled
| DeadlineExceeded
| ErrTargetNotFound.

#[export] Instance error_eq_dec : EqDecision error.
Proof. solve_decision. Defined.

(** The text [err.Error()] returns. *)
Fixpoint Error_string (e : error) : string :=
  match e with
  | Errorf m | ApiNotFound m | ApiAlreadyExists m | ApiOther m => m
  | Wrap i m => m +:+ ": " +:+ Error_string i
  | ContextCanceled => "context canceled"
  | DeadlineExceeded => "context deadline exceeded"
  | ErrTargetNotFound => "Target not found"
  end.

(** ** Results

    A Go function that returns [(T, error)] yields [Ok] or [Err]; an
    expression that crashes the goroutine (nil map write, nil pointer, slice
    bounds) yields [Panic]. *)

Inductive res (A : Type) : Type :=
| Ok (a : A)
| Err (e : error)
| Panic (msg : string).
Arguments Ok {A} a.
Arguments Err {A} e.
Arguments Panic {A} msg.

#[export] Instance res_eq_dec `{EqDecision A} : EqDecision (res A).
Proof. solve_decision. Defined.

#[export] Instance res_ret : MRet res := λ A a, Ok a.
#[export] Instance res_bind : MBind res := λ A B f m,
  match m with Ok a => f a | Err e => Err e | Panic s => Panic s end.
#[export] Instance res_fmap : FMap res := λ A B f m,
  match m with Ok a => Ok (f a) | Err e => Err e | Panic s => Panic s end.

Definition is_ok {A} (m : res A) : bool := if m is Ok _ then true else false.
Definition is_panic {A} (m : res A) : bool := if m is Panic _ then true else false.

(** [errors.Wrap] and its variants applied to the error of a result. *)
Definition map_err {A} (f : error → error) (m : res A) : res A :=
  match m with Ok a => Ok a | Err e => Err (f e) | Panic s => Panic s end.

Lemma res_bind_Ok {A B} (m : res A) (f : A → res B) (b : B) :
  m ≫= f = Ok b ↔ ∃ a, m = Ok a ∧ f a = Ok b.
Proof. destruct m; simpl; naive_solver. Qed.

Lemma map_err_Ok {A} f (m : res A) a : map_err f m = Ok a ↔ m = Ok a.
Proof. destruct m; simpl; naive_solver. Qed.

(** ** State and errors

    Code that changes shared state and can fail: what was written before an
    error stays written, as in Go. *)

Definition ST (S A : Type) : Type := S → res A * S.

#[export] Instance ST_ret {S} : MRet (ST S) := λ A a s, (Ok a, s).
#[export] Instance ST_bind {S} : MBind (ST S) := λ A B f m s,
  match m s with
  | (Ok a, s') => f a s'
  | (Err e, s') => (Err e, s')
  | (Panic p, s') => (Panic p, s')
  end.

Definition get {S} : ST S S := λ s, (Ok s, s).
Definition put {S} (s : S) : ST S unit := λ _, (Ok tt, s).
Definition modify {S} (f : S → S) : ST S unit := λ s, (Ok tt, f s).
Definition throw {S A} (e : error) : ST S A := λ s, (Err e, s).
Definition crash {S A} (p : string) : ST S A := λ s, (Panic p, s).

(** Run [m], handing its result, error or not, to the continuation: the shape
    of [if err := m(); err != nil { ... }]. *)
Definition try {S A} (m : ST S A) : ST S (A + error) := λ s,
  match m s with
  | (Ok a, s') => (Ok (inl a), s')
  | (Err e, s') => (Ok (inr e), s')
  | (Panic p, s') => (Panic p, s')
  end.

(** Go's [defer d]: [d] runs when the body returns or panics; its own outcome
    is dropped, unless it panics itself. *)
Definition deferred {S A} (d : ST S unit) (m : ST S A) : ST S A := λ s,
  let '(r, s') := m s in
  match d s' with
  | (Panic p, s'') => (Panic p, s'')
  | (_, s'') => (r, s'')
  end.

Lemma ST_bind_run {S A B} (m : ST S A) (f : A → ST S B) s :
  (m ≫= f) s = match m s with
               | (Ok a, s') => f a s'
               | (Err e, s') => (Err e, s')
               | (Panic p, s') => (Panic p, s')
               end.
Proof. reflexivity. Qed.

Lemma ST_bind_Ok {S A B} (m : ST S A) (f : A → ST S B) s b s' :
  (m ≫= f) s = (Ok b, s') ↔ ∃ a s1, m s = (Ok a, s1) ∧ f a s1 = (Ok b, s').
Proof.
  rewrite ST_bind_run. destruct (m s) as [[a|e|p] s1] eqn:E; split.
  - eauto.
  - intros (a' & s1' & [= -> ->] & H). exact H.
  - discriminate.
  - naive_solver.
  - discriminate.
  - naive_solver.
Qed.

(** ** Machine integers

    [int] is 64 bits wide on the targets the program is built for; [int32]
    appears in the Kubernetes types. Arithmetic wraps around. *)

Definition wrap (w z : Z) : Z := (z + 2 ^ (w - 1)) `mod` 2 ^ w - 2 ^ (w - 1).
Definition int64 (z : Z) : Z := wrap 64 z.
Definition int32 (z : Z) : Z := wrap 32 z.

Definition in_int64 (z : Z) : Prop := - 2 ^ 63 ≤ z < 2 ^ 63.
Definition in_int32 (z : Z) : Prop := - 2 ^ 31 ≤ z < 2 ^ 31.

#[export] Instance in_int64_dec z : Decision (in_int64 z).
Proof. unfold in_int64. apply _. Defined.
#[export] Instance in_int32_dec z : Decision (in_int32 z).
Proof. unfold in_int32. apply _. Defined.

Lemma int64_id z : in_int64 z → int64 z = z.
Proof.
  unfold in_int64, int64, wrap. intros H.
  rewrite Z.mod_small; lia.
Qed.

Lemma int64_range z : in_int64 (int64 z).
Proof.
  unfold in_int64, int64, wrap.
  pose proof (Z.mod_pos_bound (z + 2 ^ (64 - 1)) (2 ^ 64) ltac:(lia)).
  lia.
Qed.

Lemma int64_spec z : ∃ k, int64 z = z + k * 2 ^ 64.
Proof.
  unfold int64, wrap. exists (- ((z + 2 ^ (64 - 1)) / 2 ^ 64)).
  pose proof (Z.div_mod (z + 2 ^ (64 - 1)) (2 ^ 64) ltac:(lia)). lia.
Qed.

Lemma int64_eq_mod a b k : a = b + k * 2 ^ 64 → int64 a = int64 b.
Proof.
  intros ->. unfold int64, wrap.
  replace (b + k * 2 ^ 64 + 2 ^ (64 - 1)) with ((b + 2 ^ (64 - 1)) + k * 2 ^ 64) by lia.
  by rewrite Z.mod_add.
Qed.

Lemma int64_add_l a b : int64 (int64 a + b) = int64 (a + b).
Proof. destruct (int64_spec a) as [k Hk]. apply (int64_eq_mod _ _ k). lia. Qed.

Lemma int64_add_r a b : int64 (a + int64 b) = int64 (a + b).
Proof. rewrite Z.add_comm, int64_add_l. f_equal. lia. Qed.

Lemma int64_int64 a : int64 (int64 a) = int64 a.
Proof. apply int64_id, int64_range. Qed.

(** ** Sums *)

Definition zsum (l : list Z) : Z := foldr Z.add 0 l.

Lemma zsum_app l1 l2 : zsum (l1 ++ l2) = zsum l1 + zsum l2.
Proof. induction l1; simpl; lia. Qed.

Lemma zsum_perm l1 l2 : l1 ≡ₚ l2 → zsum l1 = zsum l2.
Proof. induction 1; simpl; lia. Qed.

#[export] Instance zsum_proper : Proper ((≡ₚ) ==> eq) zsum.
Proof. exact zsum_perm. Qed.

Lemma zsum_nonneg l : Forall (λ z, 0 ≤ z) l → 0 ≤ zsum l.
Proof. induction 1; simpl; lia. Qed.

Lemma zsum_bounds b l : Forall (λ z, 0 ≤ z ≤ b) l → 0 ≤ zsum l ≤ Z.of_nat (length l) * b.
Proof. induction 1; simpl; lia. Qed.

Lemma zsum_pos z l : Forall (λ z, 0 ≤ z) l → z ∈ l → 0 < z → 0 < zsum l.
Proof.
  intros Hl Hz. revert Hl. induction Hz as [|z y l Hz IH]; intros [? Hl]%Forall_cons ?; simpl.
  - pose proof (zsum_nonneg l Hl). lia.
  - specialize (IH Hl). lia.
Qed.

(** Left-to-right accumulation with wrap-around is the sum, wrapped. *)
Lemma foldl_int64_zsum l acc :
  int64 (foldl (λ a x, int64 (a + x)) acc l) = int64 (acc + zsum l).
Proof.
  revert acc. induction l as [|x l IH]; intros acc; simpl.
  - f_equal. lia.
  - rewrite IH, int64_add_l. f_equal. lia.
Qed.

(** The value of a key in a Go [map[string]int], the zero value when absent. *)
Definition count_of (m : gmap string Z) (h : string) : Z := default 0 (m !! h).

(** ** Automation *)

Create HintDb go discriminated.
Create Rewrite HintDb go.
#[export] Hint Resolve int64_range : go.
#[export] Hint Rewrite @int64_add_l @int64_add_r @int64_int64 : go.

(** Case analysis on the scrutinee of every match in sight, substituting the
    equations it produces. *)
Ltac go_destruct :=
  repeat (case_match; simplify_eq/=).

Ltac go_simpl := unfold mbind, mret, fmap, res_bind, res_ret, res_fmap in *; simplify_eq/=.
