(* ===== verification/GoStrings.v ===== *)
(** * Go strings

    The functions of Go's [strings], [strconv] and slicing syntax the program
    uses, on byte strings. Searches are for one byte, as every call of the
    program is; an index is [Some i], or [None] where Go returns -1. *)

From S2P Require Import Prelude.
From Stdlib Require Export Ascii.

(** Does byte [c] occur in [s]? *)
Fixpoint has_char (c : ascii) (s : string) : bool :=
  match s with
  | EmptyString => false
  | String d s => bool_decide (d = c) || has_char c s
  end.

Definition no_char (c : ascii) (s : string) : Prop := has_char c s = false.

#[export] Instance no_char_dec c s : Decision (no_char c s).
Proof. unfold no_char. apply _. Defined.

(** [s[:n]] and [s[n:]]. *)
Fixpoint str_take (n : nat) (s : string) : string :=
  match n, s with
  | S n, String d s => String d (str_take n s)
  | _, _ => EmptyString
  end.

Fixpoint str_drop (n : nat) (s : string) : string :=
  match n, s with
  | S n, String _ s => str_drop n s
  | _, _ => s
  end.

(** [strings.Index(s, c)] and [strings.LastIndex(s, c)]. *)
Fixpoint Index (c : ascii) (s : string) : option nat :=
  match s with
  | EmptyString => None
  | String d s => if decide (d = c) then Some 0%nat else S <$> Index c s
  end.

Fixpoint LastIndex (c : ascii) (s : string) : option nat :=
  match s with
  | EmptyString => None
  | String d s =>
      match LastIndex c s with
      | Some i => Some (S i)
      | None => if decide (d = c) then Some 0%nat else None
      end
  end.

(** [strings.HasPrefix(s, p)]. *)
Definition HasPrefix (s p : string) : bool := String.prefix p s.

(** [strings.Split(s, c)]: never empty. *)
Fixpoint Split (c : ascii) (s : string) : list string :=
  match s with
  | EmptyString => [EmptyString]
  | String d s =>
      if decide (d = c) then EmptyString :: Split c s
      else match Split c s with
           | p :: ps => String d p :: ps
           | [] => [String d EmptyString]
           end
  end.

(** [strings.Join(l, sep)]. *)
Fixpoint Join (l : list string) (sep : string) : string :=
  match l with
  | [] => EmptyString
  | [p] => p
  | p :: l => p +:+ sep +:+ Join l sep
  end.

(** ** Decimal integers: [strconv.Itoa], the [%d] verb, [strconv.ParseInt] *)

Definition digit_char (d : Z) : ascii := ascii_of_nat (48 + Z.to_nat d).

Definition char_digit (c : ascii) : option Z :=
  let n := Z.of_nat (nat_of_ascii c) in
  if decide (48 ≤ n ≤ 57) then Some (n - 48) else None.

Fixpoint digits_acc (fuel : nat) (n : Z) (acc : string) : string :=
  match fuel with
  | O => acc
  | S fuel =>
      let acc := String (digit_char (n `mod` 10)) acc in
      if decide (n / 10 = 0) then acc else digits_acc fuel (n / 10) acc
  end.

Definition digits (n : Z) : string := digits_acc (S (Z.to_nat (Z.log2 n))) n EmptyString.

Definition Itoa (z : Z) : string :=
  if decide (z < 0) then String "-" (digits (- z)) else digits z.

Fixpoint digits_val (acc : Z) (s : string) : option Z :=
  match s with
  | EmptyString => Some acc
  | String c s => d ← char_digit c; digits_val (acc * 10 + d) s
  end.

Definition unsigned_val (s : string) : option Z :=
  if s is EmptyString then None else digits_val 0 s.

Definition signed_val (s : string) : option Z :=
  match s with
  | String "-" s => Z.opp <$> unsigned_val s
  | String "+" s => unsigned_val s
  | _ => unsigned_val s
  end.

(** [strconv.ParseInt(s, 10, w)]: syntax errors and values out of the [w]-bit
    range are errors. *)
Definition ParseInt (w : Z) (s : string) : res Z :=
  match signed_val s with
  | None => Err (Errorf ("strconv.ParseInt: parsing " +:+ s +:+ ": invalid syntax"))
  | Some z =>
      if decide (- 2 ^ (w - 1) ≤ z < 2 ^ (w - 1)) then Ok z
      else Err (Errorf ("strconv.ParseInt: parsing " +:+ s +:+ ": value out of range"))
  end.

Definition Atoi (s : string) : res Z := ParseInt 64 s.

(** ** Lemmas *)

Lemma app_empty_r s : s +:+ "" = s.
Proof. induction s; simpl; congruence. Qed.

Lemma app_assoc_str s1 s2 s3 : s1 +:+ (s2 +:+ s3) = (s1 +:+ s2) +:+ s3.
Proof. induction s1; simpl; congruence. Qed.

Lemma length_app_string s1 s2 :
  String.length (s1 +:+ s2) = (String.length s1 + String.length s2)%nat.
Proof. induction s1 as [|c s1 IH]; simpl; [done|]. by rewrite IH. Qed.

Lemma app_suffix_inj s1 s2 t : s1 +:+ t = s2 +:+ t → s1 = s2.
Proof.
  revert s2. induction s1 as [|c s1 IH]; intros [|d s2] Heq; [done| | |].
  - apply (f_equal String.length) in Heq. simpl in Heq. rewrite length_app_string in Heq. lia.
  - apply (f_equal String.length) in Heq. simpl in Heq. rewrite length_app_string in Heq. lia.
  - injection Heq as -> Heq. f_equal. by apply IH.
Qed.

Lemma has_char_app c s1 s2 : has_char c (s1 +:+ s2) = has_char c s1 || has_char c s2.
Proof. induction s1 as [|d s1 IH]; simpl; [done|]. by rewrite IH, orb_assoc. Qed.

Lemma no_char_app c s1 s2 : no_char c (s1 +:+ s2) ↔ no_char c s1 ∧ no_char c s2.
Proof. unfold no_char. rewrite has_char_app. apply orb_false_iff. Qed.

Lemma no_char_cons c d s : no_char c (String d s) ↔ d ≠ c ∧ no_char c s.
Proof.
  unfold no_char; simpl. rewrite orb_false_iff, bool_decide_eq_false. done.
Qed.

Lemma no_char_nil c : no_char c EmptyString.
Proof. done. Qed.

#[export] Hint Resolve no_char_nil : go.

Lemma Index_None c s : Index c s = None ↔ no_char c s.
Proof.
  induction s as [|d s IH]; simpl; [done|].
  rewrite no_char_cons, <-IH. case_decide; [naive_solver|].
  destruct (Index c s); simpl; naive_solver.
Qed.

Lemma Index_Some c s i :
  Index c s = Some i →
  s = str_take i s +:+ String c (str_drop (S i) s) ∧ no_char c (str_take i s).
Proof.
  revert i. induction s as [|d s IH]; simpl; intros i; [done|].
  case_decide as Hd; simplify_eq/=; intros H.
  - simplify_eq/=. split; [done | apply no_char_nil].
  - destruct (Index c s) as [j|] eqn:E; simplify_eq/=.
    destruct (IH j eq_refl) as [H1 H2]. split; [by rewrite H1 at 1|].
    by apply no_char_cons.
Qed.

Lemma Index_app c s1 s2 :
  no_char c s1 → Index c (s1 +:+ String c s2) = Some (String.length s1).
Proof.
  induction s1 as [|d s1 IH]; simpl; intros H.
  - by case_decide.
  - apply no_char_cons in H as [Hd H]. case_decide; [done|]. by rewrite IH.
Qed.

Lemma LastIndex_None c s : LastIndex c s = None ↔ no_char c s.
Proof.
  induction s as [|d s IH]; simpl; [done|].
  rewrite no_char_cons, <-IH. destruct (LastIndex c s); [naive_solver|].
  case_decide; naive_solver.
Qed.

Lemma LastIndex_Some c s i :
  LastIndex c s = Some i →
  s = str_take i s +:+ String c (str_drop (S i) s) ∧ no_char c (str_drop (S i) s).
Proof.
  revert i. induction s as [|d s IH]; simpl; intros i; [done|].
  destruct (LastIndex c s) as [j|] eqn:E; intros H; simplify_eq/=.
  - destruct (IH j eq_refl) as [H1 H2]. split; [by rewrite H1 at 1 | done].
  - case_decide; simplify_eq/=. split; [done|]. by apply LastIndex_None.
Qed.

Lemma LastIndex_app c s1 s2 :
  no_char c s2 → LastIndex c (s1 +:+ String c s2) = Some (String.length s1).
Proof.
  intros H. induction s1 as [|d s1 IH]; simpl.
  - rewrite (proj2 (LastIndex_None c s2) H). by case_decide.
  - by rewrite IH.
Qed.

Lemma str_take_app s1 s2 : str_take (String.length s1) (s1 +:+ s2) = s1.
Proof. induction s1; simpl; [by destruct s2 | congruence]. Qed.

Lemma str_drop_app s1 s2 : str_drop (String.length s1) (s1 +:+ s2) = s2.
Proof. induction s1; simpl; [by destruct s2 | congruence]. Qed.

Lemma str_drop_S_app s1 c s2 : str_drop (S (String.length s1)) (s1 +:+ String c s2) = s2.
Proof. induction s1 as [|d s1 IH]; simpl in *; [by destruct s2 | done]. Qed.

Lemma Split_not_nil c s : Split c s ≠ [].
Proof. destruct s; simpl; [done|]. case_decide; [done|]. by destruct (Split c s). Qed.

Lemma Split_no_char c s : no_char c s → Split c s = [s].
Proof.
  induction s as [|d s IH]; simpl; [done|]. intros [Hd H]%no_char_cons.
  case_decide; [done|]. by rewrite IH.
Qed.

Lemma Split_app c s1 s2 : no_char c s1 → Split c (s1 +:+ String c s2) = s1 :: Split c s2.
Proof.
  induction s1 as [|d s1 IH]; simpl; [by intros; case_decide|].
  intros [Hd H]%no_char_cons. case_decide; [done|]. by rewrite IH.
Qed.

Lemma Split_parts c s : Forall (no_char c) (Split c s).
Proof.
  induction s as [|d s IH]; simpl; [repeat constructor|].
  case_decide; [by constructor|].
  destruct (Split c s) as [|p ps]; [constructor; [|done]; by apply no_char_cons|].
  apply Forall_cons in IH as [H1 H2]. constructor; [|done]. by apply no_char_cons.
Qed.

Lemma Join_cons p l sep : l ≠ [] → Join (p :: l) sep = p +:+ sep +:+ Join l sep.
Proof. by destruct l. Qed.

(** Joining what [Split] returned gives the string back. *)
Lemma Join_Split c s : Join (Split c s) (String c "") = s.
Proof.
  induction s as [|d s IH]; simpl; [done|].
  pose proof (Split_not_nil c s) as Hn.
  case_decide as Hd; subst.
  - rewrite Join_cons by done. simpl. by rewrite IH.
  - destruct (Split c s) as [|p [|q l]] eqn:E; [done|..]; simpl in *; by rewrite <-IH.
Qed.

(** Splitting a join of parts without the separator gives the parts back. *)
Lemma Split_Join c l :
  l ≠ [] → Forall (no_char c) l → Split c (Join l (String c "")) = l.
Proof.
  intros Hn Hl. induction Hl as [|p l Hp Hl IH]; [done|].
  destruct l as [|q l]; [by apply Split_no_char|].
  rewrite Join_cons by done. change (String c "" +:+ ?s) with (String c s).
  rewrite Split_app by done. f_equal. by apply IH.
Qed.

Lemma HasPrefix_app p s : HasPrefix (p +:+ s) p = true.
Proof.
  unfold HasPrefix. induction p as [|c p IH]; simpl; [by destruct s|].
  destruct (ascii_dec c c); [exact IH | done].
Qed.

Lemma HasPrefix_cons_ne c d p s : c ≠ d → HasPrefix (String d s) (String c p) = false.
Proof. unfold HasPrefix. simpl. by destruct (ascii_dec c d). Qed.

Lemma HasPrefix_spec s p : HasPrefix s p = true ↔ ∃ t, s = p +:+ t.
Proof.
  split; [|intros [t ->]; apply HasPrefix_app].
  unfold HasPrefix. revert s. induction p as [|c p IH]; intros s; [by exists s|].
  destruct s as [|d s]; simpl; [done|]. destruct (ascii_dec c d); [|done].
  intros [t ->]%IH. exists t. by subst.
Qed.

(** ** Decimal round trip *)

Lemma char_digit_digit d : 0 ≤ d < 10 → char_digit (digit_char d) = Some d.
Proof.
  intros H. assert (d = 0 ∨ d = 1 ∨ d = 2 ∨ d = 3 ∨ d = 4 ∨ d = 5 ∨ d = 6 ∨ d = 7
    ∨ d = 8 ∨ d = 9) as Hd by lia.
  by repeat (destruct Hd as [->|Hd]; [reflexivity|]); subst.
Qed.

#[global] Arguments digit_char : simpl never.
#[global] Arguments char_digit : simpl never.

Lemma digits_acc_length fuel n acc :
  String.length (digits_acc fuel n acc)
  = (String.length (digits_acc fuel n "") + String.length acc)%nat.
Proof.
  revert n acc. induction fuel as [|fuel IH]; intros n acc; [done|]. cbn [digits_acc].
  case_decide; [done|]. rewrite IH, (IH _ (String _ "")). cbn [String.length]. lia.
Qed.

Lemma digits_val_digit v d s :
  0 ≤ d < 10 → digits_val v (String (digit_char d) s) = digits_val (v * 10 + d) s.
Proof. intros H. cbn [digits_val]. by rewrite char_digit_digit. Qed.

Lemma digits_acc_val fuel n acc v :
  0 ≤ n < 2 ^ Z.of_nat fuel → (0 < fuel)%nat →
  digits_val v (digits_acc fuel n acc) =
  digits_val (v * 10 ^ (Z.of_nat (String.length (digits_acc fuel n ""))) + n) acc.
Proof.
  revert n acc v. induction fuel as [|fuel IH]; intros n acc v Hn Hf; [lia|].
  pose proof (Z.mod_pos_bound n 10 ltac:(lia)) as Hmod.
  pose proof (Z.div_mod n 10 ltac:(lia)) as Hdiv.
  cbn [digits_acc]. case_decide as H10.
  - rewrite digits_val_digit by done. f_equal.
    cbn [String.length]. change (10 ^ Z.of_nat 1) with 10. lia.
  - assert (0 ≤ n / 10 < 2 ^ Z.of_nat fuel).
    { rewrite Nat2Z.inj_succ, Z.pow_succ_r in Hn by lia. lia. }
    assert (0 < fuel)%nat. { destruct fuel; [|lia]. change (2 ^ Z.of_nat 0) with 1 in *. lia. }
    rewrite IH, digits_val_digit by done. f_equal.
    rewrite (digits_acc_length _ _ (String _ "")). cbn [String.length].
    rewrite Nat2Z.inj_add, Z.pow_add_r by lia. change (10 ^ Z.of_nat 1) with 10. lia.
Qed.

Lemma digits_not_empty n : digits n ≠ "".
Proof.
  assert (∀ fuel m acc, acc ≠ "" → digits_acc fuel m acc ≠ "") as H.
  { induction fuel as [|fuel IH]; intros m acc Ha; cbn [digits_acc]; [done|].
    case_decide; [done|]. by apply IH. }
  unfold digits. cbn [digits_acc]. case_decide; [done|]. by apply H.
Qed.

Lemma unsigned_val_digits n : 0 ≤ n → unsigned_val (digits n) = Some n.
Proof.
  intros Hn. assert (digits_val 0 (digits n) = Some n) as Hv.
  { unfold digits. rewrite digits_acc_val; [cbn [digits_val]; f_equal; lia | | lia].
    rewrite Nat2Z.inj_succ, Z2Nat.id by apply Z.log2_nonneg.
    destruct (decide (n = 0)) as [->|]; [done|].
    pose proof (Z.log2_spec n). lia. }
  unfold unsigned_val. pose proof (digits_not_empty n). by destruct (digits n).
Qed.

Lemma digits_head n : ∃ d s, 0 ≤ d < 10 ∧ digits n = String (digit_char d) s.
Proof.
  assert (∀ fuel m acc, ∃ d s, 0 ≤ d < 10 ∧ digits_acc (S fuel) m acc = String (digit_char d) s) as H.
  { induction fuel as [|fuel IH]; intros m acc; cbn [digits_acc]; [|case_decide].
    - eexists _, _. split; [apply (Z.mod_pos_bound m 10); lia|]. case_decide; reflexivity.
    - eexists _, _. split; [apply (Z.mod_pos_bound m 10); lia|]. reflexivity.
    - apply IH. }
  apply H.
Qed.

(** [strconv.ParseInt] reads back what [strconv.Itoa] wrote, within the width. *)
Lemma ParseInt_Itoa w z : - 2 ^ (w - 1) ≤ z < 2 ^ (w - 1) → ParseInt w (Itoa z) = Ok z.
Proof.
  intros Hz. assert (signed_val (Itoa z) = Some z) as Hv.
  { unfold Itoa. case_decide.
    - simpl. rewrite unsigned_val_digits by lia. simpl. f_equal. lia.
    - rewrite <-(unsigned_val_digits z) by lia.
      destruct (digits_head z) as (d & s & Hd & ->). unfold signed_val.
      assert (d = 0 ∨ d = 1 ∨ d = 2 ∨ d = 3 ∨ d = 4 ∨ d = 5 ∨ d = 6 ∨ d = 7
        ∨ d = 8 ∨ d = 9) as Hdd by lia.
      by repeat (destruct Hdd as [->|Hdd]; [reflexivity|]); subst. }
  unfold ParseInt. rewrite Hv. by case_decide.
Qed.
