(* ===== verification/GoUrl.v ===== *)
(** * Go's net/url

    [url.Parse] as the program uses it: to turn ["http://" + host + ":" + port]
    into the URL a request is forwarded to. The parser follows the package's
    [Parse], [parse], [parseAuthority], [parseHost], [validOptionalPort] and
    [unescape]; [RawPath] and [RawFragment], which the program never reads, are
    left out, and a user part is kept undecoded. *)

From S2P Require Import Prelude GoStrings.

Record URL : Type := mkURL {
  Scheme : string;
  Opaque : string;
  User : option string;
  Host : string;
  Path : string;
  RawQuery : string;
  Fragment : string;
}.

#[export] Instance URL_eq_dec : EqDecision URL.
Proof. solve_decision. Defined.

(** ** Character classes *)

Definition code (c : ascii) : nat := nat_of_ascii c.
Definition is_lower (c : ascii) : bool := (97 <=? code c)%nat && (code c <=? 122)%nat.
Definition is_upper (c : ascii) : bool := (65 <=? code c)%nat && (code c <=? 90)%nat.
Definition is_digit (c : ascii) : bool := (48 <=? code c)%nat && (code c <=? 57)%nat.
Definition is_alnum (c : ascii) : bool := is_lower c || is_upper c || is_digit c.

Fixpoint str_all (f : ascii → bool) (s : string) : bool :=
  match s with
  | EmptyString => true
  | String c s => f c && str_all f s
  end.

Fixpoint char_in (c : ascii) (s : string) : bool :=
  match s with
  | EmptyString => false
  | String d s => bool_decide (c = d) || char_in c s
  end.

(** Bytes of a host that need no escape ([shouldEscape] of mode [encodeHost]). *)
Definition host_safe (c : ascii) : bool :=
  is_alnum c || char_in c "!$&'()*+,;=:[]<>-_.~" || bool_decide (code c = 34%nat).

Definition is_ctl (c : ascii) : bool := (code c <? 32)%nat || (code c =? 127)%nat.

Definition hex_val (c : ascii) : option nat :=
  if is_digit c then Some (code c - 48)%nat
  else if (97 <=? code c)%nat && (code c <=? 102)%nat then Some (code c - 87)%nat
  else if (65 <=? code c)%nat && (code c <=? 70)%nat then Some (code c - 55)%nat
  else None.

(** ** Unescaping *)

Inductive encoding : Type := encodePath | encodeHost | encodeZone | encodeFragment.

Definition escape_error : error := Errorf "invalid URL escape".

(** May the escape of byte [v] (high digit [hi], literally ["%25"] or not) occur? *)
Definition escape_allowed (mode : encoding) (hi v : nat) : bool :=
  match mode with
  | encodeHost => (8 <=? hi)%nat || (v =? 37)%nat
  | encodeZone => (v =? 37)%nat || (v =? 32)%nat || (128 <=? v)%nat || host_safe (ascii_of_nat v)
  | _ => true
  end.

Definition plain_allowed (mode : encoding) (c : ascii) : bool :=
  match mode with
  | encodeHost | encodeZone => (128 <=? code c)%nat || host_safe c
  | _ => true
  end.

Fixpoint unescape (mode : encoding) (s : string) : res string :=
  match s with
  | EmptyString => Ok EmptyString
  | String c rest =>
      if decide (c = "%"%char) then
        match rest with
        | String a (String b rest') =>
            match hex_val a, hex_val b with
            | Some hi, Some lo =>
                let v := (hi * 16 + lo)%nat in
                if escape_allowed mode hi v
                then t ← unescape mode rest'; Ok (String (ascii_of_nat v) t)
                else Err escape_error
            | _, _ => Err escape_error
            end
        | _ => Err escape_error
        end
      else if plain_allowed mode c then t ← unescape mode rest; Ok (String c t)
      else Err (Errorf "invalid character in host name")
  end.

(** ** Authority *)

(** [validOptionalPort] of a string that is empty or starts at the colon. *)
Definition validOptionalPort (port : string) : bool :=
  match port with
  | EmptyString => true
  | String ":" digits => str_all is_digit digits
  | _ => false
  end.

Definition port_error (port : string) : error :=
  Errorf ("invalid port " +:+ port +:+ " after host").

(** Position of ["%25"]. *)
Fixpoint index_zone (s : string) : option nat :=
  if HasPrefix s "%25" then Some 0%nat
  else match s with EmptyString => None | String _ s => S <$> index_zone s end.

Definition parseHost (host : string) : res string :=
  if HasPrefix host "[" then
    match LastIndex "]" host with
    | None => Err (Errorf "missing ']' in host")
    | Some i =>
        let colonPort := str_drop (S i) host in
        if negb (validOptionalPort colonPort) then Err (port_error colonPort)
        else match index_zone (str_take i host) with
             | Some zone =>
                 h1 ← unescape encodeHost (str_take zone host);
                 h2 ← unescape encodeZone (str_drop zone (str_take i host));
                 h3 ← unescape encodeHost (str_drop i host);
                 Ok (h1 +:+ h2 +:+ h3)
             | None => unescape encodeHost host
             end
    end
  else
    match LastIndex ":" host with
    | Some i =>
        let colonPort := str_drop i host in
        if negb (validOptionalPort colonPort) then Err (port_error colonPort)
        else unescape encodeHost host
    | None => unescape encodeHost host
    end.

Definition validUserinfo (s : string) : bool :=
  str_all (λ c, is_alnum c || char_in c "-._:~!$&'()*+,;=%@") s.

Definition parseAuthority (authority : string) : res (option string * string) :=
  match LastIndex "@" authority with
  | None => host ← parseHost authority; Ok (None, host)
  | Some i =>
      host ← parseHost (str_drop (S i) authority);
      let userinfo := str_take i authority in
      if validUserinfo userinfo then Ok (Some userinfo, host)
      else Err (Errorf "net/url: invalid userinfo")
  end.

(** ** Parse *)

(** [getScheme]: scheme and rest, or the whole string without a scheme. *)
Fixpoint scheme_len (first : bool) (s : string) : option (res nat) :=
  match s with
  | EmptyString => None
  | String c s =>
      if is_lower c || is_upper c || (negb first && (is_digit c || char_in c "+-.")) then
        match scheme_len false s with
        | Some (Ok n) => Some (Ok (S n))
        | o => o
        end
      else if decide (c = ":"%char) then
        if first then Some (Err (Errorf "missing protocol scheme")) else Some (Ok 0%nat)
      else None
  end.

Definition getScheme (s : string) : res (string * string) :=
  match scheme_len true s with
  | None => Ok (EmptyString, s)
  | Some (Ok n) => Ok (str_take n s, str_drop (S n) s)
  | Some (Err e) => Err e
  | Some (Panic p) => Panic p
  end.

Definition lower (c : ascii) : ascii := if is_upper c then ascii_of_nat (code c + 32) else c.
Fixpoint ToLower (s : string) : string :=
  match s with EmptyString => EmptyString | String c s => String (lower c) (ToLower s) end.

(** [strings.Cut(s, c)]. *)
Definition Cut (c : ascii) (s : string) : string * string :=
  match Index c s with
  | Some i => (str_take i s, str_drop (S i) s)
  | None => (s, EmptyString)
  end.

Definition parse_url (rawURL : string) : res URL :=
  if negb (str_all (λ c, negb (is_ctl c)) rawURL)
  then Err (Errorf "net/url: invalid control character in URL")
  else if decide (rawURL = "*") then Ok (mkURL "" "" None "" "*" "" "")
  else
    '(scheme, rest) ← getScheme rawURL;
    let scheme := ToLower scheme in
    let '(rest, query) := Cut "?" rest in
    if negb (HasPrefix rest "/") then
      if decide (scheme ≠ "") then Ok (mkURL scheme rest None "" "" query "")
      else if has_char ":" (fst (Cut "/" rest))
      then Err (Errorf "first path segment in URL cannot contain colon")
      else path ← unescape encodePath rest; Ok (mkURL scheme "" None "" path query "")
    else if (bool_decide (scheme ≠ "") || negb (HasPrefix rest "///")) && HasPrefix rest "//" then
      let authority := str_drop 2 rest in
      let '(authority, rest) :=
        match Index "/" authority with
        | Some i => (str_take i authority, str_drop i authority)
        | None => (authority, EmptyString)
        end in
      '(user, host) ← parseAuthority authority;
      path ← unescape encodePath rest;
      Ok (mkURL scheme "" user host path query "")
    else path ← unescape encodePath rest; Ok (mkURL scheme "" None "" path query "").

Definition url_Parse (rawURL : string) : res URL :=
  let '(u, frag) := Cut "#" rawURL in
  url ← map_err (λ e, Wrap e "parse") (parse_url u);
  if decide (frag = "") then Ok url
  else frag ← unescape encodeFragment frag;
       Ok (mkURL (Scheme url) (Opaque url) (User url) (Host url) (Path url) (RawQuery url) frag).

(** [u.String()] of an absolute URL without user or fragment whose host and
    path need no escaping, which every URL the program prints is. *)
Definition URL_String (u : URL) : string :=
  Scheme u +:+ "://" +:+ Host u +:+ Path u
  +:+ (if decide (RawQuery u = "") then "" else "?" +:+ RawQuery u).

(** ** Lemmas *)

(** Characters of the host part of a URL the program builds: what a host may
    hold unescaped, less the colon and the opening bracket. *)
Definition name_char (c : ascii) : bool :=
  is_alnum c || char_in c "-_.".

Lemma str_all_app f s1 s2 : str_all f (s1 +:+ s2) = str_all f s1 && str_all f s2.
Proof. induction s1 as [|c s1 IH]; simpl; [done|]. by rewrite IH, andb_assoc. Qed.

Lemma str_all_impl (f g : ascii → bool) s :
  (∀ c, f c = true → g c = true) → str_all f s = true → str_all g s = true.
Proof.
  intros Hfg. induction s as [|c s IH]; simpl; [done|].
  rewrite !andb_true_iff. naive_solver.
Qed.

Lemma str_all_no_char f c s : f c = false → str_all f s = true → no_char c s.
Proof.
  intros Hc. induction s as [|d s IH]; simpl; [by intros; apply no_char_nil|].
  intros [Hd Hs]%andb_true_iff. apply no_char_cons. split; [congruence | auto].
Qed.

Lemma ascii_forall (P : ascii → bool) :
  forallb (λ n, P (ascii_of_nat n)) (seq 0 256) = true → ∀ c, P c = true.
Proof.
  intros H c. rewrite forallb_forall in H.
  rewrite <-(ascii_nat_embedding c). apply H. apply in_seq.
  pose proof (nat_ascii_bounded c). lia.
Qed.

(** A boolean implication between character classes, decided over all bytes. *)
Lemma ascii_impl (f g : ascii → bool) :
  forallb (λ n, implb (f (ascii_of_nat n)) (g (ascii_of_nat n))) (seq 0 256) = true →
  ∀ c, f c = true → g c = true.
Proof.
  intros H c Hf. pose proof (ascii_forall (λ c, implb (f c) (g c)) H c) as Hc.
  simpl in Hc. by rewrite Hf in Hc.
Qed.

Lemma unescape_host_plain s :
  str_all host_safe s = true → unescape encodeHost s = Ok s.
Proof.
  induction s as [|c s IH]; [done|]. cbn [str_all unescape]. intros [Hc Hs]%andb_true_iff.
  rewrite decide_False by (intros ->; by vm_compute in Hc).
  unfold plain_allowed. rewrite Hc, orb_true_r, IH by done. done.
Qed.

Lemma name_no_bracket host s :
  str_all name_char host = true → host ≠ "" → HasPrefix (host +:+ s) "[" = false.
Proof.
  destruct host as [|c host]; [done|]. intros [Hc _]%andb_true_iff _.
  apply HasPrefix_cons_ne. intros <-. by vm_compute in Hc.
Qed.

(** A host without brackets whose last colon starts a digit-only port. *)
Lemma parseHost_name host port :
  str_all name_char host = true → host ≠ "" → str_all is_digit port = true →
  parseHost (host +:+ ":" +:+ port) = Ok (host +:+ ":" +:+ port).
Proof.
  intros Hh Hne Hp.
  pose proof (name_no_bracket host (":" +:+ port) Hh Hne) as Hb.
  assert (no_char ":" port) as Hn by (by apply (str_all_no_char is_digit)).
  unfold parseHost. rewrite Hb.
  change (":" +:+ port) with (String ":" port).
  rewrite LastIndex_app, str_drop_app by done. cbn [validOptionalPort]. rewrite Hp. cbn [negb].
  apply unescape_host_plain. rewrite str_all_app. cbn [str_all].
  apply andb_true_iff. split; [|apply andb_true_iff; split; [done|]].
  - revert Hh. apply str_all_impl, ascii_impl. by vm_compute.
  - revert Hp. apply str_all_impl, ascii_impl. by vm_compute.
Qed.

(** The same, but the port is not all digits: the parse fails. *)
Lemma parseHost_bad_port host port :
  str_all name_char host = true → host ≠ "" → no_char ":" port → str_all is_digit port = false →
  parseHost (host +:+ ":" +:+ port) = Err (port_error (":" +:+ port)).
Proof.
  intros Hh Hne Hn Hp.
  pose proof (name_no_bracket host (":" +:+ port) Hh Hne) as Hb.
  unfold parseHost. rewrite Hb. change (":" +:+ port) with (String ":" port).
  rewrite LastIndex_app, str_drop_app by done. cbn [validOptionalPort]. by rewrite Hp.
Qed.

(** Bytes of an authority that is only a host and a port: they end neither the
    authority nor the URL. *)
Definition authority_char (c : ascii) : bool := host_safe c || bool_decide (c = "%"%char).

Lemma Cut_no_char c s : no_char c s → Cut c s = (s, "").
Proof. intros H. unfold Cut. by rewrite (proj2 (Index_None c s) H). Qed.

(** On ["http://" + authority], [url.Parse] is [parseHost] of the authority. *)
Lemma url_Parse_authority a :
  str_all authority_char a = true →
  url_Parse ("http://" +:+ a)
  = (h ← map_err (λ e, Wrap e "parse") (parseHost a); Ok (mkURL "http" "" None h "" "" "")).
Proof.
  intros Ha.
  assert (∀ c, authority_char c = false → no_char c a) as Hno.
  { intros c Hc. by apply (str_all_no_char authority_char). }
  unfold url_Parse. rewrite Cut_no_char.
  2: { apply no_char_app. split; [done | by apply Hno]. }
  assert (str_all (λ c, negb (is_ctl c)) ("http://" +:+ a) = true) as Hctl.
  { rewrite str_all_app. apply andb_true_iff. split; [done|].
    revert Ha. apply str_all_impl, ascii_impl. by vm_compute. }
  unfold parse_url. rewrite Hctl. cbn [negb].
  change (getScheme ("http://" +:+ a)) with (Ok ("http", "//" +:+ a)).
  rewrite decide_False by done. cbn [mbind res_bind].
  change (ToLower "http") with "http".
  rewrite (Cut_no_char "?") by (apply no_char_app; split; [done | by apply Hno]).
  change ("//" +:+ a) with ("/" +:+ ("/" +:+ a)) at 1.
  rewrite HasPrefix_app. cbn [negb].
  rewrite (HasPrefix_app "//" a), bool_decide_true by done. cbn [orb andb].
  change (str_drop 2 ("//" +:+ a)) with a.
  rewrite (proj2 (Index_None "/" a)) by by apply Hno.
  unfold parseAuthority. rewrite (proj2 (LastIndex_None "@" a)) by by apply Hno.
  by destruct (parseHost a).
Qed.

Lemma is_digit_digit_char d : 0 ≤ d < 10 → is_digit (digit_char d) = true.
Proof.
  intros H. assert (d = 0 ∨ d = 1 ∨ d = 2 ∨ d = 3 ∨ d = 4 ∨ d = 5 ∨ d = 6 ∨ d = 7
    ∨ d = 8 ∨ d = 9) as Hd by lia.
  by repeat (destruct Hd as [->|Hd]; [reflexivity|]); subst.
Qed.

(** What [strconv.Itoa] prints of a number that is not negative is digits. *)
Lemma digits_all_digits n : str_all is_digit (digits n) = true.
Proof.
  assert (∀ fuel m acc, str_all is_digit acc = true →
    str_all is_digit (digits_acc fuel m acc) = true) as H.
  { induction fuel as [|fuel IH]; intros m acc Ha; [done|]. cbn [digits_acc].
    assert (str_all is_digit (String (digit_char (m `mod` 10)) acc) = true) as Hs.
    { cbn [str_all]. rewrite is_digit_digit_char, Ha; [done|].
      apply Z.mod_pos_bound; lia. }
    case_decide; [done | by apply IH]. }
  by apply H.
Qed.

Lemma Itoa_not_empty z : Itoa z ≠ "".
Proof. unfold Itoa. case_decide; [done | apply digits_not_empty]. Qed.

Lemma Itoa_no_char c z : is_digit c = false → c ≠ "-"%char → no_char c (Itoa z).
Proof.
  intros Hd Hm. unfold Itoa. pose proof (λ n, str_all_no_char _ c _ Hd (digits_all_digits n)).
  case_decide; [apply no_char_cons|]; naive_solver.
Qed.
