(* ===== verification/Json.v ===== *)
(** * Go's encoding/json

    What the program uses of the package: encoding and decoding of
    [map[string]T] where [T] is an [int] or a struct of strings and integers.
    The encoder escapes as Go's does (HTML-safe, invalid UTF-8 becomes
    [\ufffd]); the decoder accepts any JSON text, matches struct fields without
    regard to case, ignores unknown fields and reports a type mismatch after
    decoding the rest. Go's nesting limit of 10000 is not modelled: the parser
    recurses as deep as the text is long. *)

From stdpp Require Import sorting.
From S2P Require Import Prelude GoStrings GoUrl.

Unset Elimination Schemes.
Inductive json : Type :=
| JNull
| JBool (b : bool)
| JNum (literal : string)
| JStr (s : string)
| JArr (l : list json)
| JObj (l : list (string * json)).
Set Elimination Schemes.

Lemma json_ind (P : json → Prop) :
  P JNull → (∀ b, P (JBool b)) → (∀ n, P (JNum n)) → (∀ s, P (JStr s)) →
  (∀ l, Forall P l → P (JArr l)) →
  (∀ l, Forall (λ kv, P kv.2) l → P (JObj l)) →
  ∀ j, P j.
Proof.
  intros Hn Hb Hnum Hs Ha Ho. fix IH 1. intros [| b | n | s | l | l];
    [exact Hn | apply Hb | apply Hnum | apply Hs | |].
  - apply Ha. induction l as [|j l IHl]; constructor; [apply IH | exact IHl].
  - apply Ho. induction l as [|[k j] l IHl]; constructor; [apply IH | exact IHl].
Qed.

(** ** UTF-8 *)

Definition in_range (c : ascii) (lo hi : nat) : bool := (lo <=? code c)%nat && (code c <=? hi)%nat.
Definition cont (c : ascii) : bool := in_range c 128 191.

Definition two_ok (a b : ascii) : bool := in_range a 194 223 && cont b.
Definition three_ok (a b c : ascii) : bool :=
  ((in_range a 224 224 && in_range b 160 191)
   || (in_range a 225 236 && cont b)
   || (in_range a 237 237 && in_range b 128 159)
   || (in_range a 238 239 && cont b)) && cont c.
Definition four_ok (a b c d : ascii) : bool :=
  ((in_range a 240 240 && in_range b 144 191)
   || (in_range a 241 243 && cont b)
   || (in_range a 244 244 && in_range b 128 143)) && cont c && cont d.

(** U+2028 and U+2029, bytes E2 80 A8 and E2 80 A9. *)
Definition line_sep (a b c : ascii) : bool :=
  in_range a 226 226 && in_range b 128 128 && in_range c 168 169.

Inductive valid_utf8 : string → Prop :=
| utf8_nil : valid_utf8 ""
| utf8_one a s : (code a < 128)%nat → valid_utf8 s → valid_utf8 (String a s)
| utf8_two a b s : two_ok a b = true → valid_utf8 s → valid_utf8 (String a (String b s))
| utf8_three a b c s : three_ok a b c = true → valid_utf8 s →
    valid_utf8 (String a (String b (String c s)))
| utf8_four a b c d s : four_ok a b c d = true → valid_utf8 s →
    valid_utf8 (String a (String b (String c (String d s)))).

(** ** Encoding strings *)

Definition quote : ascii := "034".
Definition backslash : ascii := "092".

Definition hex_char (n : nat) : ascii :=
  if (n <? 10)%nat then ascii_of_nat (48 + n) else ascii_of_nat (87 + n).

(** An ASCII byte inside a JSON string, with Go's default HTML escaping. *)
Definition enc_byte (a : ascii) : string :=
  if decide (a = quote ∨ a = backslash) then String backslash (String a "")
  else if decide (a = "010"%char) then String backslash "n"
  else if decide (a = "013"%char) then String backslash "r"
  else if decide (a = "009"%char) then String backslash "t"
  else if ((code a <? 32)%nat || char_in a "<>&")%bool
  then String backslash ("u00" +:+ String (hex_char (code a / 16)) (String (hex_char (code a mod 16)) ""))
  else String a "".

Definition replacement_escape : string := String backslash "ufffd".

Fixpoint enc_body (s : string) : string :=
  match s with
  | EmptyString => ""
  | String a s1 =>
      if (code a <? 128)%nat then enc_byte a +:+ enc_body s1
      else match s1 with
           | EmptyString => replacement_escape +:+ enc_body s1
           | String b s2 =>
               if two_ok a b then String a (String b (enc_body s2))
               else match s2 with
                    | EmptyString => replacement_escape +:+ enc_body s1
                    | String c s3 =>
                        if three_ok a b c then
                          if line_sep a b c
                          then String backslash ("u202" +:+ String (hex_char (code c - 160)) (enc_body s3))
                          else String a (String b (String c (enc_body s3)))
                        else match s3 with
                             | EmptyString => replacement_escape +:+ enc_body s1
                             | String d s4 =>
                                 if four_ok a b c d
                                 then String a (String b (String c (String d (enc_body s4))))
                                 else replacement_escape +:+ enc_body s1
                             end
                    end
           end
  end.

Definition enc_string (s : string) : string := String quote (enc_body s +:+ String quote "").

(** ** Decoding strings *)

(** UTF-8 bytes of a code point below 0x110000. *)
Definition utf8_encode (r : N) : string :=
  (if r <? 128 then String (ascii_of_N r) ""
   else if r <? 2048 then
     String (ascii_of_N (192 + r / 64)) (String (ascii_of_N (128 + r mod 64)) "")
   else if r <? 65536 then
     String (ascii_of_N (224 + r / 4096)) (String (ascii_of_N (128 + r / 64 mod 64))
       (String (ascii_of_N (128 + r mod 64)) ""))
   else
     String (ascii_of_N (240 + r / 262144)) (String (ascii_of_N (128 + r / 4096 mod 64))
       (String (ascii_of_N (128 + r / 64 mod 64)) (String (ascii_of_N (128 + r mod 64)) ""))))%N.

Definition replacement : string := utf8_encode 65533.

Definition hex4 (a b c d : ascii) : option N :=
  h1 ← hex_val a; h2 ← hex_val b; h3 ← hex_val c; h4 ← hex_val d;
  Some (N.of_nat h1 * 4096 + N.of_nat h2 * 256 + N.of_nat h3 * 16 + N.of_nat h4)%N.

Definition is_surrogate (r : N) : bool := (55296 <=? r)%N && (r <? 57344)%N.

(** [utf16.DecodeRune], when it is a pair. *)
Definition surrogate_pair (r1 r2 : N) : option N :=
  if ((55296 <=? r1)%N && (r1 <? 56320)%N && (56320 <=? r2)%N && (r2 <? 57344)%N)%bool
  then Some ((r1 - 55296) * 1024 + (r2 - 56320) + 65536)%N else None.

Definition simple_escape (e : ascii) : option ascii :=
  if decide (e = quote) then Some quote
  else if decide (e = backslash) then Some backslash
  else if decide (e = "/"%char) then Some "/"%char
  else if decide (e = "b"%char) then Some "008"%char
  else if decide (e = "f"%char) then Some "012"%char
  else if decide (e = "n"%char) then Some "010"%char
  else if decide (e = "r"%char) then Some "013"%char
  else if decide (e = "t"%char) then Some "009"%char
  else None.

(** Prepend decoded bytes to what the rest of the literal decodes to. *)
Definition emit (pre : string) (o : option (string * string)) : option (string * string) :=
  '(t, rest) ← o; Some (pre +:+ t, rest).

(** The body of a string literal, up to and with its closing quote: the decoded
    string and the text after it; [None] is a syntax error. *)
Fixpoint dec_body (s : string) : option (string * string) :=
  match s with
  | EmptyString => None
  | String a s1 =>
      if decide (a = quote) then Some ("", s1)
      else if decide (a = backslash) then
        match s1 with
        | EmptyString => None
        | String e s2 =>
            match simple_escape e with
            | Some c => emit (String c "") (dec_body s2)
            | None =>
                if decide (e = "u"%char) then
                  match s2 with
                  | String h1 (String h2 (String h3 (String h4 s3))) =>
                      match hex4 h1 h2 h3 h4 with
                      | None => None
                      | Some r =>
                          if is_surrogate r then
                            match s3 with
                            | String x (String y (String g1 (String g2 (String g3 (String g4 s4))))) =>
                                if decide (x = backslash ∧ y = "u"%char) then
                                  match hex4 g1 g2 g3 g4 with
                                  | Some r' =>
                                      match surrogate_pair r r' with
                                      | Some p => emit (utf8_encode p) (dec_body s4)
                                      | None => emit replacement (dec_body s3)
                                      end
                                  | None => emit replacement (dec_body s3)
                                  end
                                else emit replacement (dec_body s3)
                            | _ => emit replacement (dec_body s3)
                            end
                          else emit (utf8_encode r) (dec_body s3)
                      end
                  | _ => None
                  end
                else None
            end
        end
      else if (code a <? 32)%nat then None
      else if (code a <? 128)%nat then emit (String a "") (dec_body s1)
      else match s1 with
           | String b s2 =>
               if two_ok a b then emit (String a (String b "")) (dec_body s2)
               else match s2 with
                    | String c s3 =>
                        if three_ok a b c
                        then emit (String a (String b (String c ""))) (dec_body s3)
                        else match s3 with
                             | String d s4 =>
                                 if four_ok a b c d
                                 then emit (String a (String b (String c (String d "")))) (dec_body s4)
                                 else emit replacement (dec_body s1)
                             | _ => emit replacement (dec_body s1)
                             end
                    | _ => emit replacement (dec_body s1)
                    end
           | _ => emit replacement (dec_body s1)
           end
  end.

(** ** String round trip *)

Lemma emit_Some pre t rest : emit pre (Some (t, rest)) = Some (pre +:+ t, rest).
Proof. done. Qed.

Lemma dec_enc_byte a t :
  (code a < 128)%nat → dec_body (enc_byte a +:+ t) = emit (String a "") (dec_body t).
Proof.
  intros Ha. destruct a as [[] [] [] [] [] [] [] []];
    try reflexivity; exfalso; revert Ha; vm_compute; lia.
Qed.

Lemma in_range_spec c lo hi : in_range c lo hi = true ↔ (lo ≤ code c ≤ hi)%nat.
Proof. unfold in_range. rewrite andb_true_iff, !Nat.leb_le. lia. Qed.

(** The lead byte of a multi-byte rune is neither ASCII nor a delimiter. *)
Lemma lead_byte a :
  (128 ≤ code a)%nat →
  a ≠ quote ∧ a ≠ backslash ∧ (code a <? 32)%nat = false ∧ (code a <? 128)%nat = false.
Proof.
  intros Ha. repeat split; try (apply Nat.ltb_ge; lia);
    intros ->; revert Ha; vm_compute; lia.
Qed.

Lemma two_ok_lead a b : two_ok a b = true → (128 ≤ code a)%nat.
Proof. unfold two_ok. rewrite andb_true_iff, in_range_spec. lia. Qed.

Lemma three_ok_lead a b c : three_ok a b c = true → (128 ≤ code a)%nat ∧ two_ok a b = false.
Proof.
  unfold three_ok, two_ok. rewrite !andb_true_iff, !orb_true_iff, !andb_true_iff, !in_range_spec.
  intros [H _]. split; [lia|]. apply andb_false_iff. left. apply not_true_iff_false.
  rewrite in_range_spec. lia.
Qed.

Lemma four_ok_lead a b c d :
  four_ok a b c d = true →
  (128 ≤ code a)%nat ∧ two_ok a b = false ∧ three_ok a b c = false.
Proof.
  unfold four_ok, three_ok, two_ok.
  rewrite !andb_true_iff, !orb_true_iff, !andb_true_iff, !in_range_spec.
  intros [[H _] _]. split; [lia|].
  split; apply andb_false_iff; left; apply not_true_iff_false;
    rewrite ?orb_true_iff, ?andb_true_iff, ?in_range_spec; lia.
Qed.

Ltac dec_lead a H :=
  destruct (lead_byte a H) as (Hq & Hb & H32 & H128);
  cbn [dec_body]; rewrite (decide_False (P := a = quote)) by exact Hq;
  rewrite (decide_False (P := a = backslash)) by exact Hb; rewrite ?H32, ?H128.

(** The two line separators, escaped as [\u2028] and [\u2029]. *)
Lemma dec_line_sep a b c t :
  line_sep a b c = true →
  dec_body (String backslash ("u202" +:+ String (hex_char (code c - 160)) t))
  = emit (String a (String b (String c ""))) (dec_body t).
Proof.
  unfold line_sep. rewrite !andb_true_iff, !in_range_spec. intros [[Ha Hb] Hc].
  assert (a = ascii_of_nat 226) as ->.
  { rewrite <-(ascii_nat_embedding a). f_equal. unfold code in Ha. lia. }
  assert (b = ascii_of_nat 128) as ->.
  { rewrite <-(ascii_nat_embedding b). f_equal. unfold code in Hb. lia. }
  assert (c = ascii_of_nat 168 ∨ c = ascii_of_nat 169) as [->| ->]; [|reflexivity..].
  rewrite <-(ascii_nat_embedding c). unfold code in Hc.
  assert (nat_of_ascii c = 168 ∨ nat_of_ascii c = 169)%nat as [->| ->] by lia; auto.
Qed.

Lemma dec_enc_body s rest :
  valid_utf8 s → dec_body (enc_body s +:+ String quote rest) = Some (s, rest).
Proof.
  induction 1 as [|a s Ha Hs IH|a b s Hab Hs IH|a b c s Habc Hs IH|a b c d s Habcd Hs IH].
  - reflexivity.
  - cbn [enc_body]. rewrite (proj2 (Nat.ltb_lt _ _) Ha), <-app_assoc_str.
    by rewrite dec_enc_byte, IH.
  - pose proof (two_ok_lead _ _ Hab) as Hl. destruct (lead_byte a Hl) as (_ & _ & _ & H1).
    cbn [enc_body]. rewrite H1, Hab. cbn [String.append].
    dec_lead a Hl. by rewrite Hab, IH.
  - destruct (three_ok_lead _ _ _ Habc) as [Hl H2]. destruct (lead_byte a Hl) as (_ & _ & _ & H1).
    cbn [enc_body]. rewrite H1, H2, Habc. destruct (line_sep a b c) eqn:Hsep.
    + transitivity (emit (String a (String b (String c "")))
        (dec_body (enc_body s +:+ String quote rest))); [by apply dec_line_sep | by rewrite IH].
    + cbn [String.append]. dec_lead a Hl. by rewrite H2, Habc, IH.
  - destruct (four_ok_lead _ _ _ _ Habcd) as (Hl & H2 & H3).
    destruct (lead_byte a Hl) as (_ & _ & _ & H1).
    cbn [enc_body]. rewrite H1, H2, H3, Habcd. cbn [String.append].
    dec_lead a Hl. by rewrite H2, H3, Habcd, IH.
Qed.

(** ** Printing values *)

Fixpoint print_json (j : json) : string :=
  match j with
  | JNull => "null"
  | JBool true => "true"
  | JBool false => "false"
  | JNum n => n
  | JStr s => enc_string s
  | JArr l => "[" +:+ Join (map print_json l) "," +:+ "]"
  | JObj l =>
      "{" +:+ Join (map (λ kv, enc_string kv.1 +:+ ":" +:+ print_json kv.2) l) "," +:+ "}"
  end.

(** ** Parsing values *)

Definition is_ws (c : ascii) : bool :=
  bool_decide (c = " "%char) || bool_decide (c = "009"%char)
  || bool_decide (c = "010"%char) || bool_decide (c = "013"%char).

Fixpoint skip_ws (s : string) : string :=
  match s with
  | String c s' => if is_ws c then skip_ws s' else s
  | EmptyString => s
  end.

Fixpoint take_digits (s : string) : string * string :=
  match s with
  | String c s' =>
      if is_digit c then let '(d, r) := take_digits s' in (String c d, r) else ("", s)
  | EmptyString => ("", "")
  end.

(** Drop a literal keyword from the front. *)
Definition expect (p s : string) : option string :=
  if HasPrefix s p then Some (str_drop (String.length p) s) else None.

Definition lex_int (s : string) : option (string * string) :=
  match s with
  | String c s' =>
      if decide (c = "0"%char) then Some ("0", s')
      else if is_digit c then let '(d, r) := take_digits s' in Some (String c d, r)
      else None
  | EmptyString => None
  end.

Definition lex_frac (s : string) : option (string * string) :=
  match s with
  | String "." s' => let '(d, r) := take_digits s' in
                     if decide (d = "") then None else Some (String "." d, r)
  | _ => Some ("", s)
  end.

Definition lex_exp (s : string) : option (string * string) :=
  match s with
  | String c s' =>
      if decide (c = "e"%char ∨ c = "E"%char) then
        let '(sign, s'') := match s' with
                            | String x r => if decide (x = "+"%char ∨ x = "-"%char)
                                            then (String x "", r) else ("", s')
                            | EmptyString => ("", s')
                            end in
        let '(d, r) := take_digits s'' in
        if decide (d = "") then None else Some (String c (sign +:+ d), r)
      else Some ("", s)
  | EmptyString => Some ("", s)
  end.

Definition lex_number (s : string) : option (string * string) :=
  let '(sign, s1) := match s with String "-" r => ("-", r) | _ => ("", s) end in
  '(i, s2) ← lex_int s1;
  '(f, s3) ← lex_frac s2;
  '(e, s4) ← lex_exp s3;
  Some (sign +:+ i +:+ f +:+ e, s4).

(** The text after byte [c], when [c] is what comes next. *)
Definition next_is (c : ascii) (s : string) : option string :=
  match skip_ws s with
  | String d r => if decide (d = c) then Some r else None
  | EmptyString => None
  end.

(** A value at the front of [s], with the text after it. [fuel] bounds the
    recursion; more than the length of the text is enough. *)
Fixpoint parse_value (fuel : nat) (s : string) : option (json * string) :=
  match fuel with
  | O => None
  | S fuel =>
      let s := skip_ws s in
      match s with
      | EmptyString => None
      | String c s' =>
          if decide (c = quote) then '(t, r) ← dec_body s'; Some (JStr t, r)
          else if decide (c = "{"%char) then
            match next_is "}" s' with
            | Some r => Some (JObj [], r)
            | None => '(l, r) ← parse_members fuel s'; Some (JObj l, r)
            end
          else if decide (c = "["%char) then
            match next_is "]" s' with
            | Some r => Some (JArr [], r)
            | None => '(l, r) ← parse_elems fuel s'; Some (JArr l, r)
            end
          else if decide (c = "t"%char) then r ← expect "true" s; Some (JBool true, r)
          else if decide (c = "f"%char) then r ← expect "false" s; Some (JBool false, r)
          else if decide (c = "n"%char) then r ← expect "null" s; Some (JNull, r)
          else '(n, r) ← lex_number s; Some (JNum n, r)
      end
  end
with parse_members (fuel : nat) (s : string) : option (list (string * json) * string) :=
  match fuel with
  | O => None
  | S fuel =>
      s1 ← next_is quote s;
      '(k, s2) ← dec_body s1;
      s3 ← next_is ":" s2;
      '(v, s4) ← parse_value fuel s3;
      match next_is "," s4 with
      | Some s5 => '(l, r) ← parse_members fuel s5; Some ((k, v) :: l, r)
      | None => r ← next_is "}" s4; Some ([(k, v)], r)
      end
  end
with parse_elems (fuel : nat) (s : string) : option (list json * string) :=
  match fuel with
  | O => None
  | S fuel =>
      '(v, s1) ← parse_value fuel s;
      match next_is "," s1 with
      | Some s2 => '(l, r) ← parse_elems fuel s2; Some (v :: l, r)
      | None => r ← next_is "]" s1; Some ([v], r)
      end
  end.

Definition syntax_error : error := Errorf "invalid JSON".

(** [json.NewDecoder(b).Decode]: the first value of the text. What follows an
    object or an array is left unread; a scalar must end at a space or at the
    end of the text. *)
Definition decode_stream (s : string) : res json :=
  match parse_value (S (String.length s)) s with
  | None => Err syntax_error
  | Some (j, r) =>
      match j, r with
      | JObj _, _ | JArr _, _ | _, EmptyString => Ok j
      | _, String c _ => if is_ws c then Ok j else Err syntax_error
      end
  end.

(** [json.Unmarshal]: the whole text is one value. *)
Definition decode_all (s : string) : res json :=
  match parse_value (S (String.length s)) s with
  | Some (j, r) => if decide (skip_ws r = "") then Ok j else Err syntax_error
  | None => Err syntax_error
  end.

(** ** Go values: integers, strings, maps *)

Definition type_error (what : string) : error :=
  Errorf ("json: cannot unmarshal value into Go value of type " +:+ what).

(** Decoding into an existing Go value: the value afterwards and the type error
    met, if any. [null] leaves an integer or a string as it was. *)
Definition dec_int (w : Z) (old : Z) (j : json) : Z * option error :=
  match j with
  | JNum n => match ParseInt 64 n with
              | Ok z => if decide (- 2 ^ (w - 1) ≤ z < 2 ^ (w - 1)) then (z, None)
                        else (old, Some (type_error "int"))
              | _ => (old, Some (type_error "int"))
              end
  | JNull => (old, None)
  | _ => (old, Some (type_error "int"))
  end.

Definition dec_string (old : string) (j : json) : string * option error :=
  match j with
  | JStr s => (s, None)
  | JNull => (old, None)
  | _ => (old, Some (type_error "string"))
  end.

(** The first error is the one reported. *)
Definition first_error (a b : option error) : option error :=
  match a with Some _ => a | None => b end.

Section maps.
Context {V : Type} (enc : V → json) (dec : json → V * option error).

(** Encoding [map[string]V]: keys in byte order. *)
Definition sorted_entries (m : gmap string V) : list (string * V) :=
  merge_sort (λ p q, String.le p.1 q.1) (map_to_list m).

Definition enc_map (m : gmap string V) : json :=
  JObj ((λ kv, (kv.1, enc kv.2)) <$> sorted_entries m).

(** Decoding the members of an object into a map, in order. *)
Fixpoint dec_members (l : list (string * json)) (m : gmap string V) : gmap string V * option error :=
  match l with
  | [] => (m, None)
  | (k, j) :: l =>
      let '(v, e) := dec j in
      let '(m', e') := dec_members l (<[k := v]> m) in
      (m', first_error e e')
  end.

(** Decoding into a [map[string]V] variable that holds [m]: [null] makes it
    nil, anything but an object is a type error. *)
Definition dec_map (m : gmap string V) (j : json) : option (gmap string V) * option error :=
  match j with
  | JNull => (None, None)
  | JObj l => let '(m', e) := dec_members l m in (Some m', e)
  | _ => (Some m, Some (type_error "map"))
  end.
End maps.

(** ** Parsing what was printed *)

(** Text that cannot continue a number. *)
Definition stops (s : string) : bool :=
  match s with
  | EmptyString => true
  | String c _ => negb (is_digit c || char_in c ".eE")
  end.

Unset Elimination Schemes.
Inductive wf_json : json → Prop :=
| wf_null : wf_json JNull
| wf_bool b : wf_json (JBool b)
| wf_num z : wf_json (JNum (Itoa z))
| wf_str s : valid_utf8 s → wf_json (JStr s)
| wf_arr l : Forall wf_json l → wf_json (JArr l)
| wf_obj l : Forall (λ kv, valid_utf8 kv.1 ∧ wf_json kv.2) l → wf_json (JObj l).
Set Elimination Schemes.

Lemma take_digits_app d r :
  str_all is_digit d = true → stops r = true → take_digits (d +:+ r) = (d, r).
Proof.
  intros Hd Hr. induction d as [|c d IH]; simpl.
  - destruct r as [|c r]; [done|]. simpl in *. by destruct (is_digit c).
  - apply andb_true_iff in Hd as [Hc Hd]. by rewrite Hc, IH.
Qed.

Lemma lex_frac_stops r : stops r = true → lex_frac r = Some ("", r).
Proof. destruct r as [|c r]; [done|]. intros H. destruct c as [[] [] [] [] [] [] [] []]; done. Qed.

Lemma lex_exp_stops r : stops r = true → lex_exp r = Some ("", r).
Proof.
  destruct r as [|c r]; [done|]. intros H. cbn [lex_exp].
  rewrite decide_False; [done|]. by intros [->| ->].
Qed.

(** A positive number has no leading zero. *)
Lemma digits_pos n :
  0 < n → ∃ c s, digits n = String c s ∧ is_digit c = true ∧ c ≠ "0"%char
                 ∧ str_all is_digit s = true.
Proof.
  assert (∀ fuel m acc, 0 < m < 2 ^ Z.of_nat fuel → str_all is_digit acc = true →
    ∃ c s, digits_acc fuel m acc = String c s ∧ is_digit c = true ∧ c ≠ "0"%char
           ∧ str_all is_digit s = true) as H.
  { induction fuel as [|fuel IH]; intros m acc Hm Ha; [change (2 ^ Z.of_nat 0) with 1 in Hm; lia|].
    pose proof (Z.mod_pos_bound m 10 ltac:(lia)) as Hmod.
    pose proof (Z.div_mod m 10 ltac:(lia)) as Hdiv.
    cbn [digits_acc]. case_decide as H10.
    - eexists _, _. split; [reflexivity|]. rewrite is_digit_digit_char by done.
      split_and!; [done| |done]. replace (m `mod` 10) with m by lia.
      assert (m = 1 ∨ m = 2 ∨ m = 3 ∨ m = 4 ∨ m = 5 ∨ m = 6 ∨ m = 7 ∨ m = 8 ∨ m = 9) as Hd by lia.
      by repeat (destruct Hd as [->|Hd]; [done|]); subst.
    - apply IH.
      + rewrite Nat2Z.inj_succ, Z.pow_succ_r in Hm by lia. lia.
      + cbn [str_all]. by rewrite is_digit_digit_char. }
  intros Hn. apply H; [|done].
  rewrite Nat2Z.inj_succ, Z2Nat.id by apply Z.log2_nonneg. pose proof (Z.log2_spec n). lia.
Qed.

Lemma lex_int_digits n r :
  0 ≤ n → stops r = true → lex_int (digits n +:+ r) = Some (digits n, r).
Proof.
  intros Hn Hr. destruct (decide (n = 0)) as [->|]; [done|].
  destruct (digits_pos n) as (c & s & -> & Hc & H0 & Hs); [lia|].
  cbn [String.append lex_int]. rewrite decide_False, Hc by done. by rewrite take_digits_app.
Qed.

Lemma lex_number_digits n r :
  0 ≤ n → stops r = true → lex_number (digits n +:+ r) = Some (digits n, r).
Proof.
  intros Hn Hr. unfold lex_number.
  assert (match digits n +:+ r with String "-" r0 => ("-", r0) | _ => ("", digits n +:+ r) end
          = ("", digits n +:+ r)) as ->.
  { destruct (digits_head n) as (d & s & Hd & ->).
    assert (d = 0 ∨ d = 1 ∨ d = 2 ∨ d = 3 ∨ d = 4 ∨ d = 5 ∨ d = 6 ∨ d = 7
      ∨ d = 8 ∨ d = 9) as Hdd by lia.
    by repeat (destruct Hdd as [->|Hdd]; [reflexivity|]); subst. }
  rewrite lex_int_digits by done. cbn [mbind option_bind].
  rewrite lex_frac_stops by done. cbn [mbind option_bind].
  rewrite lex_exp_stops by done. cbn [mbind option_bind].
  cbn [String.append]. by rewrite app_empty_r.
Qed.

Lemma lex_number_Itoa z r : stops r = true → lex_number (Itoa z +:+ r) = Some (Itoa z, r).
Proof.
  intros Hr. unfold Itoa. case_decide; [|apply lex_number_digits; [lia | done]].
  cbn [String.append]. unfold lex_number.
  rewrite lex_int_digits by (lia || done). cbn [mbind option_bind].
  rewrite lex_frac_stops by done. cbn [mbind option_bind].
  rewrite lex_exp_stops by done. cbn [mbind option_bind].
  cbn [String.append]. by rewrite app_empty_r.
Qed.

(** First characters of numbers: not one that starts another value. *)
Definition num_start (c : ascii) : bool := is_digit c || bool_decide (c = "-"%char).

Lemma Itoa_head z : ∃ c s, Itoa z = String c s ∧ num_start c = true.
Proof.
  unfold Itoa. case_decide; [eauto|].
  destruct (digits_head z) as (d & s & Hd & ->). eexists _, _. split; [done|].
  unfold num_start. by rewrite is_digit_digit_char.
Qed.

Lemma parse_value_num n z r :
  stops r = true → parse_value (S n) (Itoa z +:+ r) = Some (JNum (Itoa z), r).
Proof.
  intros Hr. pose proof (lex_number_Itoa z r Hr) as Hl.
  destruct (Itoa_head z) as (c & s & Hz & Hc). rewrite Hz in *.
  cbn [String.append] in *. cbn [parse_value skip_ws].
  assert (is_ws c = false) as ->.
  { apply negb_true_iff. revert Hc. apply (ascii_impl num_start (λ c, negb (is_ws c))). by vm_compute. }
  rewrite !decide_False by (intros ->; by vm_compute in Hc).
  by rewrite Hl.
Qed.

(** The text of a member and of a non-empty member list. *)
Definition print_member (kv : string * json) : string :=
  enc_string kv.1 +:+ ":" +:+ print_json kv.2.

Lemma enc_string_app s r :
  enc_string s +:+ r = String quote (enc_body s +:+ String quote r).
Proof. unfold enc_string. cbn [String.append]. by rewrite <-app_assoc_str. Qed.

Lemma length_app_str s1 s2 :
  String.length (s1 +:+ s2) = (String.length s1 + String.length s2)%nat.
Proof. induction s1; simpl; congruence. Qed.

(** [parse_value] inverts [print_json] at [j]. *)
Definition parses (j : json) : Prop := ∀ r n,
  stops r = true → (String.length (print_json j) < n)%nat →
  parse_value n (print_json j +:+ r) = Some (j, r).

Lemma skip_ws_cons c s : is_ws c = false → skip_ws (String c s) = String c s.
Proof. intros H. cbn [skip_ws]. by rewrite H. Qed.

Lemma next_is_cons c d s :
  is_ws d = false → next_is c (String d s) = if decide (d = c) then Some s else None.
Proof. intros H. unfold next_is. by rewrite skip_ws_cons. Qed.

Lemma next_is_same c s : is_ws c = false → next_is c (String c s) = Some s.
Proof. intros H. by rewrite next_is_cons, decide_True. Qed.

Lemma parse_members_print l r n :
  l ≠ [] → Forall (λ kv, valid_utf8 kv.1 ∧ parses kv.2) l →
  (String.length (Join (map print_member l) ",") < n)%nat →
  parse_members n (Join (map print_member l) "," +:+ "}" +:+ r) = Some (l, r).
Proof.
  intros Hne Hl. revert n. induction Hl as [|[k v] l [Hk Hv] Hl IH]; intros n Hn; [done|].
  destruct n as [|n]; [lia|]. cbn [fst snd] in *.
  assert (String.length (print_json v) < n)%nat as Hvn.
  { destruct l as [|kv' l]; cbn [map] in Hn; [cbn [Join] in Hn|rewrite Join_cons in Hn by done];
      unfold print_member at 1 in Hn; cbn [fst snd] in Hn;
      rewrite ?length_app_str in Hn; simpl in Hn; lia. }
  assert (∀ t, stops t = true →
    parse_members (S n) (print_member (k, v) +:+ t) =
    match next_is "," t with
    | Some s5 => '(l, r) ← parse_members n s5; Some ((k, v) :: l, r)
    | None => r ← next_is "}" t; Some ([(k, v)], r)
    end) as Hone.
  { intros t Ht. unfold print_member. cbn [fst snd]. rewrite <-!app_assoc_str, enc_string_app.
    cbn [parse_members]. rewrite next_is_same by done. cbn [mbind option_bind].
    rewrite dec_enc_body by done. cbn [mbind option_bind].
    change (":" +:+ ?s) with (String ":" s). rewrite next_is_same by done. cbn [mbind option_bind].
    by rewrite Hv. }
  destruct l as [|kv' l]; cbn [map] in *.
  - cbn [Join]. rewrite Hone by done. done.
  - rewrite Join_cons in * by done. rewrite <-!app_assoc_str, Hone by done.
    change ("," +:+ ?s) with (String "," s). rewrite next_is_same by done.
    rewrite IH; [done | done |]. rewrite !length_app_str in Hn. simpl in *. lia.
Qed.

Lemma parse_elems_print l r n :
  l ≠ [] → Forall parses l →
  (String.length (Join (map print_json l) ",") + 1 < n)%nat →
  parse_elems n (Join (map print_json l) "," +:+ "]" +:+ r) = Some (l, r).
Proof.
  intros Hne Hl. revert n. induction Hl as [|v l Hv Hl IH]; intros n Hn; [done|].
  destruct n as [|n]; [lia|]. destruct l as [|v' l]; cbn [map] in *.
  - cbn [Join] in *. cbn [parse_elems]. by rewrite Hv by (done || lia).
  - rewrite Join_cons in * by done. rewrite <-!app_assoc_str.
    rewrite !length_app_str in Hn. cbn [parse_elems].
    rewrite Hv; [|done|lia]. cbn [mbind option_bind].
    change ("," +:+ ?s) with (String "," s). rewrite next_is_same by done.
    rewrite IH; [done | done |]. simpl in *. lia.
Qed.

(** A printed value starts with neither a space nor a closing bracket. *)
Definition value_start (c : ascii) : bool := negb (is_ws c) && negb (bool_decide (c = "]"%char)).

Lemma print_head j : wf_json j → ∃ c t, print_json j = String c t ∧ value_start c = true.
Proof.
  intros Hj. destruct Hj as [|[]|z|s Hs|l Hl|l Hl]; cbn [print_json];
    [by eexists _, _ ..| | by eexists _, _ | by eexists _, _ | by eexists _, _].
  destruct (Itoa_head z) as (c & t & -> & Hc). eexists _, _. split; [done|].
  revert Hc. apply ascii_impl. by vm_compute.
Qed.

Lemma Join_head p l sep c t : p = String c t → ∃ t', Join (p :: l) sep = String c t'.
Proof. intros ->. destruct l; simpl; eauto. Qed.

Lemma parse_print_arr l r m :
  l ≠ [] → Forall wf_json l → Forall parses l →
  (String.length (print_json (JArr l)) < S m)%nat →
  parse_value (S m) (print_json (JArr l) +:+ r) = Some (JArr l, r).
Proof.
  intros Hne Hw Hl Hm. cbn [print_json] in *. rewrite <-!app_assoc_str.
  rewrite !length_app_str in Hm. simpl in Hm.
  pose proof (parse_elems_print l r m Hne Hl ltac:(lia)) as He.
  destruct l as [|v l]; [done|]. apply Forall_cons in Hw as [Hv _].
  destruct (print_head v Hv) as (c & t & Hc & Hs). cbn [map] in *.
  destruct (Join_head (print_json v) (map print_json l) "," c t Hc) as [t' Ht]. rewrite Ht in *.
  apply andb_true_iff in Hs as [Hs1%negb_true_iff Hs2%negb_true_iff%bool_decide_eq_false].
  change ("[" +:+ ?s) with (String "[" s). cbn [parse_value]. rewrite skip_ws_cons by done.
  do 2 rewrite decide_False by done. rewrite decide_True by done.
  cbn [String.append] in *. rewrite next_is_cons, decide_False by done.
  by rewrite He.
Qed.

Lemma parse_print_obj l r m :
  l ≠ [] → Forall (λ kv, valid_utf8 kv.1 ∧ parses kv.2) l →
  (String.length (print_json (JObj l)) < S m)%nat →
  parse_value (S m) (print_json (JObj l) +:+ r) = Some (JObj l, r).
Proof.
  intros Hne Hl Hm. cbn [print_json] in *. fold print_member in *. rewrite <-!app_assoc_str.
  rewrite !length_app_str in Hm. simpl in Hm.
  pose proof (parse_members_print l r m Hne Hl ltac:(lia)) as He.
  destruct l as [|kv l]; [done|]. cbn [map] in *.
  destruct (Join_head (print_member kv) (map print_member l) "," quote
    (enc_body kv.1 +:+ String quote (":" +:+ print_json kv.2))) as [t' Ht].
  { unfold print_member. by rewrite enc_string_app. }
  rewrite Ht in *.
  change ("{" +:+ ?s) with (String "{" s). cbn [parse_value]. rewrite skip_ws_cons by done.
  rewrite decide_False by done. rewrite decide_True by done.
  cbn [String.append] in *. rewrite next_is_cons, decide_False by done.
  by rewrite He.
Qed.

(** The parser inverts the printer. *)
Lemma json_parses j : wf_json j → parses j.
Proof.
  induction j as [|b|n|s|l IH|l IH] using json_ind; intros Hj r m Hr Hm;
    (destruct m as [|m]; [lia|]).
  - by destruct r.
  - by destruct b, r.
  - inversion Hj; subst. by apply parse_value_num.
  - inversion Hj; subst. cbn [print_json]. rewrite enc_string_app.
    cbn [parse_value]. rewrite skip_ws_cons by done.
    rewrite decide_True by done. by rewrite dec_enc_body.
  - inversion Hj as [| | | |l' Hl|]; subst. destruct l as [|v l]; [done|].
    apply parse_print_arr; [done | done | | done].
    rewrite Forall_forall in *. eauto.
  - inversion Hj as [| | | | |l' Hl]; subst. destruct l as [|v l]; [done|].
    apply parse_print_obj; [done | | done].
    rewrite Forall_forall in *. intros kv Hkv. destruct (Hl kv Hkv). split; [done|].
    by apply IH.
Qed.

Lemma decode_stream_print j r :
  wf_json j → (∃ l, j = JObj l) → stops r = true → decode_stream (print_json j +:+ r) = Ok j.
Proof.
  intros Hj [l ->] Hr. unfold decode_stream.
  rewrite json_parses; [done..|]. rewrite length_app_str. lia.
Qed.

Lemma decode_all_print j r :
  wf_json j → skip_ws r = "" → stops r = true → decode_all (print_json j +:+ r) = Ok j.
Proof.
  intros Hj Hw Hr. unfold decode_all.
  rewrite json_parses; [|done..|rewrite length_app_str; lia]. by rewrite decide_True.
Qed.

(** Decoding an encoded map gives it back. *)
Lemma dec_members_entries {V} (enc : V → json) dec (l : list (string * V)) (m : gmap string V) :
  (∀ k v, (k, v) ∈ l → dec (enc v) = (v, None)) →
  dec_members dec ((λ kv, (kv.1, enc kv.2)) <$> l) m
  = (foldl (λ m kv, <[kv.1 := kv.2]> m) m l, None).
Proof.
  revert m. induction l as [|[k v] l IH]; intros m Hl; [done|]. csimpl.
  rewrite (Hl k v) by set_solver. rewrite IH by set_solver. done.
Qed.

Lemma foldl_insert_list_to_map {V} (l : list (string * V)) (m : gmap string V) :
  NoDup l.*1 → (∀ k, k ∈ l.*1 → m !! k = None) →
  foldl (λ m kv, <[kv.1 := kv.2]> m) m l = list_to_map l ∪ m.
Proof.
  revert m. induction l as [|[k v] l IH]; intros m Hnd Hm; csimpl in *.
  - by rewrite (left_id_L ∅ (∪)).
  - apply NoDup_cons in Hnd as [Hk Hnd]. rewrite IH; [|done|].
    + rewrite <-insert_union_l, <-insert_union_r; [done|].
      by apply not_elem_of_list_to_map.
    + intros k' Hk'. rewrite lookup_insert_ne; [by apply Hm; right|]. by intros ->.
Qed.

Lemma dec_enc_map {V} (enc : V → json) dec (m : gmap string V) :
  (∀ k v, m !! k = Some v → dec (enc v) = (v, None)) →
  dec_map dec ∅ (enc_map enc m) = (Some m, None).
Proof.
  intros Hv. unfold dec_map, enc_map, sorted_entries.
  pose proof (merge_sort_Permutation (λ p q : string * V, String.le p.1 q.1) (map_to_list m)) as Hp.
  rewrite dec_members_entries.
  - rewrite foldl_insert_list_to_map.
    + rewrite (right_id_L ∅ (∪)). do 2 f_equal.
      rewrite <-(list_to_map_to_list m) at 2. apply list_to_map_proper; [|done].
      rewrite Hp. apply NoDup_fst_map_to_list.
    + rewrite Hp. apply NoDup_fst_map_to_list.
    + intros. apply lookup_empty.
  - intros k v Hkv. rewrite Hp in Hkv. apply (Hv k). by apply elem_of_map_to_list.
Qed.
