(* ===== verification/Http.v ===== *)
(** * HTTP requests and responses

    What handlers of net/http see: a request's host, remote address, path and
    query, and a response writer. A handler is a function on the state it
    shares and the writer. *)

From S2P Require Import Prelude GoStrings GoUrl.

Record Request : Type := mkRequest {
  req_Method : string;
  req_Host : string;
  req_RemoteAddr : string;
  req_URL : URL;
  req_Header : gmap string (list string);
  req_Body : string;
}.

Record Response : Type := mkResponse {
  resp_StatusCode : Z;
  resp_Header : gmap string (list string);
  resp_Body : string;
}.

#[export] Instance Response_eq_dec : EqDecision Response.
Proof. solve_decision. Defined.

(** ** Response writers *)

Record ResponseWriter : Type := mkWriter {
  rw_status : option Z;
  rw_header : gmap string (list string);
  rw_body : string;
}.

#[export] Instance ResponseWriter_eq_dec : EqDecision ResponseWriter.
Proof. solve_decision. Defined.

Definition NewWriter : ResponseWriter := mkWriter None ∅ "".

(** Only the first [WriteHeader] counts. *)
Definition WriteHeader (code : Z) (w : ResponseWriter) : ResponseWriter :=
  match rw_status w with
  | Some _ => w
  | None => mkWriter (Some code) (rw_header w) (rw_body w)
  end.

(** A write without a status sends 200 first. *)
Definition Write (s : string) (w : ResponseWriter) : ResponseWriter :=
  let w := WriteHeader 200 w in
  mkWriter (rw_status w) (rw_header w) (rw_body w +:+ s).

(** [w.Header().Add(k, v)]. *)
Definition HeaderAdd (k v : string) (w : ResponseWriter) : ResponseWriter :=
  mkWriter (rw_status w) (<[k := default [] (rw_header w !! k) ++ [v]]> (rw_header w)) (rw_body w).

(** The response the client gets: a handler that wrote nothing sent a 200. *)
Definition sent (w : ResponseWriter) : Response :=
  mkResponse (default 200 (rw_status w)) (rw_header w) (rw_body w).

(** [w.WriteHeader(code); w.Write(msg)]: the error answers of the program. *)
Definition reply (code : Z) (msg : string) (w : ResponseWriter) : ResponseWriter :=
  Write msg (WriteHeader code w).

Lemma reply_fresh code msg w :
  rw_status w = None →
  reply code msg w = mkWriter (Some code) (rw_header w) (rw_body w +:+ msg).
Proof. intros H. unfold reply, Write, WriteHeader. by rewrite H. Qed.

(** Writing never changes a status that is set. *)
Lemma Write_status s w : rw_status (Write s w) = Some (default 200 (rw_status w)).
Proof. unfold Write, WriteHeader. destruct (rw_status w) eqn:E; simpl; by rewrite ?E. Qed.
