(* ===== verification/Queue.v ===== *)
(** * The pending-request queue (pkg/queue)

    [Memory] of queue.go with every operation, the postponed resizes and the
    two-phase loop body of [ProcessPostponedResizes]; [Counts] of
    queue_counts.go; the [/queue] handler and client of queue_rpc.go are in
    QueueRpc. Each operation takes the mutex for its whole body, so it is one
    atomic step; [ProcessPostponedResizes] takes it twice, so it is two. *)

From S2P Require Import Prelude.

(** Times and durations are nanoseconds. *)
Abbreviation Time := Z (only parsing).
Abbreviation Duration := Z (only parsing).

(** ** Memory *)

Record Memory : Type := mkMemory {
  countMap : gmap string Z;
  postponedResizes : gmap string Time;
  postponeDuration : Duration;
  shouldPostpone : bool;
}.

Definition set_countMap (f : gmap string Z → gmap string Z) (q : Memory) : Memory :=
  mkMemory (f (countMap q)) (postponedResizes q) (postponeDuration q) (shouldPostpone q).

Definition set_postponed (f : gmap string Time → gmap string Time) (q : Memory) : Memory :=
  mkMemory (countMap q) (f (postponedResizes q)) (postponeDuration q) (shouldPostpone q).

Definition NewMemory (postponeDuration : Duration) (shouldPostpone : bool) : Memory :=
  mkMemory ∅ ∅ postponeDuration shouldPostpone.

(** [r.countMap[host] += delta]; the returned error is always nil. *)
Definition Resize (host : string) (delta : Z) (q : Memory) : res unit * Memory :=
  (Ok tt, set_countMap (λ m, <[host := int64 (count_of m host + delta)]> m) q).

Definition Ensure (host : string) (q : Memory) : Memory :=
  match countMap q !! host with
  | Some _ => q
  | None => set_countMap (<[host := 0]>) q
  end.

Definition Remove (host : string) (q : Memory) : bool * Memory :=
  (bool_decide (is_Some (countMap q !! host)), set_countMap (delete host) q).

Definition Count (host : string) (q : Memory) : Z :=
  match countMap q !! host with
  | None => 0
  | Some count => count
  end.

Definition PostponeResize (host : string) (time : Time) (q : Memory) : Memory :=
  set_postponed (<[host := time]>) q.

Definition PostponeDuration (q : Memory) : Duration := postponeDuration q.

Definition ShouldPostponeResize (q : Memory) : bool := shouldPostpone q.

(** *** The enforcer

    One round of the loop of [ProcessPostponedResizes]: under the first lock
    the hosts whose postponed time has passed and whose count is 1 are
    collected ([time.Now()] is read anew for each entry, hence a clock per
    host); under the second lock their counts become 0 and their entries go. *)

Definition scan_host (now : string → Time) (q : Memory) (host : string) (resizeTime : Time) : bool :=
  bool_decide (resizeTime < now host) && bool_decide (count_of (countMap q) host = 1).

Definition scanPostponed (now : string → Time) (q : Memory) : list string :=
  (filter (λ p, scan_host now q p.1 p.2 = true) (map_to_list (postponedResizes q))).*1.

Definition applyPostponed (hosts : list string) (q : Memory) : Memory :=
  foldl (λ q host, set_postponed (delete host) (set_countMap (<[host := 0]>) q)) q hosts.

(** A round in which nothing else takes the lock between the two phases. *)
Definition processPostponedOnce (now : string → Time) (q : Memory) : Memory :=
  applyPostponed (scanPostponed now q) q.

(** ** Counts

    [Current] stores the live [countMap] in the returned struct, not a copy of
    it: a Go map is a reference. [CountsOf] is that alias; [CountsFresh] is a
    map of its own ([NewCounts], a decoded response). *)

Inductive Counts : Type :=
| CountsOf
| CountsFresh (m : gmap string Z).

Definition NewCounts : Counts := CountsFresh ∅.

Definition Current (q : Memory) : res Counts := Ok CountsOf.

(** What reading [cts.Counts] yields when the queue it came from is [q]. *)
Definition counts_map (q : Memory) (c : Counts) : gmap string Z :=
  match c with
  | CountsOf => countMap q
  | CountsFresh m => m
  end.

Definition Aggregate (m : gmap string Z) : Z :=
  map_fold (λ _ count agg, int64 (agg + count)) 0 m.

(** ** Sequences of operations *)

Inductive QueueOp : Type :=
| OpResize (host : string) (delta : Z)
| OpEnsure (host : string)
| OpRemove (host : string)
| OpPostpone (host : string) (time : Time)
| OpApply (hosts : list string).

Definition run_op (q : Memory) (o : QueueOp) : Memory :=
  match o with
  | OpResize h d => snd (Resize h d q)
  | OpEnsure h => Ensure h q
  | OpRemove h => snd (Remove h q)
  | OpPostpone h t => PostponeResize h t q
  | OpApply hs => applyPostponed hs q
  end.

Definition run_ops (q : Memory) (os : list QueueOp) : Memory := foldl run_op q os.

(** Every stored count fits in an [int]. *)
Definition queue_wf (q : Memory) : Prop := map_Forall (λ _ c, in_int64 c) (countMap q).

(** ** Lemmas *)

Section lemmas.
Implicit Types (q : Memory) (h : string).

Lemma Count_count_of h q : Count h q = count_of (countMap q) h.
Proof. unfold Count, count_of. by destruct (countMap q !! h). Qed.

Lemma count_of_insert (m : gmap string Z) h h' v :
  count_of (<[h := v]> m) h' = if decide (h = h') then v else count_of m h'.
Proof. unfold count_of. rewrite lookup_insert. by case_decide. Qed.

Lemma count_of_delete (m : gmap string Z) h h' :
  count_of (delete h m) h' = if decide (h = h') then 0 else count_of m h'.
Proof. unfold count_of. rewrite lookup_delete. by case_decide. Qed.

Lemma Count_Resize h h' d q :
  Count h' (snd (Resize h d q)) = if decide (h = h') then int64 (Count h q + d) else Count h' q.
Proof. rewrite !Count_count_of. unfold Resize; simpl. by rewrite count_of_insert. Qed.

Lemma Count_Ensure h h' q : Count h' (Ensure h q) = Count h' q.
Proof.
  unfold Ensure. destruct (countMap q !! h) eqn:E; [done|].
  rewrite !Count_count_of; simpl. rewrite count_of_insert. case_decide; [|done].
  subst. unfold count_of. by rewrite E.
Qed.

Lemma Count_Remove h h' q :
  Count h' (snd (Remove h q)) = if decide (h = h') then 0 else Count h' q.
Proof. rewrite !Count_count_of; simpl. by rewrite count_of_delete. Qed.

Lemma Count_Postpone h h' t q : Count h' (PostponeResize h t q) = Count h' q.
Proof. by rewrite !Count_count_of. Qed.

Lemma apply_cons h hs q :
  applyPostponed (h :: hs) q
  = applyPostponed hs (set_postponed (delete h) (set_countMap (<[h := 0]>) q)).
Proof. reflexivity. Qed.

Lemma Count_apply h hs q :
  Count h (applyPostponed hs q) = if decide (h ∈ hs) then 0 else Count h q.
Proof.
  revert q. induction hs as [|h' hs IH]; intros q.
  { by rewrite decide_False by set_solver. }
  rewrite apply_cons, IH, !Count_count_of. simpl. rewrite count_of_insert.
  repeat case_decide; set_solver.
Qed.

Lemma postponed_apply h hs q :
  postponedResizes (applyPostponed hs q) !! h
  = if decide (h ∈ hs) then None else postponedResizes q !! h.
Proof.
  revert q. induction hs as [|h' hs IH]; intros q.
  { by rewrite decide_False by set_solver. }
  rewrite apply_cons, IH. simpl. rewrite lookup_delete.
  repeat case_decide; set_solver.
Qed.

Lemma apply_flags hs q :
  shouldPostpone (applyPostponed hs q) = shouldPostpone q
  ∧ postponeDuration (applyPostponed hs q) = postponeDuration q.
Proof. revert q. induction hs as [|h hs IH]; intros q; [done|]. by rewrite apply_cons, !(proj1 (IH _)), !(proj2 (IH _)). Qed.

(** The hosts a scan selects, whatever the iteration order of the map. *)
Lemma elem_of_scan now q h :
  h ∈ scanPostponed now q ↔
  ∃ t, postponedResizes q !! h = Some t ∧ t < now h ∧ Count h q = 1.
Proof.
  unfold scanPostponed. rewrite list_elem_of_fmap. setoid_rewrite list_elem_of_filter.
  unfold scan_host. setoid_rewrite andb_true_iff. setoid_rewrite bool_decide_eq_true.
  rewrite Count_count_of. split.
  - intros ([h' t] & -> & [??] & ?%elem_of_map_to_list). simpl in *. eauto.
  - intros (t & Ht & ? & ?). exists (h, t). split; [done|]. split; [done|].
    by apply elem_of_map_to_list.
Qed.

Lemma queue_wf_run_op q o : queue_wf q → queue_wf (run_op q o).
Proof.
  intros Hq. destruct o as [h d|h|h|h t|hs]; simpl.
  - apply map_Forall_insert_2; [apply int64_range | done].
  - unfold Ensure. destruct (countMap q !! h); [done|].
    apply map_Forall_insert_2; [done | done].
  - by apply map_Forall_delete.
  - done.
  - revert q Hq. induction hs as [|h hs IH]; intros q Hq; [done|]. rewrite apply_cons.
    apply IH. apply map_Forall_insert_2; done.
Qed.

Lemma Aggregate_zsum_aux (l : list (string * Z)) acc :
  int64 (foldr (uncurry (λ _ count agg, int64 (agg + count))) acc l)
  = int64 (acc + zsum (l.*2)).
Proof.
  induction l as [|[k v] l IH]; csimpl; [f_equal; lia|].
  rewrite int64_int64. etransitivity; [symmetry; apply int64_add_l|].
  rewrite IH, int64_add_l. f_equal. lia.
Qed.
End lemmas.

#[global] Arguments Resize : simpl never.
#[global] Arguments Remove : simpl never.
#[global] Arguments Ensure : simpl never.
#[global] Arguments Count : simpl never.
#[global] Arguments PostponeResize : simpl never.

#[export] Hint Rewrite Count_Resize Count_Ensure Count_Remove Count_Postpone Count_apply : go.

(** ** Properties *)

(** Whatever the iteration order, [Aggregate] is the sum of the counts, wrapped. *)
Lemma Aggregate_sum (m : gmap string Z) :
  Aggregate m = int64 (zsum ((map_to_list m).*2)).
Proof.
  unfold Aggregate. rewrite map_fold_foldr.
  rewrite <-(Z.add_0_l (zsum _)), <-Aggregate_zsum_aux.
  symmetry. apply int64_id.
  destruct (map_to_list m) as [|[k v] l]; simpl; [done | apply int64_range].
Qed.
