(* ===== verification/Build.v ===== *)
(** * Build information, the logger and the dialer (pkg/build/version.go, pkg/log/zapr.go, NewNetDialer of pkg/net/dial_context.go)

    What the three programs print and set up when they start. *)

From S2P Require Import Prelude GoStrings Queue.

(** ** Build information *)

(** The two variables, which the linker may set. *)
Record build_info : Type := mkBuildInfo { version : string; gitCommit : string }.

Definition unlinked : build_info := mkBuildInfo "main" "".

Definition Version (b : build_info) : string := version b.
Definition GitCommit (b : build_info) : string := gitCommit b.

(** The lines that are logged, in order; [goVersion], [GOOS] and [GOARCH] are
    package runtime's. *)
Definition PrintComponentInfo (b : build_info) (goVersion GOOS GOARCH component : string) : list string :=
  [component +:+ " Version: " +:+ Version b;
   component +:+ " Commit: " +:+ GitCommit b;
   "Go Version: " +:+ goVersion;
   "Go OS/Arch: " +:+ GOOS +:+ "/" +:+ GOARCH].

(** ** The logger *)

Record SamplingConfig : Type := mkSampling { Initial : Z; Thereafter : Z }.

(** zap: its production configuration with another sampling, what it builds, and
    the logger over it. *)
Definition NewZapr {C ZL L} (NewProductionConfig : C) (set_Sampling : SamplingConfig → C → C) (Build : C → res ZL)
    (NewLogger : ZL → L) : res L :=
  let zapCfg := set_Sampling (mkSampling 1 5) NewProductionConfig in
  match Build zapCfg with
  | Err e => Err e
  | Panic p => Panic p
  | Ok zapLggr => Ok (NewLogger zapLggr)
  end.

(** ** The dialer *)

Record Dialer : Type := mkDialer { Timeout : Duration; KeepAlive : Duration }.

Definition NewNetDialer (connectTimeout keepAlive : Duration) : Dialer := mkDialer connectTimeout keepAlive.

(** The log of a binary that was built without linker flags. *)
Example component_info :
  PrintComponentInfo unlinked "go1.20" "linux" "amd64" "Scaler"
  = ["Scaler Version: main"; "Scaler Commit: "; "Go Version: go1.20"; "Go OS/Arch: linux/amd64"].
Proof. reflexivity. Qed.
