(* ===== verification/QueueRpc.v ===== *)
(** * The queue over HTTP (pkg/queue/queue_counts.go, queue_rpc.go, queue_fakes.go)

    The interceptor serves its counts as JSON on [/queue]; the scaler fetches
    them from every interceptor. [CountReader] and [Counter] are the Go
    interfaces; [Memory] and the test doubles implement them. *)

From S2P Require Import Prelude GoStrings GoUrl Json Http Queue.

Definition countsPath : string := "/queue".

(** ** The interfaces *)

(** [Current] returns a reference; here it is read at once, as the handler
    does, so it yields the counts of that moment. *)
Class CountReader (Q : Type) : Type := {
  cr_Current : Q → res (gmap string Z);
  cr_Count : string → Q → res Z;
  cr_PostponeDuration : Q → res Duration;
  cr_ShouldPostponeResize : Q → res bool;
}.

Class Counter (Q : Type) : Type := {
  counter_reader :: CountReader Q;
  c_Resize : string → Z → Q → res unit * Q;
  c_Ensure : string → Q → Q;
  c_Remove : string → Q → bool * Q;
  c_PostponeResize : string → Time → Q → res unit * Q;
}.

#[export] Instance Memory_reader : CountReader Memory := {
  cr_Current := λ q, counts_map q <$> Current q;
  cr_Count := λ h q, Ok (Count h q);
  cr_PostponeDuration := λ q, Ok (PostponeDuration q);
  cr_ShouldPostponeResize := λ q, Ok (ShouldPostponeResize q);
}.

#[export] Instance Memory_counter : Counter Memory := {
  c_Resize := Resize;
  c_Ensure := Ensure;
  c_Remove := Remove;
  c_PostponeResize := λ h t q, (Ok tt, PostponeResize h t q);
}.

(** ** Test doubles *)

Definition unimplemented {A} : res A := Panic "unimplemented".

(** [FakeCounter]: its channel of resizes is a log, with a flag for whether a
    receiver takes the next send before the timeout. *)
Record HostAndCount : Type := mkHostAndCount { hc_Host : string; hc_Count : Z }.

Record FakeCounter : Type := mkFakeCounter {
  RetMap : gmap string Z;
  ResizedCh : list HostAndCount;
  ResizeTaken : bool;
}.

Definition NewFakeCounter : FakeCounter := mkFakeCounter ∅ [] true.

Definition FakeResize (host : string) (i : Z) (f : FakeCounter) : res unit * FakeCounter :=
  let m := <[host := int64 (count_of (RetMap f) host + i)]> (RetMap f) in
  if ResizeTaken f
  then (Ok tt, mkFakeCounter m (ResizedCh f ++ [mkHostAndCount host i]) (ResizeTaken f))
  else (Err (Errorf "FakeCounter.Resize timeout after 1s"), mkFakeCounter m (ResizedCh f) (ResizeTaken f)).

(** Unlike [Memory], this resets the count of a host that has one. *)
Definition FakeEnsure (host : string) (f : FakeCounter) : FakeCounter :=
  mkFakeCounter (<[host := 0]> (RetMap f)) (ResizedCh f) (ResizeTaken f).

Definition FakeRemove (host : string) (f : FakeCounter) : bool * FakeCounter :=
  (bool_decide (is_Some (RetMap f !! host)),
   mkFakeCounter (delete host (RetMap f)) (ResizedCh f) (ResizeTaken f)).

Definition FakeCurrent (f : FakeCounter) : res (gmap string Z) := Ok (RetMap f).

#[export] Instance FakeCounter_reader : CountReader FakeCounter := {
  cr_Current := FakeCurrent;
  cr_Count := λ _ _, unimplemented;
  cr_PostponeDuration := λ _, unimplemented;
  cr_ShouldPostponeResize := λ _, unimplemented;
}.

#[export] Instance FakeCounter_counter : Counter FakeCounter := {
  c_Resize := FakeResize;
  c_Ensure := FakeEnsure;
  c_Remove := FakeRemove;
  c_PostponeResize := λ _ _ f, (unimplemented, f);
}.

(** [FakeCountReader]: one host, or an error. *)
Record FakeCountReader : Type := mkFakeCountReader { fcr_current : Z; fcr_err : option error }.

Definition FakeReaderCurrent (f : FakeCountReader) : res (gmap string Z) :=
  match fcr_err f with
  | Some e => Err e
  | None => Ok {["sample.com" := fcr_current f]}
  end.

#[export] Instance FakeCountReader_reader : CountReader FakeCountReader := {
  cr_Current := FakeReaderCurrent;
  cr_Count := λ _ _, unimplemented;
  cr_PostponeDuration := λ _, unimplemented;
  cr_ShouldPostponeResize := λ _, unimplemented;
}.

(** ** Counts as JSON *)

Definition enc_count (z : Z) : json := JNum (Itoa z).

Definition MarshalCounts (m : gmap string Z) : string := print_json (enc_map enc_count m).

(** [json.Unmarshal] into a map that holds [m]. *)
Definition UnmarshalCounts (m : gmap string Z) (data : string) : res (gmap string Z) :=
  j ← decode_all data;
  match dec_map (dec_int 64 0) m j with
  | (_, Some e) => Err e
  | (o, None) => Ok (default ∅ o)
  end.

(** ** The [/queue] handler and its client *)

Section rpc.
Context `{CountReader Q}.

(** [json.NewEncoder(w).Encode(cur)] appends a newline; encoding a map of
    integers cannot fail. *)
Definition sizeHandler (q : Q) (w : ResponseWriter) : res ResponseWriter :=
  match cr_Current q with
  | Err _ => Ok (reply 500 "error getting queue size" w)
  | Panic p => Panic p
  | Ok cur => Ok (Write (MarshalCounts cur +:+ String "010" "") w)
  end.
End rpc.

(** [GetCounts]: [get] is the HTTP client, which returns the body of the
    response whatever its status. The decoder takes the first value of the
    body and hands its text to [Counts.UnmarshalJSON]. *)
Definition GetCounts (get : URL → res string) (interceptorURL : URL) : res (gmap string Z) :=
  let u := mkURL (Scheme interceptorURL) (Opaque interceptorURL) (User interceptorURL)
             (Host interceptorURL) countsPath (RawQuery interceptorURL) (Fragment interceptorURL) in
  match get u with
  | Err e => Err (Wrap e ("requesting the queue counts from " +:+ URL_String u))
  | Panic p => Panic p
  | Ok body =>
      map_err (λ e, Wrap e ("decoding response from the interceptor at " +:+ URL_String u))
        (j ← decode_stream body;
         match dec_map (dec_int 64 0) ∅ j with
         | (_, Some e) => Err e
         | (o, None) => Ok (default ∅ o)
         end)
  end.

(** ** Lemmas *)

(** Counts whose hosts are UTF-8 and whose values are Go integers. *)
Definition counts_ok (m : gmap string Z) : Prop :=
  map_Forall (λ h c, valid_utf8 h ∧ in_int64 c) m.

Lemma dec_enc_count z : in_int64 z → dec_int 64 0 (enc_count z) = (z, None).
Proof.
  intros Hz. unfold enc_count, dec_int. unfold in_int64 in Hz.
  rewrite ParseInt_Itoa by (simpl; lia). by rewrite decide_True by (simpl; lia).
Qed.

Lemma wf_enc_map {V} (enc : V → json) (m : gmap string V) :
  map_Forall (λ k v, valid_utf8 k ∧ wf_json (enc v)) m → wf_json (enc_map enc m).
Proof.
  intros Hm. constructor. apply Forall_fmap, Forall_forall. intros [k v] Hkv.
  unfold sorted_entries in Hkv. rewrite sorting.merge_sort_Permutation in Hkv.
  apply elem_of_map_to_list in Hkv. by apply Hm in Hkv.
Qed.

Lemma counts_wf m : counts_ok m → wf_json (enc_map enc_count m).
Proof.
  intros Hm. apply wf_enc_map. eapply map_Forall_impl; [exact Hm|].
  intros k v [Hk Hv]. split; [done | constructor].
Qed.

Lemma counts_dec m : counts_ok m → dec_map (dec_int 64 0) ∅ (enc_map enc_count m) = (Some m, None).
Proof.
  intros Hm. apply dec_enc_map. intros k v Hv. apply dec_enc_count. by apply Hm in Hv as [_ ?].
Qed.

(** The URL [GetCounts] requests. *)
Definition counts_url (u : URL) : URL :=
  mkURL (Scheme u) (Opaque u) (User u) (Host u) countsPath (RawQuery u) (Fragment u).

Lemma GetCounts_served get u m :
  counts_ok m → get (counts_url u) = Ok (MarshalCounts m +:+ String "010" "") →
  GetCounts get u = Ok m.
Proof.
  intros Hm Hg. unfold GetCounts. unfold counts_url in Hg. rewrite Hg.
  unfold MarshalCounts. rewrite decode_stream_print; [|by apply counts_wf|by eexists|done].
  cbn [mbind res_bind]. by rewrite counts_dec.
Qed.

(** ** Properties *)

(** C21: roundtrip. What [GetCounts] reads from an interceptor's [/queue]
    handler is the interceptor's counts: the JSON written by one is decoded by
    the other without loss, for every queue whose hosts are UTF-8. *)
Theorem GetCounts_sizeHandler (q : Memory) (u : URL) :
  counts_ok (countMap q) →
  GetCounts (λ _, (λ w, resp_Body (sent w)) <$> sizeHandler q NewWriter) u = Ok (countMap q).
Proof.
  intros Hm. by apply GetCounts_served.
Qed.

Definition demo_queue : Memory :=
  mkMemory {["app.dp-1" := 3; "api.dp-2" := 0]} ∅ 0 false.

Lemma counts_ok_demo : counts_ok (countMap demo_queue).
Proof.
  unfold counts_ok, demo_queue; simpl.
  apply map_Forall_insert_2; [|apply map_Forall_singleton];
    (split; [repeat (apply utf8_one; [vm_compute; lia|]); apply utf8_nil | vm_compute; intuition congruence]).
Qed.

Lemma GetCounts_sizeHandler_witness :
  GetCounts (λ _, (λ w, resp_Body (sent w)) <$> sizeHandler demo_queue NewWriter)
    (mkURL "http" "" None "10.0.0.1:9090" "" "" "") = Ok (countMap demo_queue).
Proof. apply GetCounts_sizeHandler, counts_ok_demo. Defined.
