(* ===== verification/CountProtocol.v ===== *)
(** * Concurrent requests and the pending count (interceptor/middleware.go, pkg/queue)

    [countMiddleware] runs in one goroutine per request, and the enforcer of
    [ProcessPostponedResizes] in another, on one [Memory]. This file is the
    interleaving semantics: a step is what one goroutine does under one hold of
    the queue's mutex. The sequential handler is [countMiddleware] of
    Interceptor; the operations are those of Queue. *)

From S2P Require Import Prelude Queue.

(** Where a request that passed [getHost] is: [next] is being served, or the
    deferred function has evaluated its guard
    [q.ShouldPostponeResize() && q.Count(host) == 1]. *)
Inductive phase : Type :=
| Serving
| Deciding (postpone : bool).

Record sys : Type := mkSys {
  queue : Memory;
  reqs : gmap nat (string * phase);
  (** the hosts collected by the enforcer's first phase, while it is between
      its two critical sections *)
  enforcer : option (list string);
}.

Definition initial (d : Duration) (b : bool) : sys := mkSys (NewMemory d b) ∅ None.

(** The guard of the deferred function. *)
Definition postpone_guard (host : string) (q : Memory) : bool :=
  ShouldPostponeResize q && bool_decide (Count host q = 1).

Section steps.
(** How many requests the process can hold at once. *)
Context (max_requests : Z).

(** The steps of the request goroutines. *)
Inductive rstep : sys → sys → Prop :=
| step_begin s id host :
    reqs s !! id = None →
    Z.of_nat (size (reqs s)) < max_requests →
    rstep s (mkSys (snd (Resize host 1 (queue s)))
                   (<[id := (host, Serving)]> (reqs s)) (enforcer s))
| step_return s id host :
    reqs s !! id = Some (host, Serving) →
    rstep s (mkSys (queue s)
                   (<[id := (host, Deciding (postpone_guard host (queue s)))]> (reqs s))
                   (enforcer s))
| step_postpone s id host now :
    reqs s !! id = Some (host, Deciding true) →
    rstep s (mkSys (PostponeResize host (now + PostponeDuration (queue s)) (queue s))
                   (delete id (reqs s)) (enforcer s))
| step_decrement s id host :
    reqs s !! id = Some (host, Deciding false) →
    rstep s (mkSys (snd (Resize host (-1) (queue s))) (delete id (reqs s)) (enforcer s)).

(** The program: the enforcer's two phases are separate steps. *)
Inductive step : sys → sys → Prop :=
| step_request s s' : rstep s s' → step s s'
| step_scan s now :
    enforcer s = None →
    step s (mkSys (queue s) (reqs s) (Some (scanPostponed now (queue s))))
| step_apply s hosts :
    enforcer s = Some hosts →
    step s (mkSys (applyPostponed hosts (queue s)) (reqs s) None).

(** The program when no request step falls between the enforcer's phases. *)
Inductive astep : sys → sys → Prop :=
| astep_request s s' : rstep s s' → astep s s'
| astep_round s now :
    astep s (mkSys (processPostponedOnce now (queue s)) (reqs s) (enforcer s)).
End steps.

(** ** The abstract counter: requests in flight, and hosts cooling down *)

Record spec : Type := mkSpec { pending : gmap nat string; cooling : gset string }.

Inductive spec_step : spec → spec → Prop :=
| spec_begin a id h : pending a !! id = None →
    spec_step a (mkSpec (<[id := h]> (pending a)) (cooling a))
| spec_finish a id h : pending a !! id = Some h →
    spec_step a (mkSpec (delete id (pending a)) (cooling a))
| spec_cool a id h : pending a !! id = Some h → h ∉ cooling a →
    spec_step a (mkSpec (delete id (pending a)) ({[h]} ∪ cooling a))
| spec_expire a (hs : gset string) :
    spec_step a (mkSpec (pending a) (cooling a ∖ hs))
| spec_stay a : spec_step a a.

(** How many entries of [m] carry host [h]. *)
Definition host_count (m : gmap nat string) (h : string) : Z :=
  Z.of_nat (size (filter (λ p, p.2 = h) m)).

Definition spec_count (a : spec) (h : string) : Z :=
  host_count (pending a) h + (if decide (h ∈ cooling a) then 1 else 0).

(** The abstraction of a system state. *)
Definition abs (s : sys) : spec :=
  mkSpec (fst <$> reqs s) (dom (postponedResizes (queue s))).

Definition inflight (s : sys) (h : string) : Z := host_count (pending (abs s)) h.

(** ** Counting lemmas *)

Section counting.
Implicit Types (m : gmap nat string) (h : string).

Lemma host_count_nonneg m h : 0 ≤ host_count m h.
Proof. unfold host_count. lia. Qed.

Lemma host_count_le_size m h : host_count m h ≤ Z.of_nat (size m).
Proof.
  unfold host_count. apply Nat2Z.inj_le, map_subseteq_size, map_filter_subseteq.
Qed.

Lemma host_count_insert m id h h' :
  m !! id = None →
  host_count (<[id := h]> m) h' = host_count m h' + (if decide (h = h') then 1 else 0).
Proof.
  intros Hid. unfold host_count. rewrite map_filter_insert. case_decide; simpl in *.
  - rewrite map_size_insert_None; [rewrite decide_True by done; lia|].
    apply map_lookup_filter_None. by left.
  - rewrite decide_False by done. rewrite delete_id by done. lia.
Qed.

Lemma host_count_delete m id h h' :
  m !! id = Some h →
  host_count (delete id m) h' = host_count m h' - (if decide (h = h') then 1 else 0).
Proof.
  intros Hid. rewrite <-(insert_delete_id m id h) at 2 by done.
  rewrite host_count_insert by apply lookup_delete_eq. lia.
Qed.

Lemma host_count_pos m id h : m !! id = Some h → 1 ≤ host_count m h.
Proof.
  intros Hid. pose proof (host_count_delete m id h h Hid) as H.
  rewrite decide_True in H by done. pose proof (host_count_nonneg (delete id m) h). lia.
Qed.

Lemma host_count_two m id id' h :
  id ≠ id' → m !! id = Some h → m !! id' = Some h → 2 ≤ host_count m h.
Proof.
  intros Hne Hid Hid'. pose proof (host_count_delete m id h h Hid) as H.
  rewrite decide_True in H by done.
  pose proof (host_count_pos (delete id m) id' h) as Hp.
  rewrite lookup_delete_ne in Hp by done. specialize (Hp Hid'). lia.
Qed.

Lemma host_count_empty h : host_count ∅ h = 0.
Proof. unfold host_count. by rewrite map_filter_empty, map_size_empty. Qed.
End counting.

(** ** The abstraction across steps *)

Section abstraction.
Implicit Types (s : sys) (h : string).

Lemma abs_lookup s id h p :
  reqs s !! id = Some (h, p) → pending (abs s) !! id = Some h.
Proof. intros H. simpl. by rewrite lookup_fmap, H. Qed.

Lemma abs_lookup_None s id : reqs s !! id = None → pending (abs s) !! id = None.
Proof. intros H. simpl. by rewrite lookup_fmap, H. Qed.

Lemma abs_rephase s id h p p' :
  reqs s !! id = Some (h, p) → fst <$> <[id := (h, p')]> (reqs s) = fst <$> reqs s.
Proof. intros H. rewrite fmap_insert. apply insert_id. by apply (abs_lookup _ _ _ p). Qed.

Lemma elem_of_cooling s h :
  h ∈ cooling (abs s) ↔ is_Some (postponedResizes (queue s) !! h).
Proof. simpl. by rewrite elem_of_dom. Qed.

Lemma size_reqs_insert s id (x : string * phase) :
  reqs s !! id = None →
  Z.of_nat (size (<[id := x]> (reqs s))) = Z.of_nat (size (reqs s)) + 1.
Proof. intros H. rewrite map_size_insert_None by done. lia. Qed.

Lemma size_reqs_delete s id : (size (delete id (reqs s)) ≤ size (reqs s))%nat.
Proof. apply map_subseteq_size, delete_subseteq. Qed.

Lemma size_reqs_same s id (x y : string * phase) :
  reqs s !! id = Some x → size (<[id := y]> (reqs s)) = size (reqs s).
Proof. intros H. by rewrite map_size_insert_Some by eauto. Qed.
End abstraction.

(** ** The invariant *)

Record Inv (max_requests : Z) (s : sys) : Prop := {
  inv_count : ∀ h, Count h (queue s) = spec_count (abs s) h;
  inv_decided : ∀ id h, reqs s !! id = Some (h, Deciding true) →
    postponedResizes (queue s) !! h = None
    ∧ ∀ id', reqs s !! id' = Some (h, Deciding true) → id' = id;
  inv_size : Z.of_nat (size (reqs s)) ≤ max_requests;
}.

(** Projections of an explicit state, leaving the queue operations folded. *)
Ltac sys_simpl := cbn [queue reqs enforcer pending cooling abs].

Section invariant.
Context (max_requests : Z) (Hmax : 0 ≤ max_requests < 2 ^ 63 - 1).

Lemma inv_initial d b : Inv max_requests (initial d b).
Proof.
  split.
  - intros h. unfold spec_count. simpl. rewrite fmap_empty, host_count_empty. done.
  - intros id h H. simpl in H. by rewrite lookup_empty in H.
  - simpl. rewrite map_size_empty. lia.
Qed.

Lemma inv_bounds s h :
  Inv max_requests s →
  0 ≤ spec_count (abs s) h ≤ Z.of_nat (size (reqs s)) + 1
  ∧ Z.of_nat (size (reqs s)) ≤ max_requests.
Proof.
  intros [_ _ Hs]. split; [|done]. unfold spec_count.
  pose proof (host_count_nonneg (pending (abs s)) h).
  pose proof (host_count_le_size (pending (abs s)) h) as Hle.
  simpl in Hle. rewrite map_size_fmap in Hle. simpl in *. case_decide; lia.
Qed.

(** The guard holds only for the single request in flight of a host that is
    not cooling down. *)
Lemma guard_true s id h p :
  Inv max_requests s → reqs s !! id = Some (h, p) →
  postpone_guard h (queue s) = true →
  postponedResizes (queue s) !! h = None
  ∧ ∀ id' p', reqs s !! id' = Some (h, p') → id' = id.
Proof.
  intros HI Hid Hg. unfold postpone_guard in Hg.
  apply andb_true_iff in Hg as [_ Hg%bool_decide_eq_true].
  rewrite (inv_count _ _ HI) in Hg. unfold spec_count in Hg.
  pose proof (host_count_pos _ _ _ (abs_lookup _ _ _ _ Hid)).
  case_decide as Hc; [lia|]. split.
  - rewrite elem_of_cooling in Hc. by apply eq_None_not_Some.
  - intros id' p' Hid'. destruct (decide (id' = id)); [done|].
    pose proof (host_count_two _ id' id h n (abs_lookup _ _ _ _ Hid') (abs_lookup _ _ _ _ Hid)).
    lia.
Qed.

Lemma Count_Resize_inv s h d :
  Inv max_requests s → in_int64 (spec_count (abs s) h + d) →
  ∀ h', Count h' (snd (Resize h d (queue s)))
        = spec_count (abs s) h' + (if decide (h = h') then d else 0).
Proof.
  intros HI Hd h'. rewrite Count_Resize, !(inv_count _ _ HI).
  case_decide; [|lia]. subst. by apply int64_id.
Qed.

Lemma inv_begin s id h :
  Inv max_requests s → reqs s !! id = None → Z.of_nat (size (reqs s)) < max_requests →
  Inv max_requests (mkSys (snd (Resize h 1 (queue s)))
    (<[id := (h, Serving)]> (reqs s)) (enforcer s)).
Proof.
  intros HI Hid Hsz. pose proof (inv_bounds s h HI) as Hb. split; sys_simpl.
  - intros h'. rewrite Count_Resize_inv by (done || (unfold in_int64; lia)).
    unfold spec_count; sys_simpl. rewrite fmap_insert, host_count_insert by by apply abs_lookup_None.
    repeat case_decide; try lia; done.
  - intros i h' H. apply lookup_insert_Some in H as [[_ [=]]|[Hne H]].
    destruct (inv_decided _ _ HI _ _ H) as [H1 H2]. split; [done|].
    intros id' [[_ [=]]|[_ H']]%lookup_insert_Some. by apply H2.
  - rewrite size_reqs_insert by done. lia.
Qed.

Lemma inv_return s id h :
  Inv max_requests s → reqs s !! id = Some (h, Serving) →
  Inv max_requests (mkSys (queue s)
    (<[id := (h, Deciding (postpone_guard h (queue s)))]> (reqs s)) (enforcer s)).
Proof.
  intros HI Hid. split; sys_simpl.
  - intros h'. rewrite (inv_count _ _ HI). unfold spec_count; sys_simpl.
    by rewrite (abs_rephase _ _ _ Serving).
  - intros i h' H. apply lookup_insert_Some in H as [[-> [= -> Hg]]|[Hne H]].
    + destruct (guard_true s i h' Serving HI Hid Hg) as [H1 H2]. split; [done|].
      intros id' [[-> _]|[_ H']]%lookup_insert_Some; [done|]. by eapply H2.
    + destruct (inv_decided _ _ HI _ _ H) as [H1 H2]. split; [done|].
      intros id' [[-> [= -> Hg]]|[_ H']]%lookup_insert_Some; [|by apply H2].
      symmetry. by eapply (guard_true s id' h' Serving HI Hid Hg).
  - by rewrite (size_reqs_same _ _ _ _ Hid), (inv_size _ _ HI).
Qed.

Lemma inv_postpone s id h t :
  Inv max_requests s → reqs s !! id = Some (h, Deciding true) →
  Inv max_requests (mkSys (PostponeResize h t (queue s)) (delete id (reqs s)) (enforcer s)).
Proof.
  intros HI Hid. destruct (inv_decided _ _ HI _ _ Hid) as [Hn Hu]. split; sys_simpl.
  - intros h'. rewrite Count_Postpone, (inv_count _ _ HI). unfold spec_count; sys_simpl.
    rewrite fmap_delete, (host_count_delete _ _ h) by exact (abs_lookup _ _ _ _ Hid).
    unfold PostponeResize, set_postponed. cbn [postponedResizes]. rewrite dom_insert_L.
    apply not_elem_of_dom in Hn.
    destruct (decide (h = h')) as [<-|]; repeat case_decide; set_solver by lia.
  - intros i h' [Hne H]%lookup_delete_Some. destruct (inv_decided _ _ HI _ _ H) as [H1 H2].
    split; [|by intros id' [_ H']%lookup_delete_Some; apply H2].
    change (<[h := t]> (postponedResizes (queue s)) !! h' = None).
    rewrite lookup_insert_ne; [done|]. intros ->. by apply Hne, eq_sym, Hu.
  - pose proof (size_reqs_delete s id). pose proof (inv_size _ _ HI). lia.
Qed.

Lemma inv_decrement s id h :
  Inv max_requests s → reqs s !! id = Some (h, Deciding false) →
  Inv max_requests (mkSys (snd (Resize h (-1) (queue s))) (delete id (reqs s)) (enforcer s)).
Proof.
  intros HI Hid. pose proof (inv_bounds s h HI) as Hb. split; sys_simpl.
  - intros h'. rewrite Count_Resize_inv by (done || (unfold in_int64; lia)).
    unfold spec_count; sys_simpl.
    rewrite fmap_delete, (host_count_delete _ _ h) by exact (abs_lookup _ _ _ _ Hid).
    repeat case_decide; try lia; done.
  - intros i h' [Hne H]%lookup_delete_Some. destruct (inv_decided _ _ HI _ _ H) as [H1 H2].
    split; [done|]. by intros id' [_ H']%lookup_delete_Some; apply H2.
  - pose proof (size_reqs_delete s id). pose proof (inv_size _ _ HI). lia.
Qed.

Lemma inv_rstep s s' : Inv max_requests s → rstep max_requests s s' → Inv max_requests s'.
Proof.
  intros HI Hs. destruct Hs; eauto using inv_begin, inv_return, inv_postpone, inv_decrement.
Qed.

(** A host an enforcer round resets has no request in flight. *)
Lemma scan_quiet s now h :
  Inv max_requests s → h ∈ scanPostponed now (queue s) →
  host_count (pending (abs s)) h = 0 ∧ h ∈ cooling (abs s).
Proof.
  intros HI (t & Ht & _ & Hc)%elem_of_scan. rewrite (inv_count _ _ HI) in Hc.
  assert (h ∈ cooling (abs s)) by (apply elem_of_cooling; eauto).
  unfold spec_count in Hc. rewrite decide_True in Hc by done. split; [lia | done].
Qed.

Lemma dom_apply hs q :
  dom (postponedResizes (applyPostponed hs q))
  = dom (postponedResizes q) ∖ (list_to_set hs : gset string).
Proof.
  apply set_eq. intros h. rewrite elem_of_difference, elem_of_list_to_set, !elem_of_dom.
  rewrite postponed_apply. case_decide; [|tauto].
  split; [by intros [? [=]] | tauto].
Qed.

Lemma inv_round s now :
  Inv max_requests s →
  Inv max_requests (mkSys (processPostponedOnce now (queue s)) (reqs s) (enforcer s)).
Proof.
  intros HI. unfold processPostponedOnce. split; sys_simpl.
  - intros h. rewrite Count_apply, (inv_count _ _ HI). unfold spec_count; sys_simpl.
    rewrite dom_apply. case_decide as Hh.
    + apply (scan_quiet _ _ _ HI) in Hh as Hq. destruct Hq as [Hq _].
      cbn [pending abs] in Hq. rewrite Hq, decide_False by set_solver. done.
    + repeat case_decide; set_solver.
  - intros id h H. destruct (inv_decided _ _ HI _ _ H) as [H1 H2]. split; [|done].
    rewrite postponed_apply. by case_decide.
  - exact (inv_size _ _ HI).
Qed.

Lemma inv_astep s s' : Inv max_requests s → astep max_requests s s' → Inv max_requests s'.
Proof.
  intros HI Hs. destruct Hs as [s s' Hr|s now]; [by apply (inv_rstep s) | by apply inv_round].
Qed.

Lemma inv_reachable d b s : rtc (astep max_requests) (initial d b) s → Inv max_requests s.
Proof.
  intros H. remember (initial d b) as s0. assert (Inv max_requests s0) as HI
    by (subst; apply inv_initial). clear Heqs0.
  induction H; eauto using inv_astep.
Qed.

(** A request whose deferred function finds the host already cooling down, or
    another request in flight, gives its unit back. *)
Lemma abs_rstep s s' :
  Inv max_requests s → rstep max_requests s s' → spec_step (abs s) (abs s').
Proof.
  intros HI Hs. destruct Hs as [s id h Hid Hsz|s id h Hid|s id h now Hid|s id h Hid].
  - unfold abs at 2; sys_simpl. rewrite fmap_insert.
    apply (spec_begin (abs s)), abs_lookup_None, Hid.
  - unfold abs at 2; sys_simpl. rewrite (abs_rephase _ _ _ Serving) by done.
    apply (spec_stay (abs s)).
  - unfold abs at 2; sys_simpl. rewrite fmap_delete.
    unfold PostponeResize, set_postponed. cbn [postponedResizes]. rewrite dom_insert_L.
    apply (spec_cool (abs s)); [by eapply abs_lookup|].
    rewrite elem_of_cooling. destruct (inv_decided _ _ HI _ _ Hid) as [-> _]. by intros [? [=]].
  - unfold abs at 2; sys_simpl. rewrite fmap_delete.
    eapply (spec_finish (abs s)), abs_lookup, Hid.
Qed.

Lemma abs_astep s s' :
  Inv max_requests s → astep max_requests s s' → spec_step (abs s) (abs s').
Proof.
  intros HI Hs. destruct Hs as [s1 s2 Hr|s1 now]; [by apply abs_rstep|].
  unfold abs at 2; sys_simpl. unfold processPostponedOnce. rewrite dom_apply.
  apply (spec_expire (abs s1)).
Qed.

(** *** Postponing switched off *)

Record InvOff (s : sys) : Prop := {
  off_inv : Inv max_requests s;
  off_flag : shouldPostpone (queue s) = false;
  off_none : postponedResizes (queue s) = ∅;
  off_enforcer : ∀ hs, enforcer s = Some hs → hs = [];
  off_decided : ∀ id h, reqs s !! id ≠ Some (h, Deciding true);
}.

Lemma inv_off_initial d : InvOff (initial d false).
Proof. split; [apply inv_initial|done..]. Qed.

Lemma inv_off_rstep s s' : InvOff s → rstep max_requests s s' → InvOff s'.
Proof.
  intros [HI Hf Hn He Hd] Hs. pose proof (inv_rstep _ _ HI Hs) as HI'.
  destruct Hs as [s id h Hid Hsz|s id h Hid|s id h now Hid|s id h Hid];
    [..|by destruct (Hd id h)|]; (split; [done..|]); sys_simpl; intros i h'.
  - intros [[_ [=]]|[_ H]]%lookup_insert_Some. by eapply Hd.
  - intros [[_ [= -> Hg]]|[_ H]]%lookup_insert_Some; [|by eapply Hd].
    unfold postpone_guard, ShouldPostponeResize in Hg. by rewrite Hf in Hg.
  - intros [_ H]%lookup_delete_Some. by eapply Hd.
Qed.

Lemma inv_off_step s s' : InvOff s → step max_requests s s' → InvOff s'.
Proof.
  intros HO Hs. destruct Hs as [s1 s2 Hr|s1 now He|s1 hs He]; [by eapply inv_off_rstep|..];
    destruct HO as [[Hc Hdd Hsz] Hf Hn Hen Hd].
  - split; [split; done|done..| |done]. sys_simpl. intros hs [= <-].
    unfold scanPostponed. by rewrite Hn, map_to_list_empty.
  - rewrite (Hen _ He) in *. split; [split; done|done..].
Qed.

Lemma inv_off_reachable d s :
  rtc (step max_requests) (initial d false) s → InvOff s.
Proof.
  intros H. remember (initial d false) as s0. assert (InvOff s0) as HI
    by (subst; apply inv_off_initial). clear Heqs0.
  induction H; eauto using inv_off_step.
Qed.

Lemma inv_off_count s h : InvOff s → Count h (queue s) = inflight s h ∧ 0 ≤ Count h (queue s).
Proof.
  intros [HI _ Hn _ _]. rewrite (inv_count _ _ HI). unfold spec_count, inflight; sys_simpl.
  rewrite Hn, dom_empty_L, decide_False by set_solver.
  pose proof (host_count_nonneg (fst <$> reqs s) h). lia.
Qed.
End invariant.

(** ** Properties *)

(** C1: refinement. When no request step falls between the two critical
    sections of the enforcer, the queue implements the abstract counter: every
    run of requests and enforcer rounds is a run of the specification, and in
    every state it reaches, [Count] is the number of requests in flight for the
    host plus one when the host is cooling down. *)
Theorem count_refines_spec (max_requests : Z) (d : Duration) (b : bool) (s : sys) :
  0 ≤ max_requests < 2 ^ 63 - 1 →
  rtc (astep max_requests) (initial d b) s →
  rtc spec_step (mkSpec ∅ ∅) (abs s)
  ∧ ∀ h, Count h (queue s) = spec_count (abs s) h.
Proof.
  intros Hmax Hr. split; [|by intros h; apply (inv_reachable _ Hmax _ _ _ Hr)].
  change (mkSpec ∅ ∅) with (abs (initial d b)).
  remember (initial d b) as s0. assert (Inv max_requests s0) as HI
    by (subst; by apply inv_initial). clear Heqs0.
  induction Hr as [s|s1 s2 s3 H12 _ IH]; [apply rtc_refl|].
  eapply rtc_l; [by eapply abs_astep | apply IH; by eapply inv_astep].
Qed.

(** Two requests of one host, one of which has left its unit to the cooldown. *)
Definition demo_host : string := "app.dp-1".
Definition demo_begin (id : nat) (s : sys) : sys :=
  mkSys (snd (Resize demo_host 1 (queue s))) (<[id := (demo_host, Serving)]> (reqs s)) (enforcer s).
Definition demo_return (id : nat) (s : sys) : sys :=
  mkSys (queue s)
    (<[id := (demo_host, Deciding (postpone_guard demo_host (queue s)))]> (reqs s)) (enforcer s).
Definition demo_postpone (id : nat) (now : Time) (s : sys) : sys :=
  mkSys (PostponeResize demo_host (now + PostponeDuration (queue s)) (queue s))
    (delete id (reqs s)) (enforcer s).
Definition demo_decrement (id : nat) (s : sys) : sys :=
  mkSys (snd (Resize demo_host (-1) (queue s))) (delete id (reqs s)) (enforcer s).
Definition demo_cooling : sys := demo_postpone 0 5 (demo_return 0 (demo_begin 0 (initial 20 true))).

Lemma demo_cooling_steps : rtc (rstep 100) (initial 20 true) demo_cooling.
Proof.
  unfold demo_cooling.
  eapply rtc_l; [apply (step_begin 100 _ 0 demo_host); by vm_compute|].
  eapply rtc_l; [apply (step_return 100 _ 0 demo_host); by vm_compute|].
  eapply rtc_l; [apply (step_postpone 100 _ 0 demo_host 5); by vm_compute|].
  apply rtc_refl.
Qed.

Lemma rtc_rstep_astep m s s' : rtc (rstep m) s s' → rtc (astep m) s s'.
Proof. apply rtc_subrel. intros ??. apply astep_request. Qed.

Lemma rtc_rstep_step m s s' : rtc (rstep m) s s' → rtc (step m) s s'.
Proof. apply rtc_subrel. intros ??. apply step_request. Qed.

Lemma count_refines_spec_witness :
  rtc spec_step (mkSpec ∅ ∅) (abs demo_cooling)
  ∧ ∀ h, Count h (queue demo_cooling) = spec_count (abs demo_cooling) h.
Proof.
  apply (count_refines_spec 100 20 true); [lia|].
  apply rtc_rstep_astep, demo_cooling_steps.
Defined.

(** With postponing switched off (the default) the count is
    exact under every interleaving of requests and enforcer phases: for each
    host it is the number of requests in flight, so it is never negative. *)
Theorem count_exact_without_cooldown (max_requests : Z) (d : Duration) (s : sys) :
  0 ≤ max_requests < 2 ^ 63 - 1 →
  rtc (step max_requests) (initial d false) s →
  ∀ h, Count h (queue s) = inflight s h ∧ 0 ≤ Count h (queue s).
Proof.
  intros Hmax Hr h. by eapply inv_off_count, inv_off_reachable.
Qed.

Lemma count_exact_without_cooldown_witness :
  Count demo_host (queue (demo_begin 1 (demo_begin 0 (initial 0 false))))
  = inflight (demo_begin 1 (demo_begin 0 (initial 0 false))) demo_host
  ∧ 0 ≤ Count demo_host (queue (demo_begin 1 (demo_begin 0 (initial 0 false)))).
Proof.
  apply (count_exact_without_cooldown 100 0); [lia|]. apply rtc_rstep_step.
  eapply rtc_l; [apply (step_begin 100 _ 0 demo_host); by vm_compute|].
  eapply rtc_l; [apply (step_begin 100 _ 1 demo_host); by vm_compute | apply rtc_refl].
Defined.

(** The window between the enforcer's two critical sections is
    real: with postponing on, a request that arrives in it is wiped out by the
    second phase, and when it finishes the host is left at -1 with no request
    in flight. *)
Theorem enforcer_race_negative :
  ∃ s, rtc (step 100) (initial 20 true) s ∧ reqs s = ∅ ∧ Count demo_host (queue s) = -1.
Proof.
  pose (scanned := mkSys (queue demo_cooling) (reqs demo_cooling)
    (Some (scanPostponed (λ _, 100) (queue demo_cooling)))).
  pose (applied := mkSys (applyPostponed [demo_host] (queue (demo_begin 1 scanned)))
    (reqs (demo_begin 1 scanned)) None).
  exists (demo_decrement 1 (demo_return 1 applied)). split; [|by vm_compute].
  etransitivity; [apply rtc_rstep_step, demo_cooling_steps|].
  eapply rtc_l; [by apply (step_scan 100 demo_cooling (λ _, 100))|].
  eapply rtc_l; [apply step_request, (step_begin 100 scanned 1 demo_host); by vm_compute|].
  eapply rtc_l; [by apply (step_apply 100 (demo_begin 1 scanned) [demo_host])|].
  eapply rtc_l; [apply step_request, (step_return 100 applied 1 demo_host); by vm_compute|].
  eapply rtc_l; [apply step_request, (step_decrement 100 _ 1 demo_host); by vm_compute|].
  apply rtc_refl.
Qed.

(** C28: functional. The cooldown holds what it promises, as long as the enforcer's
    rounds are atomic, that is no request acts between the two critical sections of
    a round: in every state reached so, a round that runs no later than a host's
    postponed time leaves the host at one or more. (With requests between the two
    sections this fails; see [enforcer_race_negative] and C27, C35.) *)
Theorem cooldown_holds (max_requests : Z) (d : Duration) (b : bool) (s : sys)
    (now : string → Time) (h : string) (t : Time) :
  0 ≤ max_requests < 2 ^ 63 - 1 →
  rtc (astep max_requests) (initial d b) s →
  postponedResizes (queue s) !! h = Some t →
  now h ≤ t →
  1 ≤ Count h (processPostponedOnce now (queue s)).
Proof.
  intros Hmax Hr Ht Hnow. pose proof (inv_reachable _ Hmax _ _ _ Hr) as HI.
  unfold processPostponedOnce. rewrite Count_apply. case_decide as Hs.
  - apply elem_of_scan in Hs as (t' & ? & ? & _). simplify_eq. lia.
  - rewrite (inv_count _ _ HI). unfold spec_count.
    rewrite decide_True by (apply elem_of_cooling; eauto).
    pose proof (host_count_nonneg (pending (abs s)) h). lia.
Qed.

Lemma cooldown_holds_witness :
  1 ≤ Count demo_host (processPostponedOnce (λ _, 25) (queue demo_cooling)).
Proof.
  apply (cooldown_holds 100 20 true demo_cooling (λ _, 25) demo_host 25); [lia| |done|lia].
  apply rtc_rstep_astep, demo_cooling_steps.
Defined.

(** C29: liveness. Nothing leaks, as long as the enforcer's rounds are atomic, that
    is no request acts between the two critical sections of a round: in every state
    reached so in which no request is in flight, one round whose times are all after
    the postponed times brings the count of every host to 0 and leaves nothing
    postponed. (With requests between the two sections a host can be left at -1;
    see [enforcer_race_negative] and C27, C40.) *)
Theorem quiescent_drains (max_requests : Z) (d : Duration) (b : bool) (s : sys)
    (now : string → Time) :
  0 ≤ max_requests < 2 ^ 63 - 1 →
  rtc (astep max_requests) (initial d b) s →
  reqs s = ∅ →
  (∀ h t, postponedResizes (queue s) !! h = Some t → t < now h) →
  ∀ h, Count h (processPostponedOnce now (queue s)) = 0
       ∧ postponedResizes (processPostponedOnce now (queue s)) !! h = None.
Proof.
  intros Hmax Hr He Hnow h. pose proof (inv_reachable _ Hmax _ _ _ Hr) as HI.
  assert (Count h (queue s) = if decide (h ∈ cooling (abs s)) then 1 else 0) as Hc.
  { rewrite (inv_count _ _ HI). unfold spec_count; sys_simpl.
    by rewrite He, fmap_empty, host_count_empty. }
  unfold processPostponedOnce. rewrite Count_apply, postponed_apply.
  destruct (decide (h ∈ scanPostponed now (queue s))) as [Hs|Hs]; [done|].
  case_decide as Hcool.
  - destruct (proj1 (elem_of_cooling _ _) Hcool) as [t Ht]. destruct Hs.
    apply elem_of_scan. eauto.
  - split; [done|]. apply eq_None_not_Some. by rewrite <-elem_of_cooling.
Qed.

Lemma quiescent_drains_witness :
  Count demo_host (processPostponedOnce (λ _, 26) (queue demo_cooling)) = 0
  ∧ postponedResizes (processPostponedOnce (λ _, 26) (queue demo_cooling)) !! demo_host = None.
Proof.
  apply (quiescent_drains 100 20 true demo_cooling (λ _, 26)); [lia| |by vm_compute|].
  - apply rtc_rstep_astep, demo_cooling_steps.
  - intros h t. change (postponedResizes (queue demo_cooling)) with ({[demo_host := 25]} : gmap string Z).
    intros [_ <-]%lookup_singleton_Some. lia.
Defined.

(** The cooldown of a host runs from the first request that
    left it idle: while the host cools down, no request step moves or removes
    its postponed time, so later traffic does not extend it. *)
Theorem cooldown_not_extended (max_requests : Z) (d : Duration) (b : bool) (s s' : sys)
    (h : string) (t : Time) :
  0 ≤ max_requests < 2 ^ 63 - 1 →
  rtc (astep max_requests) (initial d b) s →
  postponedResizes (queue s) !! h = Some t →
  rstep max_requests s s' →
  postponedResizes (queue s') !! h = Some t.
Proof.
  intros Hmax Hr Ht Hs. pose proof (inv_reachable _ Hmax _ _ _ Hr) as HI.
  destruct Hs as [s id h' Hid Hsz|s id h' Hid|s id h' now Hid|s id h' Hid]; [done..| |done].
  destruct (inv_decided _ _ HI _ _ Hid) as [Hn _].
  change (<[h' := now + PostponeDuration (queue s)]> (postponedResizes (queue s)) !! h = Some t).
  rewrite lookup_insert_ne; [done|]. intros ->. congruence.
Qed.

Lemma cooldown_not_extended_witness :
  postponedResizes (queue (demo_begin 7 demo_cooling)) !! demo_host = Some 25.
Proof.
  apply (cooldown_not_extended 100 20 true demo_cooling _ demo_host 25); [lia| |by vm_compute|].
  - apply rtc_rstep_astep, demo_cooling_steps.
  - apply step_begin; by vm_compute.
Defined.
