(* ===== verification/CountBounds.v ===== *)
(** * How far the pending count can be off (interceptor/middleware.go, pkg/queue)

    [CountProtocol] shows that the count is exact as long as no request falls
    between the two critical sections of [ProcessPostponedResizes]. This file is
    about every interleaving: the count of a host is at most one above the
    requests in flight, whatever happens; it can fall below them, by no more
    than the requests in flight at one time; and once below, it stays below
    while the traffic does not grow. *)

From S2P Require Import Prelude Queue CountProtocol.

(** ** Requests that have decided to postpone *)

Definition decided_host (x : string * phase) : option string :=
  if x is (h, Deciding true) then Some h else None.

(** The requests of the host that will leave their unit to the cooldown. *)
Definition deciding (s : sys) (h : string) : Z := host_count (omap decided_host (reqs s)) h.

(** The count against the requests in flight. *)
Definition drift (s : sys) (h : string) : Z := Count h (queue s) - inflight s h.

(** The numbers of an explicit state. *)
Ltac numbers := unfold drift, inflight, deciding in *; cbn [queue reqs enforcer pending cooling abs] in *.

Section counting.
Implicit Types (r : gmap nat (string * phase)) (h : string).

Lemma host_count_mono (m m' : gmap nat string) h : m ⊆ m' → host_count m h ≤ host_count m' h.
Proof.
  intros Hm. unfold host_count. apply Nat2Z.inj_le, map_subseteq_size. by apply map_filter_subseteq_mono.
Qed.

Lemma deciding_le s h : deciding s h ≤ inflight s h.
Proof.
  apply host_count_mono, map_subseteq_spec. intros id h'. sys_simpl.
  rewrite lookup_omap, lookup_fmap. destruct (reqs s !! id) as [[h1 [|[]]]|]; naive_solver.
Qed.

Lemma deciding_nonneg s h : 0 ≤ deciding s h.
Proof. apply host_count_nonneg. Qed.

Lemma deciding_pos s id h : reqs s !! id = Some (h, Deciding true) → 1 ≤ deciding s h.
Proof. intros Hid. apply (host_count_pos _ id). by rewrite lookup_omap, Hid. Qed.

Lemma inflight_le_size s h : inflight s h ≤ Z.of_nat (size (reqs s)).
Proof. unfold inflight. etransitivity; [apply host_count_le_size|]. sys_simpl. by rewrite map_size_fmap. Qed.

(** What an insertion of a new request, and its removal, do to the numbers. *)
Lemma deciding_begin r id h h' :
  r !! id = None →
  host_count (omap decided_host (<[id := (h, Serving)]> r)) h' = host_count (omap decided_host r) h'.
Proof.
  intros Hid. rewrite omap_insert_None by done. by rewrite delete_id by (rewrite lookup_omap, Hid; done).
Qed.

Lemma deciding_return r id h b h' :
  r !! id = Some (h, Serving) →
  host_count (omap decided_host (<[id := (h, Deciding b)]> r)) h'
  = host_count (omap decided_host r) h' + (if b && bool_decide (h = h') then 1 else 0).
Proof.
  intros Hid. assert (omap decided_host r !! id = None) as Hn by (rewrite lookup_omap, Hid; done).
  destruct b; simpl.
  - rewrite (omap_insert_Some _ _ _ _ h) by done. rewrite host_count_insert by done.
    repeat case_decide; case_bool_decide; done.
  - rewrite omap_insert_None by done. rewrite delete_id by done. lia.
Qed.

Lemma deciding_delete r id h b h' :
  r !! id = Some (h, Deciding b) →
  host_count (omap decided_host (delete id r)) h'
  = host_count (omap decided_host r) h' - (if b && bool_decide (h = h') then 1 else 0).
Proof.
  intros Hid. rewrite omap_delete. destruct b; simpl.
  - rewrite (host_count_delete _ _ h) by (rewrite lookup_omap, Hid; done).
    case_decide; case_bool_decide; done.
  - rewrite delete_id by (rewrite lookup_omap, Hid; done). lia.
Qed.
End counting.

(** ** The invariant of every interleaving *)

Section bounds.
Context (max_requests : Z) (Hmax : 0 ≤ max_requests < 2 ^ 63 - 1).

Record Bounded (s : sys) : Prop := {
  bd_low : ∀ h, - max_requests ≤ drift s h;
  bd_high : ∀ h, drift s h + deciding s h ≤ 1;
  bd_size : Z.of_nat (size (reqs s)) ≤ max_requests;
}.

Lemma bounded_initial d b : Bounded (initial d b).
Proof.
  assert (∀ h, Count h (NewMemory d b) = 0) as Hc by done.
  split; simpl; [intros h..|rewrite map_size_empty; lia];
    unfold drift, inflight, deciding; simpl; rewrite Hc, ?fmap_empty, ?omap_empty, !host_count_empty; lia.
Qed.

(** One unit more or less for a host whose requests change by as much does not
    wrap around. *)
Lemma resize_count s h d (r : gmap nat (string * phase)) :
  Bounded s → Z.of_nat (size r) ≤ max_requests → host_count (fst <$> r) h = inflight s h + d → -1 ≤ d ≤ 1 →
  ∀ h', Count h' (snd (Resize h d (queue s))) = Count h' (queue s) + (if decide (h = h') then d else 0).
Proof.
  intros [Hl Hh Hs] Hsz Hi Hd h'. rewrite Count_Resize. case_decide as E; [subst h'|lia]. apply int64_id.
  pose proof (Hl h). pose proof (Hh h). pose proof (deciding_nonneg s h). pose proof (inflight_le_size s h).
  pose proof (host_count_nonneg (fst <$> r) h). pose proof (host_count_le_size (fst <$> r) h) as Hle.
  rewrite map_size_fmap in Hle. unfold drift, in_int64 in *. lia.
Qed.

Lemma bounded_resize s h d r :
  Bounded s → Z.of_nat (size r) ≤ max_requests →
  (∀ h', host_count (fst <$> r) h' = inflight s h' + (if decide (h = h') then d else 0)) →
  (∀ h', host_count (omap decided_host r) h' = deciding s h') → -1 ≤ d ≤ 1 →
  Bounded (mkSys (snd (Resize h d (queue s))) r (enforcer s)).
Proof.
  intros HB Hsz Hin Hde Hd. pose proof HB as [Hl Hh Hs].
  assert (host_count (fst <$> r) h = inflight s h + d) as Hi by (rewrite Hin, decide_True by done; done).
  pose proof (resize_count s h d r HB Hsz Hi Hd) as Hc.
  split; [| |done]; intros h'; pose proof (Hl h'); pose proof (Hh h');
    numbers; rewrite ?Hde, Hc, Hin; case_decide; lia.
Qed.

(** The numbers after a request has begun, and after one has given its unit
    back. *)
Lemma begin_numbers s id h h' :
  reqs s !! id = None →
  host_count (fst <$> <[id := (h, Serving)]> (reqs s)) h' = inflight s h' + (if decide (h = h') then 1 else 0).
Proof. intros Hid. rewrite fmap_insert. by apply host_count_insert, abs_lookup_None. Qed.

Lemma end_numbers s id h p h' :
  reqs s !! id = Some (h, p) →
  host_count (fst <$> delete id (reqs s)) h' = inflight s h' + (if decide (h = h') then -1 else 0).
Proof.
  intros Hid. rewrite fmap_delete, (host_count_delete _ _ h) by by eapply abs_lookup.
  unfold inflight; sys_simpl. case_decide; lia.
Qed.

Lemma bounded_rstep s s' : Bounded s → rstep max_requests s s' → Bounded s'.
Proof.
  intros HB Hs. pose proof HB as [Hl Hh Hz]. destruct Hs as [s id h Hid Hsz|s id h Hid|s id h now Hid|s id h Hid].
  - apply bounded_resize; [done| | | |lia].
    + rewrite size_reqs_insert by done. lia.
    + intros h'. by apply begin_numbers.
    + intros h'. by apply deciding_begin.
  - assert (∀ h', host_count (fst <$> <[id := (h, Deciding (postpone_guard h (queue s)))]> (reqs s)) h' = inflight s h') as Hi
      by (intros h'; by rewrite (abs_rephase _ _ _ Serving)).
    split; [| |by sys_simpl; rewrite (size_reqs_same _ _ _ _ Hid)]; intros h'; pose proof (Hl h'); pose proof (Hh h');
      unfold drift, inflight in *; sys_simpl; rewrite Hi; [done|].
    pose proof (deciding_le (mkSys (queue s) (<[id := (h, Deciding (postpone_guard h (queue s)))]> (reqs s)) None) h') as Hle.
    unfold deciding in *; sys_simpl. unfold inflight in Hle; cbn [reqs pending abs] in Hle. rewrite Hi in Hle. cbn [reqs].
    rewrite deciding_return in * by done. destruct (postpone_guard h (queue s)) eqn:Hg; simpl in *; [|lia].
    case_bool_decide as E; [subst h'|lia].
    apply andb_true_iff in Hg as [_ Hg%bool_decide_eq_true]. unfold inflight in *. lia.
  - pose proof (λ h', end_numbers s id h _ h' Hid) as Hi.
    split; [| |pose proof (size_reqs_delete s id); sys_simpl; lia]; intros h'; pose proof (Hl h'); pose proof (Hh h');
      numbers; rewrite Hi, Count_Postpone, ?(deciding_delete _ _ h true) by done; simpl;
      case_decide; try case_bool_decide; try done; lia.
  - apply bounded_resize; [done|pose proof (size_reqs_delete s id); lia| | |lia].
    + intros h'. by eapply end_numbers.
    + intros h'. rewrite (deciding_delete _ _ h false) by done. unfold deciding. simpl. lia.
Qed.

Lemma bounded_step s s' : Bounded s → step max_requests s s' → Bounded s'.
Proof.
  intros HB Hs. destruct Hs as [s s' Hr|s now He|s hs He]; [by eapply bounded_rstep|by destruct HB|].
  destruct HB as [Hl Hh Hz]. split; [| |done]; intros h; pose proof (Hl h); pose proof (Hh h);
    pose proof (deciding_le s h); pose proof (inflight_le_size s h);
    numbers; rewrite Count_apply; case_decide; lia.
Qed.

Lemma bounded_reachable d b s : rtc (step max_requests) (initial d b) s → Bounded s.
Proof.
  intros Hr. remember (initial d b) as s0. assert (Bounded s0) as HB by (subst; apply bounded_initial).
  clear Heqs0. induction Hr; eauto using bounded_step.
Qed.
End bounds.

(** ** A count that has fallen behind *)

Section behind.
Context (max_requests : Z) (Hmax : 0 ≤ max_requests < 2 ^ 63 - 1) (h : string) (k : Z).

(** The host is [k] below its requests in flight, and nothing is under way that
    would set its count. *)
Record Behind (s : sys) : Prop := {
  bh_drift : drift s h = - k;
  bh_deciding : deciding s h = 0;
  bh_postponed : postponedResizes (queue s) !! h = None;
  bh_enforcer : ∀ hs, enforcer s = Some hs → h ∉ hs;
}.

(** The steps of a run in which at most [k] requests of the host are in flight
    at a time. *)
Definition light (s s' : sys) : Prop := step max_requests s s' ∧ inflight s' h ≤ k.

Lemma behind_step s s' :
  Bounded max_requests s → Behind s → inflight s h ≤ k → light s s' → Behind s'.
Proof.
  intros HB [Hd Hdec Hp He] Hk [Hs Hk']. pose proof HB as [_ _ Hz]. destruct Hs as [s s' Hr|s now Hn|s hs Hn].
  - destruct Hr as [s id h0 Hid Hsz|s id h0 Hid|s id h0 now Hid|s id h0 Hid]; split; sys_simpl; try done.
    + pose proof (begin_numbers s id h0 h Hid) as Hi. numbers.
      rewrite (resize_count max_requests Hmax s h0 1 (<[id := (h0, Serving)]> (reqs s)) HB), Hi; [case_decide; lia| | |lia].
      * rewrite size_reqs_insert by done. lia.
      * rewrite begin_numbers by done. by rewrite decide_True.
    + unfold deciding; sys_simpl. by rewrite deciding_begin.
    + unfold drift, inflight; sys_simpl. by rewrite (abs_rephase _ _ _ Serving).
    + unfold deciding; sys_simpl. rewrite deciding_return by done.
      destruct (postpone_guard h0 (queue s)) eqn:Hg; simpl; [|unfold deciding in Hdec; lia].
      case_bool_decide as E; [subst h0|unfold deciding in Hdec; lia].
      apply andb_true_iff in Hg as [_ Hg%bool_decide_eq_true]. unfold drift in Hd. lia.
    + pose proof (end_numbers s id h0 _ h Hid) as Hi. numbers. rewrite Count_Postpone, Hi.
      case_decide as E; [subst h0; pose proof (deciding_pos _ _ _ Hid)|]; numbers; lia.
    + unfold deciding in *; sys_simpl. rewrite (deciding_delete _ _ h0 true) by done. simpl. case_bool_decide as E; [|lia].
      subst h0. pose proof (deciding_pos _ _ _ Hid). numbers. lia.
    + change (<[h0 := now + PostponeDuration (queue s)]> (postponedResizes (queue s)) !! h = None).
      rewrite lookup_insert_ne; [done|]. intros ->. pose proof (deciding_pos _ _ _ Hid). lia.
    + pose proof (end_numbers s id h0 _ h Hid) as Hi. numbers.
      rewrite (resize_count max_requests Hmax s h0 (-1) (delete id (reqs s)) HB), Hi; [case_decide; lia| | |lia].
      * pose proof (size_reqs_delete s id). lia.
      * rewrite (end_numbers s id h0 (Deciding false)) by done. by rewrite decide_True.
    + unfold deciding; sys_simpl. rewrite (deciding_delete _ _ h0 false) by done. unfold deciding in Hdec. simpl. lia.
  - split; sys_simpl; try done. intros hs [= <-] (t & Ht & _)%elem_of_scan. congruence.
  - pose proof (He _ Hn) as Hh. split; sys_simpl; [|done| |done].
    + unfold drift, inflight in *; sys_simpl. by rewrite Count_apply, decide_False.
    + by rewrite postponed_apply, decide_False.
Qed.

Lemma behind_run s s' :
  Bounded max_requests s → Behind s → inflight s h ≤ k → rtc light s s' → Behind s' ∧ inflight s' h ≤ k.
Proof.
  intros HB Hb Hk Hr. induction Hr as [|s s1 s2 H1 _ IH]; [done|].
  apply IH; [by eapply bounded_step, H1|by eapply behind_step|by apply H1].
Qed.
End behind.

(** ** Properties *)

(** C27: bounds. Under every interleaving of requests and enforcer phases, with
    the cooldown on or off, the count of a host is at most one above the number
    of its requests in flight, and below it by no more than the number of
    requests the process can hold; so the 64-bit counter never wraps around, and
    an idle host never counts more than one. *)
Theorem count_drift_bounded (max_requests : Z) (d : Duration) (b : bool) (s : sys) (h : string) :
  0 ≤ max_requests < 2 ^ 63 - 1 →
  rtc (step max_requests) (initial d b) s →
  inflight s h - max_requests ≤ Count h (queue s) ≤ inflight s h + 1
  ∧ in_int64 (Count h (queue s)).
Proof.
  intros Hmax Hr. destruct (bounded_reachable _ Hmax _ _ _ Hr) as [Hl Hh Hz].
  pose proof (Hl h). pose proof (Hh h). pose proof (deciding_nonneg s h). pose proof (inflight_le_size s h).
  pose proof (host_count_nonneg (pending (abs s)) h). unfold drift, inflight, in_int64 in *. lia.
Qed.

(** The schedule of the race: the enforcer has collected the host when a request
    begins, and resets it. *)
Definition race_scanned : sys :=
  mkSys (queue demo_cooling) (reqs demo_cooling) (Some (scanPostponed (λ _, 100) (queue demo_cooling))).
Definition race_applied : sys :=
  mkSys (applyPostponed [demo_host] (queue (demo_begin 1 race_scanned))) (reqs (demo_begin 1 race_scanned)) None.

Lemma race_reached : rtc (step 100) (initial 20 true) race_applied.
Proof.
  etransitivity; [apply rtc_rstep_step, demo_cooling_steps|].
  eapply rtc_l; [by apply (step_scan 100 demo_cooling (λ _, 100))|].
  eapply rtc_l; [apply step_request, (step_begin 100 race_scanned 1 demo_host); by vm_compute|].
  eapply rtc_l; [by apply (step_apply 100 (demo_begin 1 race_scanned) [demo_host])|apply rtc_refl].
Qed.

Lemma count_drift_bounded_witness :
  -99 ≤ Count demo_host (queue race_applied) ≤ 2 ∧ in_int64 (Count demo_host (queue race_applied)).
Proof. exact (count_drift_bounded 100 20 true race_applied demo_host ltac:(lia) race_reached). Defined.

(** C40: error. A lost count is not repaired: once a host has fallen [k] behind,
    with no unit left to the cooldown, it stays exactly [k] behind in every run
    in which at most [k] of its requests are in flight at a time, enforcer
    rounds included; its count is then never positive, however many requests
    come and go. *)
Theorem lost_count_persists (max_requests : Z) (d : Duration) (b : bool) (s s' : sys) (h : string) (k : Z) :
  0 ≤ max_requests < 2 ^ 63 - 1 →
  rtc (step max_requests) (initial d b) s →
  Count h (queue s) = inflight s h - k → inflight s h ≤ k →
  deciding s h = 0 → postponedResizes (queue s) !! h = None → (∀ hs, enforcer s = Some hs → h ∉ hs) →
  rtc (light max_requests h k) s s' →
  Count h (queue s') = inflight s' h - k ∧ Count h (queue s') ≤ 0.
Proof.
  intros Hmax Hr Hc Hk Hd Hp He Hrun.
  destruct (behind_run max_requests Hmax h k s s') as [[Hdr _ _ _] Hk']; [| |done|done|].
  - by eapply bounded_reachable.
  - split; [unfold drift; lia|done..].
  - unfold drift in Hdr. lia.
Qed.

(** The request that was wiped out finishes, and the next one is not counted
    while it is served. *)
Definition race_done : sys := demo_decrement 1 (demo_return 1 race_applied).

Lemma race_run : rtc (light 100 demo_host 1) race_applied (demo_begin 2 race_done).
Proof.
  eapply rtc_l; [split; [apply step_request, (step_return 100 race_applied 1 demo_host)|]; by vm_compute|].
  eapply rtc_l; [split; [apply step_request, (step_decrement 100 (demo_return 1 race_applied) 1 demo_host)|]; by vm_compute|].
  eapply rtc_l; [split; [apply step_request, (step_begin 100 race_done 2 demo_host)|]; by vm_compute|].
  apply rtc_refl.
Qed.

Lemma lost_count_persists_witness :
  inflight (demo_begin 2 race_done) demo_host = 1
  ∧ Count demo_host (queue (demo_begin 2 race_done)) = inflight (demo_begin 2 race_done) demo_host - 1
  ∧ Count demo_host (queue (demo_begin 2 race_done)) ≤ 0.
Proof.
  split; [by vm_compute|].
  apply (lost_count_persists 100 20 true race_applied _ demo_host 1 ltac:(lia) race_reached);
    [by vm_compute..|done|exact race_run].
Defined.
