(* ===== verification/Routing.v ===== *)
(** * Routing targets and the routing table (pkg/routing/target.go, table.go)

    A [Table] guards one Go map with a read-write lock; every method holds the
    lock for its whole body, so each is one atomic step. The map is nil
    ([None]) after a JSON [null] was decoded into it: reads then find nothing
    and a write panics. *)

From S2P Require Import Prelude GoStrings GoUrl.

(** ** Targets *)

Record Target : Type := mkTarget {
  Service : string;
  Port : Z;
  Deployment : string;
  Namespace : string;
  TargetPendingRequests : Z;
}.

#[export] Instance Target_eq_dec : EqDecision Target.
Proof. solve_decision. Defined.

Definition NewTarget (namespace svc : string) (port : Z) (depl : string)
    (targetPendingReqs : Z) : Target :=
  mkTarget svc port depl namespace targetPendingReqs.

(** [fmt.Sprintf("http://%s.%s:%d", ...)], parsed. *)
Definition service_url_string (t : Target) : string :=
  "http://" +:+ (Service t +:+ "." +:+ Namespace t) +:+ ":" +:+ Itoa (Port t).

Definition ServiceURL (t : Target) : res URL := url_Parse (service_url_string t).

(** ** The table *)

Record Table : Type := mkTable { table_map : option (gmap string Target) }.

#[export] Instance Table_eq_dec : EqDecision Table.
Proof. solve_decision. Defined.

Definition NewTable : Table := mkTable (Some ∅).

(** Reading a nil map is reading an empty one. *)
Definition entries (t : Table) : gmap string Target := default ∅ (table_map t).

Definition Hosts (t : Table) : list string := (map_to_list (entries t)).*1.

Definition HasHost (host : string) (t : Table) : bool :=
  bool_decide (is_Some (entries t !! host)).

(** The keys [Lookup] tries, in order: the host, then the host without what
    follows its last colon. *)
Definition lookup_keys (host : string) : list string :=
  host :: match LastIndex ":" host with
          | Some i => [str_take i host]
          | None => []
          end.

Fixpoint lookup_first (m : gmap string Target) (keys : list string) : res Target :=
  match keys with
  | [] => Err ErrTargetNotFound
  | key :: keys =>
      match m !! key with
      | Some target => Ok target
      | None => lookup_first m keys
      end
  end.

Definition Lookup (host : string) (t : Table) : res Target :=
  lookup_first (entries t) (lookup_keys host).

Definition AddTarget (host : string) (target : Target) (t : Table) : res unit * Table :=
  match entries t !! host with
  | Some _ => (Err (Errorf ("host " +:+ host +:+ " is already registered in the routing table")), t)
  | None =>
      match table_map t with
      | Some m => (Ok tt, mkTable (Some (<[host := target]> m)))
      | None => (Panic "assignment to entry in nil map", t)
      end
  end.

Definition RemoveTarget (host : string) (t : Table) : res unit * Table :=
  match entries t !! host with
  | None => (Err (Errorf ("host " +:+ host +:+ " did not exist in the routing table")), t)
  | Some _ => (Ok tt, mkTable (delete host <$> table_map t))
  end.

(** The new table's map is shared, not copied; no caller keeps [newTable]. *)
Definition Replace (newTable t : Table) : Table := mkTable (table_map newTable).

(** ** What a reader of the table relies on

    The scaler takes any [TableReader]; its theorems are stated for one that
    agrees with a finite map. *)

Class TableReader (T : Type) : Type := {
  tr_Lookup : T → string → res Target;
  tr_Hosts : T → list string;
  tr_HasHost : T → string → bool;
}.

Class TableReaderLaws (T : Type) `{TableReader T} (tr_model : T → gmap string Target) : Prop := {
  tr_Lookup_spec t h : tr_Lookup t h = lookup_first (tr_model t) (lookup_keys h);
  tr_Hosts_spec t h : h ∈ tr_Hosts t ↔ is_Some (tr_model t !! h);
  tr_HasHost_spec t h : tr_HasHost t h = bool_decide (is_Some (tr_model t !! h));
}.

#[export] Instance Table_reader : TableReader Table := {
  tr_Lookup := λ t h, Lookup h t;
  tr_Hosts := Hosts;
  tr_HasHost := λ t h, HasHost h t;
}.

(** ** Lemmas *)

Section lemmas.
Implicit Types (t : Table) (h : string).

Lemma elem_of_Hosts t h : h ∈ Hosts t ↔ is_Some (entries t !! h).
Proof.
  unfold Hosts. rewrite list_elem_of_fmap. split.
  - intros ([h' x] & -> & Hx%elem_of_map_to_list). eauto.
  - intros [x Hx]. exists (h, x). split; [done|]. by apply elem_of_map_to_list.
Qed.

Lemma Hosts_NoDup t : NoDup (Hosts t).
Proof. apply NoDup_fst_map_to_list. Qed.

Lemma lookup_keys_plain h : no_char ":" h → lookup_keys h = [h].
Proof. intros H. unfold lookup_keys. by rewrite (proj2 (LastIndex_None ":" h) H). Qed.

Lemma lookup_keys_port h p : no_char ":" p → lookup_keys (h +:+ ":" +:+ p) = [h +:+ ":" +:+ p; h].
Proof.
  intros H. unfold lookup_keys. change (":" +:+ p) with (String ":" p).
  by rewrite LastIndex_app, str_take_app.
Qed.

Lemma lookup_first_one m h :
  lookup_first m [h] = match m !! h with Some x => Ok x | None => Err ErrTargetNotFound end.
Proof. simpl. by destruct (m !! h). Qed.

Lemma Lookup_plain t h :
  no_char ":" h →
  Lookup h t = match entries t !! h with Some x => Ok x | None => Err ErrTargetNotFound end.
Proof. intros H. unfold Lookup. by rewrite lookup_keys_plain, lookup_first_one. Qed.

Lemma Lookup_no_panic h t : is_panic (Lookup h t) = false.
Proof. unfold Lookup. induction (lookup_keys h) as [|k l IH]; [done|]. simpl. by destruct (_ !! k). Qed.

(** On the operator's tables, whose map is never nil, [AddTarget] and
    [RemoveTarget] are insertion and deletion. *)
Lemma AddTarget_entries t h x :
  table_map t ≠ None →
  entries (snd (AddTarget h x t))
  = if decide (is_Some (entries t !! h)) then entries t else <[h := x]> (entries t).
Proof.
  intros Ht. unfold AddTarget. destruct (entries t !! h) eqn:E; simpl; [done|].
  unfold entries in *. by destruct (table_map t).
Qed.

Lemma AddTarget_not_nil t h x :
  table_map t ≠ None → table_map (snd (AddTarget h x t)) ≠ None.
Proof.
  intros Ht. unfold AddTarget. destruct (entries t !! h); [done|]. by destruct (table_map t).
Qed.

Lemma AddTarget_no_panic t h x :
  table_map t ≠ None → is_panic (fst (AddTarget h x t)) = false.
Proof.
  intros Ht. unfold AddTarget. destruct (entries t !! h); [done|]. by destruct (table_map t).
Qed.

Lemma RemoveTarget_entries t h :
  entries (snd (RemoveTarget h t)) = delete h (entries t).
Proof.
  unfold RemoveTarget. destruct (entries t !! h) eqn:E; simpl.
  - unfold entries in *. by destruct (table_map t).
  - by rewrite delete_id.
Qed.

Lemma RemoveTarget_not_nil t h :
  table_map t ≠ None → table_map (snd (RemoveTarget h t)) ≠ None.
Proof.
  intros Ht. unfold RemoveTarget. destruct (entries t !! h); [|done]. simpl.
  by destruct (table_map t).
Qed.

Lemma RemoveTarget_no_panic t h : is_panic (fst (RemoveTarget h t)) = false.
Proof. unfold RemoveTarget. by destruct (entries t !! h). Qed.
End lemmas.

#[export] Instance Table_reader_laws : TableReaderLaws Table entries.
Proof. split; [done | apply elem_of_Hosts | done]. Qed.

(** ** Properties *)

(** [Lookup] prefers an exact entry: with a port in the host,
    the entry for [host:port] wins, then the entry for the bare host; without
    either the error is [ErrTargetNotFound]. *)
Theorem Lookup_with_port (t : Table) (h p : string) :
  no_char ":" p →
  Lookup (h +:+ ":" +:+ p) t =
  match entries t !! (h +:+ ":" +:+ p), entries t !! h with
  | Some x, _ => Ok x
  | None, Some x => Ok x
  | None, None => Err ErrTargetNotFound
  end.
Proof.
  intros H. unfold Lookup. rewrite lookup_keys_port by done. simpl.
  destruct (entries t !! _); [done|]. by destruct (entries t !! h).
Qed.

Definition demo_target : Target := NewTarget "dp-1" "app" 8080 "app-depl" 100.

Lemma Lookup_with_port_witness :
  Lookup "app.dp-1:80" (mkTable (Some {["app.dp-1" := demo_target]})) = Ok demo_target.
Proof.
  etransitivity;
    [apply (Lookup_with_port (mkTable (Some {["app.dp-1" := demo_target]})) "app.dp-1" "80") |];
    by vm_compute.
Defined.

(** [AddTarget] registers a target only for a host that has
    none: then a [Lookup] of that host finds it and no other entry changes; a
    host already registered keeps its old target and the call fails. *)
Theorem AddTarget_first_wins (t : Table) (h : string) (x : Target) :
  table_map t ≠ None →
  (entries t !! h = None →
     AddTarget h x t = (Ok tt, mkTable (Some (<[h := x]> (entries t))))
     ∧ Lookup h (snd (AddTarget h x t)) = Ok x)
  ∧ (∀ y, entries t !! h = Some y →
     AddTarget h x t
     = (Err (Errorf ("host " +:+ h +:+ " is already registered in the routing table")), t)
     ∧ Lookup h (snd (AddTarget h x t)) = Ok y).
Proof.
  intros Ht. unfold AddTarget. split.
  - intros Hn. rewrite Hn. unfold entries in *.
    destruct (table_map t) as [m|]; [|done]. simpl in *. split; [done|].
    unfold Lookup, entries. simpl. by rewrite lookup_insert_eq.
  - intros y Hy. rewrite Hy. split; [done|]. unfold Lookup; simpl. by rewrite Hy.
Qed.

Lemma AddTarget_first_wins_witness :
  Lookup "app.dp-1" (snd (AddTarget "app.dp-1" demo_target NewTable)) = Ok demo_target.
Proof.
  apply (proj1 (AddTarget_first_wins NewTable "app.dp-1" demo_target ltac:(done))). done.
Defined.

(** A name made of letters, digits, [-], [_] and [.] with a
    port from 0 up gives the service URL [http://svc.ns:port], with nothing but
    a host in it. *)
Theorem ServiceURL_ok (t : Target) :
  str_all name_char (Service t +:+ "." +:+ Namespace t) = true →
  0 ≤ Port t →
  ServiceURL t
  = Ok (mkURL "http" "" None (Service t +:+ "." +:+ Namespace t +:+ ":" +:+ Itoa (Port t)) "" "" "").
Proof.
  intros Hn Hp. unfold ServiceURL, service_url_string.
  set (name := Service t +:+ "." +:+ Namespace t) in *.
  assert (str_all is_digit (Itoa (Port t)) = true) as Hd.
  { unfold Itoa. rewrite decide_False by lia. apply digits_all_digits. }
  rewrite url_Parse_authority.
  - rewrite parseHost_name; [simpl; f_equal; f_equal; unfold name; by rewrite <-!app_assoc_str | done | | done].
    unfold name. by destruct (Service t).
  - rewrite str_all_app. apply andb_true_iff. split.
    + revert Hn. apply str_all_impl, ascii_impl. by vm_compute.
    + revert Hd. simpl. apply str_all_impl, ascii_impl. by vm_compute.
Qed.

Lemma ServiceURL_ok_witness :
  ServiceURL demo_target = Ok (mkURL "http" "" None "app.dp-1:8080" "" "" "").
Proof. etransitivity; [apply ServiceURL_ok; by vm_compute | by vm_compute]. Defined.
