(* ===== verification/ConfigMaps.v ===== *)
(** * The routing table in its ConfigMap (pkg/routing: table.go JSON, config_map.go, table_rpc.go, config_map_updater.go)

    The operator writes its table as JSON under one key of a ConfigMap; the
    interceptors and the scaler read it back, once at start and then on every
    change. *)

From S2P Require Import Prelude GoStrings GoUrl Json Http Queue QueueRpc Routing.

(** ** ConfigMaps *)

(** [Data] is a Go map and is nil ([None]) for a ConfigMap without data. *)
Record ConfigMap : Type := mkConfigMap {
  cm_Namespace : string;
  cm_Name : string;
  cm_Data : option (gmap string string);
}.

#[export] Instance ConfigMap_eq_dec : EqDecision ConfigMap.
Proof. solve_decision. Defined.

Definition ConfigMapRoutingTableName : string := "keda-http-add-on-routing-table".
Definition configMapRoutingTableKey : string := "routing-table".

(** ** Tables as JSON *)

Definition enc_target (t : Target) : json :=
  JObj [("Service", JStr (Service t)); ("Port", JNum (Itoa (Port t)));
        ("Deployment", JStr (Deployment t)); ("Namespace", JStr (Namespace t));
        ("TargetPendingRequests", JNum (Itoa (TargetPendingRequests t)))].

Inductive field : Type := FService | FPort | FDeployment | FNamespace | FTarget.

(** Go's case-insensitive match of a key with a field name: ASCII case, and the
    long s and the Kelvin sign for [s] and [k]. *)
Fixpoint fold_key (s : string) : string :=
  match s with
  | EmptyString => ""
  | String a s1 =>
      match s1 with
      | String b s2 =>
          if decide (a = ascii_of_nat 197 ∧ b = ascii_of_nat 191) then String "s" (fold_key s2)
          else match s2 with
               | String c s3 =>
                   if decide (a = ascii_of_nat 226 ∧ b = ascii_of_nat 132 ∧ c = ascii_of_nat 170)
                   then String "k" (fold_key s3)
                   else String (lower a) (fold_key s1)
               | EmptyString => String (lower a) (fold_key s1)
               end
      | EmptyString => String (lower a) ""
      end
  end.

Definition field_of (key : string) : option field :=
  let k := fold_key key in
  if decide (k = "service") then Some FService
  else if decide (k = "port") then Some FPort
  else if decide (k = "deployment") then Some FDeployment
  else if decide (k = "namespace") then Some FNamespace
  else if decide (k = "targetpendingrequests") then Some FTarget
  else None.

Definition set_field (t : Target) (f : field) (j : json) : Target * option error :=
  let '(mkTarget svc port depl ns tpr) := t in
  match f with
  | FService => let '(v, e) := dec_string svc j in (mkTarget v port depl ns tpr, e)
  | FPort => let '(v, e) := dec_int 64 port j in (mkTarget svc v depl ns tpr, e)
  | FDeployment => let '(v, e) := dec_string depl j in (mkTarget svc port v ns tpr, e)
  | FNamespace => let '(v, e) := dec_string ns j in (mkTarget svc port depl v tpr, e)
  | FTarget => let '(v, e) := dec_int 32 tpr j in (mkTarget svc port depl ns v, e)
  end.

Fixpoint dec_fields (t : Target) (l : list (string * json)) : Target * option error :=
  match l with
  | [] => (t, None)
  | (k, j) :: l =>
      match field_of k with
      | None => dec_fields t l
      | Some f =>
          let '(t', e) := set_field t f j in
          let '(t'', e') := dec_fields t' l in
          (t'', first_error e e')
      end
  end.

Definition zero_target : Target := mkTarget "" 0 "" "" 0.

Definition dec_target (j : json) : Target * option error :=
  match j with
  | JNull => (zero_target, None)
  | JObj l => dec_fields zero_target l
  | _ => (zero_target, Some (type_error "routing.Target"))
  end.

Definition table_json (t : Table) : json :=
  match table_map t with
  | None => JNull
  | Some m => enc_map enc_target m
  end.

Definition newline : string := String "010" "".

Definition MarshalJSON (t : Table) : res string := Ok (print_json (table_json t) +:+ newline).

Definition UnmarshalJSON (data : string) (t : Table) : res unit * Table :=
  match decode_stream data with
  | Err e => (Err e, mkTable (Some ∅))
  | Panic p => (Panic p, mkTable (Some ∅))
  | Ok j =>
      let '(m, e) := dec_map dec_target ∅ j in
      (match e with Some e => Err e | None => Ok tt end, mkTable m)
  end.

(** ** ConfigMap and table *)

Definition SaveTableToConfigMap (table : Table) (configMap : ConfigMap) : res ConfigMap :=
  tableAsJSON ← MarshalJSON table;
  match cm_Data configMap with
  | None => Panic "assignment to entry in nil map"
  | Some d =>
      Ok (mkConfigMap (cm_Namespace configMap) (cm_Name configMap)
            (Some (<[configMapRoutingTableKey := tableAsJSON]> d)))
  end.

Definition FetchTableFromConfigMap (configMap : ConfigMap) : res Table :=
  match default ∅ (cm_Data configMap) !! configMapRoutingTableKey with
  | None => Err (Errorf ("no '" +:+ configMapRoutingTableKey +:+ "' key found in the "
                         +:+ ConfigMapRoutingTableName +:+ " ConfigMap"))
  | Some data =>
      match UnmarshalJSON data NewTable with
      | (Ok _, ret) => Ok ret
      | (Err e, _) => Err (Wrap e ("error decoding '" +:+ configMapRoutingTableKey +:+ "' key in "
                                   +:+ ConfigMapRoutingTableName +:+ " ConfigMap"))
      | (Panic p, _) => Panic p
      end
  end.

(** [GetTable]: [getter] is the Kubernetes client. The queue is an argument of
    the Go function too, and comes back as it went in. *)
Definition GetTable (getter : string → res ConfigMap) (table : Table) (q : Memory) :
    res unit * (Table * Memory) :=
  match map_err (λ e, Wrap e ("failed to fetch ConfigMap " +:+ ConfigMapRoutingTableName))
          (getter ConfigMapRoutingTableName) with
  | Err e => (Err e, (table, q))
  | Panic p => (Panic p, (table, q))
  | Ok cm =>
      match map_err (λ e, Wrap e ("failed decoding ConfigMap " +:+ ConfigMapRoutingTableName
                                  +:+ " into a routing table")) (FetchTableFromConfigMap cm) with
      | Err e => (Err e, (table, q))
      | Panic p => (Panic p, (table, q))
      | Ok newTable => (Ok tt, (Replace newTable table, q))
      end
  end.

(** [FakeConfigMapGetter.Get] of pkg/k8s/config_map_fake.go. *)
Definition FakeConfigMapGetter_Get (cm : ConfigMap) (err : option error) (name : string) : res ConfigMap :=
  match err with Some e => Err e | None => Ok cm end.

(** ** The RPC routes *)

Definition routingPingPath : string := "/routing_ping".
Definition routingFetchPath : string := "/routing_table".

(** The handler [AddFetchRoute] installs: encoding a table cannot fail. *)
Definition tableHandler (table : Table) (w : ResponseWriter) : ResponseWriter :=
  Write (print_json (table_json table) +:+ newline) w.

(** The handler [AddPingRoute] installs. *)
Definition pingHandler (getter : string → res ConfigMap) (table : Table) (q : Memory)
    (w : ResponseWriter) : res ResponseWriter * (Table * Memory) :=
  match GetTable getter table q with
  | (Err _, s) => (Ok (reply 500 "error fetching routing table" w), s)
  | (Panic p, s) => (Panic p, s)
  | (Ok _, (table', q')) =>
      (Ok (Write (print_json (table_json table') +:+ newline) (WriteHeader 200 w)), (table', q'))
  end.

(** ** The updater loop *)

(** What a receive in the [select] yields: an event whose object is a
    ConfigMap, one whose object is not (the zero event of a closed channel
    too), or the end of the context. *)
Inductive updater_input : Type :=
| EventConfigMap (cm : ConfigMap)
| EventOther
| ContextDone (err : error).

(** The loop is still waiting, or has returned. *)
Inductive loop (A : Type) : Type :=
| Waiting
| Returned (r : res A).
Arguments Waiting {A}.
Arguments Returned {A} r.

Section updater.
(** The state the callback changes. *)
Context {W : Type} (cbFunc : option (W → res unit * W)).

Definition run_callback (w : W) : res unit * W :=
  match cbFunc with Some cb => cb w | None => (Ok tt, w) end.

(** One iteration of the loop. *)
Definition updater_step (i : updater_input) (table : Table) (w : W) : loop unit * (Table * W) :=
  match i with
  | ContextDone err => (Returned (Err (Wrap err "context is done")), (table, w))
  | EventOther => (Waiting, (table, w))
  | EventConfigMap cm =>
      match FetchTableFromConfigMap cm with
      | Err e => (Returned (Err e), (table, w))
      | Panic p => (Returned (Panic p), (table, w))
      | Ok newTable =>
          let table := Replace newTable table in
          match run_callback w with
          | (Panic p, w) => (Returned (Panic p), (table, w))
          | (_, w) => (Waiting, (table, w))
          end
      end
  end.

Fixpoint updater_loop (ins : list updater_input) (table : Table) (w : W) : loop unit * (Table * W) :=
  match ins with
  | [] => (Waiting, (table, w))
  | i :: ins =>
      match updater_step i table w with
      | (Waiting, (table, w)) => updater_loop ins table w
      | r => r
      end
  end.

(** [StartConfigMapRoutingTableUpdater]: the watch is opened first; the loop
    runs until it returns, and its error is the one reported. *)
Definition StartConfigMapRoutingTableUpdater (watch : res unit) (ins : list updater_input)
    (table : Table) (w : W) : loop unit * (Table * W) :=
  match watch with
  | Ok _ => updater_loop ins table w
  | Err e => (Returned (Err e), (table, w))
  | Panic p => (Returned (Panic p), (table, w))
  end.
End updater.

(** ** Lemmas *)

(** Targets and tables that JSON carries: UTF-8 strings, integers of their
    width, a map that is not nil. *)
Definition target_ok (t : Target) : Prop :=
  valid_utf8 (Service t) ∧ valid_utf8 (Deployment t) ∧ valid_utf8 (Namespace t)
  ∧ in_int64 (Port t) ∧ in_int32 (TargetPendingRequests t).

Definition table_ok (t : Table) : Prop :=
  ∃ m, table_map t = Some m ∧ map_Forall (λ h x, valid_utf8 h ∧ target_ok x) m.

Lemma dec_int_Itoa w old z :
  w ≤ 64 → - 2 ^ (w - 1) ≤ z < 2 ^ (w - 1) → dec_int w old (JNum (Itoa z)) = (z, None).
Proof.
  intros Hw Hz. assert (2 ^ (w - 1) ≤ 2 ^ (64 - 1)) by (apply Z.pow_le_mono_r; lia).
  unfold dec_int. rewrite ParseInt_Itoa by lia. by rewrite decide_True.
Qed.

#[local] Arguments dec_int : simpl never.

Lemma dec_enc_target t : target_ok t → dec_target (enc_target t) = (t, None).
Proof.
  intros (_ & _ & _ & Hp & Hr). destruct t as [svc port depl ns tpr]. simpl in *.
  unfold dec_target, enc_target; cbn [Service Port Deployment Namespace TargetPendingRequests].
  cbn [dec_fields].
  replace (field_of "Service") with (Some FService) by done.
  replace (field_of "Port") with (Some FPort) by done.
  replace (field_of "Deployment") with (Some FDeployment) by done.
  replace (field_of "Namespace") with (Some FNamespace) by done.
  replace (field_of "TargetPendingRequests") with (Some FTarget) by done.
  cbn [set_field zero_target dec_string].
  rewrite (dec_int_Itoa 64) by (unfold in_int64 in Hp; lia).
  cbn [set_field dec_string first_error].
  by rewrite (dec_int_Itoa 32) by (unfold in_int32 in Hr; lia).
Qed.

(** Proves that a concrete ASCII string is UTF-8. *)
Ltac solve_utf8 := repeat (apply utf8_one; [vm_compute; lia|]); apply utf8_nil.

Lemma wf_enc_target t : target_ok t → wf_json (enc_target t).
Proof.
  intros (? & ? & ? & _ & _). unfold enc_target. constructor.
  repeat (apply Forall_cons; split; [split; [simpl; solve_utf8 | by constructor]|]).
  by apply Forall_nil.
Qed.

Lemma table_ok_json t :
  table_ok t →
  wf_json (table_json t) ∧ (∃ l, table_json t = JObj l)
  ∧ dec_map dec_target ∅ (table_json t) = (table_map t, None).
Proof.
  intros (m & Hm & Hok). unfold table_json. rewrite Hm. split_and!.
  - apply wf_enc_map. eapply map_Forall_impl; [exact Hok|].
    intros h x [??]. eauto using wf_enc_target.
  - by eexists.
  - apply dec_enc_map. intros h x Hx. apply dec_enc_target. by apply Hok in Hx as [_ ?].
Qed.

Lemma UnmarshalJSON_MarshalJSON t t0 :
  table_ok t → UnmarshalJSON (print_json (table_json t) +:+ newline) t0 = (Ok tt, t).
Proof.
  intros (Hwf & Hobj & Hdec)%table_ok_json. unfold UnmarshalJSON.
  rewrite decode_stream_print by done. rewrite Hdec. by destruct t.
Qed.

Lemma Fetch_Save_aux t cm cm' :
  table_ok t → SaveTableToConfigMap t cm = Ok cm' → FetchTableFromConfigMap cm' = Ok t.
Proof.
  intros Ht Hs. unfold SaveTableToConfigMap in Hs. cbn [MarshalJSON mbind res_bind] in Hs.
  destruct (cm_Data cm) as [d|]; [|done]. injection Hs as <-.
  unfold FetchTableFromConfigMap. cbn [cm_Data default].
  simpl. rewrite lookup_insert_eq. by rewrite UnmarshalJSON_MarshalJSON.
Qed.

Lemma updater_step_good {W} (cb : option (W → res unit * W)) cm t t0 w :
  FetchTableFromConfigMap cm = Ok t →
  is_panic (fst (run_callback cb w)) = false →
  updater_step cb (EventConfigMap cm) t0 w = (Waiting, (t, snd (run_callback cb w))).
Proof.
  intros Hf Hp. unfold updater_step. rewrite Hf. unfold Replace.
  destruct (run_callback cb w) as [[[]|e|p] w']; try done; by destruct t.
Qed.

(** The last table delivered among the inputs, when each ConfigMap of them
    decodes. *)
Fixpoint last_table (ins : list updater_input) (t : Table) : Table :=
  match ins with
  | [] => t
  | EventConfigMap cm :: ins =>
      match FetchTableFromConfigMap cm with Ok t' => last_table ins t' | _ => last_table ins t end
  | _ :: ins => last_table ins t
  end.

Definition input_good (i : updater_input) : bool :=
  match i with
  | EventConfigMap cm => is_ok (FetchTableFromConfigMap cm)
  | EventOther => true
  | ContextDone _ => false
  end.

(** ** Properties *)

(** C20: roundtrip. What the operator saves into the ConfigMap is what a reader
    fetches: [FetchTableFromConfigMap] after [SaveTableToConfigMap] gives the
    same table, and every other key of the ConfigMap is left alone. *)
Theorem Fetch_Save (t : Table) (cm : ConfigMap) (d : gmap string string) :
  table_ok t → cm_Data cm = Some d →
  ∃ cm', SaveTableToConfigMap t cm = Ok cm'
  ∧ FetchTableFromConfigMap cm' = Ok t
  ∧ (∀ k, k ≠ configMapRoutingTableKey → default ∅ (cm_Data cm') !! k = d !! k)
  ∧ cm_Name cm' = cm_Name cm ∧ cm_Namespace cm' = cm_Namespace cm.
Proof.
  intros Ht Hd. eexists. split.
  - unfold SaveTableToConfigMap. cbn [MarshalJSON mbind res_bind]. by rewrite Hd.
  - split.
    + eapply Fetch_Save_aux; [done|]. unfold SaveTableToConfigMap.
      cbn [MarshalJSON mbind res_bind]. by rewrite Hd.
    + split; [|done]. intros k Hk. simpl. by rewrite lookup_insert_ne.
Qed.

Definition demo_table : Table := mkTable (Some {["app.dp-1" := demo_target]}).
Definition demo_cm : ConfigMap := mkConfigMap "keda" ConfigMapRoutingTableName (Some ∅).

Lemma demo_table_ok : table_ok demo_table.
Proof.
  eexists. split; [done|]. apply map_Forall_singleton.
  split; [solve_utf8|]. split_and!; simpl; try solve_utf8; vm_compute; intuition congruence.
Qed.

Lemma Fetch_Save_witness :
  ∃ cm', SaveTableToConfigMap demo_table demo_cm = Ok cm'
  ∧ FetchTableFromConfigMap cm' = Ok demo_table.
Proof.
  destruct (Fetch_Save demo_table demo_cm ∅ demo_table_ok eq_refl) as (cm' & ? & ? & _).
  eauto.
Defined.

(** Saving into a ConfigMap whose data map is nil crashes, whatever
    the table: [SaveTableToConfigMap] writes to [configMap.Data] without making
    the map. It never returns an error. *)
Theorem Save_nil_data_panics (t : Table) (cm : ConfigMap) :
  cm_Data cm = None ↔ is_ok (SaveTableToConfigMap t cm) = false.
Proof.
  unfold SaveTableToConfigMap. cbn [MarshalJSON mbind res_bind].
  by destruct (cm_Data cm).
Qed.

(** [GetTable] installs the fetched table when both the client
    and the decoder succeed, and otherwise leaves the table as it was; the
    queue it is given is never touched. *)
Theorem GetTable_spec (getter : string → res ConfigMap) (t : Table) (q : Memory) :
  snd (GetTable getter t q)
  = (match getter ConfigMapRoutingTableName ≫= FetchTableFromConfigMap with
     | Ok t' => t'
     | _ => t
     end, q)
  ∧ is_ok (fst (GetTable getter t q))
    = is_ok (getter ConfigMapRoutingTableName ≫= FetchTableFromConfigMap).
Proof.
  unfold GetTable. destruct (getter ConfigMapRoutingTableName) as [cm|e|p]; [|done..].
  cbn [map_err mbind res_bind].
  destruct (FetchTableFromConfigMap cm) as [[m]|e|p]; done.
Qed.

(** While every ConfigMap delivered decodes, the updater keeps
    running and the table is the last one delivered: errors of the callback and
    events of other kinds change nothing. *)
Theorem updater_last_wins {W} (cb : option (W → res unit * W)) (ins : list updater_input)
    (t0 : Table) (w : W) :
  (∀ w, is_panic (fst (run_callback cb w)) = false) →
  forallb input_good ins = true →
  ∃ w', updater_loop cb ins t0 w = (Waiting, (last_table ins t0, w')).
Proof.
  intros Hcb. revert t0 w. induction ins as [|[cm| |e] ins IH]; intros t0 w; simpl.
  - eauto.
  - intros [Hg Hr]%andb_true_iff. destruct (FetchTableFromConfigMap cm) as [t| |] eqn:Hf; [|done..].
    pose proof (updater_step_good cb cm t t0 w Hf (Hcb w)) as Hs.
    unfold updater_step in Hs. rewrite Hf in Hs. rewrite Hs. by apply IH.
  - intros H. by apply IH.
  - done.
Qed.

Definition demo_saved : ConfigMap :=
  mkConfigMap "keda" ConfigMapRoutingTableName
    (Some {[configMapRoutingTableKey := print_json (table_json demo_table)]}).

Lemma updater_last_wins_witness :
  ∃ w', updater_loop (Some (λ n : nat, (Err (Errorf "unreachable"), S n)))
          [EventConfigMap demo_saved; EventOther] NewTable 0%nat
        = (Waiting, (demo_table, w')).
Proof.
  destruct (updater_last_wins (Some (λ n : nat, (Err (Errorf "unreachable"), S n)))
              [EventConfigMap demo_saved; EventOther] NewTable 0%nat) as [w' Hw'].
  - done.
  - by vm_compute.
  - exists w'. rewrite Hw'. f_equal.
Defined.

(** A ConfigMap that does not decode ends the updater with the
    decoding error; the table keeps the last good value and no later event is
    applied. *)
Theorem updater_stops_on_bad {W} (cb : option (W → res unit * W)) (good rest : list updater_input)
    (cm : ConfigMap) (e : error) (t0 : Table) (w : W) :
  (∀ w, is_panic (fst (run_callback cb w)) = false) →
  forallb input_good good = true →
  FetchTableFromConfigMap cm = Err e →
  ∃ w', updater_loop cb (good ++ EventConfigMap cm :: rest) t0 w
        = (Returned (Err e), (last_table good t0, w')).
Proof.
  intros Hcb Hg He. revert t0 w Hg. induction good as [|[c| |e'] good IH]; intros t0 w; simpl.
  - rewrite He. eauto.
  - intros [Hc Hr]%andb_true_iff. destruct (FetchTableFromConfigMap c) as [t| |] eqn:Hf; [|done..].
    pose proof (updater_step_good cb c t t0 w Hf (Hcb w)) as Hs.
    unfold updater_step in Hs. rewrite Hf in Hs. rewrite Hs. by apply IH.
  - intros H. by apply IH.
  - done.
Qed.

Lemma updater_stops_on_bad_witness :
  ∃ e w', updater_loop (None : option (unit → res unit * unit))
          [EventConfigMap demo_saved; EventConfigMap demo_cm; EventConfigMap demo_saved] NewTable tt
        = (Returned (Err e), (demo_table, w')).
Proof.
  eexists.
  destruct (updater_stops_on_bad (None : option (unit → res unit * unit))
              [EventConfigMap demo_saved] [EventConfigMap demo_saved] demo_cm
              (Errorf "no 'routing-table' key found in the keda-http-add-on-routing-table ConfigMap")
              NewTable tt) as [w' Hw'].
  - done.
  - by vm_compute.
  - by vm_compute.
  - exists w'. simpl app in Hw'. rewrite Hw'. f_equal.
Defined.
