(* ===== verification/Printing.v ===== *)
(** * What the logs show of counts and tables (String of pkg/queue and pkg/routing)

    [fmt]'s [%v] prints a map with its keys in order, a struct as its fields in
    braces. What is printed of the counts tells the counts. *)

From S2P Require Import Prelude GoStrings GoUrl Json Queue QueueRpc Routing ConfigMaps.

(** [fmt.Sprintf("%v", m)] of a map with string keys; nil prints like empty. *)
Definition fmt_map {V} (f : V → string) (m : gmap string V) : string :=
  "map[" +:+ Join ((λ kv, kv.1 +:+ ":" +:+ f kv.2) <$> sorted_entries m) " " +:+ "]".

(** [Counts.String]. *)
Definition Counts_String (counts : gmap string Z) : string := fmt_map Itoa counts.

(** A struct in the order of its fields. *)
Definition fmt_target (t : Target) : string :=
  "{" +:+ Join [Service t; Itoa (Port t); Deployment t; Namespace t; Itoa (TargetPendingRequests t)] " " +:+ "}".

(** [Table.String]. *)
Definition Table_String (t : Table) : string := fmt_map fmt_target (entries t).

Example Table_String_shown :
  Table_String (mkTable (Some {["www.dp-1" := NewTarget "dp-1" "www" 80 "web" 5; "app.dp-1" := NewTarget "dp-1" "app" 8080 "web" 100]}))
  = "map[app.dp-1:{app 8080 web dp-1 100} www.dp-1:{www 80 web dp-1 5}]".
Proof. by vm_compute. Qed.

(** ** Lemmas *)

Lemma Join_inj l l' :
  Forall (λ s, s ≠ "" ∧ no_char " " s) l → Forall (λ s, s ≠ "" ∧ no_char " " s) l' → Join l " " = Join l' " " → l = l'.
Proof.
  intros Hl Hl' Hj. assert (∀ l, Forall (λ s, s ≠ "" ∧ no_char " " s) l → l ≠ [] → Split " " (Join l " ") = l) as Hs.
  { intros l0 H0 Hn. apply Split_Join; [done|]. eapply Forall_impl; [exact H0|]. naive_solver. }
  assert (∀ x l, Forall (λ s, s ≠ "" ∧ no_char " " s) (x :: l) → Join (x :: l) " " ≠ "") as Hne.
  { intros x l0 [[Hx _] _]%Forall_cons He. apply Hx. destruct l0; simpl in He; [done|]. by destruct x. }
  destruct l as [|x l], l' as [|y l']; [done|by destruct (Hne y l')|by destruct (Hne x l)|].
  by rewrite <-(Hs (x :: l)), <-(Hs (y :: l')), Hj.
Qed.

Lemma count_entry_inj (x y : string * Z) :
  no_char ":" x.1 → no_char ":" y.1 → in_int64 x.2 → in_int64 y.2 →
  x.1 +:+ ":" +:+ Itoa x.2 = y.1 +:+ ":" +:+ Itoa y.2 → x = y.
Proof.
  destruct x as [h n], y as [h' n']. simpl. intros Hh Hh' Hn Hn' Heq.
  change (":" +:+ ?s) with (String ":" s) in Heq. apply (f_equal (Split ":")) in Heq. rewrite !Split_app in Heq by done.
  rewrite !Split_no_char in Heq by (by apply Itoa_no_char). simplify_eq. f_equal.
  assert (Ok n = Ok n') as [= ->]; [|done].
  rewrite <-(ParseInt_Itoa 64 n), <-(ParseInt_Itoa 64 n') by done. congruence.
Qed.

Lemma sorted_entries_elem {V} (m : gmap string V) k v : (k, v) ∈ sorted_entries m ↔ m !! k = Some v.
Proof. unfold sorted_entries. rewrite sorting.merge_sort_Permutation. apply elem_of_map_to_list. Qed.

Lemma Forall_map_inj {A B} (f : A → B) (P : A → Prop) (l l' : list A) :
  (∀ x y, P x → P y → f x = f y → x = y) → Forall P l → Forall P l' → f <$> l = f <$> l' → l = l'.
Proof.
  intros Hf Hl. revert l'. induction Hl as [|x l Hx _ IH]; intros [|y l'] Hl'; csimpl; [done|done|done|].
  apply Forall_cons in Hl' as [Hy Hl']. intros [= He Hr]. f_equal; [by apply Hf|by apply IH].
Qed.

(** ** Properties *)

(** Hosts without spaces and colons, and counts of their width. *)
Definition printable (counts : gmap string Z) : Prop :=
  map_Forall (λ h n, no_char ":" h ∧ no_char " " h ∧ in_int64 n) counts.

(** What [Counts.String] prints determines the counts: two maps of counts with
    hosts that have neither a colon nor a space print alike only if they are the
    same. *)
Theorem Counts_String_inj (c c' : gmap string Z) :
  printable c → printable c' → Counts_String c = Counts_String c' → c = c'.
Proof.
  intros Hc Hc' Heq. unfold Counts_String, fmt_map in Heq. injection Heq as Heq. apply app_suffix_inj in Heq.
  set (P := λ x : string * Z, no_char ":" x.1 ∧ no_char " " x.1 ∧ in_int64 x.2).
  assert (∀ m, printable m → Forall P (sorted_entries m)) as HP.
  { intros m Hm. apply Forall_forall. intros [k v] Hin%sorted_entries_elem. by apply (Hm k v). }
  assert (∀ m, printable m → Forall (λ s, s ≠ "" ∧ no_char " " s) ((λ kv, kv.1 +:+ ":" +:+ Itoa kv.2) <$> sorted_entries m)) as Hs.
  { intros m Hm. apply Forall_fmap. eapply Forall_impl; [by apply HP|]. intros [k v] (_ & Hk & _). simpl. split; [by destruct k|].
    apply no_char_app. split; [done|]. apply no_char_cons. split; [done|]. by apply Itoa_no_char. }
  assert (sorted_entries c = sorted_entries c') as He.
  { eapply (Forall_map_inj (λ kv, kv.1 +:+ ":" +:+ Itoa kv.2) P); [|by apply HP..|by apply Join_inj; [apply Hs..|]].
    intros x y (H1 & _ & H2) (H3 & _ & H4). by apply count_entry_inj. }
  apply map_eq. intros k. apply option_eq. intros v. rewrite <-!sorted_entries_elem. by rewrite He.
Qed.

Lemma Counts_String_inj_witness :
  Counts_String {["app.dp-1" := 2]} ≠ Counts_String {["app.dp-1" := 12]}.
Proof.
  intros Heq. apply (Counts_String_inj {["app.dp-1" := 2]} {["app.dp-1" := 12]}) in Heq.
  - by apply (f_equal (lookup "app.dp-1")) in Heq.
  - apply map_Forall_singleton. split_and!; [done|done|unfold in_int64; lia].
  - apply map_Forall_singleton. split_and!; [done|done|unfold in_int64; lia].
Defined.
