(* ===== verification/K8s.v ===== *)
(** * Kubernetes objects and caches (pkg/k8s)

    The objects the program builds and reads, the endpoint lists, the two
    informer-backed caches with their filtered watches, and the fakes the
    program ships for its own tests. The informers, the broadcaster and the
    API client themselves are client-go and are not under src/: a handler here
    yields the event it hands to the broadcaster, and a watch is the filter
    over the events broadcast. *)

From S2P Require Import Prelude GoStrings GoUrl Json Routing ConfigMaps.

(** ** Names and labels *)

Definition objKey : Type := string * string.
Definition ObjKey (ns name : string) : objKey := (ns, name).

Definition Labels (name : string) : gmap string string :=
  <["name" := name]> {["app" := "kedahttp-" +:+ name]}.

(** ** ScaledObjects *)

Record ScaleTriggers : Type := mkTrigger {
  trig_Type : string;
  trig_Metadata : gmap string string;
}.

#[export] Instance ScaleTriggers_eq_dec : EqDecision ScaleTriggers.
Proof. solve_decision. Defined.

(** The fields of KEDA's ScaledObject that [NewScaledObject] fills; a nil
    pointer is [None]. *)
Record ScaledObject : Type := mkScaledObject {
  so_APIVersion : string;
  so_Kind : string;
  so_Namespace : string;
  so_Name : string;
  so_Labels : gmap string string;
  so_TargetAPIVersion : string;
  so_TargetKind : string;
  so_TargetName : string;
  so_PollingInterval : option Z;
  so_CooldownPeriod : option Z;
  so_MinReplicaCount : option Z;
  so_MaxReplicaCount : option Z;
  so_RestoreToOriginalReplicaCount : bool;
  so_Triggers : list ScaleTriggers;
}.

#[export] Instance ScaledObject_eq_dec : EqDecision ScaledObject.
Proof. solve_decision. Defined.

Definition soPollingInterval : Z := 1.
Definition soTriggerType : string := "external-push".
Definition mkScalerAddress : string := "scalerAddress".
Definition mkHosts : string := "hosts".

Definition NewScaledObject (namespace name deploymentName scalerAddress : string)
    (hosts : list string) (minReplicas maxReplicas cooldownPeriod : option Z) : ScaledObject := {|
  so_APIVersion := "keda.sh/v1alpha1";
  so_Kind := "ScaledObject";
  so_Namespace := namespace;
  so_Name := name;
  so_Labels := Labels name;
  so_TargetAPIVersion := "apps/v1";
  so_TargetKind := "Deployment";
  so_TargetName := deploymentName;
  so_PollingInterval := Some soPollingInterval;
  so_CooldownPeriod := cooldownPeriod;
  so_MinReplicaCount := minReplicas;
  so_MaxReplicaCount := maxReplicas;
  so_RestoreToOriginalReplicaCount := true;
  so_Triggers := [mkTrigger soTriggerType
                    (<[mkScalerAddress := scalerAddress]> {[mkHosts := Join hosts ","]})];
|}.

(** ** Endpoints *)

Record EndpointAddress : Type := mkAddress { addr_Hostname : string; addr_IP : string }.
Record EndpointSubset : Type := mkSubset {
  sub_Addresses : list EndpointAddress;
  sub_Ports : list Z;
}.
Record Endpoints : Type := mkEndpoints {
  ep_Namespace : string;
  ep_Name : string;
  Subsets : list EndpointSubset;
}.

#[export] Instance EndpointAddress_eq_dec : EqDecision EndpointAddress.
Proof. solve_decision. Defined.
#[export] Instance EndpointSubset_eq_dec : EqDecision EndpointSubset.
Proof. solve_decision. Defined.
#[export] Instance Endpoints_eq_dec : EqDecision Endpoints.
Proof. solve_decision. Defined.

(** The inner loop, and then the outer one: the first address that does not
    parse ends both. *)
Fixpoint address_urls (port : string) (addrs : list EndpointAddress) : res (list URL) :=
  match addrs with
  | [] => Ok []
  | addr :: addrs =>
      u ← url_Parse ("http://" +:+ addr_IP addr +:+ ":" +:+ port);
      us ← address_urls port addrs;
      Ok (u :: us)
  end.

Fixpoint subset_urls (port : string) (subsets : list EndpointSubset) : res (list URL) :=
  match subsets with
  | [] => Ok []
  | subset :: subsets =>
      us ← address_urls port (sub_Addresses subset);
      vs ← subset_urls port subsets;
      Ok (us ++ vs)
  end.

(** [GetEndpointsFunc], over whatever state the client has. *)
Definition GetEndpointsFunc (W : Type) : Type := string → string → ST W Endpoints.

Definition EndpointsForService {W} (ns serviceName servicePort : string)
    (endpointsFn : GetEndpointsFunc W) : ST W (list URL) := λ w,
  match endpointsFn ns serviceName w with
  | (Err e, w') => (Err (Wrap e "pkg.k8s.EndpointsForService"), w')
  | (Panic p, w') => (Panic p, w')
  | (Ok endpoints, w') => (subset_urls servicePort (Subsets endpoints), w')
  end.

(** [url.URL]'s [Hostname] and [Port]. *)
Definition splitHostPort (hostPort : string) : string * string :=
  let '(host, port) :=
    match LastIndex ":" hostPort with
    | Some colon =>
        if validOptionalPort (str_drop colon hostPort)
        then (str_take colon hostPort, str_drop (S colon) hostPort)
        else (hostPort, "")
    | None => (hostPort, "")
    end in
  (match host with
   | String "[" rest =>
       match LastIndex "]" rest with
       | Some i => if decide (S i = String.length rest) then str_take i rest else host
       | None => host
       end
   | _ => host
   end, port).

Definition Hostname (u : URL) : string := fst (splitHostPort (Host u)).
Definition URL_Port (u : URL) : string := snd (splitHostPort (Host u)).

Fixpoint fake_addresses (urls : list URL) : res (list (EndpointAddress * Z)) :=
  match urls with
  | [] => Ok []
  | u :: urls =>
      portInt ← Atoi (URL_Port u);
      rest ← fake_addresses urls;
      Ok ((mkAddress (Hostname u) (Hostname u), int32 portInt) :: rest)
  end.

Definition FakeEndpointsForURLs (urls : list URL) (namespace name : string) : res Endpoints :=
  l ← fake_addresses urls;
  Ok (mkEndpoints namespace name [mkSubset (l.*1) (l.*2)]).

(** [make] of a negative length panics. *)
Definition FakeEndpointsForURL (u : URL) (namespace name : string) (num : Z) : res Endpoints :=
  if decide (num < 0) then Panic "makeslice: len out of range"
  else FakeEndpointsForURLs (replicate (Z.to_nat num) u) namespace name.

(** ** Deployments *)

Record Depl : Type := mkDeployment {
  dep_Namespace : string;
  dep_Name : string;
  dep_Replicas : option Z;
  dep_ReadyReplicas : Z;
}.

#[export] Instance Depl_eq_dec : EqDecision Depl.
Proof. solve_decision. Defined.

(** ** Informers *)

(** What an [interface{}] handed to a handler, or [event.Object], can hold:
    the two kinds the program asserts, or anything else (nil, a tombstone). *)
Inductive object : Type :=
| ObjConfigMap (cm : ConfigMap)
| ObjDeployment (d : Depl)
| ObjOther.

Inductive event_type : Type := Added | Modified | Deleted | OtherEvent.

Record event : Type := mkEvent { ev_Type : event_type; ev_Object : object }.

Module InformerConfigMapUpdater.
(** What each handler hands to the broadcaster. *)
Definition forward (ty : event_type) (obj : object) : list event :=
  match obj with
  | ObjConfigMap cm => [mkEvent ty (ObjConfigMap cm)]
  | _ => []
  end.

Definition addEvtHandler (obj : object) : list event := forward Added obj.
Definition updateEvtHandler (oldObj newObj : object) : list event := forward Modified newObj.
Definition deleteEvtHandler (obj : object) : list event := forward Deleted obj.

(** The filter of [Watch]. *)
Definition watch_filter (ns name : string) (e : event) : res bool :=
  match ev_Object e with
  | ObjConfigMap cm => Ok (bool_decide (cm_Namespace cm = ns) && bool_decide (cm_Name cm = name))
  | _ => Ok false
  end.
End InformerConfigMapUpdater.

Module InformerBackedDeploymentCache.
Definition forward (ty : event_type) (obj : object) : list event :=
  match obj with
  | ObjDeployment d => [mkEvent ty (ObjDeployment d)]
  | _ => []
  end.

Definition addEvtHandler (obj : object) : list event := forward Added obj.
Definition updateEvtHandler (oldObj newObj : object) : list event := forward Modified newObj.
Definition deleteEvtHandler (obj : object) : list event := forward Deleted obj.

(** Here the assertion is unchecked: another type of object panics. *)
Definition watch_filter (ns name : string) (e : event) : res bool :=
  match ev_Object e with
  | ObjDeployment d => Ok (bool_decide (dep_Namespace d = ns) && bool_decide (dep_Name d = name))
  | _ => Panic "interface conversion"
  end.
End InformerBackedDeploymentCache.

(** [watch.Filter] over the events a broadcaster delivers, in order. *)
Fixpoint watch_Filter (f : event → res bool) (evs : list event) : res (list event) :=
  match evs with
  | [] => Ok []
  | e :: evs =>
      keep ← f e;
      rest ← watch_Filter f evs;
      Ok (if keep : bool then e :: rest else rest)
  end.

(** What an informer calls its handlers with. *)
Inductive notification : Type :=
| OnAdd (obj : object)
| OnUpdate (oldObj newObj : object)
| OnDelete (obj : object).

Section broadcast.
Context (add : object → list event) (update : object → object → list event)
        (delete : object → list event).

Definition handle (n : notification) : list event :=
  match n with
  | OnAdd o => add o
  | OnUpdate o o' => update o o'
  | OnDelete o => delete o
  end.

Definition broadcast (ns : list notification) : list event := ns ≫= handle.
End broadcast.

Definition cm_broadcast : list notification → list event :=
  broadcast InformerConfigMapUpdater.addEvtHandler InformerConfigMapUpdater.updateEvtHandler
    InformerConfigMapUpdater.deleteEvtHandler.

Definition depl_broadcast : list notification → list event :=
  broadcast InformerBackedDeploymentCache.addEvtHandler InformerBackedDeploymentCache.updateEvtHandler
    InformerBackedDeploymentCache.deleteEvtHandler.

Definition cm_Watch (ns name : string) (evs : list event) : res (list event) :=
  watch_Filter (InformerConfigMapUpdater.watch_filter ns name) evs.

Definition depl_Watch (ns name : string) (evs : list event) : res (list event) :=
  watch_Filter (InformerBackedDeploymentCache.watch_filter ns name) evs.

(** [Start]: the informer runs until the context is done. [errors.Wrap] of a
    nil error is nil: an informer that gives up before that reports nothing. *)
Definition informer_Start (stopped : string) (ctx_Err : option error) : res unit :=
  match ctx_Err with Some e => Err (Wrap e stopped) | None => Ok tt end.

Definition cm_Start : option error → res unit := informer_Start "configMap informer was stopped".
Definition depl_Start : option error → res unit := informer_Start "deployment cache informer was stopped".

(** The informer's store, as its lister shows it; [json.Marshal] of the objects
    of the Kubernetes API is not part of the repository. *)
Section lister.
Context {O : Type} (lister_Get : string → string → res O) (lister_List : res (list O)).
Context (Marshal : list O → res string).

Definition cache_Get (ns name : string) : res O := lister_Get ns name.

Definition cache_MarshalJSON : res string := depls ← lister_List; Marshal depls.
End lister.

(** ** Clients *)

(** [NewClientset]: what [rest.InClusterConfig] and the two constructors yield. *)
Definition NewClientset {C D} (inClusterConfig : res unit) (newForConfig : res C) (dynamicForConfig : res D) : res (C * D) :=
  _ ← map_err (λ e, Wrap e "Getting in-cluster config") inClusterConfig;
  clientset ← map_err (λ e, Wrap e "Creating k8s clientset") newForConfig;
  dynamic ← dynamicForConfig;
  Ok (clientset, dynamic).

(** One [Get] of a clientset. *)
Definition EndpointsFuncForK8sClientset {W} (endpoints_Get : string → string → ST W Endpoints) : GetEndpointsFunc W :=
  λ namespace serviceName, endpoints_Get namespace serviceName.

(** ** The fake deployment cache

    The fake guards its maps with a [sync.RWMutex], which is not reentrant: a
    call that asks for the lock while its own goroutine holds it for writing
    never returns. The lock is part of the state, and [None] is a call that
    blocks for ever. *)
Module FakeDeploymentCache.
Inductive rwlock : Type := Free | ReadHeld (readers : nat) | WriteHeld.

Record t : Type := mk {
  mut : rwlock;
  current : gmap string Depl;
  watchers : gmap string nat;
  next_watcher : nat;
}.

Definition NewFakeDeploymentCache : t := mk Free ∅ ∅ 0%nat.

Definition set_mut (l : rwlock) (c : t) : t := mk l (current c) (watchers c) (next_watcher c).

Definition M (A : Type) : Type := t → option (A * t).

#[export] Instance M_ret : MRet M := λ A a c, Some (a, c).
#[export] Instance M_bind : MBind M := λ A B f m c,
  match m c with Some (a, c') => f a c' | None => None end.

Definition Lock : M unit := λ c,
  match mut c with Free => Some (tt, set_mut WriteHeld c) | _ => None end.
Definition Unlock : M unit := λ c, Some (tt, set_mut Free c).
Definition RLock : M unit := λ c,
  match mut c with
  | Free => Some (tt, set_mut (ReadHeld 0) c)
  | ReadHeld n => Some (tt, set_mut (ReadHeld (S n)) c)
  | WriteHeld => None
  end.
Definition RUnlock : M unit := λ c,
  Some (tt, set_mut (match mut c with ReadHeld (S n) => ReadHeld n | _ => Free end) c).

Definition reads {A} (f : t → A) : M A := λ c, Some (f c, c).
Definition update (f : t → t) : M unit := λ c, Some (tt, f c).

Definition with_read {A} (m : M A) : M A :=
  RLock ≫= λ _, m ≫= λ a, RUnlock ≫= λ _, mret a.
Definition with_write {A} (m : M A) : M A :=
  Lock ≫= λ _, m ≫= λ a, Unlock ≫= λ _, mret a.

Definition key (ns name : string) : string := ns +:+ "/" +:+ name.

Definition set_current (f : gmap string Depl → gmap string Depl) (c : t) : t :=
  mk (mut c) (f (current c)) (watchers c) (next_watcher c).

Definition new_watcher (k : string) (c : t) : t :=
  mk (mut c) (current c) (<[k := next_watcher c]> (watchers c)) (S (next_watcher c)).

Definition AddDeployment (depl : Depl) : M unit :=
  with_write (update (set_current (<[key (dep_Namespace depl) (dep_Name depl) := depl]>))).

Definition CurrentDeployments : M (gmap string Depl) := with_read (reads current).

Definition GetWatcher (ns name : string) : M (option nat) :=
  with_read (reads (λ c, watchers c !! key ns name)).

(** The replica counts; a Deployment without them is a nil dereference. *)
Definition MarshalJSON : M (res string) :=
  with_read (reads (λ c,
    if decide (map_Forall (λ _ d, is_Some (dep_Replicas d)) (current c))
    then Ok (print_json (enc_map (λ d, JNum (Itoa (default 0 (dep_Replicas d)))) (current c)))
    else Panic "nil pointer dereference")).

Definition Get (ns name : string) : M (res Depl) :=
  with_read (reads (λ c,
    match current c !! key ns name with
    | Some d => Ok d
    | None => Err (Errorf ("no deployment " +:+ name +:+ " found"))
    end)).

(** The watcher is registered under the read lock. *)
Definition Watch (ns name : string) : M nat :=
  with_read (
    reads (λ c, watchers c !! key ns name) ≫= λ w,
    match w with
    | Some id => mret id
    | None => reads next_watcher ≫= λ id, update (new_watcher (key ns name)) ≫= λ _, mret id
    end).

Definition Set_ (ns name : string) (deployment : Depl) : M unit :=
  with_write (update (set_current (<[key ns name := deployment]>))).

Definition SetWatcher (ns name : string) : M nat :=
  with_write (reads next_watcher ≫= λ id, update (new_watcher (key ns name)) ≫= λ _, mret id).

(** The replica count is written to a copy of the Deployment. *)
Definition SetReplicas (ns name : string) (num : Z) : M (res unit) :=
  with_write (
    Get ns name ≫= λ r,
    match r with
    | Ok _ => mret (Ok tt)
    | Err _ => mret (Err (Errorf ("no deployment " +:+ name +:+ " found")))
    | Panic p => mret (Panic p)
    end).

Lemma with_read_free {A} (f : t → A) c :
  mut c = Free → with_read (reads f) c = Some (f (set_mut (ReadHeld 0) c), c).
Proof. intros H. destruct c as [l cur w n]; simpl in *. by subst. Qed.

Lemma with_write_free (f : t → t) c :
  mut c = Free → with_write (update f) c = Some (tt, set_mut Free (f (set_mut WriteHeld c))).
Proof. intros H. destruct c as [l cur w n]; simpl in *. by subst. Qed.
End FakeDeploymentCache.

(** ** The recording client *)

(** [FakeRuntimeClientWriter]: every write succeeds and is appended to its list. *)
Module FakeRuntimeClientWriter.
Section writer.
Context {O : Type}.

Record t : Type := mk {
  Creates : list O;
  Deletes : list O;
  Updates : list O;
  Patches : list O;
  DeleteAllOfs : list O;
}.

Definition Create (obj : O) : ST t unit := λ f,
  (Ok tt, mk (Creates f ++ [obj]) (Deletes f) (Updates f) (Patches f) (DeleteAllOfs f)).
Definition Delete (obj : O) : ST t unit := λ f,
  (Ok tt, mk (Creates f) (Deletes f ++ [obj]) (Updates f) (Patches f) (DeleteAllOfs f)).
Definition Update (obj : O) : ST t unit := λ f,
  (Ok tt, mk (Creates f) (Deletes f) (Updates f ++ [obj]) (Patches f) (DeleteAllOfs f)).
Definition Patch (obj : O) : ST t unit := λ f,
  (Ok tt, mk (Creates f) (Deletes f) (Updates f) (Patches f ++ [obj]) (DeleteAllOfs f)).
Definition DeleteAllOf (obj : O) : ST t unit := λ f,
  (Ok tt, mk (Creates f) (Deletes f) (Updates f) (Patches f) (DeleteAllOfs f ++ [obj])).
End writer.
End FakeRuntimeClientWriter.

(** [FakeRuntimeClientReader]: a read records its arguments and copies what the
    test's function returns into the caller's object, through JSON. Objects are
    references: [Unmarshal] fills the object at [obj]. *)
Module FakeRuntimeClientReader.
Section reader.
Context {O : Type} (Marshal : O → res string) (Unmarshal : string → O → res unit * O).
Context (GetFunc : O) (ListFunc : O).

(** The calls recorded, by the address of the object, and the objects. *)
Record t : Type := mk {
  GetCalls : list (objKey * nat);
  ListCalls : list nat;
  heap : gmap nat O;
}.

(** [json.Marshal] of the function's value, then [json.Unmarshal] into the
    object at [obj], which keeps what was decoded before an error. *)
Definition through_json (v : O) (obj : nat) : ST (gmap nat O) unit := λ h,
  match Marshal v with
  | Err e => (Err e, h)
  | Panic p => (Panic p, h)
  | Ok b =>
      match h !! obj with
      | None => (Err (Errorf "json: Unmarshal(nil)"), h)
      | Some old => let '(r, new) := Unmarshal b old in (r, <[obj := new]> h)
      end
  end.

Definition Get (key : objKey) (obj : nat) : ST t unit := λ f,
  let '(r, h) := through_json GetFunc obj (heap f) in
  (r, mk (GetCalls f ++ [(key, obj)]) (ListCalls f) h).

Definition List_ (obj : nat) : ST t unit := λ f,
  let '(r, h) := through_json ListFunc obj (heap f) in
  (r, mk (GetCalls f) (ListCalls f ++ [obj]) h).
End reader.
End FakeRuntimeClientReader.

(** ** Lemmas *)

Section lemmas.
Implicit Types (evs : list event).

Lemma watch_Filter_Ok f (keep : event → bool) evs :
  Forall (λ e, f e = Ok (keep e)) evs → watch_Filter f evs = Ok (List.filter keep evs).
Proof.
  induction 1 as [|e evs He _ IH]; [done|]. simpl. rewrite He. simpl. rewrite IH. simpl.
  by destruct (keep e).
Qed.

Lemma depl_broadcast_deployments ns :
  Forall (λ e, ∃ d, ev_Object e = ObjDeployment d) (depl_broadcast ns).
Proof.
  unfold depl_broadcast, broadcast. apply Forall_bind, Forall_true.
  intros [[]|? []|[]]; simpl; repeat constructor; by eexists.
Qed.

Definition plain_address (a : EndpointAddress) : Prop :=
  str_all name_char (addr_IP a) = true ∧ addr_IP a ≠ "".

Lemma address_url_parse a port :
  plain_address a → str_all is_digit port = true →
  url_Parse ("http://" +:+ addr_IP a +:+ ":" +:+ port)
  = Ok (mkURL "http" "" None (addr_IP a +:+ ":" +:+ port) "" "" "").
Proof.
  intros [Hn He] Hd. rewrite url_Parse_authority.
  - by rewrite parseHost_name.
  - rewrite str_all_app. apply andb_true_iff. split.
    + revert Hn. apply str_all_impl, ascii_impl. by vm_compute.
    + revert Hd. simpl. apply str_all_impl, ascii_impl. by vm_compute.
Qed.

Lemma address_urls_ok port addrs :
  Forall (plain_address) addrs → str_all is_digit port = true →
  address_urls port addrs
  = Ok ((λ a, mkURL "http" "" None (addr_IP a +:+ ":" +:+ port) "" "" "") <$> addrs).
Proof.
  intros Ha Hd. induction Ha as [|a addrs Ha _ IH]; [done|].
  cbn [address_urls]. rewrite address_url_parse by done. simpl. by rewrite IH.
Qed.
End lemmas.

Lemma subset_urls_ok port subsets :
  Forall (λ s, Forall plain_address (sub_Addresses s)) subsets → str_all is_digit port = true →
  subset_urls port subsets
  = Ok ((λ a, mkURL "http" "" None (addr_IP a +:+ ":" +:+ port) "" "" "")
          <$> (subsets ≫= sub_Addresses)).
Proof.
  intros Hs Hd. induction Hs as [|s subsets Hs _ IH]; [done|].
  cbn [subset_urls]. rewrite address_urls_ok by done. simpl. rewrite IH. simpl.
  by rewrite fmap_app.
Qed.

Definition event_key (e : event) : option objKey :=
  match ev_Object e with
  | ObjConfigMap cm => Some (cm_Namespace cm, cm_Name cm)
  | ObjDeployment d => Some (dep_Namespace d, dep_Name d)
  | ObjOther => None
  end.

(** A watch of a Deployment sees its events. *)
Lemma depl_watch_ok ns name l :
  depl_Watch ns name (depl_broadcast l)
  = Ok (List.filter (λ e, bool_decide (event_key e = Some (ns, name))) (depl_broadcast l)).
Proof.
  unfold depl_Watch. apply watch_Filter_Ok.
  eapply Forall_impl; [apply depl_broadcast_deployments|]. intros e [d Hd].
  unfold InformerBackedDeploymentCache.watch_filter, event_key. rewrite Hd. f_equal.
  rewrite <-bool_decide_and. apply bool_decide_ext. naive_solver.
Qed.

(** ** Properties *)

(** For a service whose addresses are IPv4 addresses or names
    and a numeric port, [EndpointsForService] lists one URL per address of every
    subset, in order, and the client's state is what fetching left. *)
Theorem EndpointsForService_ok {W} (ns svc port : string) (fn : GetEndpointsFunc W)
    (ep : Endpoints) (w w' : W) :
  fn ns svc w = (Ok ep, w') →
  Forall (λ s, Forall plain_address (sub_Addresses s)) (Subsets ep) →
  str_all is_digit port = true →
  EndpointsForService ns svc port fn w
  = (Ok ((λ a, mkURL "http" "" None (addr_IP a +:+ ":" +:+ port) "" "" "")
           <$> (Subsets ep ≫= sub_Addresses)), w').
Proof. intros Hf Hs Hp. unfold EndpointsForService. rewrite Hf. by rewrite subset_urls_ok. Qed.

Definition demo_endpoints : Endpoints :=
  mkEndpoints "keda" "interceptor-admin"
    [mkSubset [mkAddress "" "10.0.0.1"; mkAddress "" "10.0.0.2"] []; mkSubset [mkAddress "" "10.0.1.1"] []].

Lemma EndpointsForService_ok_witness :
  EndpointsForService "keda" "interceptor-admin" "9090" (λ _ _ n, (Ok demo_endpoints, S n)) 0%nat
  = (Ok [mkURL "http" "" None "10.0.0.1:9090" "" "" ""; mkURL "http" "" None "10.0.0.2:9090" "" "" "";
         mkURL "http" "" None "10.0.1.1:9090" "" "" ""], 1%nat).
Proof.
  apply (EndpointsForService_ok "keda" "interceptor-admin" "9090"
           (λ _ _ n, (Ok demo_endpoints, S n)) demo_endpoints 0%nat 1%nat); [done| |done].
  repeat constructor; done.
Defined.

(** The unchecked type assertion in the deployment cache's watch
    never fails: whatever the informer reports, its handlers broadcast
    Deployments only, and a watch sees exactly the events of its own
    Deployment, in order. *)
Theorem depl_Watch_broadcast (ns name : string) (l : list notification) :
  depl_Watch ns name (depl_broadcast l)
  = Ok (List.filter (λ e, bool_decide (event_key e = Some (ns, name))) (depl_broadcast l)).
Proof. apply depl_watch_ok. Qed.

(** [SetReplicas] of the fake cache never returns: it takes the
    write lock and then calls [Get], which waits for the same lock. *)
Theorem SetReplicas_deadlocks (ns name : string) (num : Z) (c : FakeDeploymentCache.t) :
  FakeDeploymentCache.SetReplicas ns name num c = None.
Proof. destruct c as [[| |] cur w n]; reflexivity. Qed.

(** On an unlocked fake cache, a Deployment that was added is
    the one [Get] returns for its namespace and name, and the lock is free
    again after both calls. *)
Theorem fake_cache_get_added (d : Depl) (c : FakeDeploymentCache.t) :
  FakeDeploymentCache.mut c = FakeDeploymentCache.Free →
  ∃ c', FakeDeploymentCache.AddDeployment d c = Some (tt, c')
  ∧ FakeDeploymentCache.mut c' = FakeDeploymentCache.Free
  ∧ FakeDeploymentCache.Get (dep_Namespace d) (dep_Name d) c' = Some (Ok d, c').
Proof.
  intros Hc. eexists. split; [by apply FakeDeploymentCache.with_write_free|].
  split; [done|]. unfold FakeDeploymentCache.Get.
  rewrite FakeDeploymentCache.with_read_free by done. simpl. by rewrite lookup_insert_eq.
Qed.

Lemma fake_cache_get_added_witness :
  ∃ c', FakeDeploymentCache.AddDeployment (mkDeployment "dp-1" "app" (Some 1) 1)
          FakeDeploymentCache.NewFakeDeploymentCache = Some (tt, c')
  ∧ FakeDeploymentCache.Get "dp-1" "app" c' = Some (Ok (mkDeployment "dp-1" "app" (Some 1) 1), c').
Proof.
  destruct (fake_cache_get_added (mkDeployment "dp-1" "app" (Some 1) 1)
              FakeDeploymentCache.NewFakeDeploymentCache eq_refl) as (c' & ? & _ & ?).
  eauto.
Defined.
