(* ===== verification/Net.v ===== *)
(** * Backoff and dialling (pkg/net)

    [MinTotalBackoffDuration] and the retrying dialer. [wait.Backoff.Step] is
    apimachinery code, the dialer, the timer and the context belong to the
    runtime: they are parameters, run over a state of their own. *)

From S2P Require Import Prelude Queue.

(** ** Durations *)

Definition Millisecond : Z := 1000000.
Definition Second : Z := 1000 * Millisecond.

(** [time.Duration.Milliseconds]: division truncates. *)
Definition Milliseconds (d : Duration) : Z := Z.quot d Millisecond.

(** [wait.Backoff]; [Factor] and [Jitter] are carried as the rationals
    numerator/denominator they are written as. *)
Record Backoff : Type := mkBackoff {
  bo_Duration : Duration;
  bo_Factor : Z * Z;
  bo_Jitter : Z * Z;
  bo_Steps : Z;
}.

(** [for i := 2; i <= numSteps; i++ { retMS += initial * int64(i) }]: [n]
    rounds are left, the next with counter [i]. *)
Fixpoint backoff_loop (n : nat) (i initial retMS : Z) : Z :=
  match n with
  | O => retMS
  | S n => backoff_loop n (i + 1) initial (int64 (retMS + int64 (initial * i)))
  end.

Definition MinTotalBackoffDuration (backoff : Backoff) : Duration :=
  let initial := Milliseconds (bo_Duration backoff) in
  let retMS := backoff_loop (Z.to_nat (bo_Steps backoff - 1)) 2 initial initial in
  int64 (retMS * Millisecond).

(** ** Dialling *)

Section dial.
Context {W Conn : Type}.
(** [coreDialer.DialContext] with the call's network and address. *)
Context (DialContext : string → string → ST W Conn).
(** [wait.Backoff.Step]: the time to sleep, and the backoff afterwards. *)
Context (Step : Backoff → Duration * Backoff).
(** The [select] on the timer and the context: [None] when the timer fired,
    the context's error when it is done first. *)
Context (sleep : Duration → W → option error * W).

(** [n] tries are left. [Ok None] is Go's [nil, nil]. *)
Fixpoint dial_loop (network addr : string) (n : nat) (backoff : Backoff)
    (lastError : option error) : ST W (option Conn) := λ w,
  match n with
  | O => (match lastError with Some e => Err e | None => Ok None end, w)
  | S n =>
      match DialContext network addr w with
      | (Ok conn, w) => (Ok (Some conn), w)
      | (Panic p, w) => (Panic p, w)
      | (Err err, w) =>
          let '(sleepDur, backoff) := Step backoff in
          match sleep sleepDur w with
          | (Some e, w) => (Err (Errorf ("context timed out: " +:+ Error_string e)), w)
          | (None, w) => dial_loop network addr n backoff (Some err) w
          end
      end
  end.

Definition DialContextWithRetry (backoff : Backoff) (network addr : string) : ST W (option Conn) :=
  dial_loop network addr (Z.to_nat (bo_Steps backoff)) backoff None.
End dial.

(** ** Lemmas *)

(** The sum [2 + 3 + ... + (n+1)]. *)
Lemma backoff_loop_sum n i initial ret :
  int64 (backoff_loop n i initial ret)
  = int64 (ret + initial * (Z.of_nat n * i + Z.of_nat n * (Z.of_nat n - 1) / 2)).
Proof.
  revert i ret. induction n as [|n IH]; intros i ret; cbn [backoff_loop].
  - f_equal. change (Z.of_nat 0) with 0. rewrite !Z.mul_0_l, Zdiv_0_l. lia.
  - rewrite IH. rewrite int64_add_r, int64_add_l. f_equal.
    assert (Z.of_nat (S n) * (Z.of_nat (S n) - 1) / 2
            = Z.of_nat n * (Z.of_nat n - 1) / 2 + Z.of_nat n) as ->.
    { rewrite <-Z.div_add by lia. f_equal. lia. }
    rewrite Nat2Z.inj_succ. lia.
Qed.

Lemma int64_mul_l a b : int64 (int64 a * b) = int64 (a * b).
Proof. destruct (int64_spec a) as [k Hk]. apply (int64_eq_mod _ _ (k * b)). rewrite Hk. lia. Qed.

Lemma triangle_step n : (n + 1) * (n + 1 + 1) / 2 = n * (n + 1) / 2 + (n + 1).
Proof. rewrite <-Z.div_add by lia. f_equal. lia. Qed.

Lemma triangle_pow n :
  1 ≤ n → n * (n + 1) / 2 ≤ 2 ^ n - 1 ∧ (n * (n + 1) / 2 = 2 ^ n - 1 ↔ n ≤ 2).
Proof.
  intros Hn. destruct (decide (n = 1)) as [->|]; [done|].
  destruct (decide (n = 2)) as [->|]; [done|].
  assert (n * (n + 1) / 2 < 2 ^ n - 1 ∧ n < 2 ^ n - 1) as [??]; [|lia].
  apply (Zlt_lower_bound_ind (λ n, n * (n + 1) / 2 < 2 ^ n - 1 ∧ n < 2 ^ n - 1) 3); [|lia].
  clear. intros n IH Hn. destruct (decide (n = 3)) as [->|]; [done|].
  destruct (IH (n - 1)) as [H1 H2]; [lia|].
  replace n with ((n - 1) + 1) by lia. rewrite triangle_step, Z.pow_add_r by lia. lia.
Qed.

(** Dials that all fail, with the errors they fail with, then what is left. *)
Lemma dial_loop_fail {W Conn} (dial : string → string → ST W Conn) Step sleep net addr n bo le w e w1 w2 :
  dial net addr w = (Err e, w1) →
  sleep (fst (Step bo)) w1 = (None, w2) →
  dial_loop dial Step sleep net addr (S n) bo le w
  = dial_loop dial Step sleep net addr n (snd (Step bo)) (Some e) w2.
Proof. intros Hd Hs. simpl. rewrite Hd. destruct (Step bo) as [d bo']. simpl in *. by rewrite Hs. Qed.

(** Numbered dials: the state counts them, the timer always fires. *)
Definition scripted {Conn} (o : nat → res Conn) : string → string → ST nat Conn :=
  λ _ _ k, (o k, S k).
Definition timer_fires : Duration → nat → option error * nat := λ _ k, (None, k).

Lemma dial_loop_scripted {Conn} (o : nat → res Conn) Step net addr n : ∀ bo le k j,
  (j ≤ n)%nat →
  (∀ i, (i < j)%nat → ∃ e, o (k + i)%nat = Err e) →
  ∃ bo' le', dial_loop (scripted o) Step timer_fires net addr n bo le k
    = dial_loop (scripted o) Step timer_fires net addr (n - j) bo' le' (k + j)%nat
  ∧ (j = O → le' = le) ∧ ((0 < j)%nat → ∃ e, o (k + j - 1)%nat = Err e ∧ le' = Some e).
Proof.
  induction n as [|n IH]; intros bo le k j Hj Ho.
  - assert (j = O) as -> by lia. exists bo, le. rewrite Nat.add_0_r. split_and!; [done..|lia].
  - destruct j as [|j]; [exists bo, le; rewrite Nat.add_0_r; split_and!; [done..|lia]|].
    destruct (Ho O ltac:(lia)) as [e He]. rewrite Nat.add_0_r in He.
    destruct (IH (snd (Step bo)) (Some e) (S k) j) as (bo' & le' & Heq & H0 & H1); [lia| |].
    + intros i Hi. destruct (Ho (S i) ltac:(lia)) as [e' He']. exists e'. rewrite <-He'. f_equal. lia.
    + exists bo', le'. rewrite (dial_loop_fail _ _ _ _ _ _ _ _ _ e (S k) (S k));
        [|by unfold scripted; rewrite He|done].
      rewrite Heq. split; [f_equal; lia|]. split; [done|]. intros _.
      destruct j as [|j].
      * exists e. rewrite H0 by done. split; [|done]. rewrite <-He. f_equal. lia.
      * destruct H1 as (e' & He' & ->); [lia|]. exists e'. split; [|done]. rewrite <-He'. f_equal. lia.
Qed.

(** ** Properties *)

(** The dialer stops at the first dial that succeeds: when the
    first [k] dials fail, the next succeeds and there are more than [k] steps,
    it returns that connection after exactly [k + 1] dials. *)
Theorem Dial_first_success {Conn} (o : nat → res Conn) Step (bo : Backoff) net addr (k : nat) c :
  Z.of_nat k < bo_Steps bo →
  (∀ i, (i < k)%nat → ∃ e, o i = Err e) → o k = Ok c →
  DialContextWithRetry (scripted o) Step timer_fires bo net addr O = (Ok (Some c), S k).
Proof.
  intros Hk Hf Hc. unfold DialContextWithRetry.
  destruct (dial_loop_scripted o Step net addr (Z.to_nat (bo_Steps bo)) bo None O k)
    as (bo' & le' & Heq & _); [lia|done|].
  rewrite Heq. destruct (Z.to_nat (bo_Steps bo) - k)%nat as [|m] eqn:Hm; [lia|].
  simpl. unfold scripted. by rewrite Hc.
Qed.

Lemma Dial_first_success_witness :
  DialContextWithRetry (scripted (λ i, if decide (i < 2)%nat then Err (Errorf "refused") else Ok "conn"))
    (λ b, (bo_Duration b, b)) timer_fires (mkBackoff (500 * Millisecond) (2, 1) (1, 2) 5) "tcp" "app:80" O
  = (Ok (Some "conn"), 3%nat).
Proof.
  apply (Dial_first_success (λ i, if decide (i < 2)%nat then Err (Errorf "refused") else Ok "conn")
           (λ b, (bo_Duration b, b)) (mkBackoff (500 * Millisecond) (2, 1) (1, 2) 5) "tcp" "app:80" 2%nat "conn").
  - by vm_compute.
  - intros i Hi. exists (Errorf "refused"). by rewrite decide_True.
  - done.
Defined.

(** When every dial fails there are exactly [Steps] dials and the
    error is the last one's; with no steps at all nothing is dialled and the
    result is a nil connection with a nil error. *)
Theorem Dial_all_fail {Conn} (o : nat → res Conn) (err : nat → error) Step (bo : Backoff) net addr :
  (∀ i, o i = Err (err i)) →
  DialContextWithRetry (scripted o) Step timer_fires bo net addr O
  = (if decide (bo_Steps bo ≤ 0) then Ok None else Err (err (Z.to_nat (bo_Steps bo) - 1)%nat),
     Z.to_nat (bo_Steps bo)).
Proof.
  intros Ho. unfold DialContextWithRetry. set (n := Z.to_nat (bo_Steps bo)).
  destruct (dial_loop_scripted o Step net addr n bo None O n) as (bo' & le' & Heq & H0 & H1);
    [lia|eauto|].
  rewrite Heq, Nat.sub_diag. simpl. case_decide.
  - rewrite H0 by lia. done.
  - destruct H1 as (e & He & ->); [lia|]. rewrite Ho in He. by injection He as <-.
Qed.

Lemma Dial_all_fail_witness :
  DialContextWithRetry (Conn := unit) (scripted (λ i, Err (Errorf "refused")))
    (λ b, (bo_Duration b, b)) timer_fires (mkBackoff (500 * Millisecond) (2, 1) (1, 2) 5) "tcp" "app:80" O
  = (Err (Errorf "refused"), 5%nat).
Proof.
  etransitivity;
    [apply (Dial_all_fail (Conn := unit) (λ i, Err (Errorf "refused")) (λ _, Errorf "refused")); done|].
  by vm_compute.
Defined.

(** [MinTotalBackoffDuration] adds up 1, 2, ..., Steps times the
    initial duration in milliseconds (with wrap-around): a linear series. With
    sleeps that double from step to step that is a lower bound on the total,
    exact up to two steps and strictly below it from three on. *)
Theorem MinTotalBackoff_series (bo : Backoff) :
  let n := Z.max 1 (bo_Steps bo) in
  let ms := Milliseconds (bo_Duration bo) in
  MinTotalBackoffDuration bo = int64 (ms * (n * (n + 1) / 2) * Millisecond)
  ∧ n * (n + 1) / 2 ≤ 2 ^ n - 1 ∧ (n * (n + 1) / 2 = 2 ^ n - 1 ↔ n ≤ 2).
Proof.
  intros n ms. split; [|apply triangle_pow; lia]. unfold MinTotalBackoffDuration. fold ms.
  rewrite <-int64_mul_l, backoff_loop_sum, int64_mul_l. do 2 f_equal.
  unfold n. destruct (decide (bo_Steps bo ≤ 1)).
  - rewrite Z2Nat.nonpos by lia. rewrite Z.max_l by lia.
    replace (1 * (1 + 1) / 2) with 1 by done.
    change (Z.of_nat 0) with 0. rewrite !Z.mul_0_l, Zdiv_0_l. lia.
  - rewrite Z2Nat.id by lia. rewrite Z.max_r by lia. set (s := bo_Steps bo) in *.
    replace (s * (s + 1)) with ((s - 1) * (s - 1 - 1) + (2 * s - 1) * 2) by lia.
    rewrite Z.div_add by lia. lia.
Qed.
