(* ===== verification/Caches.v ===== *)
(** * The informer-backed caches as objects (pkg/k8s: config_map_cache_informer.go, deployment_cache_informer.go, deployment_cache.go, client_fake.go, scheme.go, val_ptrs.go)

    The two caches with their constructors: each registers its handlers with an
    informer, and the handlers feed a broadcaster that the watches read. K8s has
    the handlers and the watches on lists of notifications; here they act on the
    broadcaster. The broadcaster is apimachinery's: a class with laws. Nothing in
    the program shuts one down. It has no queue and waits for its watchers, so an
    action blocks as long as one of them does not receive: the notifications of
    this file are those whose handlers have returned. *)

From S2P Require Import Prelude GoStrings GoUrl Json Queue ConfigMaps Net K8s.

(** ** Broadcasters *)

(** [watch.Broadcaster]: [received] is what a watcher has been sent so far,
    [opened] says that it has not been stopped; [shut] that [Shutdown] has been
    called. *)
Class Broadcaster (B : Type) : Type := {
  NewBroadcaster : B;
  bc_Watch : B → res nat * B;
  bc_Action : event → B → res unit * B;
  received : B → nat → list event;
  opened : B → nat → Prop;
  shut : B → bool;
}.

(** Until it is shut down, a broadcaster gives out watchers, which start with
    nothing, and accepts actions, which go to every open watcher, in order. *)
Class BroadcasterLaws (B : Type) `{Broadcaster B} : Prop := {
  New_open : shut NewBroadcaster = false;
  Watch_law b : shut b = false →
    ∃ id b', bc_Watch b = (Ok id, b') ∧ shut b' = false ∧ opened b' id ∧ received b' id = [];
  Action_law b e : shut b = false →
    ∃ b', bc_Action e b = (Ok tt, b') ∧ shut b' = false
    ∧ ∀ id, opened b id → opened b' id ∧ received b' id = received b id ++ [e];
}.

(** ** The caches *)

(** [registered] is whether the informer has the handlers. *)
Record cache (B : Type) : Type := mkCache {
  bcaster : B;
  registered : bool;
  resync : Duration;
  cache_namespace : string;
}.
Arguments mkCache {B}.
Arguments bcaster {B}.
Arguments registered {B}.
Arguments resync {B}.
Arguments cache_namespace {B}.

Section caches.
Context `{Broadcaster B}.
Implicit Type c : cache B.

(** [lggr.Error(err, ...)] is all that an error of [AddEventHandler] causes. *)
Definition NewInformerConfigMapUpdater (AddEventHandler : res unit) (defaultResync : Duration) (namespace : string) : cache B :=
  mkCache NewBroadcaster (is_ok AddEventHandler) defaultResync namespace.

(** No namespace: all of them. *)
Definition NewInformerBackedDeploymentCache (AddEventHandler : res unit) (defaultResync : Duration) : cache B :=
  mkCache NewBroadcaster (is_ok AddEventHandler) defaultResync "".

(** What a handler forwards; a refused action is logged. *)
Fixpoint perform (evs : list event) (b : B) : B :=
  match evs with
  | [] => b
  | e :: evs => perform evs (snd (bc_Action e b))
  end.

Definition set_bcaster (b : B) c : cache B := mkCache b (registered c) (resync c) (cache_namespace c).

(** The informer calls the handler that was registered. *)
Definition notify_with (handler : notification → list event) (n : notification) c : cache B :=
  if registered c then set_bcaster (perform (handler n) (bcaster c)) c else c.

(** [cache.ResourceEventHandlerFuncs{...}] of the two constructors. *)
Definition cm_handler : notification → list event :=
  handle InformerConfigMapUpdater.addEvtHandler InformerConfigMapUpdater.updateEvtHandler
    InformerConfigMapUpdater.deleteEvtHandler.

Definition depl_handler : notification → list event :=
  handle InformerBackedDeploymentCache.addEvtHandler InformerBackedDeploymentCache.updateEvtHandler
    InformerBackedDeploymentCache.deleteEvtHandler.

Definition cm_notify : notification → cache B → cache B := notify_with cm_handler.

Definition depl_notify : notification → cache B → cache B := notify_with depl_handler.

(** [i.bcaster.Watch()], the first half of [Watch]. *)
Definition open_watch c : res nat * cache B := let '(r, b) := bc_Watch (bcaster c) in (r, set_bcaster b c).

(** What [watch.Filter] lets through of what the watcher was sent. *)
Definition cm_watched (ns name : string) (id : nat) c : res (list event) :=
  watch_Filter (InformerConfigMapUpdater.watch_filter ns name) (received (bcaster c) id).

Definition depl_watched (ns name : string) (id : nat) c : res (list event) :=
  watch_Filter (InformerBackedDeploymentCache.watch_filter ns name) (received (bcaster c) id).

(** [Get] and [MarshalJSON] of the ConfigMap cache, over its lister. *)
Definition cm_Get (lister_Get : string → string → res ConfigMap) (ns name : string) : res ConfigMap :=
  cache_Get lister_Get ns name.

Definition cm_MarshalJSON (lister_List : res (list ConfigMap)) (Marshal : list ConfigMap → res string) : res string :=
  cache_MarshalJSON lister_List Marshal.

(** *** Lemmas *)

Context `{!BroadcasterLaws B}.

Lemma perform_received evs b :
  shut b = false →
  shut (perform evs b) = false
  ∧ ∀ id, opened b id → opened (perform evs b) id ∧ received (perform evs b) id = received b id ++ evs.
Proof.
  revert b. induction evs as [|e evs IH]; intros b Hs; simpl; [split; [done|]; intros id Ho; by rewrite app_nil_r|].
  destruct (Action_law b e Hs) as (b' & Hb & Hs' & Hr). rewrite Hb. simpl. destruct (IH b' Hs') as [Hs2 Hr2]. split; [done|].
  intros id Ho. destruct (Hr id Ho) as [Ho' He]. destruct (Hr2 id Ho') as [? ->]. split; [done|]. by rewrite He, <-app_assoc.
Qed.

Lemma notify_received handler l c :
  shut (bcaster c) = false →
  let c' := foldl (λ c n, notify_with handler n c) c l in
  shut (bcaster c') = false ∧ registered c' = registered c
  ∧ ∀ id, opened (bcaster c) id → opened (bcaster c') id
    ∧ received (bcaster c') id = received (bcaster c) id ++ (if registered c then l ≫= handler else []).
Proof.
  revert c. induction l as [|n l IH]; intros c Hs; cbn [foldl mbind list_bind].
  { split_and!; [done|done|]. intros id Ho. destruct (registered c); by rewrite app_nil_r. }
  set (c1 := notify_with handler n c).
  assert (shut (bcaster c1) = false ∧ registered c1 = registered c
          ∧ ∀ id, opened (bcaster c) id → opened (bcaster c1) id
            ∧ received (bcaster c1) id = received (bcaster c) id ++ if registered c then handler n else []) as (Hs1 & Hr1 & Hv1).
  { unfold c1, notify_with. destruct (registered c) eqn:Er; [|split_and!; [done|done|]; intros id Ho; by rewrite app_nil_r].
    destruct (perform_received (handler n) (bcaster c) Hs) as [? ?]. by rewrite <-Er. }
  destruct (IH c1 Hs1) as (Hs2 & Hr2 & Hv2). split_and!; [done|by rewrite Hr2|]. intros id Ho.
  destruct (Hv1 id Ho) as [Ho1 He1]. destruct (Hv2 id Ho1) as [Ho2 He2]. split; [done|]. rewrite He2, He1, Hr1.
  destruct (registered c); by rewrite <-app_assoc.
Qed.

(** A watch that is opened after some notifications is sent what the handlers
    make of those after it. *)
Lemma watch_received handler l1 l2 c :
  shut (bcaster c) = false →
  ∃ id c1, open_watch (foldl (λ c n, notify_with handler n c) c l1) = (Ok id, c1)
  ∧ received (bcaster (foldl (λ c n, notify_with handler n c) c1 l2)) id = if registered c then l2 ≫= handler else [].
Proof.
  intros Hs. destruct (notify_received handler l1 c Hs) as (Hs1 & Hr1 & _).
  set (c' := foldl (λ c n, notify_with handler n c) c l1) in *.
  destruct (Watch_law (bcaster c') Hs1) as (id & b & Hb & Hsb & Ho & He). exists id, (set_bcaster b c').
  split; [unfold open_watch; by rewrite Hb|].
  destruct (notify_received handler l2 (set_bcaster b c') Hsb) as (_ & _ & Hv). destruct (Hv id Ho) as [_ ->].
  simpl. by rewrite He, Hr1.
Qed.
End caches.

(** ** Properties *)

(** What a watch of the object [ns]/[name] should tell of a notification: the kind
    of change and the object as it is after it (before it, for a deletion). *)
Definition cm_event (ns name : string) (n : notification) : option event :=
  let tell ty cm := if decide ((cm_Namespace cm, cm_Name cm) = (ns, name)) then Some (mkEvent ty (ObjConfigMap cm)) else None in
  match n with
  | OnAdd (ObjConfigMap cm) => tell Added cm
  | OnUpdate _ (ObjConfigMap cm) => tell Modified cm
  | OnDelete (ObjConfigMap cm) => tell Deleted cm
  | _ => None
  end.

Definition depl_event (ns name : string) (n : notification) : option event :=
  let tell ty d := if decide ((dep_Namespace d, dep_Name d) = (ns, name)) then Some (mkEvent ty (ObjDeployment d)) else None in
  match n with
  | OnAdd (ObjDeployment d) => tell Added d
  | OnUpdate _ (ObjDeployment d) => tell Modified d
  | OnDelete (ObjDeployment d) => tell Deleted d
  | _ => None
  end.

Lemma cm_filtered ns name l :
  watch_Filter (InformerConfigMapUpdater.watch_filter ns name) (l ≫= cm_handler) = Ok (omap (cm_event ns name) l).
Proof.
  induction l as [|n l IH]; [done|]. unfold cm_handler in *. csimpl.
  destruct n as [[cm| |]|o [cm| |]|[cm| |]]; simpl; try exact IH; rewrite IH; simpl;
    repeat case_bool_decide; case_decide; naive_solver.
Qed.

Lemma depl_filtered ns name l :
  watch_Filter (InformerBackedDeploymentCache.watch_filter ns name) (l ≫= depl_handler) = Ok (omap (depl_event ns name) l).
Proof.
  induction l as [|n l IH]; [done|]. unfold depl_handler in *. csimpl.
  destruct n as [[|d|]|o [|d|]|[|d|]]; simpl; try exact IH; rewrite IH; simpl;
    repeat case_bool_decide; case_decide; naive_solver.
Qed.

(** C34: functional. What the watches of the two caches deliver, over any
    broadcaster that keeps apimachinery's contract and is not shut down (the
    program shuts none down). A watch can always be opened; of the notifications
    whose handlers return after that, in their order, it delivers those about its
    object: an Added event with an added object, a Modified event with the new
    object of an update, a Deleted event with a deleted object; other objects and
    other types of object are passed over, and the unchecked type assertion of the
    deployment cache never panics. When the registration of the handlers failed,
    which is only logged, it never delivers anything. *)
Theorem caches_deliver `{BroadcasterLaws B} (l1 l2 : list notification) (add : res unit) (d : Duration) (space ns name : string) :
  (∃ id (c : cache B), open_watch (foldl (λ c n, cm_notify n c) (NewInformerConfigMapUpdater add d space) l1) = (Ok id, c)
   ∧ cm_watched ns name id (foldl (λ c n, cm_notify n c) c l2)
     = Ok (if is_ok add then omap (cm_event ns name) l2 else []))
  ∧ (∃ id (c : cache B), open_watch (foldl (λ c n, depl_notify n c) (NewInformerBackedDeploymentCache add d) l1) = (Ok id, c)
     ∧ depl_watched ns name id (foldl (λ c n, depl_notify n c) c l2)
       = Ok (if is_ok add then omap (depl_event ns name) l2 else [])).
Proof.
  split.
  - destruct (watch_received cm_handler l1 l2 (NewInformerConfigMapUpdater (B := B) add d space) New_open) as (id & c & Ho & Hr).
    exists id, c. split; [exact Ho|]. unfold cm_watched, cm_notify. rewrite Hr. simpl. destruct (is_ok add); [apply cm_filtered|done].
  - destruct (watch_received depl_handler l1 l2 (NewInformerBackedDeploymentCache (B := B) add d) New_open) as (id & c & Ho & Hr).
    exists id, c. split; [exact Ho|]. unfold depl_watched, depl_notify. rewrite Hr. simpl. destruct (is_ok add); [apply depl_filtered|done].
Qed.

(** A broadcaster that remembers what it sent to each watcher. *)
#[local] Instance list_broadcaster : Broadcaster (list (list event)) := {
  NewBroadcaster := [];
  bc_Watch := λ b, (Ok (length b), b ++ [[]]);
  bc_Action := λ e b, (Ok tt, (λ l, l ++ [e]) <$> b);
  received := λ b id, default [] (b !! id);
  opened := λ b id, (id < length b)%nat;
  shut := λ _, false;
}.

#[local] Instance list_broadcaster_laws : BroadcasterLaws (list (list event)).
Proof.
  split; simpl.
  - done.
  - intros b _. eexists _, _. split; [done|]. rewrite length_app, list_lookup_middle by done. simpl. split_and!; [done|lia|done].
  - intros b e _. eexists. split; [done|]. split; [done|]. intros id Ho. rewrite length_fmap, list_lookup_fmap. split; [done|].
    by destruct (lookup_lt_is_Some_2 b id Ho) as [x ->].
Qed.

Definition demo_web (ready : Z) : object := ObjDeployment (mkDeployment "dp-1" "web" (Some 1) ready).

Lemma caches_deliver_witness :
  ∃ id (c : cache (list (list event))),
    open_watch (depl_notify (OnAdd (demo_web 0)) (NewInformerBackedDeploymentCache (Ok tt) 0)) = (Ok id, c)
    ∧ depl_watched "dp-1" "web" id (depl_notify (OnUpdate (demo_web 0) (demo_web 1)) c) = Ok [mkEvent Modified (demo_web 1)].
Proof.
  exact (proj2 (caches_deliver (B := list (list event)) [OnAdd (demo_web 0)] [OnUpdate (demo_web 0) (demo_web 1)] (Ok tt) 0 ""
    "dp-1" "web")).
Defined.

(** ** The interface of the deployment caches (deployment_cache.go) *)

(** The operations in the monad of the implementation. *)
Record DeploymentCache (M : Type → Type) (Watcher : Type) : Type := mkDeploymentCache {
  dc_MarshalJSON : M (res string);
  dc_Get : string → string → M (res Depl);
  dc_Watch : string → string → M (res Watcher);
}.
Arguments mkDeploymentCache {M Watcher}.
Arguments dc_MarshalJSON {M Watcher}.
Arguments dc_Get {M Watcher}.
Arguments dc_Watch {M Watcher}.

(** The informer-backed cache: a read of the informer's store does not change
    the cache. *)
Definition informer_backed {B} `{Broadcaster B} (lister_Get : string → string → res Depl) (lister_List : res (list Depl))
    (Marshal : list Depl → res string) : DeploymentCache (λ A, cache B → A * cache B) nat :=
  mkDeploymentCache (λ c, (cache_MarshalJSON lister_List Marshal, c)) (λ ns name c, (cache_Get lister_Get ns name, c))
    (λ _ _, open_watch).

(** The fake, whose operations can block. *)
Definition fake_backed : DeploymentCache FakeDeploymentCache.M nat :=
  mkDeploymentCache FakeDeploymentCache.MarshalJSON FakeDeploymentCache.Get
    (λ ns name c, match FakeDeploymentCache.Watch ns name c with Some (id, c) => Some (Ok id, c) | None => None end).

(** ** The fake runtime client (client_fake.go) *)

Module FakeRuntimeClient.
Section fake.
Context {O : Type}.

Record t : Type := mk { reader : @FakeRuntimeClientReader.t O; writer : @FakeRuntimeClientWriter.t O }.

(** The objects of the program are in the reader's heap. *)
Definition NewFakeRuntimeClient (heap : gmap nat O) : t :=
  mk (FakeRuntimeClientReader.mk [] [] heap) (FakeRuntimeClientWriter.mk [] [] [] [] []).

(** Not implemented: nil. *)
Definition Scheme (f : t) : option unit := None.
Definition RESTMapper (f : t) : option unit := None.
Definition Status (f : t) : option unit := None.
Definition SubResource (subResource : string) (f : t) : res unit := Panic "unimplemented".
End fake.
End FakeRuntimeClient.

(** ** Types and pointers (scheme.go, val_ptrs.go) *)

(** [reflect.Type], as far as the code looks: a pointer type has no name. *)
Inductive rtype : Type := Named (name : string) | Pointer (elem : rtype).

Definition type_Name (t : rtype) : string := match t with Named n => n | Pointer _ => "" end.

Definition ObjectKind (t : rtype) : string :=
  let t := match t with Pointer t => t | Named _ => t end in type_Name t.

Definition Int32P (i : Z) : option Z := Some i.

(** The kinds in the ScaledObject are the names of the Go types. *)
Lemma NewScaledObject_kinds ns name depl addr hosts mn mx cd :
  let so := NewScaledObject ns name depl addr hosts mn mx cd in
  so_Kind so = ObjectKind (Pointer (Named "ScaledObject")) ∧ so_TargetKind so = ObjectKind (Pointer (Named "Deployment")).
Proof. done. Qed.
