(* ===== verification/Config.v ===== *)
(** * Configuration (pkg/env, operator/controllers/http/config, interceptor/config, scaler/config.go)

    What the components read from their environment and how they check it.
    [envconfig], which fills most of the structs, is a third-party package and
    is not modelled: the structs are its results. *)

From S2P Require Import Prelude GoStrings GoUrl Queue Net.

(** ** pkg/env *)

(** [os.Getenv], the empty string when a variable is not set. *)
Definition environ : Type := string → string.

Section env.
Context (os_Getenv : environ).

Definition Get (envName : string) : res string :=
  let fromEnv := os_Getenv envName in
  if decide (fromEnv = "") then
    Err (Errorf ("environnment variable " +:+ envName +:+ " not found"))
  else Ok fromEnv.

Definition GetOr (envName otherwise : string) : string :=
  match Get envName with Ok fromEnv => fromEnv | _ => otherwise end.

Definition GetInt32Or (envName : string) (otherwise : Z) : Z :=
  match Get envName with
  | Ok strVal =>
      match ParseInt 32 strVal with
      | Ok val => int32 val
      | _ => otherwise
      end
  | _ => otherwise
  end.

Definition GetIntOr (envName : string) (otherwise : Z) : Z :=
  match Get envName with
  | Ok strVal =>
      match Atoi strVal with
      | Ok val => val
      | _ => otherwise
      end
  | _ => otherwise
  end.
End env.

(** ** The operator *)

Module OperatorConfig.
Record Interceptor : Type := mkInterceptor {
  int_ServiceName : string;
  int_ProxyPort : Z;
  int_AdminPort : Z;
}.

Record ExternalScaler : Type := mkExternalScaler {
  es_ServiceName : string;
  es_Port : Z;
}.

Record Base : Type := mkBase {
  base_TargetPendingRequests : Z;
  base_CurrentNamespace : string;
  base_WatchNamespace : string;
}.

Definition HostName (e : ExternalScaler) (namespace : string) : string :=
  es_ServiceName e +:+ "." +:+ namespace +:+ ":" +:+ Itoa (es_Port e).

Definition AdminPortString (i : Interceptor) : string := Itoa (int_AdminPort i).

Definition NewInterceptorFromEnv (os_Getenv : environ) : res Interceptor :=
  match Get os_Getenv "KEDAHTTP_INTERCEPTOR_SERVICE" with
  | Ok serviceName =>
      let adminPort := GetInt32Or os_Getenv "KEDAHTTP_INTERCEPTOR_ADMIN_PORT" 8090 in
      let proxyPort := GetInt32Or os_Getenv "KEDAHTTP_INTERCEPTOR_PROXY_PORT" 8091 in
      Ok (mkInterceptor serviceName proxyPort adminPort)
  | _ => Err (Errorf "missing 'KEDAHTTP_INTERCEPTOR_SERVICE'")
  end.

Definition NewExternalScalerFromEnv (os_Getenv : environ) : res ExternalScaler :=
  match Get os_Getenv "KEDAHTTP_OPERATOR_EXTERNAL_SCALER_SERVICE" with
  | Ok serviceName =>
      let port := GetInt32Or os_Getenv "KEDAHTTP_OPERATOR_EXTERNAL_SCALER_PORT" 8091 in
      Ok (mkExternalScaler serviceName port)
  | _ => Err (Errorf "missing KEDAHTTP_EXTERNAL_SCALER_SERVICE")
  end.
End OperatorConfig.

(** ** The interceptor *)

Module InterceptorConfig.
Record Serving : Type := mkServing {
  CurrentNamespace : string;
  ProxyPort : Z;
  AdminPort : Z;
  ConfigMapCacheRsyncPeriod : Duration;
  DeploymentCachePollIntervalMS : Z;
  RequestQueueCooldown : Duration;
  RequestQueueCooldownEnforcerInterval : Duration;
  EnableRequestQueueCooldown : bool;
}.

Record Timeouts : Type := mkTimeouts {
  Connect : Duration;
  KeepAlive : Duration;
  ResponseHeader : Duration;
  DeploymentReplicas : Duration;
  ForceHTTP2 : bool;
  MaxIdleConns : Z;
  IdleConnTimeout : Duration;
  TLSHandshakeTimeout : Duration;
  ExpectContinueTimeout : Duration;
  ServiceUnavailableRetry : Z;
}.

(** The message formats the two durations, which the model keeps as numbers of
    nanoseconds. *)
Definition Validate (srvCfg : Serving) (timeoutsCfg : Timeouts) : res unit :=
  let deplCachePollInterval := int64 (DeploymentCachePollIntervalMS srvCfg * Millisecond) in
  if decide (DeploymentReplicas timeoutsCfg < deplCachePollInterval) then
    Err (Errorf ("deployment replicas timeout (" +:+ Itoa (DeploymentReplicas timeoutsCfg)
                 +:+ ") should not be less than the Deployment Cache Poll Interval ("
                 +:+ Itoa deplCachePollInterval +:+ ")"))
  else Ok tt.

Definition backoff (t : Timeouts) (factor jitter : Z * Z) (steps : Z) : Backoff :=
  mkBackoff (Connect t) factor jitter steps.

Definition DefaultBackoff (t : Timeouts) : Backoff := backoff t (2, 1) (1, 2) 5.

(** The forwarding configuration the proxy takes from the timeouts. *)
Record forwardingConfig : Type := mkForwardingConfig {
  waitTimeout : Duration;
  respHeaderTimeout : Duration;
  forceAttemptHTTP2 : bool;
  maxIdleConns : Z;
  idleConnTimeout : Duration;
  tlsHandshakeTimeout : Duration;
  expectContinueTimeout : Duration;
  serviceUnavailableRetry : Z;
}.

Definition newForwardingConfigFromTimeouts (t : Timeouts) : forwardingConfig := {|
  waitTimeout := DeploymentReplicas t;
  respHeaderTimeout := ResponseHeader t;
  forceAttemptHTTP2 := ForceHTTP2 t;
  maxIdleConns := MaxIdleConns t;
  idleConnTimeout := IdleConnTimeout t;
  tlsHandshakeTimeout := TLSHandshakeTimeout t;
  expectContinueTimeout := ExpectContinueTimeout t;
  serviceUnavailableRetry := ServiceUnavailableRetry t;
|}.
End InterceptorConfig.

(** ** The scaler *)

Module ScalerConfig.
Record config : Type := mkConfig {
  GRPCPort : Z;
  HealthPort : Z;
  TargetNamespace : string;
  TargetService : string;
  TargetDeployment : string;
  TargetPort : Z;
  cfg_TargetPendingRequests : Z;
  cfg_ConfigMapCacheRsyncPeriod : Duration;
  DeploymentCacheRsyncPeriod : Duration;
  QueueTickDuration : Duration;
  TargetPendingRequestsInterceptor : Z;
}.
End ScalerConfig.

(** ** Lemmas *)

Lemma signed_val_in_int32 s z : ParseInt 32 s = Ok z → in_int32 z.
Proof.
  unfold ParseInt. intros H. go_destruct. unfold in_int32. simpl in *. lia.
Qed.

Lemma int32_id z : in_int32 z → int32 z = z.
Proof. unfold in_int32, int32, wrap. intros H. rewrite Z.mod_small; lia. Qed.

(** ** Properties *)

(** [GetInt32Or] gives the variable's value when it is the
    decimal text of an int32, and the default when the variable is unset, is
    not a number, or does not fit in 32 bits; the result always fits. *)
Theorem GetInt32Or_spec (env : environ) (name : string) (otherwise : Z) :
  in_int32 otherwise →
  in_int32 (GetInt32Or env name otherwise)
  ∧ (∀ z, in_int32 z → env name = Itoa z → GetInt32Or env name otherwise = z)
  ∧ ((env name = "" ∨ is_ok (ParseInt 32 (env name)) = false) →
     GetInt32Or env name otherwise = otherwise).
Proof.
  intros Ho. unfold GetInt32Or, Get. split_and!.
  - destruct (decide _); [done|]. destruct (ParseInt 32 _) as [z| |] eqn:E; [|done..].
    pose proof (signed_val_in_int32 _ _ E). by rewrite int32_id.
  - intros z Hz ->. rewrite decide_False by apply Itoa_not_empty.
    unfold in_int32 in Hz. rewrite ParseInt_Itoa by (simpl; lia). by apply int32_id.
  - intros [->|Hn]; [done|]. destruct (decide _); [done|]. by destruct (ParseInt 32 _).
Qed.

Lemma GetInt32Or_spec_witness :
  GetInt32Or (λ _, "9091") "KEDAHTTP_INTERCEPTOR_PROXY_PORT" 8091 = 9091.
Proof.
  apply (GetInt32Or_spec (λ _, "9091") "KEDAHTTP_INTERCEPTOR_PROXY_PORT" 8091); done.
Defined.

(** The address the operator writes into a ScaledObject's
    [scalerAddress] splits back into the scaler's service, the namespace and the
    port: the parts are joined by the first dot and the last colon. *)
Theorem HostName_parts (e : OperatorConfig.ExternalScaler) (ns : string) :
  no_char "." (OperatorConfig.es_ServiceName e) → in_int32 (OperatorConfig.es_Port e) →
  let h := OperatorConfig.HostName e ns in
  ∃ i, LastIndex ":" h = Some i
  ∧ Atoi (str_drop (S i) h) = Ok (OperatorConfig.es_Port e)
  ∧ head (Split "." h) = Some (OperatorConfig.es_ServiceName e)
  ∧ str_take i h = OperatorConfig.es_ServiceName e +:+ "." +:+ ns.
Proof.
  intros Hs Hp h. destruct e as [svc port]; simpl in *.
  assert (h = (svc +:+ "." +:+ ns) +:+ String ":" (Itoa port)) as ->.
  { unfold h, OperatorConfig.HostName. simpl. by rewrite <-!app_assoc_str. }
  exists (String.length (svc +:+ "." +:+ ns)). split_and!.
  - by apply LastIndex_app, Itoa_no_char.
  - etransitivity; [apply f_equal, str_drop_S_app|]. unfold Atoi. unfold in_int32 in Hp. apply ParseInt_Itoa. simpl. lia.
  - rewrite <-app_assoc_str. simpl. rewrite Split_app by done. done.
  - apply str_take_app.
Qed.

Lemma HostName_parts_witness :
  ∃ i, LastIndex ":" (OperatorConfig.HostName (OperatorConfig.mkExternalScaler "scaler" 9090) "keda") = Some i
  ∧ Atoi (str_drop (S i) (OperatorConfig.HostName (OperatorConfig.mkExternalScaler "scaler" 9090) "keda")) = Ok 9090.
Proof.
  destruct (HostName_parts (OperatorConfig.mkExternalScaler "scaler" 9090) "keda" eq_refl
              ltac:(by vm_compute)) as (i & ? & ? & _). eauto.
Defined.

(** [Validate] accepts a configuration exactly when the replica
    timeout is at least the poll interval, for every interval that is less than
    2^63 nanoseconds. *)
Theorem Validate_spec (s : InterceptorConfig.Serving) (t : InterceptorConfig.Timeouts) :
  in_int64 (InterceptorConfig.DeploymentCachePollIntervalMS s * Millisecond) →
  is_ok (InterceptorConfig.Validate s t) = true
  ↔ InterceptorConfig.DeploymentCachePollIntervalMS s * Millisecond
    ≤ InterceptorConfig.DeploymentReplicas t.
Proof.
  intros H. unfold InterceptorConfig.Validate. rewrite int64_id by done.
  destruct (decide (InterceptorConfig.DeploymentReplicas t < _)); simpl; split; intros; try done; lia.
Qed.

Lemma Validate_spec_witness :
  is_ok (InterceptorConfig.Validate
    (InterceptorConfig.mkServing "keda" 8080 9090 0 250 0 0 false)
    (InterceptorConfig.mkTimeouts 0 0 0 (1500 * Millisecond) false 100 0 0 0 3)) = true.
Proof. apply Validate_spec; by vm_compute. Defined.
