(* ===== verification/Forward.v ===== *)
(** * Forwarding a request (interceptor: getHost and its helpers in middleware.go, forward_wait_func.go, request_forwarder.go, proxy_handlers.go)

    How an interceptor finds the host a request is for, waits for the
    deployment behind it, and proxies the request, retrying when the backend
    answers a 503 of the service mesh. What belongs to the runtime and the
    network is a parameter run over a state [W]: reverse DNS
    ([net.LookupAddr]), the HTTP transports, [time.Sleep], reading a body.
    Protocol upgrades, trailers and informational responses are not modelled. *)

From S2P Require Import Prelude GoStrings GoUrl Http Routing ConfigMaps Queue Net Config K8s.
Import InterceptorConfig.

(** ** Hosts *)

(** [$SVC.$NAMESPACE.svc.cluster.local] *)
Definition extractServiceInfo (serviceURL : string) : string * string :=
  match Split "." serviceURL with
  | serviceName :: namespace :: _ => (serviceName, namespace)
  | [serviceName] => (serviceName, "")
  | [] => ("", "")
  end.

(** [$POD_IP.$DEPLOYMENT_NAME.$NAMESPACE.svc.cluster.local] *)
Definition extractPodInfo (podURL : string) : string * string * string :=
  match Split "." podURL with
  | podIP :: deploymentName :: namespace :: _ => (podIP, deploymentName, namespace)
  | [podIP; deploymentName] => (podIP, deploymentName, "")
  | _ => ("", "", "")
  end.

(** [if i := strings.Index(s, ":"); i != -1 { s = s[:i] }] *)
Definition strip_port (s : string) : string :=
  match Index ":" s with Some i => str_take i s | None => s end.

Section get_host.
Context {W : Type} (LookupAddr : string → ST W (list string)).

(** The host a request from [remoteDNS] for [host] is routed as. *)
Definition route_host (remoteDNS host : string) : res string :=
  let '(_, _, remoteNs) := extractPodInfo remoteDNS in
  if decide (remoteNs = "") then Err (Errorf ("namespace not found in " +:+ remoteDNS))
  else
    let '(destService, destNs) := extractServiceInfo host in
    if HasPrefix remoteNs "dp-" || bool_decide (destNs = "")
    then Ok (destService +:+ "." +:+ remoteNs)
    else Ok (destService +:+ "." +:+ destNs).

(** The errors of [getHost] are logged, never sent; the quotes of [%q] are left
    out of their texts. *)
Definition getHost (r : Request) : ST W string := λ w,
  if decide (req_RemoteAddr r = "") then (Err (Errorf "remote address not found"), w)
  else
    let remoteIP := strip_port (req_RemoteAddr r) in
    if decide (req_Host r = "") then (Err (Errorf "host not found"), w)
    else
      let host := strip_port (req_Host r) in
      match LookupAddr remoteIP w with
      | (Err e, w) => (Err (Errorf ("error looking up address " +:+ remoteIP +:+ ": " +:+ Error_string e)), w)
      | (Panic p, w) => (Panic p, w)
      | (Ok [], w) => (Err (Errorf ("no names found for address " +:+ remoteIP)), w)
      | (Ok (remoteDNS :: _), w) => (route_host remoteDNS host, w)
      end.
End get_host.

(** ** Waiting for replicas *)

Definition deploymentCanServe (depl : Depl) : bool := bool_decide (0 < dep_ReadyReplicas depl).

(** What a receive of the [select] yields: an event (its object is [ObjOther]
    when it is no Deployment, and for ever once the channel is closed), or the
    end of the context. *)
Inductive wait_input : Type :=
| WaitEvent (obj : object)
| WaitDone (err : error).

Definition wait_error (deployName : string) (e : error) : error :=
  Errorf ("context marked done while waiting for deployment " +:+ deployName
          +:+ " to reach > 0 replicas (" +:+ Error_string e +:+ ")").

Fixpoint wait_loop (deployName : string) (ins : list wait_input) : loop Z :=
  match ins with
  | [] => Waiting
  | WaitEvent (ObjDeployment d) :: ins =>
      if deploymentCanServe d then Returned (Ok 0) else wait_loop deployName ins
  | WaitEvent _ :: ins => wait_loop deployName ins
  | WaitDone e :: _ => Returned (Err (wait_error deployName e))
  end.

(** [newDeployReplicasForwardWaitFunc]: [watch] and [get] are what the cache
    answers, [ins] what the watch and the context deliver afterwards. *)
Definition newDeployReplicasForwardWaitFunc (watch : res unit) (get : res Depl)
    (deployNS deployName : string) (ins : list wait_input) : loop Z :=
  match watch with
  | Err e => Returned (Err e)
  | Panic p => Returned (Panic p)
  | Ok _ =>
      match get with
      | Err e => Returned (Err (Errorf ("error getting state for deployment " +:+ deployNS +:+ "/"
                                          +:+ deployName +:+ " (" +:+ Error_string e +:+ ")")))
      | Panic p => Returned (Panic p)
      | Ok deployment =>
          if deploymentCanServe deployment then Returned (Ok (dep_ReadyReplicas deployment))
          else wait_loop deployName ins
      end
  end.

(** ** The reverse proxy of net/http/httputil *)

Abbreviation headers := (gmap string (list string)) (only parsing).

(** Canonical header names: upper case at the start and after a dash, lower
    case elsewhere; a name with a byte that is not a token is left as it is. *)
Definition token_char (c : ascii) : bool := is_alnum c || char_in c "!#$%&'*+-.^_`|~".
Definition upper (c : ascii) : ascii := if is_lower c then ascii_of_nat (code c - 32) else c.

Fixpoint canonical (up : bool) (s : string) : string :=
  match s with
  | EmptyString => ""
  | String c s => String (if up then upper c else lower c) (canonical (bool_decide (c = "-"%char)) s)
  end.

Definition CanonicalHeaderKey (s : string) : string :=
  if str_all token_char s then canonical true s else s.

Definition is_blank (c : ascii) : bool := char_in c (String "009" (String "010" (String "013" " "))).

Fixpoint trim_left (s : string) : string :=
  match s with
  | String c s' => if is_blank c then trim_left s' else s
  | EmptyString => ""
  end.

Fixpoint trim_right (s : string) : string :=
  match s with
  | EmptyString => ""
  | String c s' =>
      match trim_right s' with
      | EmptyString => if is_blank c then "" else String c ""
      | t => String c t
      end
  end.

Definition TrimString (s : string) : string := trim_right (trim_left s).

Definition hopHeaders : list string :=
  ["Connection"; "Proxy-Connection"; "Keep-Alive"; "Proxy-Authenticate"; "Proxy-Authorization";
   "Te"; "Trailer"; "Transfer-Encoding"; "Upgrade"].

(** The names a Connection header lists. *)
Definition connection_names (h : headers) : list string :=
  filter (λ s, s ≠ "") (TrimString <$> (default [] (h !! "Connection") ≫= Split ",")).

Definition removeHopByHopHeaders (h : headers) : headers :=
  foldr delete (foldr (λ k h, delete (CanonicalHeaderKey k) h) h (connection_names h)) hopHeaders.

(** [net.SplitHostPort] of a remote address, as far as its host: the part
    before the last colon, out of its brackets; no colon, or a colon left in a
    host without brackets, is an error. *)
Definition client_ip (addr : string) : option string :=
  i ← LastIndex ":" addr;
  let host := str_take i addr in
  match host with
  | String "[" rest =>
      j ← Index "]" rest;
      if decide (S j = String.length rest) then Some (str_take j rest) else None
  | _ => if has_char ":" host then None else Some host
  end.

(** The request the proxy sends: the director's changes (the URL is the
    target's, with the path and the query of the request; X-Forwarded-For goes),
    then the hop-by-hop headers go and the client is put in X-Forwarded-For. *)
Definition outgoing (r : Request) (fwdSvcURL : URL) : Request :=
  let u := mkURL (Scheme fwdSvcURL) (Opaque fwdSvcURL) (User fwdSvcURL) (Host fwdSvcURL)
             (Path (req_URL r)) (RawQuery (req_URL r)) (Fragment fwdSvcURL) in
  let h := removeHopByHopHeaders (delete "X-Forwarded-For" (req_Header r)) in
  let h := match client_ip (req_RemoteAddr r) with
           | Some ip => <["X-Forwarded-For" := [ip]]> h
           | None => h
           end in
  mkRequest (req_Method r) (Host fwdSvcURL) (req_RemoteAddr r) u h (req_Body r).

(** Appending a response's headers to those already in the writer. *)
Definition copyHeader (src dst : headers) : headers :=
  union_with (λ d s, Some (d ++ s)) dst src.

Definition copy_response (resp : Response) (w : ResponseWriter) : ResponseWriter :=
  let w := mkWriter (rw_status w) (copyHeader (resp_Header resp) (rw_header w)) (rw_body w) in
  let w := WriteHeader (resp_StatusCode resp) w in
  mkWriter (rw_status w) (rw_header w) (rw_body w +:+ resp_Body resp).

Definition StatusServiceUnavailable : Z := 503.
Definition upstream_error : string := "upstream connect error or disconnect/reset before headers".

Definition set_body (b : string) (resp : Response) : Response :=
  mkResponse (resp_StatusCode resp) (resp_Header resp) b.

(** A request after it was sent once: its body has been read. *)
Definition drained (r : Request) : Request :=
  mkRequest (req_Method r) (req_Host r) (req_RemoteAddr r) (req_URL r) (req_Header r) "".

Section forward.
Context {W : Type}.
(** The configured transport, and [http.DefaultTransport]. *)
Context (RoundTrip DefaultRoundTrip : Request → ST W Response).
(** [time.Sleep]. *)
Context (Sleep : Duration → W → W).
(** [buf.ReadFrom(resp.Body)]. *)
Context (ReadFrom : Response → ST W string).

(** [retryRequest]: [n] is [maxRetries - attempt], at least 0. *)
Fixpoint retry_loop (n : nat) (attempt : Z) (req : Request) (resp : Response) : ST W Response := λ w,
  match n with
  | O => (Ok resp, w)
  | S n =>
      let w := Sleep (Second * (2 * (attempt + 1))) w in
      match DefaultRoundTrip req w with
      | (Panic p, w) => (Panic p, w)
      | (Err _, w) => retry_loop n (attempt + 1) req resp w
      | (Ok newResp, w) =>
          if decide (resp_StatusCode newResp = StatusServiceUnavailable) then
            match ReadFrom newResp w with
            | (Err e, w) => (Err e, w)
            | (Panic p, w) => (Panic p, w)
            | (Ok buf, w) =>
                let newResp := set_body buf newResp in
                if HasPrefix buf upstream_error
                then retry_loop n (attempt + 1) req newResp w
                else (Ok newResp, w)
            end
          else (Ok newResp, w)
      end
  end.

Definition retryRequest (req : Request) (resp : Response) (maxRetries attempt : Z) : ST W Response :=
  retry_loop (Z.to_nat (maxRetries - attempt)) attempt req resp.

(** [proxy.ModifyResponse]. *)
Definition ModifyResponse (req : Request) (maxRetries : Z) (resp : Response) : ST W Response := λ w,
  if decide (resp_StatusCode resp = StatusServiceUnavailable) then
    match ReadFrom resp w with
    | (Err e, w) => (Err e, w)
    | (Panic p, w) => (Panic p, w)
    | (Ok buf, w) =>
        let resp := set_body buf resp in
        if HasPrefix buf upstream_error
        then retryRequest req resp maxRetries 0 w
        else (Ok resp, w)
    end
  else (Ok resp, w).

(** [proxy.ErrorHandler]. *)
Definition ErrorHandler (err : error) (rw : ResponseWriter) : ResponseWriter :=
  reply 502 ("error on backend (" +:+ Error_string err +:+ ")") rw.

(** [forwardRequest]: the proxy's [ServeHTTP] with the hooks above. The headers
    of the backend's answer lose the hop-by-hop ones before the hook sees it. *)
Definition forwardRequest (r : Request) (fwdSvcURL : URL) (maxRetries : Z)
    (rw : ResponseWriter) : W → res ResponseWriter * W := λ w,
  let out := outgoing r fwdSvcURL in
  match RoundTrip out w with
  | (Panic p, w) => (Panic p, w)
  | (Err e, w) => (Ok (ErrorHandler e rw), w)
  | (Ok resp, w) =>
      let resp := mkResponse (resp_StatusCode resp) (removeHopByHopHeaders (resp_Header resp))
                    (resp_Body resp) in
      match ModifyResponse (drained out) maxRetries resp w with
      | (Panic p, w) => (Panic p, w)
      | (Err e, w) => (Ok (ErrorHandler e rw), w)
      | (Ok resp, w) => (Ok (copy_response resp rw), w)
      end
  end.

(** ** The forwarding handler *)

Context (LookupAddr : string → ST W (list string)).
(** [waitFunc] with the request's context and the wait timeout. *)
Context (waitFunc : Duration → string → string → ST W Z).
Context (targetSvcURL : Target → res URL).

Definition coldStartHeader : string := CanonicalHeaderKey "X-KEDA-HTTP-Cold-Start".

(** Where a request goes: to the port of its Host header if it has one, to the
    target's own URL otherwise; an error is the answer sent. *)
Definition target_url (r : Request) (routingTarget : Target) : URL + string :=
  match Index ":" (req_Host r) with
  | Some i =>
      let targetPort := str_drop (S i) (req_Host r) in
      let targetHost := "http://" +:+ Service routingTarget +:+ "." +:+ Namespace routingTarget
                        +:+ ":" +:+ targetPort in
      match url_Parse targetHost with
      | Ok u => inl u
      | _ => inr ("error parsing host:port: " +:+ targetHost +:+ " to URL")
      end
  | None =>
      match targetSvcURL routingTarget with
      | Ok u => inl u
      | _ => inr "error getting backend service URL"
      end
  end.

Definition newForwardingHandler (routingTable : Table) (fwdCfg : forwardingConfig)
    (r : Request) (rw : ResponseWriter) : W → res ResponseWriter * W := λ w,
  match getHost LookupAddr r w with
  | (Panic p, w) => (Panic p, w)
  | (Err _, w) => (Ok (reply 400 "Host not found in request" rw), w)
  | (Ok host, w) =>
      match Lookup host routingTable with
      | Panic p => (Panic p, w)
      | Err _ => (Ok (reply 404 ("Host " +:+ req_Host r +:+ " not found") rw), w)
      | Ok routingTarget =>
          match waitFunc (waitTimeout fwdCfg) (Namespace routingTarget) (Deployment routingTarget) w with
          | (Panic p, w) => (Panic p, w)
          | (Err e, w) => (Ok (reply 502 ("error on backend (" +:+ Error_string e +:+ ")") rw), w)
          | (Ok replicas, w) =>
              match target_url r routingTarget with
              | inr msg => (Ok (reply 500 msg rw), w)
              | inl targetURL =>
                  let isColdStart := if decide (replicas = 0) then "true" else "false" in
                  forwardRequest r targetURL (serviceUnavailableRetry fwdCfg)
                    (HeaderAdd coldStartHeader isColdStart rw) w
              end
          end
      end
  end.
End forward.

(** ** Lemmas *)

Lemma strip_port_no_colon s : no_char ":" (strip_port s).
Proof.
  unfold strip_port. destruct (Index ":" s) as [i|] eqn:E.
  - by apply Index_Some in E as [_ ?].
  - by apply Index_None.
Qed.

Lemma strip_port_id s : no_char ":" s → strip_port s = s.
Proof. intros H. unfold strip_port. by rewrite (proj2 (Index_None ":" s) H). Qed.

Lemma strip_port_app h p : no_char ":" h → strip_port (h +:+ ":" +:+ p) = h.
Proof.
  intros H. unfold strip_port. change (":" +:+ p) with (String ":" p).
  by rewrite Index_app, str_take_app.
Qed.

Lemma extractServiceInfo_labels host svc ns :
  extractServiceInfo host = (svc, ns) → no_char "." svc ∧ no_char "." ns.
Proof.
  unfold extractServiceInfo. pose proof (Split_parts "." host) as Hp.
  destruct (Split "." host) as [|a [|b l]]; intros [= <- <-];
    repeat (apply Forall_cons in Hp as [? Hp]); eauto with go.
Qed.

Lemma extractPodInfo_labels dns ip depl ns :
  extractPodInfo dns = (ip, depl, ns) → no_char "." ns.
Proof.
  unfold extractPodInfo. pose proof (Split_parts "." dns) as Hp.
  destruct (Split "." dns) as [|a [|b [|c l]]]; intros [= <- <- <-];
    repeat (apply Forall_cons in Hp as [? Hp]); eauto with go.
Qed.

(** The host computed is always one service label and one namespace label. *)
Lemma route_host_labels dns host h :
  route_host dns host = Ok h →
  let '(_, _, remoteNs) := extractPodInfo dns in
  let '(svc, destNs) := extractServiceInfo host in
  remoteNs ≠ ""
  ∧ Split "." h
    = [svc; if HasPrefix remoteNs "dp-" || bool_decide (destNs = "") then remoteNs else destNs].
Proof.
  unfold route_host. destruct (extractPodInfo dns) as [[ip depl] rns] eqn:Ep.
  destruct (extractServiceInfo host) as [svc dns'] eqn:Es. case_decide; [done|].
  apply extractPodInfo_labels in Ep. apply extractServiceInfo_labels in Es as [? ?].
  intros Hh. split; [done|].
  destruct (HasPrefix rns "dp-" || bool_decide (dns' = "")); injection Hh as <-;
    change ("." +:+ ?x) with (String "." x);
    rewrite Split_app, Split_no_char; done.
Qed.

Lemma getHost_Ok {W} (LookupAddr : string → ST W (list string)) r w w' h :
  getHost LookupAddr r w = (Ok h, w') →
  ∃ dns names, LookupAddr (strip_port (req_RemoteAddr r)) w = (Ok (dns :: names), w')
  ∧ route_host dns (strip_port (req_Host r)) = Ok h.
Proof.
  unfold getHost. do 2 (case_decide; [done|]).
  destruct (LookupAddr _ w) as [[[|dns names]|e|p] w1]; intros Heq; simplify_eq; eauto.
Qed.

(** *** Scripted transports *)

(** The state counts the calls and adds up the time slept; call [k] answers
    [o k] and bodies are read whole. *)
Definition s_RoundTrip (o : nat → res Response) : Request → ST (nat * Z) Response :=
  λ _ '(k, t), (o k, (S k, t)).
Definition s_Sleep : Duration → nat * Z → nat * Z := λ d '(k, t), (k, t + d).
Definition s_ReadFrom : Response → ST (nat * Z) string := λ resp s, (Ok (resp_Body resp), s).

Definition mesh_error (resp : Response) : Prop :=
  resp_StatusCode resp = StatusServiceUnavailable ∧ HasPrefix (resp_Body resp) upstream_error = true.

(** An answer that makes [retryRequest] try again. *)
Definition retriable (x : res Response) : Prop :=
  match x with
  | Ok resp => mesh_error resp
  | Err _ => True
  | Panic _ => False
  end.

Lemma set_body_same resp : set_body (resp_Body resp) resp = resp.
Proof. by destruct resp. Qed.

Lemma retry_step o n a req resp k t :
  retriable (o k) →
  ∃ resp', retry_loop (s_RoundTrip o) s_Sleep s_ReadFrom (S n) a req resp (k, t)
    = retry_loop (s_RoundTrip o) s_Sleep s_ReadFrom n (a + 1) req resp'
        (S k, t + Second * (2 * (a + 1)))
  ∧ (mesh_error resp → mesh_error resp').
Proof.
  intros Hr. cbn [retry_loop s_Sleep s_RoundTrip]. destruct (o k) as [new|e|p]; [|eauto|done].
  destruct Hr as [Hs Hb]. rewrite decide_True by done. cbn [s_ReadFrom]. rewrite Hb, set_body_same.
  exists new. split; [done|]. by intros _.
Qed.

Lemma retry_skip o req j : ∀ n a resp k t,
  (j ≤ n)%nat → (∀ i, (i < j)%nat → retriable (o (k + i)%nat)) →
  ∃ resp', retry_loop (s_RoundTrip o) s_Sleep s_ReadFrom n a req resp (k, t)
    = retry_loop (s_RoundTrip o) s_Sleep s_ReadFrom (n - j) (a + Z.of_nat j) req resp'
        ((k + j)%nat, t + Second * (Z.of_nat j * (2 * a + Z.of_nat j + 1)))
  ∧ (mesh_error resp → mesh_error resp').
Proof.
  induction j as [|j IH]; intros n a resp k t Hn Ho.
  - exists resp. split; [|done]. rewrite Nat.sub_0_r, Nat.add_0_r. do 2 f_equal; [lia|].
    f_equal. lia.
  - destruct n as [|n]; [lia|].
    destruct (retry_step o n a req resp k t) as (r1 & -> & H1);
      [specialize (Ho O); rewrite Nat.add_0_r in Ho; apply Ho; lia|].
    destruct (IH n (a + 1) r1 (S k) (t + Second * (2 * (a + 1)))) as (r2 & -> & H2); [lia| |].
    + intros i Hi. replace (S k + i)%nat with (k + S i)%nat by lia. apply Ho. lia.
    + exists r2. split; [|by eauto]. change (S n - S j)%nat with (n - j)%nat.
      replace (S k + j)%nat with (k + S j)%nat by lia.
      replace (a + 1 + Z.of_nat j) with (a + Z.of_nat (S j)) by lia.
      do 2 f_equal. unfold Second, Millisecond. lia.
Qed.

(** Whatever the answers: at most [n] calls. *)
Lemma retry_calls o req n : ∀ a resp k t,
  (fst (snd (retry_loop (s_RoundTrip o) s_Sleep s_ReadFrom n a req resp (k, t))) ≤ k + n)%nat.
Proof.
  induction n as [|n IH]; intros a resp k t; cbn [retry_loop s_Sleep s_RoundTrip]; [simpl; lia|].
  assert (∀ a resp t, (fst (snd (retry_loop (s_RoundTrip o) s_Sleep s_ReadFrom n a req resp (S k, t)))
                       ≤ k + S n)%nat) as IH'.
  { intros. specialize (IH a0 resp0 (S k) t0). lia. }
  destruct (o k) as [new|e|p]; [|apply IH'|simpl; lia].
  case_decide; [|simpl; lia]. cbn [s_ReadFrom]. destruct (HasPrefix _ _); [apply IH'|simpl; lia].
Qed.

Lemma foldr_delete_lookup {A} (l : list string) (m : gmap string A) k :
  k ∈ l → foldr delete m l !! k = None.
Proof.
  induction l as [|x l IH]; [set_solver|]. intros [->|Hk]%elem_of_cons; simpl.
  - apply lookup_delete_eq.
  - rewrite lookup_delete. case_decide; [done|]. by apply IH.
Qed.

Lemma foldr_delete_None {A} (f : string → string) (l : list string) (m : gmap string A) k :
  m !! k = None → foldr (λ x m, delete (f x) m) m l !! k = None.
Proof. intros Hk. induction l as [|x l IH]; [done|]. simpl. rewrite lookup_delete. by case_decide. Qed.

Lemma removeHopByHop_None h k : h !! k = None → removeHopByHopHeaders h !! k = None.
Proof.
  intros Hk. apply (foldr_delete_None (λ x, x)). by apply (foldr_delete_None CanonicalHeaderKey).
Qed.

Lemma outgoing_header r u :
  req_Header (outgoing r u)
  = match client_ip (req_RemoteAddr r) with
    | Some ip => <["X-Forwarded-For" := [ip]]>
                   (removeHopByHopHeaders (delete "X-Forwarded-For" (req_Header r)))
    | None => removeHopByHopHeaders (delete "X-Forwarded-For" (req_Header r))
    end.
Proof. reflexivity. Qed.

Lemma removeHopByHop_lookup h k : k ∈ hopHeaders → removeHopByHopHeaders h !! k = None.
Proof. apply foldr_delete_lookup. Qed.

(** The objects of the events before the wait ends. *)
Definition not_ready (i : wait_input) : bool :=
  match i with
  | WaitEvent (ObjDeployment d) => negb (deploymentCanServe d)
  | WaitEvent _ => true
  | WaitDone _ => false
  end.

Lemma wait_loop_skip name l1 l2 :
  forallb not_ready l1 = true → wait_loop name (l1 ++ l2) = wait_loop name l2.
Proof.
  induction l1 as [|[[cm|d|]|e] l1 IH]; simpl; [done| | | |done]; try done.
  intros [Hd Hl]%andb_true_iff. destruct (deploymentCanServe d); [done|]. by apply IH.
Qed.

(** ** Properties *)

(** C5: safety. A caller in a data-plane namespace (one whose name starts with
    [dp-]) chooses nothing but the first label of the host that is looked up:
    whatever Host header it sends, when reverse DNS resolves the caller and
    [getHost] succeeds, the host is the header's first label, a dot and the
    caller's namespace, two labels exactly; and when that namespace contains no
    colon, a target that [Lookup] finds is the table's entry under this very key,
    not under a shortened one. The key is what is fixed: the target stored under
    it is whatever some HTTPScaledObject registered for it, in any namespace. *)
Theorem getHost_isolation {W} (LookupAddr : string → ST W (list string)) (r : Request) (w w' : W)
    (dns : string) (names : list string) (ip depl ns h : string) (t : Table) (x : Target) :
  LookupAddr (strip_port (req_RemoteAddr r)) w = (Ok (dns :: names), w') →
  extractPodInfo dns = (ip, depl, ns) → HasPrefix ns "dp-" = true →
  getHost LookupAddr r w = (Ok h, w') →
  let svc := fst (extractServiceInfo (strip_port (req_Host r))) in
  h = svc +:+ "." +:+ ns ∧ Split "." h = [svc; ns]
  ∧ (no_char ":" ns → Lookup h t = Ok x → entries t !! (svc +:+ "." +:+ ns) = Some x).
Proof.
  intros Hl Hp Hns Hg svc. apply getHost_Ok in Hg as (dns' & names' & Hl' & Hr).
  rewrite Hl in Hl'. injection Hl' as <- <-.
  pose proof (route_host_labels _ _ _ Hr) as Hlab. rewrite Hp in Hlab.
  unfold svc. destruct (extractServiceInfo _) as [svc' ns'] eqn:Es. rewrite Hns in Hlab.
  destruct Hlab as [_ Hlab]. simpl in *.
  assert (h = svc' +:+ "." +:+ ns) as ->.
  { pose proof (Join_Split "." h) as HJ. rewrite Hlab in HJ. by rewrite <-HJ. }
  split_and!; [done|done|]. intros Hc HL. revert HL. unfold Lookup.
  assert (no_char ":" svc').
  { clear -Es. unfold extractServiceInfo in Es.
    pose proof (strip_port_no_colon (req_Host r)) as Hn. rewrite <-(Join_Split ".") in Hn.
    destruct (Split "." _) as [|a [|b l]]; injection Es as <- <-; [done|done|].
    rewrite Join_cons in Hn by done. by apply no_char_app in Hn as [? _]. }
  rewrite lookup_keys_plain.
  - rewrite lookup_first_one. destruct (entries t !! _); [|done]. by intros [= ->].
  - apply no_char_app. split; [done|]. by apply no_char_cons.
Qed.

Definition demo_request (host : string) : Request :=
  mkRequest "GET" host "10.1.2.3:51234" (mkURL "" "" None "" "/" "" "") ∅ "".
Definition demo_dns : string → ST unit (list string) :=
  λ _ w, (Ok ["10-1-2-3.web.dp-1.pod.cluster.local."], w).

Lemma getHost_isolation_witness :
  entries (mkTable (Some {["app.dp-1" := demo_target]})) !! ("app" +:+ "." +:+ "dp-1") = Some demo_target.
Proof.
  apply (getHost_isolation demo_dns (demo_request "app.dp-2.svc.cluster.local:80") tt tt
           "10-1-2-3.web.dp-1.pod.cluster.local." [] "10-1-2-3" "web" "dp-1" "app.dp-1"
           (mkTable (Some {["app.dp-1" := demo_target]})) demo_target); by vm_compute.
Defined.

(** The port of the Host header does not take part in routing:
    with and without it [getHost] computes the same host. *)
Theorem getHost_ignores_port {W} (LookupAddr : string → ST W (list string)) (r : Request)
    (host port : string) (w : W) :
  no_char ":" host → host ≠ "" →
  getHost LookupAddr (mkRequest (req_Method r) (host +:+ ":" +:+ port) (req_RemoteAddr r) (req_URL r)
                        (req_Header r) (req_Body r)) w
  = getHost LookupAddr (mkRequest (req_Method r) host (req_RemoteAddr r) (req_URL r)
                          (req_Header r) (req_Body r)) w.
Proof.
  intros Hc He. unfold getHost. cbn [req_RemoteAddr req_Host].
  rewrite strip_port_app, (strip_port_id host) by done.
  rewrite !(decide_False (P := host = "")) by done.
  rewrite (decide_False (P := host +:+ ":" +:+ port = "")); [done|]. by destruct host.
Qed.

Lemma getHost_ignores_port_witness :
  getHost demo_dns (demo_request "app:8080") tt = getHost demo_dns (demo_request "app") tt.
Proof. apply (getHost_ignores_port demo_dns (demo_request "") "app" "8080" tt); done. Defined.

(** The wait function returns the replica count when the cached
    Deployment is ready at once; otherwise it answers the first thing that ends
    the wait, after any number of events that do not: 0 for an event with a
    ready Deployment, the context's error when the context ends. Until then it
    waits. *)
Theorem wait_func_spec (ns name : string) (d : Depl) (pre rest : list wait_input) :
  forallb not_ready pre = true →
  newDeployReplicasForwardWaitFunc (Ok tt) (Ok d) ns name pre
  = (if deploymentCanServe d then Returned (Ok (dep_ReadyReplicas d)) else Waiting)
  ∧ (∀ d', deploymentCanServe d = false → deploymentCanServe d' = true →
     newDeployReplicasForwardWaitFunc (Ok tt) (Ok d) ns name
       (pre ++ WaitEvent (ObjDeployment d') :: rest) = Returned (Ok 0))
  ∧ (∀ e, deploymentCanServe d = false →
     newDeployReplicasForwardWaitFunc (Ok tt) (Ok d) ns name (pre ++ WaitDone e :: rest)
     = Returned (Err (wait_error name e))).
Proof.
  intros Hpre. unfold newDeployReplicasForwardWaitFunc. split_and!.
  - destruct (deploymentCanServe d); [done|].
    pose proof (wait_loop_skip name pre [] Hpre) as Hw. by rewrite app_nil_r in Hw.
  - intros d' -> Hd'. rewrite wait_loop_skip by done. simpl. by rewrite Hd'.
  - intros e ->. by rewrite wait_loop_skip by done.
Qed.

Lemma wait_func_spec_witness :
  newDeployReplicasForwardWaitFunc (Ok tt) (Ok (mkDeployment "dp-1" "app" (Some 1) 0)) "dp-1" "app"
    ([WaitEvent ObjOther; WaitEvent (ObjDeployment (mkDeployment "dp-1" "app" (Some 1) 0))]
     ++ [WaitEvent (ObjDeployment (mkDeployment "dp-1" "app" (Some 1) 1))]) = Returned (Ok 0).
Proof.
  apply (wait_func_spec "dp-1" "app" (mkDeployment "dp-1" "app" (Some 1) 0)
           [WaitEvent ObjOther; WaitEvent (ObjDeployment (mkDeployment "dp-1" "app" (Some 1) 0))] []);
    by vm_compute.
Defined.

(** [retryRequest] ends: however the backend answers, it makes at
    most [maxRetries] further requests, none at all when [maxRetries] is 0 or
    less. *)
Theorem retry_bounded (o : nat → res Response) (req : Request) (resp : Response) (maxRetries : Z) :
  Z.of_nat (fst (snd (retryRequest (s_RoundTrip o) s_Sleep s_ReadFrom req resp maxRetries 0 (O, 0))))
  ≤ Z.max 0 maxRetries.
Proof.
  unfold retryRequest.
  pose proof (retry_calls o req (Z.to_nat (maxRetries - 0)) 0 resp O 0). lia.
Qed.

(** C32: functional. [retryRequest] returns the first answer that is not the
    mesh's upstream error, after [k] that are (or that fail): [k + 1] requests,
    with 2, 4, 6, ... seconds slept before them, k*k + 3*k + 2 in total. When all
    [maxRetries] attempts go the same way the caller still gets an upstream
    error, after maxRetries * (maxRetries + 1) seconds. *)
Theorem retry_first_good (o : nat → res Response) (req : Request) (resp : Response)
    (maxRetries : Z) (k : nat) :
  mesh_error resp → 0 ≤ maxRetries → (∀ i, (i < k)%nat → retriable (o i)) →
  (∀ good, Z.of_nat k < maxRetries → o k = Ok good → ¬ mesh_error good →
     retryRequest (s_RoundTrip o) s_Sleep s_ReadFrom req resp maxRetries 0 (O, 0)
     = (Ok good, (S k, Second * (Z.of_nat k * Z.of_nat k + 3 * Z.of_nat k + 2))))
  ∧ (Z.of_nat k = maxRetries → ∃ last, mesh_error last
     ∧ retryRequest (s_RoundTrip o) s_Sleep s_ReadFrom req resp maxRetries 0 (O, 0)
       = (Ok last, (k, Second * (maxRetries * (maxRetries + 1))))).
Proof.
  intros Hm H0 Ho. unfold retryRequest. rewrite Z.sub_0_r. split.
  - intros good Hk Hgood Hng.
    destruct (retry_skip o req k (Z.to_nat maxRetries) 0 resp O 0) as (r' & -> & _); [lia|done|].
    destruct (Z.to_nat maxRetries - k)%nat as [|n] eqn:En; [lia|].
    cbn [retry_loop s_Sleep s_RoundTrip]. rewrite Nat.add_0_l, Hgood.
    replace (0 + Second * (Z.of_nat k * (2 * 0 + Z.of_nat k + 1)) + Second * (2 * (0 + Z.of_nat k + 1)))
      with (Second * (Z.of_nat k * Z.of_nat k + 3 * Z.of_nat k + 2)) by (unfold Second, Millisecond; lia).
    case_decide as Hs; [|done]. cbn [s_ReadFrom]. rewrite set_body_same.
    destruct (HasPrefix _ _) eqn:Hb; [|done]. destruct Hng. by split.
  - intros Hk.
    destruct (retry_skip o req k (Z.to_nat maxRetries) 0 resp O 0) as (r' & -> & Hr); [lia|done|].
    exists r'. split; [by apply Hr|]. replace (Z.to_nat maxRetries - k)%nat with O by lia. simpl.
    do 2 f_equal. subst. lia.
Qed.

Definition demo_mesh_503 : Response := mkResponse 503 ∅ upstream_error.
Definition demo_200 : Response := mkResponse 200 ∅ "hello".

Lemma retry_first_good_witness :
  retryRequest (s_RoundTrip (λ i, if decide (i < 1)%nat then Ok demo_mesh_503 else Ok demo_200))
    s_Sleep s_ReadFrom (demo_request "app") demo_mesh_503 3 0 (O, 0)
  = (Ok demo_200, (2%nat, 6 * Second)).
Proof.
  apply (retry_first_good (λ i, if decide (i < 1)%nat then Ok demo_mesh_503 else Ok demo_200)
           (demo_request "app") demo_mesh_503 3 1%nat); try done.
  - intros i Hi. rewrite decide_True by done. by split.
  - by intros [? _].
Defined.

(** The request sent to the backend goes to the target URL with
    the client's own path and query; it carries no hop-by-hop header, and its
    X-Forwarded-For is the client's address alone: what the client put there is
    dropped. *)
Theorem outgoing_spec (r : Request) (u : URL) :
  let out := outgoing r u in
  Path (req_URL out) = Path (req_URL r) ∧ RawQuery (req_URL out) = RawQuery (req_URL r)
  ∧ Host (req_URL out) = Host u ∧ Scheme (req_URL out) = Scheme u ∧ req_Host out = Host u
  ∧ req_Body out = req_Body r ∧ req_Method out = req_Method r
  ∧ (∀ k, k ∈ hopHeaders → req_Header out !! k = None)
  ∧ req_Header out !! "X-Forwarded-For" = (λ ip, [ip]) <$> client_ip (req_RemoteAddr r).
Proof.
  intros out. split_and!; try done; unfold out.
  - intros k Hk. rewrite outgoing_header. destruct (client_ip _) as [ip|].
    + rewrite lookup_insert_ne by (by intros <-; set_solver). by apply removeHopByHop_lookup.
    + by apply removeHopByHop_lookup.
  - rewrite outgoing_header. destruct (client_ip _) as [ip|]; [apply lookup_insert_eq|].
    apply removeHopByHop_None, lookup_delete_eq.
Qed.

(** *** Recording transports *)

(** The state is the log of the requests sent; [f] and [g] answer from the log
    and the request. *)
Definition rec_RoundTrip (f : list Request → Request → res Response) : Request → ST (list Request) Response :=
  λ r l, (f l r, l ++ [r]).
Lemma rec_run h r l : rec_RoundTrip h r l = (h l r, l ++ [r]).
Proof. reflexivity. Qed.

Definition rec_Sleep : Duration → list Request → list Request := λ _ l, l.

Section recorded.
Context (f g : list Request → Request → res Response) (read : Response → res string).
Definition rec_ReadFrom : Response → ST (list Request) string := λ resp l, (read resp, l).

(** Retries resend the one drained request, [n] times at most. *)
Lemma retry_log req n : ∀ a resp l,
  ∃ m, (m ≤ n)%nat
  ∧ snd (retry_loop (rec_RoundTrip g) rec_Sleep rec_ReadFrom n a req resp l) = l ++ replicate m req.
Proof.
  induction n as [|n IH]; intros a resp l; cbn [retry_loop].
  { exists O. split; [lia|]. simpl. by rewrite app_nil_r. }
  assert (∀ a resp, ∃ m, (m ≤ S n)%nat
    ∧ snd (retry_loop (rec_RoundTrip g) rec_Sleep rec_ReadFrom n a req resp (l ++ [req]))
      = l ++ replicate m req) as Hnext.
  { intros a' resp'. destruct (IH a' resp' (l ++ [req])) as (m & ? & ->).
    exists (S m). split; [lia|]. simpl. by rewrite <-app_assoc. }
  assert (∃ m, (m ≤ S n)%nat ∧ l ++ [req] = l ++ replicate m req) by (exists 1%nat; split; [lia|done]).
  rewrite rec_run. change (rec_Sleep _ l) with l. destruct (g l req) as [new|e|p]; [|apply Hnext|done].
  case_decide; [|done]. change (rec_ReadFrom new ?x) with (read new, x). destruct (read new) as [buf|e|p]; [|done..].
  destruct (HasPrefix buf _); [apply Hnext|done].
Qed.

Lemma modify_log req maxRetries resp l :
  ∃ m, (m ≤ Z.to_nat maxRetries)%nat
  ∧ snd (ModifyResponse (rec_RoundTrip g) rec_Sleep rec_ReadFrom req maxRetries resp l)
    = l ++ replicate m req.
Proof.
  assert (∃ m, (m ≤ Z.to_nat maxRetries)%nat ∧ l = l ++ replicate m req) as H0
    by (exists O; split; [lia|]; simpl; by rewrite app_nil_r).
  unfold ModifyResponse. case_decide; [|done]. change (rec_ReadFrom resp l) with (read resp, l).
  destruct (read resp) as [buf|e|p]; [|done..].
  destruct (HasPrefix buf _); [|done].
  unfold retryRequest. rewrite Z.sub_0_r. apply retry_log.
Qed.

Lemma forward_log r u maxRetries rw l :
  ∃ m, (m ≤ Z.to_nat maxRetries)%nat
  ∧ snd (forwardRequest (rec_RoundTrip f) (rec_RoundTrip g) rec_Sleep rec_ReadFrom r u maxRetries rw l)
    = l ++ outgoing r u :: replicate m (drained (outgoing r u)).
Proof.
  unfold forwardRequest. rewrite rec_run.
  assert (∃ m, (m ≤ Z.to_nat maxRetries)%nat
    ∧ l ++ [outgoing r u] = l ++ outgoing r u :: replicate m (drained (outgoing r u))) as H0
    by (exists O; split; [lia|done]).
  destruct (f l (outgoing r u)) as [resp|e|p]; [|done..].
  match goal with |- context [ModifyResponse ?a ?b ?c ?d ?e ?h ?i] =>
    destruct (modify_log d e h i) as (m & Hm & Hl); destruct (ModifyResponse a b c d e h i) as [x l'] end.
  simpl in Hl. exists m. split; [done|]. destruct x; simpl; rewrite Hl, <-app_assoc; done.
Qed.
End recorded.

Lemma error_answer (code : Z) (msg : string) (ans : res ResponseWriter) (log : list Request) :
  (Ok (reply code msg NewWriter), []) = (ans, log) →
  code ∈ [400; 404; 500; 502] →
  log = [] ∧ ∃ rw code, ans = Ok rw ∧ rw_status rw = Some code ∧ code ∈ [400; 404; 500; 502].
Proof. intros [= <- <-] Hc. split; [done|]. by exists (reply code msg NewWriter), code. Qed.

(** C6: safety. A request leaves the interceptor only for a registered host: if
    anything was sent, the host computed for the request is in the routing
    table, the first request sent is the one for its target, and at most
    [maxRetries] copies of it without the body follow; otherwise the client got
    one of the four error statuses. *)
Theorem forward_only_registered f g read (LookupAddr : string → res (list string))
    (wait : string → string → res Z) (svcURL : Target → res URL)
    (t : Table) (cfg : forwardingConfig) (r : Request) ans log :
  (∀ a, is_panic (LookupAddr a) = false) → (∀ ns d, is_panic (wait ns d) = false) →
  newForwardingHandler (rec_RoundTrip f) (rec_RoundTrip g) rec_Sleep (rec_ReadFrom read)
    (λ a l, (LookupAddr a, l)) (λ _ ns d l, (wait ns d, l)) svcURL t cfg r NewWriter [] = (ans, log) →
  (log = [] ∧ ∃ rw code, ans = Ok rw ∧ rw_status rw = Some code ∧ code ∈ [400; 404; 500; 502])
  ∨ (∃ host x u m, getHost (λ a (l : list Request), (LookupAddr a, l)) r [] = (Ok host, []) ∧ Lookup host t = Ok x
     ∧ target_url svcURL r x = inl u ∧ (m ≤ Z.to_nat (serviceUnavailableRetry cfg))%nat
     ∧ log = outgoing r u :: replicate m (drained (outgoing r u))).
Proof.
  intros Hdns Hwait Hrun. unfold newForwardingHandler in Hrun.
  assert (∃ x, getHost (λ a (l : list Request), (LookupAddr a, l)) r [] = (x, []) ∧ is_panic x = false) as (x & Hg & Hx).
  { unfold getHost. do 2 (case_decide; [by eexists|]). specialize (Hdns (strip_port (req_RemoteAddr r))).
    destruct (LookupAddr _) as [[|n names]|e|p]; [by eexists| |by eexists|done].
    eexists. split; [done|]. unfold route_host. by go_destruct. }
  rewrite Hg in Hrun. destruct x as [host|e|p]; [|left; apply error_answer in Hrun; [done|set_solver]|done].
  pose proof (Lookup_no_panic host t).
  destruct (Lookup host t) as [x|e|p] eqn:Hl; [|left; apply error_answer in Hrun; [done|set_solver]|done].
  specialize (Hwait (Namespace x) (Deployment x)).
  destruct (wait _ _) as [n|e|p]; [|left; apply error_answer in Hrun; [done|set_solver]|done].
  destruct (target_url svcURL r x) as [u|msg] eqn:Hu; [|left; apply error_answer in Hrun; [done|set_solver]].
  right. match type of Hrun with forwardRequest ?a ?b ?c ?d ?e ?h ?i ?j ?k = _ =>
    destruct (forward_log f g read e h i j k) as (m & Hm & Hlog) end.
  rewrite Hrun in Hlog. simpl in Hlog. subst log. exists host, x, u, m. by split_and!.
Qed.

Lemma forward_only_registered_witness :
  ∃ ans m,
  newForwardingHandler (rec_RoundTrip (λ _ _, Ok demo_200)) (rec_RoundTrip (λ _ _, Ok demo_200))
    rec_Sleep (rec_ReadFrom (λ resp, Ok (resp_Body resp)))
    (λ a l, (Ok ["10-1-2-3.web.dp-1.pod.cluster.local."], l)) (λ _ _ _ l, (Ok 1, l)) ServiceURL
    (mkTable (Some {["app.dp-1" := demo_target]})) (mkForwardingConfig 0 0 false 0 0 0 0 3)
    (demo_request "app") NewWriter []
  = (ans, outgoing (demo_request "app") (mkURL "http" "" None "app.dp-1:8080" "" "" "")
          :: replicate m (drained (outgoing (demo_request "app")
                                     (mkURL "http" "" None "app.dp-1:8080" "" "" "")))).
Proof.
  match goal with |- ∃ ans m, ?run = _ => destruct run as [ans log] eqn:Hrun end.
  destruct (forward_only_registered (λ _ _, Ok demo_200) (λ _ _, Ok demo_200)
    (λ resp, Ok (resp_Body resp)) (λ _, Ok ["10-1-2-3.web.dp-1.pod.cluster.local."]) (λ _ _, Ok 1)
    ServiceURL (mkTable (Some {["app.dp-1" := demo_target]})) (mkForwardingConfig 0 0 false 0 0 0 0 3)
    (demo_request "app") ans log ltac:(done) ltac:(done) Hrun)
    as [[-> _]|(host & x & u & m & Hg & Hl & Hu & _ & ->)].
  - exfalso. vm_compute in Hrun. discriminate.
  - vm_compute in Hg. injection Hg as <-. vm_compute in Hl. injection Hl as <-.
    vm_compute in Hu. injection Hu as <-. by exists ans, m.
Defined.

(** A request that is forwarded and answered. *)
Lemma forward_run {W} (rt drt : Request → ST W Response) sl rd dns
    (wait : Duration → string → string → ST W Z) svcURL (t : Table) (cfg : forwardingConfig)
    (r : Request) (w w1 w2 w3 : W) host x n u resp :
  getHost dns r w = (Ok host, w1) → Lookup host t = Ok x →
  wait (waitTimeout cfg) (Namespace x) (Deployment x) w1 = (Ok n, w2) →
  target_url svcURL r x = inl u → rt (outgoing r u) w2 = (Ok resp, w3) →
  resp_StatusCode resp ≠ 503 → resp_Header resp !! coldStartHeader = None →
  ∃ rw, newForwardingHandler rt drt sl rd dns wait svcURL t cfg r NewWriter w = (Ok rw, w3)
  ∧ rw_status rw = Some (resp_StatusCode resp) ∧ rw_body rw = resp_Body resp
  ∧ (rw_header rw !! coldStartHeader = Some [if decide (n = 0) then "true" else "false"])
  ∧ (∀ k, k ≠ coldStartHeader → rw_header rw !! k = removeHopByHopHeaders (resp_Header resp) !! k).
Proof.
  intros Hg Hl Hw Hu Hr Hs Hh. unfold newForwardingHandler.
  rewrite Hg, Hl, Hw, Hu. unfold forwardRequest. rewrite Hr. unfold ModifyResponse.
  rewrite decide_False by done. eexists. split; [done|].
  unfold copy_response. cbn [rw_status rw_header rw_body HeaderAdd NewWriter WriteHeader resp_StatusCode
    resp_Header resp_Body]. split_and!; [done|done| |].
  - unfold copyHeader. rewrite lookup_union_with, lookup_insert_eq.
    by rewrite removeHopByHop_None.
  - intros k Hk. unfold copyHeader. rewrite lookup_union_with, lookup_insert_ne, lookup_empty by done.
    by destruct (_ !! k).
Qed.

(** A request that is forwarded and answered with anything but a
    503 gets the backend's status and body, the backend's end-to-end headers,
    and the cold-start header: [true] exactly when the wait reported 0 replicas. *)
Theorem forward_relays {W} (rt drt : Request → ST W Response) sl rd dns
    (wait : Duration → string → string → ST W Z) svcURL (t : Table) (cfg : forwardingConfig)
    (r : Request) (w w1 w2 w3 : W) host x n u resp :
  getHost dns r w = (Ok host, w1) → Lookup host t = Ok x →
  wait (waitTimeout cfg) (Namespace x) (Deployment x) w1 = (Ok n, w2) →
  target_url svcURL r x = inl u → rt (outgoing r u) w2 = (Ok resp, w3) →
  resp_StatusCode resp ≠ 503 → resp_Header resp !! coldStartHeader = None →
  ∃ rw, newForwardingHandler rt drt sl rd dns wait svcURL t cfg r NewWriter w = (Ok rw, w3)
  ∧ rw_status rw = Some (resp_StatusCode resp) ∧ rw_body rw = resp_Body resp
  ∧ (rw_header rw !! coldStartHeader = Some [if decide (n = 0) then "true" else "false"])
  ∧ (∀ k, k ≠ coldStartHeader → rw_header rw !! k = removeHopByHopHeaders (resp_Header resp) !! k).
Proof. exact (forward_run rt drt sl rd dns wait svcURL t cfg r w w1 w2 w3 host x n u resp). Qed.

Lemma forward_relays_witness :
  ∃ rw, newForwardingHandler (λ _ n, (Ok demo_200, S n)) (λ _ n, (Ok demo_200, S n)) (λ _ n, n)
    (λ resp n, (Ok (resp_Body resp), n)) (λ _ n, (Ok ["10-1-2-3.web.dp-1.pod.cluster.local."], n))
    (λ _ _ _ n, (Ok 0, n)) ServiceURL (mkTable (Some {["app.dp-1" := demo_target]}))
    (mkForwardingConfig 0 0 false 0 0 0 0 3) (demo_request "app") NewWriter 0%nat = (Ok rw, 1%nat)
  ∧ rw_status rw = Some 200 ∧ rw_header rw !! coldStartHeader = Some ["true"].
Proof.
  destruct (forward_relays (λ _ n, (Ok demo_200, S n)) (λ _ n, (Ok demo_200, S n)) (λ _ n, n)
    (λ resp n, (Ok (resp_Body resp), n)) (λ _ n, (Ok ["10-1-2-3.web.dp-1.pod.cluster.local."], n))
    (λ _ _ _ n, (Ok 0, n)) ServiceURL (mkTable (Some {["app.dp-1" := demo_target]}))
    (mkForwardingConfig 0 0 false 0 0 0 0 3) (demo_request "app") 0%nat 0%nat 0%nat 1%nat
    "app.dp-1" demo_target 0 (mkURL "http" "" None "app.dp-1:8080" "" "" "") demo_200)
    as (rw & ? & ? & _ & ? & _); try by vm_compute.
  eauto.
Defined.
