(* ===== verification/Interceptor.v ===== *)
(** * The counting middleware and the proxy server (interceptor/middleware.go, main.go)

    [countMiddleware] around any handler, over any [Counter]; the proxy
    composed as [runProxyServer] composes it; and the proof that a run of the
    middleware is a path of the interleaving semantics of CountProtocol. *)

From S2P Require Import Prelude GoStrings GoUrl Http Queue QueueRpc CountProtocol Routing ConfigMaps Net Config K8s Forward.

(** A handler over a state [S]: what it wrote, or a panic. *)
Definition Handler (S : Type) : Type := Request → ResponseWriter → ST S ResponseWriter.

Section middleware.
Context `{Counter Q} {W : Type}.
Context (LookupAddr : string → ST W (list string)).
(** [time.Now()]. *)
Context (Now : W → Time).

(** The deferred function. An error of [Resize] is logged. *)
Definition finish (host : string) : ST (Q * W) unit := λ '(q, w),
  let decrement :=
    match c_Resize host (-1) q with
    | (Panic p, q) => (Panic p, (q, w))
    | (_, q) => (Ok tt, (q, w))
    end in
  match cr_ShouldPostponeResize q with
  | Ok true =>
      match cr_Count host q with
      | Ok count =>
          if decide (count = 1) then
            match cr_PostponeDuration q with
            | Ok d =>
                let '(r, q) := c_PostponeResize host (Now w + d) q in
                (r, (q, w))
            | Err e => (Err e, (q, w))
            | Panic p => (Panic p, (q, w))
            end
          else decrement
      | Err e => (Err e, (q, w))
      | Panic p => (Panic p, (q, w))
      end
  | Ok false => decrement
  | Err e => (Err e, (q, w))
  | Panic p => (Panic p, (q, w))
  end.

Definition countMiddleware (next : Handler (Q * W)) : Handler (Q * W) := λ r rw '(q, w),
  match getHost LookupAddr r w with
  | (Panic p, w) => (Panic p, (q, w))
  | (Err _, w) => (Ok (reply 400 "Host not found, not forwarding request" rw), (q, w))
  | (Ok host, w) =>
      match c_Resize host 1 q with
      | (Panic p, q) => (Panic p, (q, w))
      | (_, q) => deferred (finish host) (next r rw) (q, w)
      end
  end.

(** ** The proxy server *)

(** The handler [runProxyServer] serves: the transport dials through
    [DialContextWithRetry] with the timeouts' default backoff. *)
Context {Conn : Type}.
Context (transport : (string → string → ST W (option Conn)) → Request → ST W Response).
Context (DefaultRoundTrip : Request → ST W Response).
Context (Sleep : Duration → W → W) (ReadFrom : Response → ST W string).
Context (waitFunc : Duration → string → string → ST W Z).
Context (DialContext : string → string → ST W Conn) (Step : Backoff → Duration * Backoff)
        (sleep : Duration → W → option error * W).

Definition proxyHandler (routingTable : Table) (timeouts : InterceptorConfig.Timeouts) : Handler (Q * W) :=
  let dialContextFunc :=
    DialContextWithRetry DialContext Step sleep (InterceptorConfig.DefaultBackoff timeouts) in
  countMiddleware (λ r rw '(q, w),
    let '(x, w) :=
      newForwardingHandler (transport dialContextFunc) DefaultRoundTrip Sleep ReadFrom LookupAddr
        waitFunc ServiceURL routingTable
        (InterceptorConfig.newForwardingConfigFromTimeouts timeouts) r rw w in
    (x, (q, w))).
End middleware.

(** ** Lemmas *)

Section memory.
Context {W : Type} (LookupAddr : string → ST W (list string)) (Now : W → Time).

Lemma finish_memory host (q : Memory) (w : W) :
  finish Now host (q, w)
  = (Ok tt,
     (if postpone_guard host q then PostponeResize host (Now w + PostponeDuration q) q
      else snd (Resize host (-1) q), w)).
Proof.
  unfold finish, postpone_guard.
  cbn [cr_ShouldPostponeResize cr_Count cr_PostponeDuration c_Resize c_PostponeResize
       counter_reader Memory_counter Memory_reader].
  destruct (ShouldPostponeResize q); simpl; [|done].
  case_decide; [by rewrite bool_decide_true|by rewrite bool_decide_false].
Qed.

(** A run of the middleware that passed [getHost]. *)
Lemma countMiddleware_run next r rw (q : Memory) (w w1 : W) host :
  getHost LookupAddr r w = (Ok host, w1) →
  countMiddleware LookupAddr Now next r rw (q, w)
  = (let '(x, (q1, w2)) := next r rw (snd (Resize host 1 q), w1) in
     (x, (if postpone_guard host q1 then PostponeResize host (Now w2 + PostponeDuration q1) q1
          else snd (Resize host (-1) q1), w2))).
Proof.
  intros Hg. unfold countMiddleware. rewrite Hg. cbn [c_Resize Memory_counter].
  destruct (Resize host 1 q) as [x q1] eqn:Er. assert (x = Ok tt) as -> by (by injection Er).
  simpl. unfold deferred. destruct (next r rw (q1, w1)) as [y [q2 w2]].
  by rewrite finish_memory.
Qed.

(** Without a cooldown a request leaves every count as it found it. *)
Lemma finish_balanced host (q : Memory) (now : Time) :
  shouldPostpone q = false → queue_wf q →
  let q1 := snd (Resize host 1 q) in
  ∀ h, Count h (if postpone_guard host q1 then PostponeResize host (now + PostponeDuration q1) q1
                else snd (Resize host (-1) q1)) = Count h q.
Proof.
  intros Hp Hwf q1 h. assert (postpone_guard host q1 = false) as ->.
  { unfold postpone_guard, ShouldPostponeResize, q1, Resize. simpl. by rewrite Hp. }
  unfold q1. rewrite !Count_Resize. repeat case_decide; subst; try done. rewrite int64_add_l.
  replace (Count h q + 1 + -1) with (Count h q) by lia. apply int64_id.
  unfold Count. destruct (countMap q !! h) eqn:E; [by apply (Hwf h)|done].
Qed.

(** One request alone is three steps of the protocol. *)
Lemma protocol_path max_requests (q : Memory) reqs e host (now : Time) :
  Z.of_nat (size reqs) < max_requests →
  let q1 := snd (Resize host 1 q) in
  rtc (rstep max_requests) (mkSys q reqs e)
    (mkSys (if postpone_guard host q1 then PostponeResize host (now + PostponeDuration q1) q1
            else snd (Resize host (-1) q1)) reqs e).
Proof.
  intros Hm q1. set (id := fresh (dom reqs)).
  assert (reqs !! id = None) as Hid by (apply not_elem_of_dom, is_fresh).
  assert (∀ x y, delete id (<[id := x]> (<[id := y]> reqs)) = reqs) as Hdel.
  { intros x y. by rewrite insert_insert_eq, delete_insert_id. }
  eapply rtc_l; [by apply (step_begin _ _ id host)|].
  eapply rtc_l; [apply (step_return _ _ id host), lookup_insert_eq|].
  cbn [queue CountProtocol.reqs enforcer]. fold q1. apply rtc_once. destruct (postpone_guard host q1) eqn:Hg.
  - pose proof (step_postpone max_requests
      (mkSys q1 (<[id := (host, Deciding true)]> (<[id := (host, CountProtocol.Serving)]> reqs)) e)
      id host now (lookup_insert_eq _ _ _)) as Hs.
    cbn [queue CountProtocol.reqs enforcer] in Hs.
    by rewrite Hdel in Hs.
  - pose proof (step_decrement max_requests
      (mkSys q1 (<[id := (host, Deciding false)]> (<[id := (host, CountProtocol.Serving)]> reqs)) e)
      id host (lookup_insert_eq _ _ _)) as Hs.
    cbn [queue CountProtocol.reqs enforcer] in Hs.
    by rewrite Hdel in Hs.
Qed.
End memory.

(** ** Properties *)

(** A request served by [countMiddleware] alone on the queue is
    a run of the counting protocol: with a next handler that leaves the queue
    alone, the queue goes from before to after the request by the protocol's
    own steps (begin, guard, then decrement or postpone), whatever the next
    handler answers, a panic included. *)
Theorem middleware_runs_protocol {W} (LookupAddr : string → ST W (list string)) (Now : W → Time)
    (next : Request → ResponseWriter → ST W ResponseWriter) (max_requests : Z)
    (r : Request) (rw : ResponseWriter) (q : Memory) (w : W) :
  0 < max_requests →
  let out := countMiddleware LookupAddr Now (λ r rw '(q, w), let '(x, w) := next r rw w in (x, (q, w)))
               r rw (q, w) in
  rtc (rstep max_requests) (mkSys q ∅ None) (mkSys (fst (snd out)) ∅ None).
Proof.
  intros Hm out. unfold out. destruct (getHost LookupAddr r w) as [[host|e|p] w1] eqn:Hg.
  - erewrite countMiddleware_run by done. destruct (next r rw w1) as [x w2].
    by apply protocol_path.
  - unfold countMiddleware. rewrite Hg. apply rtc_refl.
  - unfold countMiddleware. rewrite Hg. apply rtc_refl.
Qed.

Definition demo_next (w : nat) : res ResponseWriter * nat := (Panic "backend handler", S w).

Lemma middleware_runs_protocol_witness :
  rtc (rstep 1) (mkSys (NewMemory 20 true) ∅ None)
    (mkSys (fst (snd (countMiddleware (λ _ w, (Ok ["10-1-2-3.web.dp-1.pod.cluster.local."], w)) (λ w, Z.of_nat w)
       (λ r rw '(q, w), let '(x, w) := demo_next w in (x, (q, w)))
       (demo_request "app") NewWriter (NewMemory 20 true, 0%nat)))) ∅ None).
Proof.
  apply (middleware_runs_protocol (λ _ w, (Ok ["10-1-2-3.web.dp-1.pod.cluster.local."], w))
           (λ w, Z.of_nat w) (λ _ _ w, demo_next w) 1 (demo_request "app") NewWriter (NewMemory 20 true) 0%nat).
  lia.
Defined.

(** Without a cooldown the middleware is balanced: the next
    handler runs with the host's count one higher and every other count as it
    was, and afterwards every count is what it was before the request, even
    when the next handler panics. *)
Theorem middleware_balanced {W} (LookupAddr : string → ST W (list string)) (Now : W → Time)
    (next : Request → ResponseWriter → ST (Memory * W) ResponseWriter)
    (r : Request) (rw : ResponseWriter) (q : Memory) (w w1 : W) (host : string) :
  shouldPostpone q = false → queue_wf q →
  (∀ q w, fst (snd (next r rw (q, w))) = q) →
  getHost LookupAddr r w = (Ok host, w1) →
  let q1 := snd (Resize host 1 q) in
  (∀ h, Count h q1 = if decide (host = h) then int64 (Count h q + 1) else Count h q)
  ∧ let '(x, (q2, w2)) := countMiddleware LookupAddr Now next r rw (q, w) in
    x = fst (next r rw (q1, w1)) ∧ (∀ h, Count h q2 = Count h q).
Proof.
  intros Hp Hwf Hn Hg q1. split.
  { intros h. unfold q1. rewrite Count_Resize. by case_decide; subst. }
  erewrite countMiddleware_run by done. fold q1. specialize (Hn q1 w1).
  destruct (next r rw (q1, w1)) as [x [q2 w2]]. simpl in Hn. subst q2.
  split; [done|]. intros h. by apply finish_balanced.
Qed.

Lemma middleware_balanced_witness :
  Count "app.dp-1" (snd (Resize "app.dp-1" 1 (NewMemory 20 false))) = 1
  ∧ let '(x, (q2, _)) :=
      countMiddleware (λ _ w, (Ok ["10-1-2-3.web.dp-1.pod.cluster.local."], w)) (λ w, Z.of_nat w)
        (λ r rw '(q, w), (Ok (reply 200 "hello" rw), (q, S w))) (demo_request "app") NewWriter
        (NewMemory 20 false, 0%nat) in
    x = Ok (reply 200 "hello" NewWriter) ∧ (∀ h, Count h q2 = 0).
Proof.
  destruct (middleware_balanced (λ _ w, (Ok ["10-1-2-3.web.dp-1.pod.cluster.local."], w)) (λ w, Z.of_nat w)
    (λ r rw '(q, w), (Ok (reply 200 "hello" rw), (q, S w))) (demo_request "app") NewWriter
    (NewMemory 20 false) 0%nat 0%nat "app.dp-1" eq_refl (map_Forall_empty _)
    ltac:(done) ltac:(by vm_compute)) as [H1 H2].
  split; [apply (H1 "app.dp-1") | exact H2].
Defined.
