(* ===== verification/Pinger.v ===== *)
(** * The queue pinger (scaler/queue_pinger.go)

    The scaler fetches the counts of every interceptor behind a service and
    adds them up. [fetchCounts] is given twice: as a function, and as the
    goroutines it starts (one fetcher and one forwarder per endpoint, a closer,
    and the caller that waits and then ranges over the channel), with the
    theorems that the caller can only return the function's result, and how the
    goroutines end when requests are answered, fail or hang. *)

From S2P Require Import Prelude GoStrings GoUrl Json Http Queue QueueRpc Routing ConfigMaps Net K8s.

(** ** Adding up counts *)

(** The body of the two nested loops: [agg += val; totalCounts[host] += val]. *)
Definition add_count (host : string) (val : Z) (acc : gmap string Z * Z) : gmap string Z * Z :=
  (<[host := int64 (count_of (fst acc) host + val)]> (fst acc), int64 (snd acc + val)).

Definition add_counts (acc : gmap string Z * Z) (counts : gmap string Z) : gmap string Z * Z :=
  map_fold add_count acc counts.

Definition sum_counts (all : list (gmap string Z)) : gmap string Z * Z :=
  foldl add_counts (∅, 0) all.

(** ** fetchCounts *)

Fixpoint fetch_all (get : URL → res string) (urls : list URL) : res (list (gmap string Z)) :=
  match urls with
  | [] => Ok []
  | u :: urls =>
      counts ← GetCounts get u;
      rest ← fetch_all get urls;
      Ok (counts :: rest)
  end.

(** [get] is the HTTP client during the fetch. *)
Definition fetchCounts {W} (endpointsFn : GetEndpointsFunc W) (get : URL → res string)
    (ns svcName adminPort : string) : ST W (gmap string Z * Z) := λ w,
  match EndpointsForService ns svcName adminPort endpointsFn w with
  | (Err e, w) => (Err e, w)
  | (Panic p, w) => (Panic p, w)
  | (Ok endpointURLs, w) => (sum_counts <$> fetch_all get endpointURLs, w)
  end.

(** ** The goroutines *)

(** The goroutine of the group that fetches one endpoint: requesting, sending the
    counts on its private channel, returned. *)
Inductive fetcher : Type :=
| Requesting
| Sending (counts : gmap string Z)
| FetcherReturned.

(** The goroutine that forwards them: receiving from the private channel, sending
    on [countsCh], past its [wg.Done]. *)
Inductive forwarder : Type :=
| Receiving
| Forwarding (counts : gmap string Z)
| Forwarded.

Record worker : Type := mkWorker {
  w_fetcher : fetcher;
  w_forwarder : forwarder;
}.

(** The caller: waiting for the group, ranging over the channel, returned. *)
Inductive caller : Type :=
| WaitingGroup
| Ranging (acc : gmap string Z * Z)
| Done (r : res (gmap string Z * Z)).

Record fetch_sys : Type := mkFetch {
  workers : list worker;
  (** [countsCh] has been closed, by the goroutine that waits for the forwarders *)
  ch_closed : bool;
  (** the error the group has recorded: the first one *)
  group_err : option error;
  main : caller;
}.

Definition has_returned (x : worker) : bool := if w_fetcher x is FetcherReturned then true else false.
Definition has_forwarded (x : worker) : bool := if w_forwarder x is Forwarded then true else false.

Section goroutines.
(** What each endpoint answers, and whether it does: [http.DefaultClient] has no
    timeout, and [GetCounts] ignores the group's context. *)
Context (answer : nat → res (gmap string Z)) (answered : nat → bool).

(** All channels are unbuffered: a send and its receive are one step. *)
Inductive fetch_step : fetch_sys → fetch_sys → Prop :=
| request_ok s i v counts :
    workers s !! i = Some (mkWorker Requesting v) → answered i = true → answer i = Ok counts →
    fetch_step s (mkFetch (<[i := mkWorker (Sending counts) v]> (workers s)) (ch_closed s) (group_err s) (main s))
| request_fail s i v e :
    workers s !! i = Some (mkWorker Requesting v) → answered i = true → answer i = Err e →
    fetch_step s (mkFetch (<[i := mkWorker FetcherReturned v]> (workers s)) (ch_closed s)
                    (match group_err s with Some e' => Some e' | None => Some e end) (main s))
| hand_over s i counts :
    workers s !! i = Some (mkWorker (Sending counts) Receiving) →
    fetch_step s (mkFetch (<[i := mkWorker FetcherReturned (Forwarding counts)]> (workers s)) (ch_closed s)
                    (group_err s) (main s))
| close_ch s :
    forallb has_forwarded (workers s) = true → ch_closed s = false →
    fetch_step s (mkFetch (workers s) true (group_err s) (main s))
| wait_failed s e :
    main s = WaitingGroup → forallb has_returned (workers s) = true → group_err s = Some e →
    fetch_step s (mkFetch (workers s) (ch_closed s) (group_err s) (Done (Err e)))
| wait_ok s :
    main s = WaitingGroup → forallb has_returned (workers s) = true → group_err s = None →
    fetch_step s (mkFetch (workers s) (ch_closed s) (group_err s) (Ranging (∅, 0)))
| receive s i f counts acc :
    main s = Ranging acc → workers s !! i = Some (mkWorker f (Forwarding counts)) →
    fetch_step s (mkFetch (<[i := mkWorker f Forwarded]> (workers s)) (ch_closed s) (group_err s)
                    (Ranging (add_counts acc counts)))
| range_ends s acc :
    main s = Ranging acc → ch_closed s = true →
    fetch_step s (mkFetch (workers s) (ch_closed s) (group_err s) (Done (Ok acc))).

Definition fetch_init (n : nat) : fetch_sys :=
  mkFetch (replicate n (mkWorker Requesting Receiving)) false None WaitingGroup.
End goroutines.

(** ** The pinger *)

Record queuePinger : Type := mkPinger {
  interceptorNS : string;
  interceptorSvcName : string;
  interceptorDeplName : string;
  adminPort : string;
  lastPingTime : Time;
  allCounts : gmap string Z;
  aggregateCount : Z;
}.

Definition counts (q : queuePinger) : gmap string Z := allCounts q.
Definition aggregate (q : queuePinger) : Z := aggregateCount q.

Definition mergeCountsWithRoutingTable `{TableReader T} (table : T) (q : queuePinger) : gmap string Z :=
  let mergedCounts := foldl (λ m host, <[host := 0]> m) ∅ (tr_Hosts table) in
  map_fold (λ key value m, <[key := value]> m) mergedCounts (allCounts q).

Section pinger.
Context {W : Type} (getEndpointsFn : GetEndpointsFunc W) (get : W → URL → res string) (Now : W → Time).

Definition fetchAndSaveCounts : ST (queuePinger * W) unit := λ '(q, w),
  match fetchCounts getEndpointsFn (get w) (interceptorNS q) (interceptorSvcName q) (adminPort q) w with
  | (Err e, w) => (Err e, (q, w))
  | (Panic p, w) => (Panic p, (q, w))
  | (Ok (counts, agg), w) =>
      (Ok tt, (mkPinger (interceptorNS q) (interceptorSvcName q) (interceptorDeplName q) (adminPort q)
                 (Now w) counts agg, w))
  end.

(** The pinger is returned even when its first fetch fails. *)
Definition newQueuePinger (ns svcName deplName adminPort : string) : W → res unit * (queuePinger * W) :=
  λ w, fetchAndSaveCounts (mkPinger ns svcName deplName adminPort 0 ∅ 0, w).

(** What a receive of the [select] in [start] yields. *)
Inductive pinger_input : Type :=
| PingerDone (err : error)
| Tick
| DeployEvent.

Definition start_step (i : pinger_input) (s : queuePinger * W) : loop unit * (queuePinger * W) :=
  match i with
  | PingerDone err => (Returned (Err (Wrap err "context marked done. stopping queuePinger loop")), s)
  | Tick =>
      match fetchAndSaveCounts s with
      | (Ok _, s) => (Waiting, s)
      | (Err e, s) => (Returned (Err (Wrap e "error getting request counts")), s)
      | (Panic p, s) => (Returned (Panic p), s)
      end
  | DeployEvent =>
      match fetchAndSaveCounts s with
      | (Panic p, s) => (Returned (Panic p), s)
      | (_, s) => (Waiting, s)
      end
  end.

Fixpoint start_loop (ins : list pinger_input) (s : queuePinger * W) : loop unit * (queuePinger * W) :=
  match ins with
  | [] => (Waiting, s)
  | i :: ins =>
      match start_step i s with
      | (Waiting, s) => start_loop ins s
      | r => r
      end
  end.

Definition start (watch : res unit) (ins : list pinger_input) (s : queuePinger * W) :
    loop unit * (queuePinger * W) :=
  match watch with
  | Ok _ => start_loop ins s
  | Err e => (Returned (Err e), s)
  | Panic p => (Returned (Panic p), s)
  end.
End pinger.

(** ** Lemmas: sums *)

(** The total of one host over several answers. *)
Definition host_total (all : list (gmap string Z)) (h : string) : Z :=
  zsum ((λ m, count_of m h) <$> all).

Definition grand_total (all : list (gmap string Z)) : Z :=
  zsum ((λ m : gmap string Z, zsum (map_to_list m).*2) <$> all).

Lemma host_total_cons m all h : host_total (m :: all) h = count_of m h + host_total all h.
Proof. reflexivity. Qed.

Lemma host_total_absent all h :
  ¬ Exists (λ m : gmap string Z, is_Some (m !! h)) all → host_total all h = 0.
Proof.
  unfold host_total. induction all as [|m all IH]; intros He; [done|]. csimpl.
  rewrite IH by (intros ?; apply He; by right).
  unfold count_of. destruct (m !! h) eqn:E; [|done]. destruct He. left. eauto.
Qed.

(** [r] is [acc] with the counts of [m] added. *)
Definition adds (acc r : gmap string Z * Z) (m : gmap string Z) : Prop :=
  (∀ h, fst r !! h
        = if decide (is_Some (m !! h)) then Some (int64 (count_of (fst acc) h + count_of m h))
          else fst acc !! h)
  ∧ int64 (snd r) = int64 (snd acc + zsum (map_to_list m).*2)
  ∧ (in_int64 (snd acc) → in_int64 (snd r)).

Lemma add_counts_spec acc (m : gmap string Z) : adds acc (add_counts acc m) m.
Proof.
  unfold add_counts. apply (map_fold_weak_ind (adds acc)); unfold adds.
  - split_and!; [|by rewrite map_to_list_empty, Z.add_0_r|done].
    intros h. by rewrite decide_False by (rewrite lookup_empty; by intros []).
  - intros i x m' r Hi (Hr & Ha & Hin). split_and!.
    + intros h. unfold add_count; simpl. rewrite lookup_insert. destruct (decide (i = h)) as [->|Hne].
      * rewrite decide_True by (rewrite lookup_insert_eq; eauto). f_equal. f_equal.
        unfold count_of. rewrite Hr, lookup_insert_eq. rewrite decide_False; [done|].
        rewrite Hi. by intros [].
      * unfold count_of in *. rewrite lookup_insert_ne by done. apply Hr.
    + unfold add_count; simpl. rewrite int64_int64, <-int64_add_l, Ha, int64_add_l.
      rewrite (map_to_list_insert _ _ _ Hi). csimpl. f_equal. lia.
    + intros _. apply int64_range.
Qed.

Lemma foldl_add_counts all : ∀ acc,
  (∀ h, fst (foldl add_counts acc all) !! h
        = if decide (Exists (λ m : gmap string Z, is_Some (m !! h)) all)
          then Some (int64 (count_of (fst acc) h + host_total all h)) else fst acc !! h)
  ∧ int64 (snd (foldl add_counts acc all)) = int64 (snd acc + grand_total all)
  ∧ (in_int64 (snd acc) → in_int64 (snd (foldl add_counts acc all))).
Proof.
  induction all as [|m all IH]; intros acc.
  { split_and!; [|by rewrite Z.add_0_r|done]. intros h. by rewrite decide_False by (intros He; inversion He). }
  cbn [foldl]. destruct (IH (add_counts acc m)) as (H1 & H2 & H3).
  destruct (add_counts_spec acc m) as (A1 & A2 & A3). split_and!; [|rewrite H2|auto].
  - intros h. rewrite H1. unfold count_of at 1. rewrite A1, host_total_cons.
    assert (m !! h = None → count_of m h = 0) as H0 by (unfold count_of; by intros ->).
    destruct (decide (is_Some (m !! h))) as [Hs|Hs].
    + rewrite (decide_True (P := Exists _ (m :: all))) by (by left). simpl.
      destruct (decide _) as [He|He]; [by rewrite int64_add_l, Z.add_assoc|].
      do 2 f_equal. rewrite (host_total_absent all h He). lia.
    + rewrite (H0 (proj2 (eq_None_not_Some _) Hs)). fold (count_of (fst acc) h).
      destruct (decide (Exists _ all)) as [He|He].
      * rewrite decide_True by (by right). by rewrite Z.add_0_l.
      * rewrite decide_False; [done|]. by intros [?|?]%Exists_cons.
  - rewrite <-int64_add_l, A2, int64_add_l. unfold grand_total. csimpl. f_equal. lia.
Qed.

(** The sum over all answers: every host that any answer mentions, with its
    total; the grand total. *)
Lemma sum_counts_spec all :
  (∀ h, fst (sum_counts all) !! h
        = if decide (Exists (λ m : gmap string Z, is_Some (m !! h)) all)
          then Some (int64 (host_total all h)) else None)
  ∧ snd (sum_counts all) = int64 (grand_total all).
Proof.
  unfold sum_counts. destruct (foldl_add_counts all (∅, 0)) as (H1 & H2 & H3). split.
  - intros h. rewrite H1. simpl. by rewrite lookup_empty.
  - rewrite <-(int64_id (snd _)), H2 by (by apply H3). done.
Qed.

(** The order of the answers does not matter. *)
#[export] Instance sum_counts_proper : Proper ((≡ₚ) ==> eq) sum_counts.
Proof.
  intros l1 l2 Hp. destruct (sum_counts_spec l1) as [A1 A2], (sum_counts_spec l2) as [B1 B2].
  destruct (sum_counts l1) as [m1 a1], (sum_counts l2) as [m2 a2]; simpl in *. f_equal.
  - apply map_eq. intros h. rewrite A1, B1.
    assert (host_total l1 h = host_total l2 h) as -> by (unfold host_total; by rewrite Hp).
    assert (Exists (λ m : gmap string Z, is_Some (m !! h)) l1
            ↔ Exists (λ m : gmap string Z, is_Some (m !! h)) l2) by (by rewrite Hp).
    by destruct (decide (Exists _ l1)), (decide (Exists _ l2)); tauto.
  - rewrite A2, B2. unfold grand_total. by rewrite Hp.
Qed.

(** ** Lemmas: the goroutines *)

(** The counts the forwarders hold. *)
Definition held (ws : list worker) : list (gmap string Z) :=
  omap (λ x, if w_forwarder x is Forwarding c then Some c else None) ws.

Lemma held_take ws i f c :
  ws !! i = Some (mkWorker f (Forwarding c)) → held ws ≡ₚ c :: held (<[i := mkWorker f Forwarded]> ws).
Proof.
  revert i. induction ws as [|x ws IH]; intros [|i] Hi; simplify_eq/=; [done|].
  unfold held in *. csimpl. destruct (w_forwarder x); rewrite (IH i Hi) at 1; try done.
  apply Permutation_swap.
Qed.

Lemma held_forwarded ws : forallb has_forwarded ws = true → held ws = [].
Proof.
  induction ws as [|x ws IH]; [done|]. simpl. intros [Hx Hws]%andb_true_iff.
  unfold held, has_forwarded in *. csimpl. destruct (w_forwarder x); try done. by apply IH.
Qed.

Lemma forallb_lookup {A} (f : A → bool) l i x : forallb f l = true → l !! i = Some x → f x = true.
Proof.
  revert i. induction l as [|y l IH]; intros i; [done|]. simpl. intros [Hy Hl]%andb_true_iff.
  destruct i as [|i]; simpl; [by intros [= ->] | by apply IH].
Qed.

Lemma forallb_not {A} (f : A → bool) l : forallb f l = false → ∃ i x, l !! i = Some x ∧ f x = false.
Proof.
  induction l as [|y l IH]; [done|]. simpl. intros [Hy|Hl]%andb_false_iff; [by exists O, y|].
  destruct (IH Hl) as (i & x & ? & ?). by exists (S i), x.
Qed.

Section runs.
Context (answer : nat → res (gmap string Z)) (answered : nat → bool) (n : nat).
#[local] Abbreviation step := (fetch_step answer answered).

Definition answers : list (gmap string Z) :=
  omap (λ i, if answer i is Ok c then Some c else None) (seq 0 n).

(** The two goroutines of an endpoint: the second follows the first. *)
Inductive worker_at (err : option error) (i : nat) : worker → Prop :=
| at_requesting : worker_at err i (mkWorker Requesting Receiving)
| at_sending c : answered i = true → answer i = Ok c → worker_at err i (mkWorker (Sending c) Receiving)
| at_failed : answered i = true → is_Some err → worker_at err i (mkWorker FetcherReturned Receiving)
| at_forwarding c : answered i = true → answer i = Ok c → worker_at err i (mkWorker FetcherReturned (Forwarding c))
| at_forwarded : answered i = true → is_ok (answer i) = true → worker_at err i (mkWorker FetcherReturned Forwarded).

(** What holds at every point of a run. *)
Record fetch_inv (s : fetch_sys) : Prop := {
  inv_length : length (workers s) = n;
  inv_workers i x : workers s !! i = Some x → worker_at (group_err s) i x;
  inv_err e : group_err s = Some e → ∃ i, workers s !! i = Some (mkWorker FetcherReturned Receiving) ∧ answer i = Err e;
  inv_closed : ch_closed s = true → forallb has_forwarded (workers s) = true;
  inv_main : match main s with
             | WaitingGroup => ∀ i x, workers s !! i = Some x → has_forwarded x = false
             | Ranging acc =>
                 group_err s = None ∧ forallb has_returned (workers s) = true
                 ∧ ∃ taken, acc = sum_counts taken ∧ taken ++ held (workers s) ≡ₚ answers
             | Done (Ok r) =>
                 forallb has_forwarded (workers s) = true ∧ r = sum_counts answers
             | Done (Err e) => group_err s = Some e ∧ forallb has_returned (workers s) = true
             | Done (Panic _) => False
             end;
}.

(** An endpoint whose goroutines are done, and that did not fail. *)
Lemma returned_ok s i x :
  fetch_inv s → workers s !! i = Some x → has_returned x = true → group_err s = None →
  is_ok (answer i) = true ∧ (has_forwarded x = true ∨ ∃ c, x = mkWorker FetcherReturned (Forwarding c) ∧ answer i = Ok c).
Proof.
  intros Hi Hx Hr He. apply (inv_workers _ Hi) in Hx. rewrite He in Hx.
  destruct Hx as [|c|_ []|c ? Ha|]; simplify_eq/=; [by rewrite Ha; eauto|by auto].
Qed.

Lemma all_held s :
  fetch_inv s → (∀ i x, workers s !! i = Some x → ∃ c, x = mkWorker FetcherReturned (Forwarding c) ∧ answer i = Ok c) →
  held (workers s) = answers.
Proof.
  intros Hi Hx.
  assert (Forall2 (λ i x, ∃ c, x = mkWorker FetcherReturned (Forwarding c) ∧ answer i = Ok c) (seq 0 n) (workers s)) as HF.
  { apply Forall2_same_length_lookup_2; [by rewrite length_seq, (inv_length _ Hi)|].
    intros j i x [-> Hj]%lookup_seq Hw. by apply Hx. }
  unfold held, answers. clear Hi Hx.
  induction HF as [|i x l ws (c & -> & Hc) _ IH]; [done|]. csimpl. rewrite Hc. by rewrite IH.
Qed.

Lemma fetch_inv_init : fetch_inv (fetch_init n).
Proof.
  split; simpl; [apply length_replicate|..|done|done|].
  - intros i x [-> _]%lookup_replicate. constructor.
  - by intros i x [-> _]%lookup_replicate.
Qed.

Lemma worker_at_some err e i x : worker_at err i x → worker_at (Some e) i x.
Proof. intros []; by constructor. Qed.

(** An endpoint that has not forwarded keeps the channel open. *)
Lemma not_closed s i x : fetch_inv s → workers s !! i = Some x → has_forwarded x = false → ch_closed s = false.
Proof.
  intros Hi Hx Hf. destruct (ch_closed s) eqn:Ec; [|done]. pose proof (forallb_lookup _ _ _ _ (inv_closed _ Hi Ec) Hx). congruence.
Qed.

Lemma not_done_ok s i x r : fetch_inv s → workers s !! i = Some x → has_forwarded x = false → main s ≠ Done (Ok r).
Proof.
  intros Hi Hx Hf Hm. pose proof (inv_main _ Hi) as H. rewrite Hm in H. destruct H as [H _].
  pose proof (forallb_lookup _ _ _ _ H Hx). congruence.
Qed.

(** The group waits for a fetcher that has not returned. *)
Lemma still_waiting s i x : fetch_inv s → workers s !! i = Some x → has_returned x = false → main s = WaitingGroup.
Proof.
  intros Hi Hx Hf. pose proof (inv_main _ Hi) as Hm. pose proof (inv_workers _ Hi _ _ Hx) as Hw.
  assert (has_forwarded x = false) as Hff by (by destruct Hw).
  destruct (main s) as [|acc|[r|e|p]] eqn:Em; [done|destruct Hm as (_ & Hm & _)|by destruct (not_done_ok s i x r)|destruct Hm as [_ Hm]|done];
    pose proof (forallb_lookup _ _ _ _ Hm Hx); congruence.
Qed.

(** A worker's lookup after one worker changed. *)
Ltac worker_cases :=
  match goal with
  | |- ∀ _ _, _ → _ => intros ? ? [(-> & <- & _)|[? ?]]%list_lookup_insert_Some
  end.

(** Steps of an endpoint before its forwarder has finished, and of the caller
    that waits. *)
Lemma fetch_inv_before s i x y err :
  fetch_inv s → main s = WaitingGroup → workers s !! i = Some x → has_forwarded x = false → has_forwarded y = false →
  worker_at err i y → (∀ j z, workers s !! j = Some z → worker_at err j z) →
  (∀ e, err = Some e → ∃ j, <[i := y]> (workers s) !! j = Some (mkWorker FetcherReturned Receiving) ∧ answer j = Err e) →
  fetch_inv (mkFetch (<[i := y]> (workers s)) (ch_closed s) err (main s)).
Proof.
  intros Hi Hw Hx Hfx Hfy Hy Hall He. pose proof (inv_main _ Hi) as Hm. rewrite Hw in *.
  split; simpl; [rewrite length_insert; apply Hi| |done| |].
  - worker_cases; [done|by apply Hall].
  - by rewrite (not_closed s i x).
  - worker_cases; [done|by eapply Hm].
Qed.

Lemma fetch_inv_step s s' : fetch_inv s → step s s' → fetch_inv s'.
Proof.
  intros Hi Hs. destruct Hs as [s i v c Hx Hd Ha|s i v e Hx Hd Ha|s i c Hx|s Hf Hc|s e Hw Hf Hg|s Hw Hf Hg|s i f c acc Hr Hx|s acc Hr Hc].
  - pose proof (inv_workers _ Hi _ _ Hx) as Hw. assert (v = Receiving) as -> by (by inversion Hw).
    eapply fetch_inv_before; [done|by eapply still_waiting|done..|by constructor|apply Hi|].
    intros e He. destruct (inv_err _ Hi e He) as (j & Hj & ?). exists j. split; [|done].
    rewrite list_lookup_insert_ne; [done|]. intros ->. congruence.
  - pose proof (inv_workers _ Hi _ _ Hx) as Hw. assert (v = Receiving) as -> by (by inversion Hw).
    pose proof (lookup_lt_Some _ _ _ Hx) as Hlt.
    eapply fetch_inv_before; [done|by eapply still_waiting|done..| | |].
    + constructor; [done|]. by destruct (group_err s).
    + intros j z Hz. pose proof (inv_workers _ Hi _ _ Hz) as Hwz. destruct (group_err s); by eapply worker_at_some.
    + intros e' He'. destruct (group_err s) as [e0|] eqn:Hg; simplify_eq.
      * destruct (inv_err _ Hi e' Hg) as (j & Hj & ?). exists j. split; [|done].
        rewrite list_lookup_insert_ne; [done|]. intros ->. congruence.
      * exists i. split; [by apply list_lookup_insert_eq|done].
  - pose proof (inv_workers _ Hi _ _ Hx) as Hw. assert (answered i = true ∧ answer i = Ok c) as [? ?] by (by inversion Hw).
    eapply fetch_inv_before; [done|by eapply still_waiting|done..|by constructor|apply Hi|].
    intros e He. destruct (inv_err _ Hi e He) as (j & Hj & ?). exists j. split; [|done].
    rewrite list_lookup_insert_ne; [done|]. intros ->. congruence.
  - destruct Hi. by split.
  - destruct Hi. by split.
  - pose proof (inv_main _ Hi) as Hm. rewrite Hw in Hm. pose proof Hi as [H1 H2 H3 H4 _]. split; simpl; [done..|].
    split_and!; [done|done|]. exists []. simpl. rewrite (all_held s Hi); [done|]. intros i x Hx.
    destruct (returned_ok s i x Hi Hx (forallb_lookup _ _ _ _ Hf Hx) Hg) as [_ [Hff|?]]; [|done].
    by rewrite (Hm i x Hx) in Hff.
  - pose proof (inv_main _ Hi) as Hm. rewrite Hr in Hm. destruct Hm as (Hg & Hf & taken & -> & Hp).
    pose proof (inv_workers _ Hi _ _ Hx) as Hw.
    assert (f = FetcherReturned ∧ answered i = true ∧ answer i = Ok c) as (-> & ? & Ha) by (by inversion Hw).
    split; simpl; [rewrite length_insert; apply Hi| |by rewrite Hg| |].
    + worker_cases; [constructor; [done|by rewrite Ha]|by apply (inv_workers _ Hi)].
    + by rewrite (not_closed s i _ Hi Hx).
    + split_and!; [done| |exists (taken ++ [c]); split].
      * apply forallb_forall. intros x (j & Hj)%list_elem_of_In%list_elem_of_lookup. revert j x Hj.
        worker_cases; [done|by eapply forallb_lookup].
      * unfold sum_counts. by rewrite foldl_snoc.
      * rewrite <-Hp, (held_take _ _ _ _ Hx). by rewrite <-app_assoc.
  - pose proof (inv_main _ Hi) as Hm. rewrite Hr in Hm. destruct Hm as (Hg & Hf & taken & -> & Hp).
    pose proof (inv_closed _ Hi Hc) as Hall. destruct Hi. split; simpl; [done..|]. split; [done|].
    rewrite held_forwarded, app_nil_r in Hp by done. by rewrite Hp.
Qed.

Lemma fetch_inv_rtc s s' : fetch_inv s → rtc step s s' → fetch_inv s'.
Proof. intros Hi Hr. induction Hr as [|? ? ? Hs _ IH]; [done|]. apply IH. by eapply fetch_inv_step. Qed.

Lemma fetch_inv_run s : rtc step (fetch_init n) s → fetch_inv s.
Proof. apply fetch_inv_rtc, fetch_inv_init. Qed.

(** *** Progress *)

Definition worker_weight (x : worker) : nat :=
  match x with
  | mkWorker Requesting _ => 3
  | mkWorker (Sending _) _ => 2
  | mkWorker FetcherReturned (Forwarding _) => 1
  | _ => 0
  end.

Definition fetch_weight (s : fetch_sys) : nat :=
  sum_list_with worker_weight (workers s) + (if ch_closed s then 0 else 1)
  + match main s with WaitingGroup => 2 | Ranging _ => 1 | Done _ => 0 end.

Lemma weight_insert ws i x y :
  ws !! i = Some x →
  (sum_list_with worker_weight (<[i := y]> ws) + worker_weight x
   = sum_list_with worker_weight ws + worker_weight y)%nat.
Proof.
  revert i. induction ws as [|z ws IH]; intros [|i] Hi; simplify_eq/=; [lia|].
  specialize (IH i Hi). lia.
Qed.

Lemma fetch_step_weight s s' : fetch_inv s → step s s' → (fetch_weight s' < fetch_weight s)%nat.
Proof.
  unfold fetch_weight. intros Hinv Hs.
  destruct Hs as [s i v c Hx Hd Ha|s i v e Hx Hd Ha|s i c Hx|s Hf Hc|s e Hw Hf Hg|s Hw Hf Hg|s i f c acc Hr Hx|s acc Hr Hc]; simpl.
  - pose proof (weight_insert _ _ _ (mkWorker (Sending c) v) Hx). simpl in *. lia.
  - pose proof (inv_workers _ Hinv _ _ Hx) as Hw. assert (v = Receiving) as -> by (by inversion Hw).
    pose proof (weight_insert _ _ _ (mkWorker FetcherReturned Receiving) Hx). simpl in *. lia.
  - pose proof (weight_insert _ _ _ (mkWorker FetcherReturned (Forwarding c)) Hx). simpl in *. lia.
  - rewrite Hc. lia.
  - rewrite Hw. lia.
  - rewrite Hw. lia.
  - pose proof (inv_workers _ Hinv _ _ Hx) as Hw. assert (f = FetcherReturned) as -> by (by inversion Hw).
    pose proof (weight_insert _ _ _ (mkWorker FetcherReturned Forwarded) Hx). rewrite Hr. simpl in *. lia.
  - rewrite Hr. lia.
Qed.

(** When every request is answered, the caller has returned or something moves. *)
Lemma fetch_progress s :
  (∀ i, (i < n)%nat → answered i = true) → (∀ i, is_panic (answer i) = false) → fetch_inv s →
  (∃ r, main s = Done r) ∨ ∃ s', step s s'.
Proof.
  intros Hans Hnp Hi. destruct (forallb has_returned (workers s)) eqn:Hret.
  - pose proof (inv_main _ Hi) as Hm. destruct (main s) as [|acc|r] eqn:Em; [right|right|by eauto].
    + destruct (group_err s) eqn:Eg; eexists; [by eapply wait_failed|by eapply wait_ok].
    + destruct Hm as (Hg & _). destruct (forallb has_forwarded (workers s)) eqn:Hfw.
      * destruct (ch_closed s) eqn:Ec; eexists; [by eapply range_ends|by apply close_ch].
      * apply forallb_not in Hfw as (i & x & Hx & Hf).
        destruct (returned_ok s i x Hi Hx (forallb_lookup _ _ _ _ Hret Hx) Hg) as [_ [?|(c & -> & _)]]; [congruence|].
        eexists. by eapply receive.
  - right. apply forallb_not in Hret as (i & x & Hx & Hr). pose proof (inv_workers _ Hi _ _ Hx) as Hw.
    pose proof (Hans i ltac:(rewrite <-(inv_length _ Hi); by eapply lookup_lt_Some)) as Hd. specialize (Hnp i).
    destruct Hw as [|c ? Ha|? ?|c|]; [|eexists; by eapply hand_over|done..].
    destruct (answer i) as [c|e|p] eqn:Ha; [eexists; by eapply request_ok|eexists; by eapply request_fail|done].
Qed.

(** A failed fetch leaves a forwarder that nobody sends to, and a closer that
    waits for it. *)
Lemma stuck_step s s' i :
  fetch_inv s → workers s !! i = Some (mkWorker FetcherReturned Receiving) → step s s' →
  workers s' !! i = Some (mkWorker FetcherReturned Receiving).
Proof.
  intros Hi Hx Hs. destruct Hs as [s j ? ? Hy|s j ? ? Hy|s j ? Hy|s|s|s|s j ? ? ? ? Hy|s]; simpl; try done;
    (rewrite list_lookup_insert_ne; [done|]); intros ->; congruence.
Qed.

Lemma stuck_run s s' i :
  fetch_inv s → workers s !! i = Some (mkWorker FetcherReturned Receiving) → rtc step s s' →
  workers s' !! i = Some (mkWorker FetcherReturned Receiving) ∧ ch_closed s' = false.
Proof.
  intros Hi Hx Hr. induction Hr as [s|s s1 s2 Hs _ IH]; [split; [done|by eapply not_closed]|].
  apply IH; [by eapply fetch_inv_step|by eapply stuck_step].
Qed.

(** A request without an answer is never over. *)
Lemma unanswered_step s s' i :
  answered i = false → workers s !! i = Some (mkWorker Requesting Receiving) → step s s' →
  workers s' !! i = Some (mkWorker Requesting Receiving).
Proof.
  intros Ha Hx Hs. destruct Hs as [s j ? ? Hy|s j ? ? Hy|s j ? Hy|s|s|s|s j ? ? ? ? Hy|s]; simpl; try done;
    (rewrite list_lookup_insert_ne; [done|]); intros ->; congruence.
Qed.

Lemma unanswered_run s i :
  (i < n)%nat → answered i = false → rtc step (fetch_init n) s → workers s !! i = Some (mkWorker Requesting Receiving).
Proof.
  intros Hi Ha Hr. assert (workers (fetch_init n) !! i = Some (mkWorker Requesting Receiving)) as Hx
    by (simpl; by apply lookup_replicate).
  revert Hx. induction Hr as [s0|s0 s1 s2 Hs _ IH]; [done|]. intros Hx. apply IH. by eapply unanswered_step.
Qed.
End runs.

(** What the endpoint at each position answers. *)
Definition endpoint_answer (get : URL → res string) (urls : list URL) (i : nat) : res (gmap string Z) :=
  match urls !! i with
  | Some u => GetCounts get u
  | None => Err (Errorf "no such endpoint")
  end.

Lemma omap_fmap_list {A B C} (f : B → option C) (g : A → B) (l : list A) :
  omap f (g <$> l) = omap (λ x, f (g x)) l.
Proof. induction l as [|x l IH]; [done|]. csimpl. by rewrite IH. Qed.

Lemma fetch_all_answers get urls l :
  fetch_all get urls = Ok l → answers (endpoint_answer get urls) (length urls) = l.
Proof.
  revert l. induction urls as [|u urls IH]; intros l; [by intros [= <-]|].
  cbn [fetch_all]. intros (c & Hc & (r & Hr & [= <-])%res_bind_Ok)%res_bind_Ok.
  unfold answers. cbn [length seq]. csimpl. unfold endpoint_answer at 1. simpl. rewrite Hc.
  f_equal. rewrite <-fmap_S_seq, omap_fmap_list. by apply IH.
Qed.

Lemma fetch_all_ok get urls :
  is_ok (fetch_all get urls) = true ↔
  ∀ i, (i < length urls)%nat → is_ok (endpoint_answer get urls i) = true.
Proof.
  induction urls as [|u urls IH]; [split; [by intros _ i ?%Nat.nlt_0_r | done]|].
  cbn [fetch_all]. split.
  - intros Hok i Hi. destruct (GetCounts get u) as [c| |] eqn:Hc; [|done..]. simpl in Hok.
    destruct i as [|i]; [unfold endpoint_answer; simpl; by rewrite Hc|].
    apply IH; [|simpl in Hi; lia]. by destruct (fetch_all get urls).
  - intros Hi. pose proof (Hi O ltac:(simpl; lia)) as H0. unfold endpoint_answer in H0. simpl in H0.
    destruct (GetCounts get u); [|done..]. simpl.
    assert (is_ok (fetch_all get urls) = true) as Hr.
    { apply IH. intros j Hj. apply (Hi (S j)). simpl. lia. }
    by destruct (fetch_all get urls).
Qed.

Lemma endpoint_answer_no_panic get urls i :
  (∀ u, is_panic (get u) = false) → is_panic (endpoint_answer get urls i) = false.
Proof.
  intros Hg. unfold endpoint_answer. destruct (urls !! i) as [u|]; [|done].
  unfold GetCounts. specialize (Hg (mkURL (Scheme u) (Opaque u) (User u) (Host u) countsPath (RawQuery u) (Fragment u))).
  destruct (get _) as [body| |]; [|done..].
  assert (is_panic (decode_stream body) = false) by (unfold decode_stream; by go_destruct).
  destruct (decode_stream body) as [j| |]; [|done..]. simpl.
  by destruct (dec_map _ _ j) as [m [e|]].
Qed.

Lemma steps_weight answer answered n k s s' :
  fetch_inv answer answered n s → nsteps (fetch_step answer answered) k s s' → (k + fetch_weight s' ≤ fetch_weight s)%nat.
Proof.
  intros Hi Hk. induction Hk as [|k s1 s2 s3 Hs _ IH]; [lia|].
  pose proof (fetch_step_weight _ _ _ _ _ Hi Hs). specialize (IH (fetch_inv_step _ _ _ _ _ Hi Hs)). lia.
Qed.

Lemma sum_replicate n : sum_list_with worker_weight (replicate n (mkWorker Requesting Receiving)) = (3 * n)%nat.
Proof. induction n as [|n IH]; simpl in *; lia. Qed.

Lemma foldl_zero (l : list string) (h : string) :
  foldl (λ m host, <[host := 0]> m) (∅ : gmap string Z) l !! h = if decide (h ∈ l) then Some 0 else None.
Proof.
  assert (∀ m : gmap string Z, foldl (λ m host, <[host := 0]> m) m l !! h
            = if decide (h ∈ l) then Some 0 else m !! h) as Hl.
  { induction l as [|x l IH]; intros m; simpl; [done|].
    rewrite IH, lookup_insert. repeat case_decide; set_solver. }
  rewrite Hl. by rewrite lookup_empty.
Qed.

Lemma merge_over (m m0 : gmap string Z) h :
  map_fold (λ key value m, <[key := value]> m) m0 m !! h
  = match m !! h with Some c => Some c | None => m0 !! h end.
Proof.
  apply (map_fold_weak_ind (λ r m, r !! h = match m !! h with Some c => Some c | None => m0 !! h end)).
  - by rewrite lookup_empty.
  - intros i x m' r Hi Hr. rewrite !lookup_insert. by case_decide.
Qed.

(** ** Properties *)

(** C10: equivalence. However the goroutines of [fetchCounts] are scheduled, and
    whichever requests are answered at all, the caller can only return what the
    sequential function computes: the sum of all answers when every endpoint
    answers well, otherwise the error of an endpoint that failed. *)
Theorem fetch_schedules_agree (get : URL → res string) (answered : nat → bool) (urls : list URL) (s : fetch_sys)
    (r : res (gmap string Z * Z)) :
  rtc (fetch_step (endpoint_answer get urls) answered) (fetch_init (length urls)) s → main s = Done r →
  match fetch_all get urls with
  | Ok all => r = Ok (sum_counts all)
  | _ => ∃ e i u, r = Err e ∧ urls !! i = Some u ∧ GetCounts get u = Err e
  end.
Proof.
  intros Hr Hd. pose proof (fetch_inv_run _ _ _ _ Hr) as Hi. pose proof (inv_main _ _ _ _ Hi) as Hm. rewrite Hd in Hm.
  destruct r as [x|e|p]; [| |done].
  - destruct Hm as [Hf ->]. assert (is_ok (fetch_all get urls) = true) as Hok.
    { apply fetch_all_ok. intros i Hlt. rewrite <-(inv_length _ _ _ _ Hi) in Hlt. apply lookup_lt_is_Some in Hlt as [y Hy].
      pose proof (forallb_lookup _ _ _ _ Hf Hy) as Hfy. by destruct (inv_workers _ _ _ _ Hi _ _ Hy). }
    destruct (fetch_all get urls) as [all| |] eqn:Ef; [|done..]. by rewrite (fetch_all_answers _ _ _ Ef).
  - destruct Hm as [He _]. destruct (inv_err _ _ _ _ Hi e He) as (i & Hi' & Ha).
    apply lookup_lt_Some in Hi'. rewrite (inv_length _ _ _ _ Hi) in Hi'. pose proof Hi' as [u Hu]%lookup_lt_is_Some.
    assert (GetCounts get u = Err e) as Hg by (unfold endpoint_answer in Ha; by rewrite Hu in Ha).
    destruct (fetch_all get urls) as [all| |] eqn:Ef; [exfalso|by eauto 10..].
    assert (is_ok (fetch_all get urls) = true) as Hok by (by rewrite Ef).
    pose proof (proj1 (fetch_all_ok get urls) Hok i Hi') as Hx. by rewrite Ha in Hx.
Qed.

Definition demo_url : URL := mkURL "http" "" None "10.0.0.1:9090" "" "" "".
Definition demo_get (u : URL) : res string := Ok "{}".

Definition demo_fetched : fetch_sys :=
  mkFetch [mkWorker FetcherReturned Forwarded] true None (Done (Ok (add_counts (∅, 0) ∅))).

Lemma demo_run :
  rtc (fetch_step (endpoint_answer demo_get [demo_url]) (λ _, true)) (fetch_init 1) demo_fetched.
Proof.
  eapply rtc_l; [by apply (request_ok _ _ _ O Receiving ∅)|]. simpl.
  eapply rtc_l; [by apply (hand_over _ _ _ O ∅)|]. simpl.
  eapply rtc_l; [by apply wait_ok|]. simpl.
  eapply rtc_l; [by apply (receive _ _ _ O FetcherReturned ∅)|]. simpl.
  eapply rtc_l; [by apply close_ch|]. simpl.
  eapply rtc_l; [by eapply range_ends|]. apply rtc_refl.
Qed.

Lemma fetch_schedules_agree_witness :
  (Ok (add_counts (∅, 0) ∅) : res (gmap string Z * Z)) = Ok (sum_counts [∅]).
Proof. exact (fetch_schedules_agree demo_get (λ _, true) [demo_url] demo_fetched _ demo_run eq_refl). Defined.

(** C11: termination. How the goroutines of [fetchCounts] end (a fetcher and a
    forwarder per endpoint, the closer of the channel, the caller). A schedule has
    at most three steps per endpoint and three more. When every request gets an
    answer or an error and none panics, a schedule that cannot go on is one in
    which the caller has returned. When a request hangs, and nothing in the code
    bounds it, the caller never returns. And after a fetch that failed two
    goroutines stay for ever: the forwarder of the failed endpoint waits for counts
    nobody sends, and the closer waits for that forwarder. *)
Theorem fetch_terminates (get : URL → res string) (answered : nat → bool) (urls : list URL) :
  let step := fetch_step (endpoint_answer get urls) answered in
  let start := fetch_init (length urls) in
  (∀ k s, nsteps step k start s → (k ≤ 3 * length urls + 3)%nat)
  ∧ ((∀ i, (i < length urls)%nat → answered i = true) → (∀ u, is_panic (get u) = false) →
     ∀ s, rtc step start s → (∀ s', ¬ step s s') → ∃ r, main s = Done r)
  ∧ (∀ i, (i < length urls)%nat → answered i = false → ∀ s r, rtc step start s → main s ≠ Done r)
  ∧ (∀ s e, rtc step start s → main s = Done (Err e) →
     ∃ i, (i < length urls)%nat ∧ endpoint_answer get urls i = Err e
     ∧ ∀ s', rtc step s s' → (w_forwarder <$> workers s' !! i) = Some Receiving ∧ ch_closed s' = false).
Proof.
  intros step start. split_and!.
  - intros k s Hk. apply (steps_weight _ _ (length urls)) in Hk; [|apply fetch_inv_init].
    unfold fetch_weight, start, fetch_init in Hk. simpl in Hk. rewrite sum_replicate in Hk. lia.
  - intros Ha Hg s Hr Hn. apply fetch_inv_run in Hr.
    destruct (fetch_progress _ _ _ s Ha (λ i, endpoint_answer_no_panic get urls i Hg) Hr) as [?|[s' Hs]]; [done|].
    by destruct (Hn s').
  - intros i Hi Ha s r Hr Hm. pose proof (unanswered_run _ _ _ s i Hi Ha Hr) as Hx. apply fetch_inv_run in Hr.
    rewrite (still_waiting _ _ _ s i _ Hr Hx eq_refl) in Hm. done.
  - intros s e Hr Hm. apply fetch_inv_run in Hr. pose proof (inv_main _ _ _ _ Hr) as H. rewrite Hm in H. destruct H as [He _].
    destruct (inv_err _ _ _ _ Hr e He) as (i & Hi & Ha). exists i. split_and!; [|done|].
    + rewrite <-(inv_length _ _ _ _ Hr). by eapply lookup_lt_Some.
    + intros s' Hs'. destruct (stuck_run _ _ _ s s' i Hr Hi Hs') as [Hx Hc]. by rewrite Hx.
Qed.

(** One endpoint, whose request fails. *)
Definition demo_refused (u : URL) : res string := Err (Errorf "connection refused").

Lemma demo_failed_run :
  rtc (fetch_step (endpoint_answer demo_refused [demo_url]) (λ _, true)) (fetch_init 1)
    (mkFetch [mkWorker FetcherReturned Receiving] false
       (Some (Wrap (Errorf "connection refused") "requesting the queue counts from http://10.0.0.1:9090/queue"))
       (Done (Err (Wrap (Errorf "connection refused") "requesting the queue counts from http://10.0.0.1:9090/queue")))).
Proof.
  eapply rtc_l; [by apply (request_fail _ _ _ O Receiving)|]. simpl.
  eapply rtc_l; [by eapply wait_failed|]. apply rtc_refl.
Qed.

Lemma fetch_terminates_witness :
  ∃ i, (i < 1)%nat ∧ is_ok (endpoint_answer demo_refused [demo_url] i) = false.
Proof.
  destruct (fetch_terminates demo_refused (λ _, true) [demo_url]) as (_ & _ & _ & Hleak).
  destruct (Hleak _ _ demo_failed_run eq_refl) as (i & Hi & Ha & _). exists i. split; [exact Hi|]. by rewrite Ha.
Defined.

(** A successful fetch of the counts reports, for every host that
    some interceptor knows, the sum of its counts over all interceptors, and for
    no other host; the aggregate is the sum of everything. Both wrap around at 64
    bits, and neither depends on the order of the endpoints. *)
Theorem fetchCounts_totals {W} (fn : GetEndpointsFunc W) get ns svc port w w' urls all m agg :
  EndpointsForService ns svc port fn w = (Ok urls, w') → fetch_all get urls = Ok all →
  fetchCounts fn get ns svc port w = (Ok (m, agg), w') →
  (∀ h, m !! h = if decide (Exists (λ c : gmap string Z, is_Some (c !! h)) all)
                 then Some (int64 (host_total all h)) else None)
  ∧ agg = int64 (grand_total all)
  ∧ (∀ all', all' ≡ₚ all → sum_counts all' = (m, agg)).
Proof.
  intros He Ha Hf. unfold fetchCounts in Hf. rewrite He, Ha in Hf. injection Hf as Hs.
  destruct (sum_counts_spec all) as [H1 H2]. rewrite Hs in H1, H2. split_and!; [done|done|].
  intros all' Hp. by rewrite Hp.
Qed.

Definition demo_counts_get (u : URL) : res string :=
  if decide (Host u = "10.0.0.1:9090") then Ok (MarshalCounts {["app.dp-1" := 2]})
  else Ok (MarshalCounts {["app.dp-1" := 3]}).

Definition demo_two : Endpoints :=
  mkEndpoints "keda" "int" [mkSubset [mkAddress "" "10.0.0.1"; mkAddress "" "10.0.0.2"] []].

Lemma fetchCounts_totals_witness :
  ∃ m agg, fetchCounts (λ _ _ w, (Ok demo_two, w)) demo_counts_get "keda" "int" "9090" tt = (Ok (m, agg), tt)
  ∧ m !! "app.dp-1" = Some 5 ∧ agg = 5.
Proof.
  destruct (fetchCounts (λ _ _ w, (Ok demo_two, w)) demo_counts_get "keda" "int" "9090" tt)
    as [[[m agg]|e|p] []] eqn:Hf; try (vm_compute in Hf; discriminate).
  destruct (fetchCounts_totals (λ _ _ w, (Ok demo_two, w)) demo_counts_get "keda" "int" "9090" tt tt
              [mkURL "http" "" None "10.0.0.1:9090" "" "" ""; mkURL "http" "" None "10.0.0.2:9090" "" "" ""]
              [{["app.dp-1" := 2]}; {["app.dp-1" := 3]}] m agg) as (Hm & Ha & _);
    [by vm_compute|by vm_compute|done|].
  exists m, agg. split_and!; [done| |rewrite Ha; by vm_compute].
  rewrite Hm. by vm_compute.
Defined.

(** A failed fetch leaves the pinger as it was: the counts last saved
    stay in use. A good fetch replaces them all; the pinger's addresses never
    change. *)
Theorem fetchAndSave_spec {W} (fn : GetEndpointsFunc W) get Now (q : queuePinger) (w : W) :
  let '(x, (q', w')) := fetchAndSaveCounts fn get Now (q, w) in
  let '(y, w'') := fetchCounts fn (get w) (interceptorNS q) (interceptorSvcName q) (adminPort q) w in
  w' = w'' ∧ is_ok x = is_ok y
  ∧ (is_ok x = false → q' = q)
  ∧ (∀ m agg, y = Ok (m, agg) → counts q' = m ∧ aggregate q' = agg ∧ lastPingTime q' = Now w')
  ∧ interceptorNS q' = interceptorNS q ∧ interceptorSvcName q' = interceptorSvcName q
  ∧ adminPort q' = adminPort q.
Proof.
  unfold fetchAndSaveCounts.
  destruct (fetchCounts _ _ _ _ _ w) as [[[m agg]|e|p] w']; split_and!; naive_solver.
Qed.

(** The pinger loop outlives failed fetches that a Deployment event
    triggers, and stops at the first one a tick triggers, with the counts saved
    before it still in place. *)
Theorem start_tick_error {W} (fn : GetEndpointsFunc W) get Now (q : queuePinger) (w w' : W) e
    (ins : list pinger_input) :
  fetchCounts fn (get w) (interceptorNS q) (interceptorSvcName q) (adminPort q) w = (Err e, w') →
  start_loop fn get Now (Tick :: ins) (q, w)
  = (Returned (Err (Wrap e "error getting request counts")), (q, w'))
  ∧ start_loop fn get Now (DeployEvent :: ins) (q, w) = start_loop fn get Now ins (q, w').
Proof.
  intros Hf. unfold start_loop; fold (@start_loop W fn get Now). unfold start_step, fetchAndSaveCounts.
  by rewrite Hf.
Qed.

Lemma start_tick_error_witness :
  start_loop (λ _ _ w, (Err (ApiOther "unavailable"), S w)) (λ _, demo_get) (λ _, 0) [Tick; Tick]
    (mkPinger "keda" "int" "int" "9090" 0 {["app.dp-1" := 1]} 1, 0%nat)
  = (Returned (Err (Wrap (Wrap (ApiOther "unavailable") "pkg.k8s.EndpointsForService")
                      "error getting request counts")),
     (mkPinger "keda" "int" "int" "9090" 0 {["app.dp-1" := 1]} 1, 1%nat)).
Proof.
  apply (start_tick_error (λ _ _ w, (Err (ApiOther "unavailable"), S w)) (λ _, demo_get) (λ _, 0)
           (mkPinger "keda" "int" "int" "9090" 0 {["app.dp-1" := 1]} 1) 0%nat 1%nat
           (Wrap (ApiOther "unavailable") "pkg.k8s.EndpointsForService") [Tick]).
  reflexivity.
Defined.

(** The counts merged with the routing table know every host of
    either: the pinger's count where it has one, 0 for a host only the table
    has. *)
Theorem merge_spec `{TableReader T} (tr_model : T → gmap string Target) `{!TableReaderLaws T tr_model}
    (table : T) (q : queuePinger) (h : string) :
  mergeCountsWithRoutingTable table q !! h
  = match allCounts q !! h with
    | Some c => Some c
    | None => if decide (is_Some (tr_model table !! h)) then Some 0 else None
    end.
Proof.
  unfold mergeCountsWithRoutingTable. rewrite merge_over.
  destruct (allCounts q !! h); [done|]. rewrite foldl_zero.
  destruct (decide (h ∈ tr_Hosts table)) as [Hh|Hh]; rewrite (tr_Hosts_spec (tr_model := tr_model)) in Hh.
  - by rewrite decide_True.
  - by rewrite decide_False.
Qed.

Lemma merge_spec_witness :
  mergeCountsWithRoutingTable (mkTable (Some {["app.dp-1" := demo_target]}))
    (mkPinger "keda" "int" "int" "9090" 0 ∅ 0) !! "app.dp-1" = Some 0.
Proof.
  etransitivity; [apply (merge_spec entries)|]. by vm_compute.
Defined.
