(* ===== verification/Scaler.v ===== *)
(** * The external scaler (scaler/handlers.go, hosts.go, the admin handlers of main.go)

    The gRPC calls KEDA makes. They read the pinger's counts and the routing
    table, the latter through the [TableReader] interface; a call is modelled on
    one state of both. *)

From S2P Require Import Prelude GoStrings GoUrl Json Http Queue QueueRpc Routing ConfigMaps Net K8s Pinger.

Definition interceptor : string := "interceptor".
Definition httpRequests : string := "http-requests".

(** ** Hosts *)

Definition getHostCount `{TableReader T} (host : string) (counts : gmap string Z) (table : T) : Z * bool :=
  match counts !! host with
  | Some count => (count, true)
  | None => (0, tr_HasHost table host)
  end.

(** [sor.ScalerMetadata]; [strings.Split] of the empty string is one empty host. *)
Definition getHostsFromScaledObjectRef (ScalerMetadata : gmap string string) : res (list string) :=
  match ScalerMetadata !! "hosts" with
  | None => Err (Errorf "no 'hosts' field in the scaler metadata field")
  | Some serializedHosts => Ok (Split "," serializedHosts)
  end.

(** ** The handlers *)

Section impl.
Context `{TableReader T}.

Record impl : Type := mkImpl {
  pinger : queuePinger;
  routingTable : T;
  targetMetric : Z;
  targetMetricInterceptor : Z;
}.

Definition newImpl (pinger : queuePinger) (routingTable : T)
    (defaultTargetMetric defaultTargetMetricInterceptor : Z) : impl :=
  mkImpl pinger routingTable defaultTargetMetric defaultTargetMetricInterceptor.

Definition Ping (e : impl) : res unit := Ok tt.

Definition host_not_found (host : string) : error :=
  Errorf ("host '" +:+ host +:+ "' not found in counts").

Fixpoint is_active_loop (e : impl) (hosts : list string) (totalHostCount : Z) : res bool :=
  match hosts with
  | [] => Ok (bool_decide (0 < totalHostCount))
  | host :: hosts =>
      if decide (host = interceptor) then Ok true
      else
        match getHostCount host (counts (pinger e)) (routingTable e) with
        | (_, false) => Err (host_not_found host)
        | (hostCount, true) => is_active_loop e hosts (int64 (totalHostCount + hostCount))
        end
  end.

Definition IsActive (e : impl) (sor : gmap string string) : res bool :=
  hosts ← getHostsFromScaledObjectRef sor;
  is_active_loop e hosts 0.

(** *** The stream *)

(** What a receive of the [select] yields: the end of the stream's context, or
    a tick, with the scaler's state then and what [server.Send] answers. *)
Inductive stream_input : Type :=
| StreamDone
| StreamTick (e : impl) (send : res unit).

(** The results that [Send] took, and the loop's state: a result whose [Send]
    fails is not sent, and ends the loop. *)
Fixpoint StreamIsActive (sor : gmap string string) (ins : list stream_input) : loop unit * list bool :=
  match ins with
  | [] => (Waiting, [])
  | StreamDone :: _ => (Returned (Ok tt), [])
  | StreamTick e send :: ins =>
      match IsActive e sor with
      | Err err => (Returned (Err err), [])
      | Panic p => (Returned (Panic p), [])
      | Ok active =>
          match send with
          | Ok _ => let '(r, l) := StreamIsActive sor ins in (r, active :: l)
          | Err err => (Returned (Err err), [])
          | Panic p => (Returned (Panic p), [])
          end
      end
  end.

(** *** Metrics *)

(** One metric: its name, and its target size or value. *)
Definition metric : Type := string * Z.

Definition GetMetricSpec (e : impl) (sor : gmap string string) : res (list metric) :=
  hosts ← getHostsFromScaledObjectRef sor;
  match hosts with
  | [] => Panic "index out of range"
  | host :: _ =>
      if decide (host = interceptor) then Ok [(host, targetMetricInterceptor e)]
      else
        target ← tr_Lookup (routingTable e) host;
        Ok [(httpRequests, TargetPendingRequests target)]
  end.

Fixpoint metrics_loop (e : impl) (hosts : list string) (totalCount : Z) (metricName : string) :
    res (string * Z) :=
  match hosts with
  | [] => Ok (metricName, totalCount)
  | host :: hosts =>
      match getHostCount host (counts (pinger e)) (routingTable e) with
      | (hostCount, true) => metrics_loop e hosts (int64 (totalCount + hostCount)) metricName
      | (_, false) =>
          if decide (host ≠ interceptor) then Err (host_not_found host)
          else metrics_loop e hosts (int64 (totalCount + aggregate (pinger e))) interceptor
      end
  end.

Definition GetMetrics (e : impl) (sor : gmap string string) : res (list metric) :=
  hosts ← getHostsFromScaledObjectRef sor;
  r ← metrics_loop e hosts 0 httpRequests;
  Ok [r].
End impl.
Arguments impl : clear implicits.

(** ** The admin server *)

Definition healthzHandler (w : ResponseWriter) : ResponseWriter := WriteHeader 200 w.

Definition queueHandler (q : queuePinger) (w : ResponseWriter) : ResponseWriter :=
  Write (MarshalCounts (counts q) +:+ String "010" "") w.

Definition queuePingHandler {W} (fn : GetEndpointsFunc W) (get : W → URL → res string) (Now : W → Time)
    (rw : ResponseWriter) : ST (queuePinger * W) ResponseWriter := λ s,
  match fetchAndSaveCounts fn get Now s with
  | (Panic p, s) => (Panic p, s)
  | (Err _, s) => (Ok (reply 500 "error requesting counts from interceptors" rw), s)
  | (Ok _, s) => (Ok (Write (MarshalCounts (counts (fst s)) +:+ String "010" "") rw), s)
  end.

(** ** Lemmas *)

Section lemmas.
Context `{TableReader T} (tr_model : T → gmap string Target) `{!TableReaderLaws T tr_model}.
Implicit Types (e : impl T) (hosts : list string).

(** A host the scaler knows: it has a count, or is in the table. *)
Definition known e (h : string) : Prop :=
  is_Some (counts (pinger e) !! h) ∨ is_Some (tr_model (routingTable e) !! h).

#[export] Instance known_dec e h : Decision (known e h).
Proof. unfold known. apply _. Defined.

Lemma getHostCount_spec e h :
  getHostCount h (counts (pinger e)) (routingTable e)
  = (count_of (counts (pinger e)) h, bool_decide (known e h)).
Proof.
  unfold getHostCount, count_of. destruct (counts (pinger e) !! h) eqn:E.
  - rewrite bool_decide_true; [done|]. left. eauto.
  - rewrite (tr_HasHost_spec (tr_model := tr_model)). simpl. f_equal. apply bool_decide_ext.
    unfold known. rewrite E. split; [auto|]. by intros [[]|].
Qed.

(** The sum of the counts of some hosts. *)
Definition hosts_total e hosts : Z := zsum (count_of (counts (pinger e)) <$> hosts).

Lemma is_active_known e hosts acc :
  Forall (λ h, h ≠ interceptor ∧ known e h) hosts → in_int64 acc →
  is_active_loop e hosts acc = Ok (bool_decide (0 < int64 (acc + hosts_total e hosts))).
Proof.
  intros Hk. revert acc. induction Hk as [|h hosts [Hi Hk] _ IH]; intros acc Ha; simpl.
  - unfold hosts_total; csimpl. by rewrite Z.add_0_r, int64_id.
  - rewrite decide_False by done. rewrite getHostCount_spec, bool_decide_true by done.
    rewrite IH by apply int64_range. rewrite int64_add_l. unfold hosts_total; csimpl.
    do 2 f_equal. apply bool_decide_ext. by rewrite Z.add_assoc.
Qed.

Lemma metrics_known e hosts acc name :
  Forall (λ h, known e h) hosts → in_int64 acc →
  metrics_loop e hosts acc name = Ok (name, int64 (acc + hosts_total e hosts)).
Proof.
  intros Hk. revert acc. induction Hk as [|h hosts Hk _ IH]; intros acc Ha; simpl.
  - unfold hosts_total; csimpl. by rewrite Z.add_0_r, int64_id.
  - rewrite getHostCount_spec, bool_decide_true by done.
    rewrite IH by apply int64_range. rewrite int64_add_l. unfold hosts_total; csimpl.
    by rewrite Z.add_assoc.
Qed.

Lemma metrics_first_bad e pre h rest acc name :
  Forall (λ h, h ≠ interceptor ∧ known e h) pre → h ≠ interceptor → ¬ known e h →
  metrics_loop e (pre ++ h :: rest) acc name = Err (host_not_found h).
Proof.
  intros Hp Hi Hn. revert acc. induction Hp as [|x pre [Hx Hk] _ IH]; intros acc; simpl.
  - rewrite getHostCount_spec, bool_decide_false by done. by rewrite decide_True.
  - rewrite getHostCount_spec, bool_decide_true by done. apply IH.
Qed.

Lemma is_active_first_bad e pre h rest acc :
  Forall (λ h, h ≠ interceptor ∧ known e h) pre → h ≠ interceptor → ¬ known e h →
  is_active_loop e (pre ++ h :: rest) acc = Err (host_not_found h).
Proof.
  intros Hp Hi Hn. revert acc. induction Hp as [|x pre [Hx Hk] _ IH]; intros acc; simpl.
  - rewrite decide_False by done. rewrite getHostCount_spec, bool_decide_false; done.
  - rewrite decide_False by done. rewrite getHostCount_spec, bool_decide_true by done. apply IH.
Qed.

Lemma is_active_interceptor e pre rest acc :
  Forall (λ h, h ≠ interceptor ∧ known e h) pre →
  is_active_loop e (pre ++ interceptor :: rest) acc = Ok true.
Proof.
  intros Hp. revert acc. induction Hp as [|x pre [Hx Hk] _ IH]; intros acc; simpl; [done|].
  rewrite decide_False by done. rewrite getHostCount_spec, bool_decide_true by done. apply IH.
Qed.

Lemma metrics_interceptor e acc name :
  ¬ known e interceptor →
  metrics_loop e [interceptor] acc name = Ok (interceptor, int64 (acc + aggregate (pinger e))).
Proof. intros Hk. simpl. by rewrite getHostCount_spec, bool_decide_false. Qed.
End lemmas.

(** The metadata of a reference to a ScaledObject for some hosts. *)
Definition ref_for (hosts : list string) : gmap string string := {["hosts" := Join hosts ","]}.

Lemma ref_hosts m hosts :
  m !! "hosts" = Some (Join hosts ",") → hosts ≠ [] → Forall (no_char ",") hosts →
  getHostsFromScaledObjectRef m = Ok hosts.
Proof.
  intros Hm Hn Hc. unfold getHostsFromScaledObjectRef. rewrite Hm. f_equal. by apply Split_Join.
Qed.

(** ** Properties *)

(** For a reference to hosts that are all known, [IsActive]
    answers whether the sum of their counts, wrapped to 64 bits, is positive. A
    host in the table without a count is 0. *)
Theorem IsActive_sum `{TableReader T} (tr_model : T → gmap string Target) `{!TableReaderLaws T tr_model}
    (e : impl T) (m : gmap string string) (hosts : list string) :
  m !! "hosts" = Some (Join hosts ",") → hosts ≠ [] → Forall (no_char ",") hosts →
  Forall (λ h, h ≠ interceptor ∧ known tr_model e h) hosts →
  IsActive e m = Ok (bool_decide (0 < int64 (hosts_total e hosts))).
Proof.
  intros Hm Hn Hc Hk. unfold IsActive. rewrite (ref_hosts m hosts) by done. simpl.
  by rewrite (is_active_known tr_model).
Qed.

Definition demo_impl (c : gmap string Z) : impl Table :=
  newImpl (mkPinger "keda" "int" "int" "9090" 0 c 0)
    (mkTable (Some {["app.dp-1" := demo_target; "api.dp-1" := demo_target]})) 100 100.

Lemma IsActive_sum_witness :
  IsActive (demo_impl {["app.dp-1" := 2]}) (ref_for ["app.dp-1"; "api.dp-1"])
  = Ok (bool_decide (0 < int64 (hosts_total (demo_impl {["app.dp-1" := 2]}) ["app.dp-1"; "api.dp-1"]))).
Proof.
  apply (IsActive_sum entries); [done|done|repeat constructor; done|].
  repeat apply Forall_cons_2; [| |by apply Forall_nil]; (split; [done|]).
  - left. by eexists.
  - right. by eexists.
Defined.

(** The first host that is neither counted nor routed decides the
    answer: [IsActive] and [GetMetrics] both fail with that host, unless the
    reserved host [interceptor] comes before it, which makes [IsActive] answer
    true at once. *)
Theorem IsActive_unknown `{TableReader T} (tr_model : T → gmap string Target) `{!TableReaderLaws T tr_model}
    (e : impl T) (m : gmap string string) (pre rest : list string) (h : string) :
  m !! "hosts" = Some (Join (pre ++ h :: rest) ",") → Forall (no_char ",") (pre ++ h :: rest) →
  Forall (λ h, h ≠ interceptor ∧ known tr_model e h) pre → ¬ known tr_model e h →
  if decide (h = interceptor) then IsActive e m = Ok true
  else IsActive e m = Err (host_not_found h) ∧ GetMetrics e m = Err (host_not_found h).
Proof.
  intros Hm Hc Hp Hu. unfold IsActive, GetMetrics.
  rewrite (ref_hosts m (pre ++ h :: rest)); [|done|by destruct pre|done]. simpl.
  case_decide as Hh; [subst; by apply (is_active_interceptor tr_model)|]. split.
  - by apply (is_active_first_bad tr_model).
  - by rewrite (metrics_first_bad tr_model).
Qed.

Lemma IsActive_unknown_witness :
  IsActive (demo_impl ∅) (ref_for (["app.dp-1"] ++ ["ghost.dp-1"])) = Err (host_not_found "ghost.dp-1").
Proof.
  apply (IsActive_unknown entries (demo_impl ∅) _ ["app.dp-1"] [] "ghost.dp-1"); [done| | |].
  - repeat constructor; done.
  - apply Forall_cons_2; [|by apply Forall_nil]. split; [done|]. right. by eexists.
  - by intros [[? ?]|[? ?]].
Defined.

(** KEDA's two questions agree: for hosts that are all known and
    not the reserved one, [GetMetrics] reports the wrapped sum of their counts
    under [http-requests], and [IsActive] is true exactly when that value is
    positive. *)
Theorem IsActive_GetMetrics_agree `{TableReader T} (tr_model : T → gmap string Target)
    `{!TableReaderLaws T tr_model} (e : impl T) (m : gmap string string) (hosts : list string) :
  m !! "hosts" = Some (Join hosts ",") → hosts ≠ [] → Forall (no_char ",") hosts →
  Forall (λ h, h ≠ interceptor ∧ known tr_model e h) hosts →
  ∃ v, GetMetrics e m = Ok [(httpRequests, v)] ∧ v = int64 (hosts_total e hosts)
  ∧ IsActive e m = Ok (bool_decide (0 < v)).
Proof.
  intros Hm Hn Hc Hk. exists (int64 (hosts_total e hosts)). split_and!; [|done|].
  - unfold GetMetrics. rewrite (ref_hosts m hosts) by done. simpl.
    rewrite (metrics_known tr_model); [done| |done]. eapply Forall_impl; [exact Hk|]. naive_solver.
  - unfold IsActive. rewrite (ref_hosts m hosts) by done. simpl. by rewrite (is_active_known tr_model).
Qed.

Lemma IsActive_GetMetrics_agree_witness :
  ∃ v, GetMetrics (demo_impl {["app.dp-1" := 2]}) (ref_for ["app.dp-1"]) = Ok [(httpRequests, v)]
  ∧ IsActive (demo_impl {["app.dp-1" := 2]}) (ref_for ["app.dp-1"]) = Ok (bool_decide (0 < v)).
Proof.
  destruct (IsActive_GetMetrics_agree entries (demo_impl {["app.dp-1" := 2]}) (ref_for ["app.dp-1"]) ["app.dp-1"])
    as (v & ? & _ & ?); [done|done|repeat constructor; done| |by eauto].
  apply Forall_cons_2; [|by apply Forall_nil]. split; [done|]. left. by eexists.
Defined.

(** [GetMetricSpec] never indexes an empty host list, whatever the
    metadata; it uses the first host only: the interceptor's own target for the
    reserved host, the target registered for it otherwise. *)
Theorem GetMetricSpec_spec (e : impl Table) (m : gmap string string) (s : string) :
  m !! "hosts" = Some s →
  ∃ host rest, Split "," s = host :: rest
  ∧ GetMetricSpec e m
    = if decide (host = interceptor) then Ok [(interceptor, targetMetricInterceptor e)]
      else match Lookup host (routingTable e) with
           | Ok t => Ok [(httpRequests, TargetPendingRequests t)]
           | Err err => Err err
           | Panic p => Panic p
           end.
Proof.
  intros Hm. destruct (Split "," s) as [|host rest] eqn:Es; [by destruct (Split_not_nil "," s)|].
  exists host, rest. split; [done|]. unfold GetMetricSpec, getHostsFromScaledObjectRef.
  rewrite Hm, Es. simpl. case_decide; [by subst|].
  by destruct (Lookup host (routingTable e)).
Qed.

Lemma GetMetricSpec_spec_witness :
  ∃ host rest, Split "," "app.dp-1,api.dp-1" = host :: rest
  ∧ GetMetricSpec (demo_impl ∅) (ref_for ["app.dp-1"; "api.dp-1"]) = Ok [(httpRequests, 100)].
Proof.
  destruct (GetMetricSpec_spec (demo_impl ∅) (ref_for ["app.dp-1"; "api.dp-1"]) "app.dp-1,api.dp-1" eq_refl)
    as (host & rest & Hs & Hg). exists host, rest. split; [done|]. rewrite Hg.
  vm_compute in Hs. injection Hs as <- _. by vm_compute.
Defined.

(** While the host is known and KEDA takes what is sent, the stream
    sends one result per tick, the activity at that tick; it returns without an
    error when its context ends, and with the error at the first failing tick. *)
Theorem StreamIsActive_ticks `{TableReader T} (sor : gmap string string) (es : list (impl T)) (actives : list bool)
    (rest : list stream_input) :
  Forall2 (λ e b, IsActive e sor = Ok b) es actives →
  let ticks := (λ e, StreamTick e (Ok tt)) <$> es in
  StreamIsActive sor (ticks ++ StreamDone :: rest) = (Returned (Ok tt), actives)
  ∧ StreamIsActive sor ticks = (Waiting, actives)
  ∧ (∀ e err, IsActive e sor = Err err →
     StreamIsActive sor (ticks ++ StreamTick e (Ok tt) :: rest) = (Returned (Err err), actives))
  ∧ (∀ e b err, IsActive e sor = Ok b →
     StreamIsActive sor (ticks ++ StreamTick e (Err err) :: rest) = (Returned (Err err), actives)).
Proof.
  intros Hes. induction Hes as [|e b es actives Hb _ IH]; csimpl.
  - split_and!; [done|done| |]; [by intros e err ->|by intros e b err ->].
  - rewrite Hb. destruct IH as (-> & -> & IH1 & IH2). split_and!; [done|done| |].
    + intros e' err He. by rewrite (IH1 e' err He).
    + intros e' b' err He. by rewrite (IH2 e' b' err He).
Qed.

Lemma StreamIsActive_ticks_witness :
  StreamIsActive (ref_for ["app.dp-1"])
    (((λ e, StreamTick e (Ok tt)) <$> [demo_impl {["app.dp-1" := 2]}; demo_impl ∅]) ++ [StreamDone])
  = (Returned (Ok tt), [true; false]).
Proof.
  apply (StreamIsActive_ticks (ref_for ["app.dp-1"]) [demo_impl {["app.dp-1" := 2]}; demo_impl ∅] [true; false] []).
  repeat constructor.
Defined.
