(* ===== verification/Admin.v ===== *)
(** * The admin servers (pkg/http/config_endpoint.go; runAdminServer of interceptor/main.go and operator/main.go; startAdminServer of scaler/main.go; the Add...Route functions)

    The mux each process serves on its admin port: which routes are registered,
    and what a request to each of them does. [http.ServeMux] is modelled as far
    as these muxes use it: patterns without a host and without a trailing
    slash, matched exactly; a path that is not clean is redirected. The body of
    a redirect is left out. *)

From S2P Require Import Prelude GoStrings GoUrl Json Http Queue QueueRpc CountProtocol Routing ConfigMaps Net Config K8s Forward Interceptor Pinger Scaler.

(** ** ServeMux *)

Definition mux (S : Type) : Type := list (string * Handler S).

Fixpoint route {S} (m : mux S) (path : string) : option (Handler S) :=
  match m with
  | [] => None
  | (pattern, h) :: m => if decide (pattern = path) then Some h else route m path
  end.

(** [mux.Handle(pattern, handler)]. *)
Definition mux_Handle {S} (pattern : string) (h : Handler S) (m : mux S) : res (mux S) :=
  if decide (pattern = "") then Panic "http: invalid pattern"
  else match route m pattern with
       | Some _ => Panic ("http: multiple registrations for " +:+ pattern)
       | None => Ok (m ++ [(pattern, h)])
       end.

(** [path.Clean] of a rooted path, by its segments. *)
Definition clean_segment (acc : list string) (s : string) : list string :=
  if decide (s = "" ∨ s = ".") then acc
  else if decide (s = "..") then removelast acc
  else acc ++ [s].

Definition HasSlashSuffix (s : string) : bool :=
  match LastIndex "/" s with Some i => bool_decide (Datatypes.S i = String.length s) | None => false end.

Definition cleanPath (p : string) : string :=
  if decide (p = "") then "/"
  else
    let p := if HasPrefix p "/" then p else "/" +:+ p in
    let np := "/" +:+ Join (foldl clean_segment [] (Split "/" p)) "/" in
    if HasSlashSuffix p && negb (bool_decide (np = "/")) then np +:+ "/" else np.

Definition NotFound (w : ResponseWriter) : ResponseWriter :=
  Write ("404 page not found" +:+ newline)
    (WriteHeader 404 (HeaderAdd "X-Content-Type-Options" "nosniff"
       (HeaderAdd "Content-Type" "text/plain; charset=utf-8" w))).

(** [mux.ServeHTTP]. *)
Definition ServeHTTP {S} (m : mux S) : Handler S := λ r rw s,
  let path := Path (req_URL r) in
  let clean := if decide (req_Method r = "CONNECT") then path else cleanPath path in
  if decide (clean = path) then
    match route m path with
    | Some h => h r rw s
    | None => (Ok (NotFound rw), s)
    end
  else
    let target := clean +:+ (if decide (RawQuery (req_URL r) = "") then "" else "?" +:+ RawQuery (req_URL r)) in
    (Ok (WriteHeader 301 (HeaderAdd "Location" target rw)), s).

(** A handler that writes [body], JSON with the encoder's newline, whatever the
    request. *)
Definition writes {S} (body : S → json) : Handler S := λ _ rw s, (Ok (Write (print_json (body s) +:+ newline) rw), s).

(** ** The endpoints of pkg/http *)

(** [configs] are the JSON of the structs, whose encoding cannot fail. *)
Definition AddConfigEndpoint {S} (configs : list json) (m : mux S) : res (mux S) :=
  mux_Handle "/config" (writes (λ _, JObj [("configs", JArr configs)])) m.

(** [version] is [build.Version()], set when the program is linked. *)
Definition AddVersionEndpoint {S} (version : string) (m : mux S) : res (mux S) :=
  mux_Handle "/version" (writes (λ _, JObj [("version", JStr version)])) m.

(** ** The routes of pkg/queue and pkg/routing *)

Definition AddCountsRoute `{CountReader Q} {S} (q : S → Q) (m : mux S) : res (mux S) :=
  mux_Handle countsPath (λ _ rw s, (sizeHandler (q s) rw, s)) m.

Definition AddFetchRoute {S} (table : S → Table) (m : mux S) : res (mux S) :=
  mux_Handle routingFetchPath (λ _ rw s, (Ok (tableHandler (table s) rw), s)) m.

(** ** Configurations as JSON *)

Definition jint (z : Z) : json := JNum (Itoa z).

Definition serving_json (c : InterceptorConfig.Serving) : json :=
  JObj [("CurrentNamespace", JStr (InterceptorConfig.CurrentNamespace c));
        ("ProxyPort", jint (InterceptorConfig.ProxyPort c));
        ("AdminPort", jint (InterceptorConfig.AdminPort c));
        ("ConfigMapCacheRsyncPeriod", jint (InterceptorConfig.ConfigMapCacheRsyncPeriod c));
        ("DeploymentCachePollIntervalMS", jint (InterceptorConfig.DeploymentCachePollIntervalMS c));
        ("RequestQueueCooldown", jint (InterceptorConfig.RequestQueueCooldown c));
        ("RequestQueueCooldownEnforcerInterval", jint (InterceptorConfig.RequestQueueCooldownEnforcerInterval c));
        ("EnableRequestQueueCooldown", JBool (InterceptorConfig.EnableRequestQueueCooldown c))].

Definition timeouts_json (t : InterceptorConfig.Timeouts) : json :=
  JObj [("Connect", jint (InterceptorConfig.Connect t));
        ("KeepAlive", jint (InterceptorConfig.KeepAlive t));
        ("ResponseHeader", jint (InterceptorConfig.ResponseHeader t));
        ("DeploymentReplicas", jint (InterceptorConfig.DeploymentReplicas t));
        ("ForceHTTP2", JBool (InterceptorConfig.ForceHTTP2 t));
        ("MaxIdleConns", jint (InterceptorConfig.MaxIdleConns t));
        ("IdleConnTimeout", jint (InterceptorConfig.IdleConnTimeout t));
        ("TLSHandshakeTimeout", jint (InterceptorConfig.TLSHandshakeTimeout t));
        ("ExpectContinueTimeout", jint (InterceptorConfig.ExpectContinueTimeout t));
        ("ServiceUnavailableRetry", jint (InterceptorConfig.ServiceUnavailableRetry t))].

Definition scaler_config_json (c : ScalerConfig.config) : json :=
  JObj [("GRPCPort", jint (ScalerConfig.GRPCPort c));
        ("HealthPort", jint (ScalerConfig.HealthPort c));
        ("TargetNamespace", JStr (ScalerConfig.TargetNamespace c));
        ("TargetService", JStr (ScalerConfig.TargetService c));
        ("TargetDeployment", JStr (ScalerConfig.TargetDeployment c));
        ("TargetPort", jint (ScalerConfig.TargetPort c));
        ("TargetPendingRequests", jint (ScalerConfig.cfg_TargetPendingRequests c));
        ("ConfigMapCacheRsyncPeriod", jint (ScalerConfig.cfg_ConfigMapCacheRsyncPeriod c));
        ("DeploymentCacheRsyncPeriod", jint (ScalerConfig.DeploymentCacheRsyncPeriod c));
        ("QueueTickDuration", jint (ScalerConfig.QueueTickDuration c));
        ("TargetPendingRequestsInterceptor", jint (ScalerConfig.TargetPendingRequestsInterceptor c))].

Definition base_json (b : OperatorConfig.Base) : json :=
  JObj [("TargetPendingRequests", jint (OperatorConfig.base_TargetPendingRequests b));
        ("CurrentNamespace", JStr (OperatorConfig.base_CurrentNamespace b));
        ("WatchNamespace", JStr (OperatorConfig.base_WatchNamespace b))].

Definition operator_interceptor_json (i : OperatorConfig.Interceptor) : json :=
  JObj [("ServiceName", JStr (OperatorConfig.int_ServiceName i));
        ("ProxyPort", jint (OperatorConfig.int_ProxyPort i));
        ("AdminPort", jint (OperatorConfig.int_AdminPort i))].

Definition external_scaler_json (e : OperatorConfig.ExternalScaler) : json :=
  JObj [("ServiceName", JStr (OperatorConfig.es_ServiceName e));
        ("Port", jint (OperatorConfig.es_Port e))].

(** ** The three muxes *)

(** What an interceptor's admin server shares with the rest of the process. *)
Record interceptor_state (W : Type) : Type := mkIState {
  is_queue : Memory;
  is_table : Table;
  is_world : W;
}.
Arguments mkIState {W}.
Arguments is_queue {W}.
Arguments is_table {W}.
Arguments is_world {W}.

Section interceptor.
(** The Kubernetes client, and the JSON of the deployment cache's lister. *)
Context {W : Type} (getter : W → string → res ConfigMap) (deployments_json : W → res string).

Definition AddPingRoute (m : mux (interceptor_state W)) : res (mux (interceptor_state W)) :=
  mux_Handle routingPingPath (λ _ rw s,
    let '(r, (t, q)) := pingHandler (getter (is_world s)) (is_table s) (is_queue s) rw in
    (r, mkIState q t (is_world s))) m.

(** An encoding error is logged and nothing is written. *)
Definition deploymentsHandler : Handler (interceptor_state W) := λ _ rw s,
  match deployments_json (is_world s) with
  | Ok body => (Ok (Write (body +:+ newline) rw), s)
  | Err _ => (Ok rw, s)
  | Panic p => (Panic p, s)
  end.

Definition interceptor_admin (servingConfig : InterceptorConfig.Serving) (timeoutConfig : InterceptorConfig.Timeouts)
    (version : string) : res (mux (interceptor_state W)) :=
  m ← AddCountsRoute is_queue [];
  m ← AddFetchRoute is_table m;
  m ← AddPingRoute m;
  m ← mux_Handle "/deployments" deploymentsHandler m;
  m ← AddConfigEndpoint [serving_json servingConfig; timeouts_json timeoutConfig] m;
  AddVersionEndpoint version m.
End interceptor.

Definition scaler_admin {W} (fn : GetEndpointsFunc W) (get : W → URL → res string) (Now : W → Time)
    (cfg : ScalerConfig.config) (version : string) : res (mux (queuePinger * W)) :=
  m ← mux_Handle "/healthz" (λ _ rw s, (Ok (healthzHandler rw), s)) [];
  m ← mux_Handle "/livez" (λ _ rw s, (Ok (healthzHandler rw), s)) m;
  m ← mux_Handle "/queue" (λ _ rw s, (Ok (queueHandler (fst s) rw), s)) m;
  m ← mux_Handle "/queue_ping" (λ _ rw s, queuePingHandler fn get Now rw s) m;
  m ← AddConfigEndpoint [scaler_config_json cfg] m;
  AddVersionEndpoint version m.

Definition operator_admin (baseCfg : OperatorConfig.Base) (interceptorCfg : OperatorConfig.Interceptor)
    (externalScalerCfg : OperatorConfig.ExternalScaler) (version : string) : res (mux Table) :=
  m ← AddFetchRoute (λ t, t) [];
  m ← AddConfigEndpoint [base_json baseCfg; operator_interceptor_json interceptorCfg;
                         external_scaler_json externalScalerCfg] m;
  AddVersionEndpoint version m.

(** ** Lemmas *)

Section lemmas.
Context {S : Type}.
Implicit Types (m : mux S) (h : Handler S).

Lemma ServeHTTP_clean m r rw (s : S) :
  cleanPath (Path (req_URL r)) = Path (req_URL r) →
  ServeHTTP m r rw s = match route m (Path (req_URL r)) with
                       | Some h => h r rw s
                       | None => (Ok (NotFound rw), s)
                       end.
Proof.
  intros Hc. unfold ServeHTTP. rewrite Hc.
  destruct (decide (req_Method r = "CONNECT")); by rewrite decide_True.
Qed.

(** A handler that leaves the state alone. *)
Definition pure_handler h : Prop := ∀ r rw s, snd (h r rw s) = s.

Lemma ServeHTTP_pure m r rw (s : S) path :
  Forall (λ ph, ph.1 = path ∨ pure_handler ph.2) m →
  Path (req_URL r) ≠ path → snd (ServeHTTP m r rw s) = s.
Proof.
  intros Hm Hp. unfold ServeHTTP. destruct (decide (_ = Path _)) as [_|]; [|done].
  destruct (route m (Path (req_URL r))) as [h'|] eqn:E; [|done].
  revert E. induction Hm as [|[p k] m Hk _ IH]; simpl; [done|]. case_decide as Hpk; [|exact IH].
  intros [= ->]. destruct Hk as [Hk|Hk]; simpl in *; [congruence|apply Hk].
Qed.
End lemmas.

(** *** Clean paths *)

(** A segment that [path.Clean] keeps. *)
Definition plain_segment (s : string) : Prop := s ≠ "" ∧ s ≠ "." ∧ s ≠ ".." ∧ no_char "/" s.

Lemma clean_segment_plain acc s : Forall plain_segment acc → no_char "/" s → Forall plain_segment (clean_segment acc s).
Proof.
  intros Ha Hs. unfold clean_segment. case_decide as H1; [done|]. case_decide as H2.
  - rewrite removelast_firstn_len. by apply Forall_take.
  - apply Forall_app_2; [done|]. repeat constructor; naive_solver.
Qed.

Lemma clean_fold_plain l acc : Forall plain_segment acc → Forall (no_char "/") l → Forall plain_segment (foldl clean_segment acc l).
Proof.
  intros Ha Hl. revert acc Ha. induction Hl as [|s l Hs _ IH]; intros acc Ha; [done|]. simpl.
  apply IH. by apply clean_segment_plain.
Qed.

Lemma clean_fold_id l acc : Forall plain_segment l → foldl clean_segment acc l = acc ++ l.
Proof.
  intros Hl. revert acc. induction Hl as [|s l (H1 & H2 & H3 & _) _ IH]; intros acc; simpl; [by rewrite app_nil_r|].
  rewrite IH. unfold clean_segment. rewrite decide_False by naive_solver. rewrite decide_False by done.
  by rewrite <-app_assoc.
Qed.

Lemma Split_rooted segs : Forall plain_segment segs → segs ≠ [] → Split "/" ("/" +:+ Join segs "/") = "" :: segs.
Proof.
  intros Hs Hn. change ("/" +:+ Join segs "/") with ("" +:+ String "/" (Join segs "/")).
  rewrite Split_app by done. f_equal. apply Split_Join; [done|].
  eapply Forall_impl; [exact Hs|]. by intros s (_ & _ & _ & ?).
Qed.

Lemma rooted_last segs x : ∃ a, "/" +:+ Join (segs ++ [x]) "/" = a +:+ String "/" x.
Proof.
  induction segs as [|y segs [a IH]]; [by exists ""|]. exists ("/" +:+ y +:+ a).
  rewrite <-app_comm_cons, Join_cons by by destruct segs.
  change ("/" +:+ y +:+ ("/" +:+ Join (segs ++ [x]) "/") = ("/" +:+ y +:+ a) +:+ String "/" x).
  by rewrite IH, !app_assoc_str.
Qed.

Lemma suffix_slash a : HasSlashSuffix (a +:+ "/") = true.
Proof.
  unfold HasSlashSuffix. rewrite LastIndex_app by done. rewrite length_app_string. simpl.
  apply bool_decide_eq_true. lia.
Qed.

Lemma suffix_plain segs : Forall plain_segment segs → segs ≠ [] → HasSlashSuffix ("/" +:+ Join segs "/") = false.
Proof.
  intros Hs Hn. destruct (exists_last Hn) as (l & x & ->). destruct (rooted_last l x) as [a ->].
  apply Forall_app in Hs as [_ (H1 & _ & _ & Hx)%Forall_singleton].
  unfold HasSlashSuffix. rewrite LastIndex_app by done. rewrite length_app_string. simpl.
  apply bool_decide_eq_false. destruct x; simpl; [done|lia].
Qed.

(** The two shapes of a clean path. *)
Definition clean_form (p : string) : Prop :=
  ∃ segs, Forall plain_segment segs
  ∧ (p = "/" +:+ Join segs "/" ∨ segs ≠ [] ∧ p = ("/" +:+ Join segs "/") +:+ "/").

Lemma cleanPath_form p : clean_form (cleanPath p).
Proof.
  unfold cleanPath. case_decide; [by exists []; split; [done|left]|].
  set (q := if HasPrefix p "/" then p else "/" +:+ p).
  pose proof (clean_fold_plain (Split "/" q) [] (Forall_nil_2 _) (Split_parts "/" q)) as Hs.
  exists (foldl clean_segment [] (Split "/" q)). split; [done|].
  destruct (HasSlashSuffix q); simpl; [|by left]. case_bool_decide as He; simpl; [by left|].
  right. split; [|done]. intros E. by rewrite E in He.
Qed.

Lemma cleanPath_fix p : clean_form p → cleanPath p = p.
Proof.
  intros (segs & Hs & Hp). destruct (decide (segs = [])) as [->|Hn]; [by destruct Hp as [->|[? _]]|].
  unfold cleanPath. destruct Hp as [->|[_ ->]].
  - rewrite decide_False by done. rewrite (HasPrefix_app "/" (Join segs "/")), Split_rooted by done. simpl.
    rewrite clean_fold_id by done. simpl. change (String "/" (Join segs "/")) with ("/" +:+ Join segs "/").
    by rewrite suffix_plain.
  - rewrite decide_False by done. rewrite <-app_assoc_str.
    rewrite (HasPrefix_app "/" (Join segs "/" +:+ "/")).
    assert (Split "/" ("/" +:+ Join segs "/" +:+ "/") = "" :: segs ++ [""]) as ->.
    { change ("/" +:+ Join segs "/" +:+ "/") with ("" +:+ String "/" (Join segs "/" +:+ "/")).
      rewrite Split_app by done. f_equal.
      assert (Join segs "/" +:+ "/" = Join (segs ++ [""]) "/") as ->.
      { clear Hs. induction segs as [|x segs IH]; [done|]. destruct segs as [|y segs]; [done|].
        change ((x :: y :: segs) ++ [""]) with (x :: (y :: segs) ++ [""]).
        rewrite (Join_cons x (y :: segs)), (Join_cons x ((y :: segs) ++ [""])) by done. rewrite <-IH by done. by rewrite !app_assoc_str. }
      apply Split_Join; [by destruct segs|]. apply Forall_app_2; [|repeat constructor; by apply no_char_nil].
      eapply Forall_impl; [exact Hs|]. by intros s (_ & _ & _ & ?). }
    simpl. rewrite foldl_app, (clean_fold_id segs) by done. simpl.
    replace (String "/" (Join segs "/" +:+ "/")) with (("/" +:+ Join segs "/") +:+ "/") by done.
    rewrite suffix_slash. simpl. rewrite bool_decide_false; [done|].
    destruct segs as [|x segs]; [done|]. inversion Hs as [|? ? (H1 & _)]; subst.
    destruct x as [|c x]; [done|]. simpl. by destruct segs.
Qed.

Lemma cleanPath_idempotent p : cleanPath (cleanPath p) = cleanPath p.
Proof. apply cleanPath_fix, cleanPath_form. Qed.

(** *** The muxes *)

(** What a client gets from a mux. *)
Definition http_get {S} (m : mux S) (s : S) (u : URL) : res string :=
  (λ w, resp_Body (sent w)) <$> fst (ServeHTTP m (mkRequest "GET" (Host u) "" u ∅ "") NewWriter s).

Lemma interceptor_admin_routes {W} (getter : W → string → res ConfigMap) dj sc tc v :
  ∃ m, interceptor_admin getter dj sc tc v = Ok m
  ∧ Forall (λ ph, ph.1 = routingPingPath ∨ pure_handler ph.2) m
  ∧ route m countsPath = Some (λ _ rw s, (sizeHandler (is_queue s) rw, s))
  ∧ route m routingPingPath = Some (λ _ rw s,
      let '(r, (t, q)) := pingHandler (getter (is_world s)) (is_table s) (is_queue s) rw in
      (r, mkIState q t (is_world s))).
Proof.
  eexists. split_and!; [reflexivity| |reflexivity|reflexivity].
  repeat apply Forall_cons_2; simpl; try (by left); try (right; by intros ? ? ?).
  right. intros r rw s. unfold deploymentsHandler. by destruct (dj (is_world s)).
Qed.

Lemma scaler_admin_ok {W} (fn : GetEndpointsFunc W) get Now cfg v : is_ok (scaler_admin fn get Now cfg v) = true.
Proof. reflexivity. Qed.

Lemma operator_admin_ok b i e v : is_ok (operator_admin b i e v) = true.
Proof. reflexivity. Qed.

(** The counts, as the scaler's client gets them. *)
Lemma http_get_counts {W} (getter : W → string → res ConfigMap) dj sc tc v m s u :
  interceptor_admin getter dj sc tc v = Ok m →
  http_get m s (counts_url u) = (λ w, resp_Body (sent w)) <$> sizeHandler (is_queue s) NewWriter.
Proof.
  intros Hm. destruct (interceptor_admin_routes getter dj sc tc v) as (m' & E & _ & Hq & _).
  assert (m' = m) as -> by congruence. unfold http_get. rewrite ServeHTTP_clean by done. simpl. by rewrite Hq.
Qed.

(** A request changes nothing unless it is a ping, and that the table only. *)
Lemma admin_request {W} (getter : W → string → res ConfigMap) dj sc tc v m s r rw :
  interceptor_admin getter dj sc tc v = Ok m →
  let s' := snd (ServeHTTP m r rw s) in
  s' = s ∨ (Path (req_URL r) = routingPingPath ∧ is_queue s' = is_queue s ∧ is_world s' = is_world s
            ∧ FetchTableFromConfigMap <$> getter (is_world s) ConfigMapRoutingTableName = Ok (Ok (is_table s'))).
Proof.
  intros Hm. destruct (interceptor_admin_routes getter dj sc tc v) as (m' & E & Hp & _ & Hr).
  assert (m' = m) as -> by congruence.
  destruct (decide (Path (req_URL r) = routingPingPath)) as [Hpath|Hn]; [|left; by eapply ServeHTTP_pure].
  simpl. rewrite ServeHTTP_clean by (by rewrite Hpath). rewrite Hpath, Hr. unfold pingHandler, GetTable.
  destruct (getter (is_world s) ConfigMapRoutingTableName) as [cm|e|p]; [|left; by destruct s..].
  simpl. destruct (FetchTableFromConfigMap cm) as [t|e|p]; [|left; by destruct s..].
  right. simpl. unfold Replace. by destruct t.
Qed.

(** ** Properties *)

(** C25: safety. The interceptor's admin server: registering its routes does not
    panic; a request changes nothing in the process unless it is for
    [/routing_ping], and that changes the routing table at most, to the one
    fetched from the ConfigMap; a clean path is answered by its handler or 404,
    and what an unclean one is redirected to is clean; and the scaler's
    [GetCounts] gets the counts of the queue. *)
Theorem interceptor_admin_spec {W} (getter : W → string → res ConfigMap) dj sc tc v (s : interceptor_state W) :
  ∃ m, interceptor_admin getter dj sc tc v = Ok m
  ∧ (∀ r rw, let s' := snd (ServeHTTP m r rw s) in
       s' = s ∨ (Path (req_URL r) = routingPingPath ∧ is_queue s' = is_queue s ∧ is_world s' = is_world s
                 ∧ FetchTableFromConfigMap <$> getter (is_world s) ConfigMapRoutingTableName = Ok (Ok (is_table s'))))
  ∧ (∀ r rw, Path (req_URL r) = cleanPath (Path (req_URL r)) →
       ServeHTTP m r rw s = match route m (Path (req_URL r)) with
                            | Some h => h r rw s
                            | None => (Ok (NotFound rw), s)
                            end)
  ∧ (∀ p, cleanPath (cleanPath p) = cleanPath p)
  ∧ (counts_ok (countMap (is_queue s)) → ∀ u, GetCounts (http_get m s) u = Ok (countMap (is_queue s))).
Proof.
  destruct (interceptor_admin_routes getter dj sc tc v) as (m & E & _).
  exists m. split_and!; [done| | |apply cleanPath_idempotent|].
  - intros r rw. by eapply admin_request.
  - intros r rw Hc. by apply ServeHTTP_clean.
  - intros Hok u. apply GetCounts_served; [done|]. by eapply http_get_counts.
Qed.
