(* ===== verification/TestSupport.v ===== *)
(** * Support for tests (pkg/net/mock_server.go, pkg/http/test_utils.go, pkg/test/round_trip.go, scaler/queue_pinger_fake.go)

    The recording handler, the fake interceptor and the pinger the scaler's
    tests run against it. The theorem says that the tests see what the scaler
    would: a pinger on [n] fake endpoints counts every request [n] times. *)

From S2P Require Import Prelude GoStrings GoUrl Json Http Queue QueueRpc CountProtocol Routing ConfigMaps Net Config K8s Forward Interceptor Pinger Scaler Admin.

(** ** pkg/net/mock_server.go *)

(** A request is logged after its handler has returned; one whose handler
    panics is not. *)
Definition TestHTTPHandlerWrapper_ServeHTTP {S} (hdl : Handler S) : Handler (S * list Request) := λ r rw '(s, incoming),
  match hdl r rw s with
  | (Panic p, s) => (Panic p, (s, incoming))
  | (x, s) => (x, (s, incoming ++ [r]))
  end.

Definition NewTestHTTPHandlerWrapper {S} (hdl : Handler S) (s : S) : Handler (S * list Request) * (S * list Request) :=
  (TestHTTPHandlerWrapper_ServeHTTP hdl, (s, [])).

Definition IncomingRequests {S} (t : S * list Request) : list Request := snd t.

(** [StartTestServer]: [srvURL] is the URL [httptest.NewServer] chose. *)
Definition StartTestServer {S} (hdl : mux S) (srvURL : string) : res (mux S * URL) :=
  u ← url_Parse srvURL;
  Ok (hdl, u).

(** ** pkg/http/test_utils.go *)

(** [httptest.NewRequest] parses its target, and panics when it cannot; the
    remote address is the example one. *)
Definition NewTestCtx (parse_target : string → res URL) (method path : string) : res (Request * ResponseWriter) :=
  match parse_target path with
  | Ok u => Ok (mkRequest method (if decide (Host u = "") then "example.com" else Host u) "192.0.2.1:1234" u ∅ "", NewWriter)
  | Err e => Panic ("invalid NewRequest arguments; " +:+ Error_string e)
  | Panic p => Panic p
  end.

(** ** pkg/test/round_trip.go *)

Definition JSONRoundTrip {A B} (Marshal : A → res string) (Unmarshal : string → B → res unit * B) (src : A) (target : B) :
    res unit * B :=
  match Marshal src with
  | Ok srcBytes => Unmarshal srcBytes target
  | Err e => (Err e, target)
  | Panic p => (Panic p, target)
  end.

(** ** scaler/queue_pinger_fake.go *)

Definition startFakeQueueEndpointServer `{CountReader Q} {S} (svcName : string) (q : S → Q) (numEndpoints : Z) (srvURL : string) :
    res (mux S * URL * Endpoints) :=
  hdl ← AddCountsRoute q [];
  '(srv, u) ← StartTestServer hdl srvURL;
  endpoints ← FakeEndpointsForURL u "testns" svcName numEndpoints;
  Ok (srv, u, endpoints).

Record fakeQueuePingerOpts : Type := mkOpts {
  opt_endpoints : Endpoints;
  opt_tickDur : Duration;
  opt_port : string;
}.

Definition newFakeQueuePinger {W} (get : W → URL → res string) (Now : W → Time)
    (optsFuncs : list (fakeQueuePingerOpts → fakeQueuePingerOpts)) : ST W queuePinger := λ w,
  let opts := foldl (λ o f, f o) (mkOpts (mkEndpoints "" "" []) Second "8080") optsFuncs in
  if decide (opt_tickDur opts ≤ 0) then (Panic "non-positive interval for NewTicker", w)
  else
    match newQueuePinger (λ _ _ w, (Ok (opt_endpoints opts), w)) get Now "testns" "testsvc" "testdepl" (opt_port opts) w with
    | (Ok _, (pinger, w)) => (Ok pinger, w)
    | (Err e, (_, w)) => (Err e, w)
    | (Panic p, (_, w)) => (Panic p, w)
    end.

(** ** Lemmas *)

(** The address [httptest] gives a server that listens on port [k]. *)
Definition local_url (k : Z) : URL := mkURL "http" "" None ("127.0.0.1:" +:+ Itoa k) "" "" "".

Section local.
Context (k : Z) (Hk : 0 < k < 65536).

Lemma local_digits : str_all is_digit (Itoa k) = true.
Proof. unfold Itoa. rewrite decide_False by lia. apply digits_all_digits. Qed.

Lemma local_parse : url_Parse ("http://127.0.0.1:" +:+ Itoa k) = Ok (local_url k).
Proof. exact (address_url_parse (mkAddress "127.0.0.1" "127.0.0.1") (Itoa k) ltac:(done) local_digits). Qed.

Lemma local_split : splitHostPort (Host (local_url k)) = ("127.0.0.1", Itoa k).
Proof.
  unfold splitHostPort. change (Host (local_url k)) with ("127.0.0.1" +:+ String ":" (Itoa k)).
  rewrite LastIndex_app by (by apply Itoa_no_char).
  rewrite str_drop_app. cbn [validOptionalPort]. rewrite local_digits.
  by rewrite str_take_app, str_drop_S_app.
Qed.

Lemma local_endpoints ns name n :
  0 ≤ n → FakeEndpointsForURL (local_url k) ns name n
  = Ok (mkEndpoints ns name [mkSubset (replicate (Z.to_nat n) (mkAddress "127.0.0.1" "127.0.0.1")) (replicate (Z.to_nat n) k)]).
Proof.
  intros Hn. unfold FakeEndpointsForURL, FakeEndpointsForURLs. rewrite decide_False by lia.
  assert (∀ m, fake_addresses (replicate m (local_url k)) = Ok (replicate m (mkAddress "127.0.0.1" "127.0.0.1", k))) as ->.
  { induction m as [|m IH]; [done|]. cbn [replicate fake_addresses]. rewrite IH. unfold URL_Port, Hostname. rewrite local_split.
    unfold Atoi. simpl snd. rewrite ParseInt_Itoa by (simpl; lia). cbn [mbind res_bind fst].
    rewrite int32_id; [done|]. unfold in_int32. lia. }
  cbn [mbind res_bind]. by rewrite !fmap_replicate.
Qed.
End local.

Lemma fetch_all_replicate get u m n :
  GetCounts get u = Ok m → fetch_all get (replicate n u) = Ok (replicate n m).
Proof. intros Hg. induction n as [|n IH]; [done|]. simpl. rewrite Hg. simpl. by rewrite IH. Qed.

Lemma host_total_replicate m h n : host_total (replicate n m) h = Z.of_nat n * count_of m h.
Proof.
  induction n as [|n IH]; [done|]. rewrite replicate_S, host_total_cons, IH. lia.
Qed.

(** ** Properties *)

(** The fake interceptor: a pinger built with the endpoints and
    the port of a fake server that shows a queue at [n] endpoints has, for every
    host, [n] times the host's count. *)
Theorem fake_pinger_counts {S W} (svcName : string) (q : S → Memory) (s : S) (n k : Z) (Now : W → Time) (w : W) :
  0 < k < 65536 → 0 ≤ n → counts_ok (countMap (q s)) →
  ∃ srv u endpoints, startFakeQueueEndpointServer svcName q n ("http://127.0.0.1:" +:+ Itoa k) = Ok (srv, u, endpoints)
  ∧ ∃ p, newFakeQueuePinger (λ _, http_get srv s) Now
           [λ o, mkOpts endpoints (opt_tickDur o) (opt_port o); λ o, mkOpts (opt_endpoints o) (opt_tickDur o) (URL_Port u)] w
         = (Ok p, w)
    ∧ ∀ h, count_of (counts p) h = int64 (n * Count h (q s)).
Proof.
  intros Hk Hn Hok. unfold startFakeQueueEndpointServer, StartTestServer. cbn [AddCountsRoute mbind res_bind].
  change (AddCountsRoute q []) with (Ok [(countsPath, λ (_ : Request) rw (x : S), (sizeHandler (q x) rw, x))]).
  cbn [mbind res_bind]. rewrite local_parse by done. cbn [mbind res_bind]. rewrite (local_endpoints k Hk) by done. cbn [mbind res_bind].
  eexists _, _, _. split; [done|]. set (srv := [_]).
  unfold newFakeQueuePinger. cbn [foldl opt_tickDur opt_endpoints opt_port]. rewrite decide_False by (intros Hle; by apply Hle).
  unfold URL_Port. rewrite (local_split k Hk). cbn [snd].
  unfold newQueuePinger, fetchAndSaveCounts, fetchCounts, EndpointsForService. cbn [Subsets interceptorNS interceptorSvcName adminPort].
  rewrite subset_urls_ok; [|repeat constructor; by apply Forall_replicate|by apply local_digits].
  cbn [mbind list_bind sub_Addresses]. rewrite app_nil_r, fmap_replicate. cbn [addr_IP].
  change (mkURL "http" "" None ("127.0.0.1" +:+ ":" +:+ Itoa k) "" "" "") with (local_url k).
  rewrite (fetch_all_replicate _ _ (countMap (q s))).
  - cbn [fmap res_fmap]. destruct (sum_counts _) as [total agg] eqn:Es. eexists. split; [done|]. intros h. cbn [counts allCounts].
    pose proof (proj1 (sum_counts_spec (replicate (Z.to_nat n) (countMap (q s)))) h) as Hh. rewrite Es in Hh. simpl in Hh.
    unfold count_of at 1. rewrite Hh.
    assert (n * Count h (q s) = host_total (replicate (Z.to_nat n) (countMap (q s))) h) as ->.
    { rewrite host_total_replicate, Z2Nat.id by done. unfold Count, count_of. by destruct (countMap (q s) !! h). }
    case_decide as He; simpl; [done|]. by rewrite (host_total_absent _ _ He).
  - apply GetCounts_served; [done|]. unfold http_get. by rewrite ServeHTTP_clean.
Qed.

Lemma fake_pinger_counts_witness :
  ∃ p endpoints, newFakeQueuePinger (λ _, http_get [(countsPath, λ (_ : Request) rw (x : unit), (sizeHandler demo_queue rw, x))] tt)
      (λ _, 0) [λ o, mkOpts endpoints (opt_tickDur o) (opt_port o); λ o, mkOpts (opt_endpoints o) (opt_tickDur o) "9090"] tt
    = (Ok p, tt)
  ∧ count_of (counts p) "app.dp-1" = 6.
Proof.
  destruct (fake_pinger_counts "testsvc" (λ _ : unit, demo_queue) tt 2 9090 (λ _, 0) tt ltac:(lia) ltac:(lia) counts_ok_demo)
    as (srv & u & endpoints & Hs & p & Hp & Hc).
  vm_compute in Hs. injection Hs as <- <- <-. eexists p, _. split; [exact Hp|]. rewrite Hc. by vm_compute.
Defined.
