(* ===== verification/Supervise.v ===== *)
(** * Supervision of a process (the second half of the three main functions; pkg/http/server.go)

    Each main function starts its long-running parts with [errGrp.Go], each of
    them with a deferred call that cancels the shared context, and ends in
    [errGrp.Wait()]. This file is that pattern as a transition system, over any
    set of tasks; the three processes are instances of it.

    [golang.org/x/sync/errgroup] is not part of the repository: it is the class
    [Errgroup], whose laws are its documentation. *)

From S2P Require Import Prelude GoStrings Http ConfigMaps.

(** ** errgroup *)

(** A group made by [WithContext], in which [Go] has been called [n] times;
    one of the functions returning; whether the group's context is done; and
    what [Wait] returns, unless it blocks. *)
Class Errgroup (G : Type) : Type := {
  eg_Go : nat → G;
  eg_return : option error → G → G;
  eg_done : G → bool;
  eg_Wait : G → option (option error);
}.

(** The group after functions have returned [rs], in this order. *)
Definition eg_run `{Errgroup G} (n : nat) (rs : list (option error)) : G :=
  foldl (λ g r, eg_return r g) (eg_Go n) rs.

(** The first error among what the functions returned. *)
Definition first_of (rs : list (option error)) : option error := head (omap id rs).

Class ErrgroupLaws (G : Type) `{Errgroup G} : Prop := {
  Wait_blocks n rs : (length rs < n)%nat → eg_Wait (eg_run n rs) = None;
  Wait_first n rs : length rs = n → eg_Wait (eg_run n rs) = Some (first_of rs);
  done_on_error n rs : (length rs < n)%nat → eg_done (eg_run n rs) = true ↔ is_Some (first_of rs);
}.

(** A group with a counter and a slot for the error. *)
Record simple_group : Type := mkGroup { g_left : nat; g_err : option error }.

#[export] Instance simple_errgroup : Errgroup simple_group := {
  eg_Go n := mkGroup n None;
  eg_return r g := mkGroup (Nat.pred (g_left g)) (match g_err g with Some e => Some e | None => r end);
  eg_done g := if g_err g is Some _ then true else false;
  eg_Wait g := if decide (g_left g = 0%nat) then Some (g_err g) else None;
}.

Lemma first_of_app rs r : first_of (rs ++ [r]) = match first_of rs with Some e => Some e | None => r end.
Proof. unfold first_of. rewrite omap_app. destruct (omap id rs); [|done]. by destruct r. Qed.

Lemma simple_run n rs : eg_run n rs = mkGroup (n - length rs) (first_of rs).
Proof.
  induction rs as [|r rs IH] using rev_ind; [by rewrite Nat.sub_0_r|].
  unfold eg_run in *. rewrite foldl_app, IH. simpl. rewrite first_of_app, length_app. simpl.
  f_equal. lia.
Qed.

#[export] Instance simple_laws : ErrgroupLaws simple_group.
Proof.
  split; intros n rs Hn; rewrite simple_run; simpl.
  - by rewrite decide_False by lia.
  - by rewrite decide_True by lia.
  - destruct (first_of rs); simpl; split; naive_solver.
Qed.

(** ** ServeContext *)

Definition ErrServerClosed : error := Errorf "http: Server closed".

(** [ListenAndServe] returns what the listener reports ([listen]: it could not
    be opened, or [Accept] failed for good), or, once the goroutine beside it
    has called [Shutdown] because the context is done, [ErrServerClosed]. *)
Definition ServeContext (listen : option error) (ctx_done : bool) : loop unit :=
  match listen with
  | Some e => Returned (Err e)
  | None => if ctx_done then Returned (Err ErrServerClosed) else Waiting
  end.

(** [Shutdown(ctx)] with [open] connections that are not idle: it returns the
    context's error when the context is done before they are idle. The handler
    passes the context whose end made it call [Shutdown]. *)
Definition Shutdown (ctx_done : bool) (open : nat) : loop unit :=
  if decide (open = 0%nat) then Returned (Ok tt)
  else if ctx_done then Returned (Err ContextCanceled) else Waiting.

(** ** Processes *)

Inductive status : Type :=
| Up
| Exited (code : Z) (waitErr : option error)
| Crashed (panic : string).

Record process (T G S : Type) : Type := mkProcess {
  p_state : S;
  (** the tasks whose functions have not ended, and what the others ended with,
      in this order *)
  p_running : list T;
  p_ended : list (T * option error);
  (** those of them whose result has reached the group, in this order *)
  p_returned : list (T * option error);
  p_group : G;
  (** the deferred cancel function has been called, or a signal received *)
  p_cancelled : bool;
  p_status : status;
}.
Arguments mkProcess {T G S}.
Arguments p_state {T G S}.
Arguments p_running {T G S}.
Arguments p_ended {T G S}.
Arguments p_returned {T G S}.
Arguments p_group {T G S}.
Arguments p_cancelled {T G S}.
Arguments p_status {T G S}.

Definition err_of (r : res unit) : option error := if r is Err e then Some e else None.

Section process.
Context {T S : Type} `{EqDecision T} `{Errgroup G}.
(** What a task can do next in a shared state, its context done or not: carry
    on or return. *)
Context (work : T → bool → S → loop unit → S → Prop).
(** What goroutines outside the group do. *)
Context (background : S → S → Prop).
(** Whether the context ends on SIGTERM, and the exit status after [Wait]. *)
Context (signals : bool) (code : Z).

Definition ctx_done (p : process T G S) : bool := p_cancelled p || eg_done (p_group p).

Definition with_state (s : S) (p : process T G S) : process T G S :=
  mkProcess s (p_running p) (p_ended p) (p_returned p) (p_group p) (p_cancelled p) (p_status p).

(** The deferred cancel function runs before the task's function has returned to
    the group ([p_return]), and the group records the result after that
    ([p_record]): another task can see the context done and be recorded first. *)
Inductive pstep : process T G S → process T G S → Prop :=
| p_work p t s :
    p_status p = Up → t ∈ p_running p → work t (ctx_done p) (p_state p) Waiting s →
    pstep p (with_state s p)
| p_return p t r s :
    p_status p = Up → t ∈ p_running p → work t (ctx_done p) (p_state p) (Returned r) s →
    is_panic r = false →
    pstep p (mkProcess s (list_difference (p_running p) [t]) (p_ended p ++ [(t, err_of r)]) (p_returned p)
               (p_group p) true Up)
| p_record p t r :
    p_status p = Up → (t, r) ∈ p_ended p → t ∉ (p_returned p).*1 →
    pstep p (mkProcess (p_state p) (p_running p) (p_ended p) (p_returned p ++ [(t, r)])
               (eg_return r (p_group p)) (p_cancelled p) Up)
| p_crash p t m s :
    p_status p = Up → t ∈ p_running p → work t (ctx_done p) (p_state p) (Returned (Panic m)) s →
    pstep p (mkProcess s (p_running p) (p_ended p) (p_returned p) (p_group p) (p_cancelled p) (Crashed m))
| p_background p s :
    p_status p = Up → background (p_state p) s → pstep p (with_state s p)
| p_signal p :
    p_status p = Up → signals = true →
    pstep p (mkProcess (p_state p) (p_running p) (p_ended p) (p_returned p) (p_group p) true Up)
| p_exit p e :
    p_status p = Up → eg_Wait (p_group p) = Some e →
    pstep p (mkProcess (p_state p) (p_running p) (p_ended p) (p_returned p) (p_group p) (p_cancelled p) (Exited code e)).

Definition launch (tasks : list T) (s : S) : process T G S :=
  mkProcess s tasks [] [] (eg_Go (length tasks)) false Up.
End process.

(** ** Lemmas *)

Lemma returns_one `{EqDecision T} (l : list T) t : NoDup l → t ∈ l → t :: list_difference l [t] ≡ₚ l.
Proof.
  intros Hnd Ht. apply NoDup_Permutation; [|done|].
  - apply NoDup_cons. split; [|by apply NoDup_list_difference]. rewrite list_elem_of_difference. set_solver.
  - intros x. rewrite elem_of_cons, list_elem_of_difference, list_elem_of_singleton.
    destruct (decide (x = t)) as [->|]; naive_solver.
Qed.

Section lemmas.
Context {T S : Type} `{EqDecision T} `{ErrgroupLaws G}.
Context (work : T → bool → S → loop unit → S → Prop) (background : S → S → Prop) (signals : bool) (code : Z).
Context (tasks : list T).
Implicit Types p : process T G S.

#[local] Abbreviation pstep := (pstep work background signals code).

(** What holds of the bookkeeping in every reachable state. *)
Record supervised p : Prop := {
  sup_tasks : p_running p ++ (p_ended p).*1 ≡ₚ tasks;
  sup_recorded : p_returned p ⊆ p_ended p;
  sup_once : NoDup (p_returned p).*1;
  sup_group : p_group p = eg_run (length tasks) (p_returned p).*2;
  sup_cancelled : p_ended p ≠ [] → p_cancelled p = true;
  sup_cause : signals = false → p_cancelled p = true → p_ended p ≠ [];
  sup_status : ∀ c e, p_status p = Exited c e →
    c = code ∧ p_running p = [] ∧ (p_returned p).*1 ≡ₚ tasks ∧ e = first_of (p_returned p).*2;
}.

Lemma supervised_launch s : supervised (launch tasks s).
Proof. split; simpl; [by rewrite app_nil_r|done|by apply NoDup_nil|done..]. Qed.

Lemma supervised_length p :
  supervised p → (length (p_running p) + length (p_ended p) = length tasks)%nat.
Proof.
  intros Hp. pose proof (Permutation_length (sup_tasks _ Hp)) as Hl.
  by rewrite length_app, length_fmap in Hl.
Qed.

Lemma recorded_tasks p : supervised p → (p_returned p).*1 ⊆ (p_ended p).*1.
Proof.
  intros Hp t (x & -> & Hx)%list_elem_of_fmap. apply list_elem_of_fmap. exists x. split; [done|by apply (sup_recorded _ Hp)].
Qed.

Lemma recorded_length p : supervised p → (length (p_returned p) ≤ length (p_ended p))%nat.
Proof.
  intros Hp. rewrite <-(length_fmap fst (p_returned p)), <-(length_fmap fst (p_ended p)).
  apply submseteq_length, NoDup_submseteq; [apply Hp|]. intros t. by apply recorded_tasks.
Qed.

Lemma supervised_Wait p e :
  supervised p → eg_Wait (p_group p) = Some e →
  p_running p = [] ∧ (p_returned p).*1 ≡ₚ tasks ∧ e = first_of (p_returned p).*2.
Proof.
  intros Hp Hw. pose proof (supervised_length p Hp). pose proof (recorded_length p Hp). rewrite (sup_group _ Hp) in Hw.
  destruct (decide (length (p_returned p) = length tasks)) as [Hl|Hl].
  - rewrite Wait_first in Hw by (by rewrite length_fmap). assert (p_running p = []) as Hr by (apply length_zero_iff_nil; lia).
    split_and!; [done| |congruence]. rewrite <-(sup_tasks _ Hp), Hr. simpl.
    apply submseteq_length_Permutation; [|rewrite !length_fmap; lia].
    apply NoDup_submseteq; [apply Hp|]. intros t. by apply recorded_tasks.
  - rewrite Wait_blocks in Hw by (rewrite length_fmap; lia). done.
Qed.

Context (tasks_nodup : NoDup tasks).

Lemma running_nodup p : supervised p → NoDup (p_running p).
Proof.
  intros Hp. pose proof tasks_nodup as Hn. rewrite <-(sup_tasks _ Hp) in Hn. by apply NoDup_app in Hn as [? _].
Qed.

Lemma supervised_step p p' : supervised p → pstep p p' → supervised p'.
Proof.
  intros Hp Hstep. inversion Hstep as [? t s Hup Ht Hw|? t r s Hup Ht Hw Hr|? t r Hup Ht Hn|? t m s Hup Ht Hw|? s Hup Hb|? Hup Hs|? e Hup Hw]; subst;
    try (by destruct Hp; split; simpl; try congruence).
  - pose proof (running_nodup p Hp). destruct Hp as [Hta Hsub Hon Hg Hc Hca Hst]. split; simpl; try done.
    + rewrite fmap_app. simpl. rewrite (Permutation_app_comm (p_ended p).*1), app_assoc.
      rewrite (Permutation_app_comm _ [t]). simpl. rewrite <-Hta. by rewrite <-(returns_one (p_running p) t) at 2.
    + set_solver.
    + intros _ _ Hn. by apply app_eq_nil in Hn as [_ ?].
  - destruct Hp as [Hta Hsub Hon Hg Hc Hca Hst]. split; simpl; try done.
    + set_solver.
    + rewrite fmap_app. apply NoDup_app. split_and!; [done| |apply NoDup_singleton]. simpl. set_solver.
    + rewrite Hg. unfold eg_run. by rewrite fmap_app, foldl_app.
  - pose proof (supervised_Wait p e Hp Hw) as (Hr & Hret & He). destruct Hp. split; simpl; try done.
    intros c e' [= <- <-]. done.
Qed.

Lemma supervised_rtc p p' : supervised p → rtc pstep p p' → supervised p'.
Proof. intros Hp Hr. induction Hr; [done|]. eauto using supervised_step. Qed.

Lemma supervised_reach s p : rtc pstep (launch tasks s) p → supervised p.
Proof. apply supervised_rtc, supervised_launch. Qed.

(** An invariant of the shared state. *)
Lemma process_invariant (I : S → Prop) p p' :
  (∀ t c s l s', I s → work t c s l s' → I s') → (∀ s s', I s → background s s' → I s') →
  I (p_state p) → rtc pstep p p' → I (p_state p').
Proof.
  intros Hw Hb Hi Hr. induction Hr as [|p p1 p2 Hs _ IH]; [done|]. apply IH.
  inversion Hs; subst; simpl; eauto.
Qed.

(** All tasks have ended: the group gets to know of those it does not know of,
    and the process ends. *)
Lemma records_to_exit p :
  supervised p → p_status p = Up → p_running p = [] →
  ∃ p' e, nsteps pstep (Datatypes.S (length tasks - length (p_returned p))) p p'
  ∧ p_status p' = Exited code e ∧ p_state p' = p_state p.
Proof.
  remember (length tasks - length (p_returned p))%nat as n eqn:Hn. revert p Hn.
  induction n as [|n IH]; intros p Hn Hp Hup Hrun; pose proof (supervised_length p Hp) as Hl; pose proof (recorded_length p Hp);
    rewrite Hrun in Hl; simpl in Hl.
  - assert (eg_Wait (p_group p) = Some (first_of (p_returned p).*2)) as Hw.
    { rewrite (sup_group _ Hp). apply Wait_first. rewrite length_fmap. lia. }
    eexists _, _. split; [apply nsteps_once; by eapply p_exit|done].
  - assert (∃ t r, (t, r) ∈ p_ended p ∧ t ∉ (p_returned p).*1) as (t & r & Ht & Hnt).
    { destruct (decide (Exists (λ x, x.1 ∉ (p_returned p).*1) (p_ended p))) as [He|He].
      - apply Exists_exists in He as ([t r] & ? & ?). by exists t, r.
      - exfalso. assert (length (p_ended p).*1 ≤ length (p_returned p).*1)%nat as Hle.
        { apply submseteq_length, NoDup_submseteq.
          - pose proof tasks_nodup as Hnd. rewrite <-(sup_tasks _ Hp), Hrun in Hnd. done.
          - intros t (x & -> & Hx)%list_elem_of_fmap. destruct (decide (x.1 ∈ (p_returned p).*1)) as [|Hx']; [done|].
            destruct He. apply Exists_exists. by exists x. }
        rewrite !length_fmap in Hle. lia. }
    set (p1 := mkProcess (p_state p) (p_running p) (p_ended p) (p_returned p ++ [(t, r)]) (eg_return r (p_group p)) (p_cancelled p) Up).
    assert (pstep p p1) as Hs by (by eapply p_record).
    destruct (IH p1) as (p' & e & Hst & ?); [simpl; rewrite length_app; simpl; lia|by eapply supervised_step|done|done|].
    exists p', e. split; [by eapply nsteps_l|done].
Qed.

(** Once the context is done, a process whose tasks return when it is can be
    brought to its end by their returning, each once; nothing else happens. *)
Lemma process_stops p :
  (∀ t s, t ∈ tasks → ∃ r, is_panic r = false ∧ work t true s (Returned r) s) →
  supervised p → p_status p = Up → ctx_done p = true →
  ∃ p' e, nsteps pstep (length (p_running p) + Datatypes.S (length tasks - length (p_returned p))) p p'
  ∧ p_status p' = Exited code e ∧ p_state p' = p_state p.
Proof.
  intros Hstop. remember (length (p_running p)) as n eqn:Hn. revert p Hn.
  induction n as [|n IH]; intros p Hn Hp Hup Hd.
  - apply records_to_exit; [done|done|by apply length_zero_iff_nil].
  - destruct (p_running p) as [|t l] eqn:El; [done|].
    assert (t ∈ p_running p) as Ht by (rewrite El; left).
    destruct (Hstop t (p_state p)) as (r & Hr & Hw).
    { rewrite <-(sup_tasks _ Hp). set_solver. }
    set (p1 := mkProcess (p_state p) (list_difference (p_running p) [t]) (p_ended p ++ [(t, err_of r)]) (p_returned p)
                 (p_group p) true Up).
    assert (pstep p p1) as Hs by (eapply (p_return _ _ _ _ p t r); [done|done|by rewrite Hd|done]).
    destruct (IH p1) as (p' & e' & Hsteps & Hst); [|by eapply supervised_step|done|done|].
    { simpl. pose proof (Permutation_length (returns_one _ t (running_nodup p Hp) Ht)) as Hl.
      rewrite El in *. simpl in *. lia. }
    exists p', e'. split; [|done]. by eapply nsteps_l.
Qed.

(** What has been returned stays at the front of the log. *)
Lemma returned_prefix p p' : rtc pstep p p' → p_returned p `prefix_of` p_returned p'.
Proof.
  induction 1 as [|p p1 p2 Hs _ IH]; [done|]. etransitivity; [|exact IH].
  inversion Hs; subst; simpl; try done. by apply prefix_app_r.
Qed.

Lemma ended_prefix p p' : rtc pstep p p' → p_ended p `prefix_of` p_ended p'.
Proof.
  induction 1 as [|p p1 p2 Hs _ IH]; [done|]. etransitivity; [|exact IH].
  inversion Hs; subst; simpl; try done. by apply prefix_app_r.
Qed.

(** So the first error does not change. *)
Lemma first_returned e p p' :
  rtc pstep p p' → first_of (p_returned p).*2 = Some e → first_of (p_returned p').*2 = Some e.
Proof.
  intros [l ->]%returned_prefix Hf. unfold first_of in *. rewrite fmap_app, omap_app.
  destruct (omap id (p_returned p).*2); [done|]. exact Hf.
Qed.

(** While no task has ended, and no signal has come, the context is not done,
    and the process does not end. *)
Lemma not_done p :
  signals = false → tasks ≠ [] → supervised p → p_ended p = [] → ctx_done p = false.
Proof.
  intros Hs Hn Hp Hr. unfold ctx_done. destruct (p_cancelled p) eqn:E; [by destruct (sup_cause _ Hp Hs E)|].
  assert (p_returned p = []) as Hret by (apply length_zero_iff_nil; pose proof (recorded_length p Hp); rewrite Hr in *; simpl in *; lia).
  rewrite (sup_group _ Hp), Hret. simpl. apply not_true_is_false. intros Hd.
  apply (done_on_error _ []) in Hd as [? [=]]. destruct tasks; simpl; [done|lia].
Qed.

Lemma process_stays_up p : tasks ≠ [] → supervised p → p_ended p = [] → ∀ c e, p_status p ≠ Exited c e.
Proof.
  intros Hn Hp Hr c e Hs. destruct (sup_status _ Hp _ _ Hs) as (_ & Hrun & _).
  pose proof (sup_tasks _ Hp) as Ht. rewrite Hr, Hrun in Ht. simpl in Ht.
  by apply Permutation_nil_l in Ht.
Qed.

(** From then on the context stays done. *)
Lemma stays_done p p' : supervised p → p_ended p ≠ [] → rtc pstep p p' → p_ended p' ≠ [] ∧ ctx_done p' = true.
Proof.
  intros Hp Hn Hr. pose proof (supervised_rtc _ _ Hp Hr) as Hp'. apply ended_prefix in Hr as [l Hl].
  assert (p_ended p' ≠ []) as Hn' by (rewrite Hl; by destruct (p_ended p)). split; [done|].
  unfold ctx_done. by rewrite (sup_cancelled _ Hp' Hn').
Qed.

(** The first task to end did so by itself: its context was not done. *)
Lemma first_end s p t r rest :
  signals = false → tasks ≠ [] → rtc pstep (launch tasks s) p → p_ended p = (t, r) :: rest →
  ∃ p1 x s2, rtc pstep (launch tasks s) p1 ∧ rtc pstep p1 p ∧ p_ended p1 = []
  ∧ work t false (p_state p1) (Returned x) s2 ∧ is_panic x = false ∧ r = err_of x.
Proof.
  intros Hsig Hne Hr0. revert t r rest. pattern p. apply (rtc_ind_r (R := pstep) _ (launch tasks s)); [done| |exact Hr0].
  clear p Hr0. intros p p' Hr Hs IH t r rest.
  pose proof (supervised_reach _ _ Hr) as Hp.
  assert (∀ t' r' l, p_ended p = (t', r') :: l → ∃ p1 x s2, rtc pstep (launch tasks s) p1 ∧ rtc pstep p1 p' ∧ p_ended p1 = []
    ∧ work t' false (p_state p1) (Returned x) s2 ∧ is_panic x = false ∧ r' = err_of x) as IH'.
  { intros t' r' l Hl. destruct (IH t' r' l Hl) as (p1 & x & s2 & ? & ? & ?). exists p1, x, s2. split_and!; [done| |naive_solver..].
    by eapply rtc_r. }
  inversion Hs as [? t' s' Hup Ht Hw|? t' r' s' Hup Ht Hw Hpn| | | | |]; subst; simpl; try exact (IH' t r rest).
  destruct (p_ended p) as [|[t0 r0] l] eqn:E; [|simpl; intros [= -> -> _]; by eapply IH'].
  simpl. intros [= -> <- _]. exists p, r', s'. split_and!; [done|by apply rtc_once|done|by rewrite <-(not_done p)|done|done].
Qed.
End lemmas.
