(* ===== verification/InterceptorProcess.v ===== *)
(** * The interceptor process (main of interceptor/main.go)

    Start-up as a sequence of steps that can end the process, and the running
    process: the four tasks of the group, the requests in flight, the enforcer
    and the admin requests, on one queue and one routing table. *)

From S2P Require Import Prelude GoStrings GoUrl Json Http Queue QueueRpc CountProtocol Routing ConfigMaps Net Config K8s Forward Interceptor Pinger Scaler Admin Supervise.

(** ** Start-up *)

(** [MustProcess] of envconfig panics on the error of [Process], and a panic
    ends a Go program with status 2. *)
Definition MustProcess {A} (process : res A) : res A :=
  match process with Err e => Panic (Error_string e) | r => r end.

Definition MustParseTimeouts (process : res InterceptorConfig.Timeouts) : res InterceptorConfig.Timeouts :=
  MustProcess process.
Definition MustParseServing (process : res InterceptorConfig.Serving) : res InterceptorConfig.Serving :=
  MustProcess process.

(** What the first half of a main function comes to. *)
Inductive startup (A : Type) : Type :=
| Started (a : A)
| Ended (code : Z).
Arguments Started {A}.
Arguments Ended {A}.

#[export] Instance startup_bind : MBind startup := λ A B f m,
  match m with Started a => f a | Ended c => Ended c end.

(** [if err != nil { ...; os.Exit(1) }]. *)
Definition or_exit {A} (m : res A) : startup A :=
  match m with Ok a => Started a | Err _ => Ended 1 | Panic _ => Ended 2 end.

(** The queue with the requests in flight and the enforcer, the routing table,
    and the rest of the world: the API server, the informer's store. *)
Record istate (W : Type) : Type := mkInterceptorState {
  i_sys : sys;
  i_table : Table;
  i_world : W;
}.
Arguments mkInterceptorState {W}.
Arguments i_sys {W}.
Arguments i_table {W}.
Arguments i_world {W}.

Inductive itask : Type := DeployCache | Updater | AdminServer | ProxyServer.

#[export] Instance itask_eq_dec : EqDecision itask.
Proof. solve_decision. Defined.

Definition itasks : list itask := [DeployCache; Updater; AdminServer; ProxyServer].

(** What the tasks meet outside the process: whether the updater's watch can be
    opened, and what the listeners of the two servers report (the port is taken,
    [Accept] fails for good), depending on the world. *)
Record ienv (W : Type) : Type := mkIenv {
  updater_watch : option error;
  listener : W → itask → option error;
}.
Arguments mkIenv {W}.
Arguments updater_watch {W}.
Arguments listener {W}.

(** What the admin server sees of the state. *)
Definition admin_view {W} (s : istate W) : interceptor_state W :=
  mkIState (queue (i_sys s)) (i_table s) (i_world s).

Section main.
Context {W : Type} `{Errgroup G}.
Context (getter : W → string → res ConfigMap) (deployments_json : W → res string) (version : string).

(** Up to the group: logger, configuration, Kubernetes client, queue, first
    routing table. *)
Definition interceptor_main (newZapr : res unit) (timeouts : res InterceptorConfig.Timeouts)
    (serving : res InterceptorConfig.Serving) (inClusterConfig newForConfig : res unit) (w : W) :
    startup (InterceptorConfig.Serving * InterceptorConfig.Timeouts * istate W) :=
  _ ← or_exit newZapr;
  timeoutCfg ← or_exit (MustParseTimeouts timeouts);
  servingCfg ← or_exit (MustParseServing serving);
  _ ← or_exit (InterceptorConfig.Validate servingCfg timeoutCfg);
  _ ← or_exit inClusterConfig;
  _ ← or_exit newForConfig;
  let q := NewMemory (InterceptorConfig.RequestQueueCooldown servingCfg)
             (InterceptorConfig.EnableRequestQueueCooldown servingCfg) in
  let '(r, (routingTable, q)) := GetTable (getter w) NewTable q in
  _ ← or_exit r;
  Started (servingCfg, timeoutCfg, mkInterceptorState (mkSys q ∅ None) routingTable w).

(** ** The tasks *)

Definition ctx_err (ctx_done : bool) : option error := if ctx_done then Some ContextCanceled else None.

(** The ConfigMaps the informer can deliver to the updater. *)
Context (delivers : W → ConfigMap → Prop).

(** What the updater's [select] can receive. *)
Definition receivable (done : bool) (w : W) (i : updater_input) : Prop :=
  match i with
  | ContextDone e => ctx_err done = Some e
  | EventConfigMap cm => delivers w cm
  | EventOther => True
  end.

Context (env : ienv W).

Inductive iwork : itask → bool → istate W → loop unit → istate W → Prop :=
(** an informer runs until its context is done *)
| i_deploy_stopped s :
    iwork DeployCache true s (Returned (depl_Start (ctx_err true))) s
| i_updater_watch done s e :
    updater_watch env = Some e → iwork Updater done s (Returned (Err e)) s
| i_updater done s i l t :
    updater_watch env = None → receivable done (i_world s) i →
    updater_step (W := unit) None i (i_table s) tt = (l, (t, tt)) →
    iwork Updater done s l (mkInterceptorState (i_sys s) t (i_world s))
(** the informer started beside the loop stops first *)
| i_updater_informer s e :
    updater_watch env = None → cm_Start (ctx_err true) = Err e → iwork Updater true s (Returned (Err e)) s
| i_admin done s :
    iwork AdminServer done s (ServeContext (listener env (i_world s) AdminServer) done) s
| i_proxy done s :
    iwork ProxyServer done s (ServeContext (listener env (i_world s) ProxyServer) done) s.

(** ** Everything else that runs *)

Section background.
Context (max_requests : Z) (world : W → W → Prop).
Context (m : mux (interceptor_state W)).

Inductive ibackground : istate W → istate W → Prop :=
| i_count s y :
    step max_requests (i_sys s) y →
    ibackground s (mkInterceptorState y (i_table s) (i_world s))
(** net/http recovers a handler's panic *)
| i_admin_request s r rw v :
    snd (ServeHTTP m r rw (admin_view s)) = v →
    ibackground s (mkInterceptorState (mkSys (is_queue v) (reqs (i_sys s)) (enforcer (i_sys s))) (is_table v) (is_world v))
| i_world_step s w :
    world (i_world s) w → ibackground s (mkInterceptorState (i_sys s) (i_table s) w).
End background.
End main.

(** The requests of the proxy and of the admin server are steps of their own:
    a server that has stopped listening does not wait for them, and they run on
    until the process ends. *)
Definition interceptor_step {W} `{Errgroup G} (delivers : W → ConfigMap → Prop) (env : ienv W) (max_requests : Z) (world : W → W → Prop)
    (m : mux (interceptor_state W)) : process itask G (istate W) → process itask G (istate W) → Prop :=
  pstep (iwork delivers env) (ibackground max_requests world m) false 1.

(** ** Lemmas *)

Section lemmas.
Context {W : Type} `{ErrgroupLaws G}.
Context (getter : W → string → res ConfigMap) (dj : W → res string).
Context (delivers : W → ConfigMap → Prop) (env : ienv W) (max_requests : Z) (world : W → W → Prop).
Context (sc : InterceptorConfig.Serving) (tc : InterceptorConfig.Timeouts) (version : string).
Context (m : mux (interceptor_state W)) (Hm : interceptor_admin getter dj sc tc version = Ok m).
Implicit Types (p : process itask G (istate W)) (s : istate W).

#[local] Abbreviation istep := (interceptor_step delivers env max_requests world m).

Lemma interceptor_main_ok z t c k n (w : W) sc' tc' s :
  interceptor_main getter z t c k n w = Started (sc', tc', s) →
  i_sys s = initial (InterceptorConfig.RequestQueueCooldown sc') (InterceptorConfig.EnableRequestQueueCooldown sc')
  ∧ i_world s = w
  ∧ ∃ cm, getter w ConfigMapRoutingTableName = Ok cm ∧ FetchTableFromConfigMap cm = Ok (i_table s).
Proof.
  unfold interceptor_main, GetTable. intros Hs.
  destruct z as [|?|?], t as [t'|?|?], c as [c'|?|?]; try done. simpl in Hs.
  destruct (InterceptorConfig.Validate c' t'); [|done..]. destruct k, n; try done. simpl in Hs.
  destruct (getter w ConfigMapRoutingTableName) as [cm|e|e] eqn:Eg; [|done..]. simpl in Hs.
  destruct (FetchTableFromConfigMap cm) as [t''|e|e] eqn:Ef; [|done..]. simpl in Hs.
  injection Hs as <- <- <-. split_and!; [done|done|]. exists cm. split; [done|]. rewrite Ef. by destruct t''.
Qed.

Lemma admin_request_cases s r rw :
  let v := snd (ServeHTTP m r rw (admin_view s)) in
  is_queue v = queue (i_sys s) ∧ is_world v = i_world s
  ∧ (is_table v = i_table s
     ∨ ∃ cm, getter (i_world s) ConfigMapRoutingTableName = Ok cm ∧ FetchTableFromConfigMap cm = Ok (is_table v)).
Proof.
  simpl. destruct (admin_request getter dj sc tc version m (admin_view s) r rw Hm) as [->|(_ & Hq & Hw & Ht)].
  - split_and!; [done|done|by left].
  - split_and!; [done|done|]. right.
    change (is_world (admin_view s)) with (i_world s) in Ht.
    destruct (getter (i_world s) ConfigMapRoutingTableName) as [cm|e|e]; [|done..].
    exists cm. split; [done|]. simpl in Ht. by injection Ht.
Qed.

(** The queue only moves by the protocol's steps. *)
Lemma interceptor_sys_reach s p :
  rtc istep (launch itasks s) p → rtc (step max_requests) (i_sys s) (i_sys (p_state p)).
Proof.
  intros Hr. eapply (process_invariant (iwork delivers env) _ _ _ (λ s', rtc (step max_requests) (i_sys s) (i_sys s')));
    [| | |exact Hr].
  - intros t c s1 l s2 Hi Hw. destruct Hw; simpl; try done.
  - intros s1 s2 Hi Hb. destruct Hb as [s1 y Hy|s1 r rw v Hv|s1 w Hw]; simpl; [by eapply rtc_r| |done].
    subst v. destruct (admin_request_cases s1 r rw) as (-> & _). by destruct (i_sys s1).
  - apply rtc_refl.
Qed.

(** The table is always one decoded from a ConfigMap with a property that all
    the ConfigMaps read or delivered have. *)
Lemma interceptor_table_reach (P : ConfigMap → Prop) s p :
  (∀ w cm, getter w ConfigMapRoutingTableName = Ok cm → P cm) →
  (∀ w cm, delivers w cm → P cm) →
  (∃ cm, P cm ∧ FetchTableFromConfigMap cm = Ok (i_table s)) →
  rtc istep (launch itasks s) p →
  ∃ cm, P cm ∧ FetchTableFromConfigMap cm = Ok (i_table (p_state p)).
Proof.
  intros Hg Hd Hs Hr. eapply (process_invariant (iwork delivers env) _ _ _
    (λ s, ∃ cm, P cm ∧ FetchTableFromConfigMap cm = Ok (i_table s))); [| | |exact Hr]; [| |exact Hs].
  - intros t c s1 l s2 Hi Hw. destruct Hw as [| |c s1 i l t1 _ Hrec Hu| | |]; simpl; try done.
    destruct i as [cm| |e]; simpl in Hu.
    + destruct (FetchTableFromConfigMap cm) as [t2|e|e] eqn:Ef; simplify_eq/=; try done.
      exists cm. split; [by eapply Hd|]. rewrite Ef. by destruct t2.
    + by simplify_eq/=.
    + by simplify_eq/=.
  - intros s1 s2 Hi Hb. destruct Hb as [s1 y Hy|s1 r rw v Hv|s1 w Hw]; simpl; [done| |done].
    subst v. destruct (admin_request_cases s1 r rw) as (_ & _ & [->|(cm & Hcm & Hf)]); [done|].
    exists cm. split; [by eapply Hg|done].
Qed.

Lemma ServeContext_stops listen : ∃ e, ServeContext listen true = Returned (Err e).
Proof. destruct listen; by eexists. Qed.

Lemma interceptor_tasks_stop t s : ∃ r, is_panic r = false ∧ iwork delivers env t true s (Returned r) s.
Proof.
  destruct t.
  - eexists (Err _). split; [done|]. apply i_deploy_stopped.
  - destruct (updater_watch env) as [e|] eqn:E; eexists (Err _); (split; [done|]); [by apply i_updater_watch|by eapply i_updater_informer].
  - destruct (ServeContext_stops (listener env (i_world s) AdminServer)) as [e He]. exists (Err e). split; [done|].
    rewrite <-He. apply i_admin.
  - destruct (ServeContext_stops (listener env (i_world s) ProxyServer)) as [e He]. exists (Err e). split; [done|].
    rewrite <-He. apply i_proxy.
Qed.

(** Why a task ends while its context is not done. *)
Definition ends_because (t : itask) (s : istate W) (e : error) : Prop :=
  match t with
  | DeployCache => False
  | Updater => updater_watch env = Some e
      ∨ ∃ cm, delivers (i_world s) cm ∧ FetchTableFromConfigMap cm = Err e
  | AdminServer | ProxyServer => listener env (i_world s) t = Some e
  end.

Lemma interceptor_task_ends t s x s' :
  iwork delivers env t false s (Returned x) s' → is_panic x = false → ∃ e, x = Err e ∧ ends_because t s e.
Proof.
  intros Hw Hx. inversion Hw as [| ? ? e He|? ? i l t1 _ Hrec Hu| |? ? Hl|? ? Hl]; subst.
  - exists e. split; [done|]. by left.
  - destruct i as [cm| |e]; simpl in Hu, Hrec; [|done|done].
    destruct (FetchTableFromConfigMap cm) as [tb|e|q] eqn:Ef; simplify_eq/=.
    exists e. split; [done|]. right. by exists cm.
  - simpl in *. destruct (listener env (i_world s') AdminServer) as [e|]; simplify_eq/=. by exists e.
  - simpl in *. destruct (listener env (i_world s') ProxyServer) as [e|]; simplify_eq/=. by exists e.
Qed.

Lemma itasks_nodup : NoDup itasks.
Proof. apply (bool_decide_unpack _). by vm_compute. Qed.
End lemmas.

(** ** Properties *)

(** A process for the witnesses. *)
Definition demo_serving : InterceptorConfig.Serving := InterceptorConfig.mkServing "keda" 8080 9090 0 250 0 0 false.
Definition demo_timeouts : InterceptorConfig.Timeouts :=
  InterceptorConfig.mkTimeouts 0 0 0 (1500 * Millisecond) false 100 0 0 0 3.

Definition demo_api (_ : unit) (name : string) : res ConfigMap :=
  Ok (mkConfigMap "keda" name (Some {[configMapRoutingTableKey := "{}"]})).

Definition demo_mux : mux (interceptor_state unit) :=
  match interceptor_admin demo_api (λ _, Ok "[]") demo_serving demo_timeouts "main" with Ok m => m | _ => [] end.

Definition demo_istate : istate unit := mkInterceptorState (initial 0 false) (mkTable (Some ∅)) tt.
Definition demo_busy : istate unit := mkInterceptorState (demo_begin 0 (initial 0 false)) (mkTable (Some ∅)) tt.

(** The admin port is taken. *)
Definition demo_bind : error := Errorf "listen tcp: address already in use".
Definition demo_env : ienv unit := mkIenv None (λ _ t, if decide (t = AdminServer) then Some demo_bind else None).

#[local] Abbreviation demo_step :=
  (interceptor_step (λ _ _, False) demo_env 100 (λ _ _, False) demo_mux :
     process itask simple_group (istate unit) → process itask simple_group (istate unit) → Prop).

Lemma demo_started :
  interceptor_main demo_api (Ok tt) (Ok demo_timeouts) (Ok demo_serving) (Ok tt) (Ok tt) tt
  = Started (demo_serving, demo_timeouts, demo_istate).
Proof. by vm_compute. Qed.

Lemma demo_busy_reached : rtc demo_step (launch itasks demo_istate) (launch itasks demo_busy).
Proof.
  apply rtc_once. apply (p_background _ _ _ _ (launch itasks demo_istate) demo_busy); [done|].
  apply i_count, step_request. by apply (step_begin 100 (initial 0 false) 0 demo_host).
Qed.

(** C2: refinement. The counts the scaler reads are the requests in flight: in
    every state the interceptor process reaches after a successful start with
    the cooldown off (the default), whatever requests, admin requests, table
    updates, enforcer rounds and task ends came before, [Count] of every host is
    the number of its requests in flight, and [GetCounts] through the admin
    server returns exactly these numbers, as long as the hosts are UTF-8. *)
Theorem interceptor_process_counts {W} `{ErrgroupLaws G} (getter : W → string → res ConfigMap) (dj : W → res string)
    (delivers : W → ConfigMap → Prop) (env : ienv W) (max_requests : Z) (world : W → W → Prop)
    newZapr timeouts serving inClusterConfig newForConfig (version : string) (w : W)
    (sc : InterceptorConfig.Serving) (tc : InterceptorConfig.Timeouts) (s0 : istate W)
    (m : mux (interceptor_state W)) (p : process itask G (istate W)) :
  0 ≤ max_requests < 2 ^ 63 - 1 →
  interceptor_main getter newZapr timeouts serving inClusterConfig newForConfig w = Started (sc, tc, s0) →
  InterceptorConfig.EnableRequestQueueCooldown sc = false →
  interceptor_admin getter dj sc tc version = Ok m →
  rtc (interceptor_step delivers env max_requests world m) (launch itasks s0) p →
  let s := p_state p in
  (∀ h, Count h (queue (i_sys s)) = inflight (i_sys s) h)
  ∧ (map_Forall (λ h _, valid_utf8 h) (countMap (queue (i_sys s))) →
     ∀ u, ∃ counts, GetCounts (http_get m (admin_view s)) u = Ok counts
          ∧ ∀ h, count_of counts h = inflight (i_sys s) h).
Proof.
  intros Hmax Hs Hoff Hm Hr s. destruct (interceptor_main_ok _ _ _ _ _ _ _ _ _ _ Hs) as (Hi & _).
  pose proof (interceptor_sys_reach _ _ _ _ _ _ _ _ _ _ Hm _ _ Hr) as Hsys. rewrite Hi, Hoff in Hsys.
  pose proof (inv_off_reachable _ Hmax _ _ Hsys) as Hinv.
  assert (∀ h, Count h (queue (i_sys s)) = inflight (i_sys s) h) as Hc by (intros h; by eapply inv_off_count).
  split; [done|]. intros Hu u. exists (countMap (queue (i_sys s))). split.
  - apply GetCounts_served; [|by eapply http_get_counts]. intros h c Hh. split; [by eapply Hu|].
    pose proof (off_inv _ _ Hinv) as HI. pose proof (inv_bounds _ _ h HI) as Hb.
    rewrite <-(inv_count _ _ HI) in Hb. unfold Count in Hb. simpl in Hh. fold s in Hb. rewrite Hh in Hb.
    unfold in_int64. lia.
  - intros h. rewrite <-Hc. unfold Count, count_of. by destruct (_ !! h).
Qed.

Lemma interceptor_process_counts_witness :
  ∃ counts, GetCounts (http_get demo_mux (admin_view demo_busy))
              (mkURL "http" "" None "10.0.0.1:9090" "" "" "") = Ok counts
  ∧ count_of counts demo_host = 1.
Proof.
  destruct (interceptor_process_counts demo_api (λ _, Ok "[]") (λ _ _, False) demo_env 100 (λ _ _, False)
    (Ok tt) (Ok demo_timeouts) (Ok demo_serving) (Ok tt) (Ok tt) "main" tt demo_serving demo_timeouts
    demo_istate demo_mux (launch itasks demo_busy) ltac:(lia) demo_started eq_refl eq_refl demo_busy_reached)
    as [_ H].
  assert (map_Forall (λ h _, valid_utf8 h) ({[demo_host := 1]} : gmap string Z)) as Hu
    by (apply map_Forall_singleton; solve_utf8).
  destruct (H Hu (mkURL "http" "" None "10.0.0.1:9090" "" "" "")) as (counts & Hc & Hh).
  exists counts. split; [exact Hc|]. rewrite Hh. by vm_compute.
Defined.

(** C17: safety. Routes come from the ConfigMap only: in every state the process
    reaches after a successful start, the routing table is one decoded from a
    ConfigMap that the API server returned or the informer delivered. *)
Theorem interceptor_process_table {W} `{ErrgroupLaws G} (getter : W → string → res ConfigMap) (dj : W → res string)
    (delivers : W → ConfigMap → Prop) (env : ienv W) (max_requests : Z) (world : W → W → Prop)
    newZapr timeouts serving inClusterConfig newForConfig (version : string) (w : W)
    (sc : InterceptorConfig.Serving) (tc : InterceptorConfig.Timeouts) (s0 : istate W)
    (m : mux (interceptor_state W)) (p : process itask G (istate W)) :
  interceptor_main getter newZapr timeouts serving inClusterConfig newForConfig w = Started (sc, tc, s0) →
  interceptor_admin getter dj sc tc version = Ok m →
  rtc (interceptor_step delivers env max_requests world m) (launch itasks s0) p →
  ∃ cm, (∃ w', getter w' ConfigMapRoutingTableName = Ok cm ∨ delivers w' cm)
  ∧ FetchTableFromConfigMap cm = Ok (i_table (p_state p)).
Proof.
  intros Hs Hm Hr. destruct (interceptor_main_ok _ _ _ _ _ _ _ _ _ _ Hs) as (_ & _ & cm & Hcm & Hf).
  eapply interceptor_table_reach; [exact Hm|eauto|eauto|eauto|exact Hr].
Qed.

Lemma interceptor_process_table_witness :
  ∃ cm, (∃ w', demo_api w' ConfigMapRoutingTableName = Ok cm ∨ False)
  ∧ FetchTableFromConfigMap cm = Ok (mkTable (Some ∅)).
Proof.
  apply (interceptor_process_table demo_api (λ _, Ok "[]") (λ _ _, False) demo_env 100 (λ _ _, False)
    (Ok tt) (Ok demo_timeouts) (Ok demo_serving) (Ok tt) (Ok tt) "main" tt demo_serving demo_timeouts
    demo_istate demo_mux (launch itasks demo_busy) demo_started eq_refl demo_busy_reached).
Defined.


