(* ===== verification/ScalerProcess.v ===== *)
(** * The scaler process (main of scaler/main.go)

    Start-up, and the running process: five tasks over one queue pinger and one
    routing table. The pinger's counts change on its ticks, on events of the
    interceptors' deployment, after every update of the routing table, and on
    requests to [/queue_ping]. *)

From S2P Require Import Prelude GoStrings GoUrl Json Http Queue QueueRpc Routing ConfigMaps Net Config K8s Interceptor Pinger Scaler Admin Supervise InterceptorProcess.

Definition mustParseConfig (process : res ScalerConfig.config) : res ScalerConfig.config := MustProcess process.

Record sstate (W : Type) : Type := mkScalerState {
  s_pinger : queuePinger;
  s_table : Table;
  s_world : W;
}.
Arguments mkScalerState {W}.
Arguments s_pinger {W}.
Arguments s_table {W}.
Arguments s_world {W}.

Inductive stask : Type := SDeploy | SPinger | SGrpc | SUpdater | SAdmin.

#[export] Instance stask_eq_dec : EqDecision stask.
Proof. solve_decision. Defined.

Definition stasks : list stask := [SDeploy; SPinger; SGrpc; SUpdater; SAdmin].

(** What the tasks meet outside the process: whether the watches of the pinger and
    of the updater can be opened, whether the gRPC port can be listened on, and
    what [Serve] and the admin server's listener report, depending on the world. *)
Record senv (W : Type) : Type := mkSenv {
  pinger_watch : option error;
  table_watch : option error;
  grpc_listen : option error;
  grpc_serve : W → option error;
  admin_listener : W → option error;
}.
Arguments mkSenv {W}.
Arguments pinger_watch {W}.
Arguments table_watch {W}.
Arguments grpc_listen {W}.
Arguments grpc_serve {W}.
Arguments admin_listener {W}.

(** [startGrpcServer]: the listener opens or not; [Serve] fails by itself, or,
    once the goroutine beside it has closed the listener, with the error of
    [Accept]. *)
Definition startGrpcServer (listen : option error) (serve : option error) (ctx_done : bool) : loop unit :=
  match listen with
  | Some e => Returned (Err e)
  | None =>
      match serve with
      | Some e => Returned (Err e)
      | None => if ctx_done then Returned (Err (Errorf "use of closed network connection")) else Waiting
      end
  end.

Section main.
Context {W : Type}.
Context (fn : GetEndpointsFunc W) (get : W → URL → res string) (Now : W → Time).
Context (delivers : W → ConfigMap → Prop).

(** Up to the group: logger ([log.Fatalf] exits with 1), configuration,
    Kubernetes client, the pinger's first fetch; the table is empty. *)
Definition scaler_main (newZapr : res unit) (config : res ScalerConfig.config)
    (inClusterConfig newForConfig dynamicForConfig : res unit) (w : W) :
    startup (ScalerConfig.config * sstate W) :=
  _ ← or_exit newZapr;
  cfg ← or_exit (mustParseConfig config);
  _ ← or_exit (NewClientset inClusterConfig newForConfig dynamicForConfig);
  let '(r, (pinger, w)) :=
    newQueuePinger fn get Now (ScalerConfig.TargetNamespace cfg) (ScalerConfig.TargetService cfg)
      (ScalerConfig.TargetDeployment cfg) (Itoa (ScalerConfig.TargetPort cfg)) w in
  _ ← or_exit r;
  Started (cfg, mkScalerState pinger NewTable w).

(** [callbackWhenRoutingTableUpdate]. *)
Definition callbackWhenRoutingTableUpdate (s : queuePinger * W) : res unit * (queuePinger * W) :=
  fetchAndSaveCounts fn get Now s.

Definition pinger_receivable (done : bool) (i : pinger_input) : Prop :=
  match i with PingerDone e => ctx_err done = Some e | _ => True end.

Context (cfg : ScalerConfig.config) (env : senv W).

Inductive swork : stask → bool → sstate W → loop unit → sstate W → Prop :=
(** an informer runs until its context is done *)
| s_deploy_stopped s :
    swork SDeploy true s (Returned (depl_Start (ctx_err true))) s
(** [time.NewTicker] panics on a duration that is not positive *)
| s_ticker done s :
    ScalerConfig.QueueTickDuration cfg ≤ 0 →
    swork SPinger done s (Returned (Panic "non-positive interval for NewTicker")) s
| s_pinger_watch done s e :
    0 < ScalerConfig.QueueTickDuration cfg → pinger_watch env = Some e →
    swork SPinger done s (Returned (Err e)) s
| s_pinger_step done s i l p w :
    0 < ScalerConfig.QueueTickDuration cfg → pinger_watch env = None → pinger_receivable done i →
    start_step fn get Now i (s_pinger s, s_world s) = (l, (p, w)) →
    swork SPinger done s l (mkScalerState p (s_table s) w)
| s_grpc done s :
    swork SGrpc done s (startGrpcServer (grpc_listen env) (grpc_serve env (s_world s)) done) s
| s_updater_watch done s e :
    table_watch env = Some e → swork SUpdater done s (Returned (Err e)) s
| s_updater done s i l t p w :
    table_watch env = None → receivable delivers done (s_world s) i →
    updater_step (Some callbackWhenRoutingTableUpdate) i (s_table s) (s_pinger s, s_world s) = (l, (t, (p, w))) →
    swork SUpdater done s l (mkScalerState p t w)
| s_updater_informer s e :
    table_watch env = None → cm_Start (ctx_err true) = Err e → swork SUpdater true s (Returned (Err e)) s
| s_admin done s :
    swork SAdmin done s (ServeContext (admin_listener env (s_world s)) done) s.

Context (world : W → W → Prop) (m : mux (queuePinger * W)).

Inductive sbackground : sstate W → sstate W → Prop :=
| s_admin_request s r rw p w :
    snd (ServeHTTP m r rw (s_pinger s, s_world s)) = (p, w) →
    sbackground s (mkScalerState p (s_table s) w)
| s_world_step s w :
    world (s_world s) w → sbackground s (mkScalerState (s_pinger s) (s_table s) w).
End main.

(** main returns after [Wait]: the exit status is 0. *)
Definition scaler_step {W} `{Errgroup G} (fn : GetEndpointsFunc W) (get : W → URL → res string) (Now : W → Time)
    (delivers : W → ConfigMap → Prop) (cfg : ScalerConfig.config) (env : senv W) (world : W → W → Prop)
    (m : mux (queuePinger * W)) : process stask G (sstate W) → process stask G (sstate W) → Prop :=
  pstep (swork fn get Now delivers cfg env) (sbackground world m) false 0.

(** ** Lemmas *)

(** The sum of the values of a map. *)
Definition map_sum (m : gmap string Z) : Z := zsum (map_to_list m).*2.

Lemma map_sum_insert m k v :
  m !! k = None → map_sum (<[k := v]> m) = v + map_sum m.
Proof. intros Hk. unfold map_sum. by rewrite (map_to_list_insert m k v Hk). Qed.

Lemma map_sum_delete m k : map_sum m = count_of m k + map_sum (delete k m).
Proof.
  unfold count_of. destruct (m !! k) as [x|] eqn:E; simpl.
  - rewrite <-(insert_delete_id m k x) at 1 by done. apply map_sum_insert, lookup_delete_eq.
  - by rewrite delete_id.
Qed.

Lemma map_sum_add m k v : int64 (map_sum (<[k := int64 (count_of m k + v)]> m)) = int64 (map_sum m + v).
Proof.
  rewrite <-insert_delete_eq, map_sum_insert by apply lookup_delete_eq.
  rewrite int64_add_l, (map_sum_delete m k). f_equal. lia.
Qed.

(** An aggregate that is the wrapped sum of its map. *)
Definition sums (acc : gmap string Z * Z) : Prop := snd acc = int64 (map_sum (fst acc)).

Lemma sums_add_count h v acc : sums acc → sums (add_count h v acc).
Proof.
  unfold sums, add_count. destruct acc as [m a]; simpl. intros ->. by rewrite map_sum_add, int64_add_l.
Qed.

Lemma sums_add_counts acc m : sums acc → sums (add_counts acc m).
Proof.
  intros Ha. unfold add_counts. apply (map_fold_weak_ind (λ acc _, sums acc)); [done|].
  intros h v ? ? _. apply sums_add_count.
Qed.

Lemma sums_sum_counts all : sums (sum_counts all).
Proof.
  unfold sum_counts. assert (sums (∅, 0)) as H0 by done. revert H0. generalize (∅ : gmap string Z, 0).
  induction all as [|m all IH]; intros acc Ha; simpl; [done|]. by apply IH, sums_add_counts.
Qed.

Section lemmas.
Context {W : Type} `{ErrgroupLaws G}.
Context (fn : GetEndpointsFunc W) (get : W → URL → res string) (Now : W → Time).
Context (delivers : W → ConfigMap → Prop) (cfg : ScalerConfig.config) (env : senv W) (world : W → W → Prop) (version : string).
Context (m : mux (queuePinger * W)) (Hm : scaler_admin fn get Now cfg version = Ok m).
Implicit Types (s : sstate W) (q : queuePinger).

(** The counts are those of one completed fetch. *)
Definition fetched q : Prop :=
  ∃ w w', fetchCounts fn (get w) (interceptorNS q) (interceptorSvcName q) (adminPort q) w
          = (Ok (counts q, aggregate q), w').

Lemma fetched_sums q : fetched q → aggregate q = int64 (map_sum (counts q)).
Proof.
  intros (w & w' & Hf). unfold fetchCounts in Hf.
  destruct (EndpointsForService _ _ _ fn w) as [[urls|e|p] w1]; [|done..].
  destruct (fetch_all (get w) urls) as [all|e|p]; [|done..].
  injection Hf as Hs _. apply (f_equal sums) in Hs. pose proof (sums_sum_counts all) as Ha.
  rewrite Hs in Ha. exact Ha.
Qed.

Lemma fetchAndSaveCounts_fetched q w r q' w' :
  fetchAndSaveCounts fn get Now (q, w) = (r, (q', w')) →
  q' = q ∨ fetched q'.
Proof.
  unfold fetchAndSaveCounts. intros Hf.
  destruct (fetchCounts _ _ _ _ _ w) as [[[c a]|e|p] w1] eqn:E; simplify_eq/=; [|by left..].
  right. by exists w, w'.
Qed.

Lemma fetchAndSaveCounts_error q w e q' w' :
  fetchAndSaveCounts fn get Now (q, w) = (Err e, (q', w')) → q' = q.
Proof. unfold fetchAndSaveCounts. intros Hf. go_destruct; done. Qed.

Lemma scaler_main_ok z c k n d (w : W) cfg' s :
  scaler_main fn get Now z c k n d w = Started (cfg', s) → fetched (s_pinger s) ∧ s_table s = NewTable.
Proof.
  unfold scaler_main, newQueuePinger, fetchAndSaveCounts. intros Hs.
  destruct z as [|?|?], c as [c'|?|?]; try done. simpl in Hs.
  destruct (NewClientset k n d) as [?|?|?]; [|done..]. simpl in Hs.
  destruct (fetchCounts _ _ _ _ _ w) as [[[cts agg]|e|p] w1] eqn:E; simplify_eq/=.
  split; [|done]. by exists w, w1.
Qed.

Lemma scaler_admin_request r rw q w q' w' :
  snd (ServeHTTP m r rw (q, w)) = (q', w') → q' = q ∨ fetched q'.
Proof.
  destruct (decide (Path (req_URL r) = "/queue_ping")) as [Hp|Hp].
  - rewrite ServeHTTP_clean by (by rewrite Hp). rewrite Hp.
    assert (route m "/queue_ping" = Some (λ _ rw (x : queuePinger * W), queuePingHandler fn get Now rw x)) as ->.
    { unfold scaler_admin in Hm. by injection Hm as <-. }
    unfold queuePingHandler. destruct (fetchAndSaveCounts fn get Now (q, w)) as [[x|e|p] [q1 w1]] eqn:E;
      simpl; intros; simplify_eq; by eapply fetchAndSaveCounts_fetched.
  - rewrite (ServeHTTP_pure m r rw (q, w) "/queue_ping"); [|unfold scaler_admin in Hm; injection Hm as <-|done].
    + intros [= <- <-]. by left.
    + repeat apply Forall_cons_2; simpl; try (by left); try (right; by intros ? ? ?).
Qed.

Lemma scaler_fetched_reach s (p : process stask G (sstate W)) :
  fetched (s_pinger s) → rtc (scaler_step fn get Now delivers cfg env world m) (launch stasks s) p →
  fetched (s_pinger (p_state p)).
Proof.
  intros Hs Hr. eapply (process_invariant _ _ _ _ (λ s, fetched (s_pinger s))); [| | |exact Hr]; [| |exact Hs].
  - intros t c s1 l s2 Hi Hw. destruct Hw as [| | |? s1 i l q w ? ? ? Hst| | |? s1 i l t q w ? ? Hu| |]; simpl; try done.
    + unfold start_step in Hst. destruct i; simplify_eq; try done;
        destruct (fetchAndSaveCounts fn get Now _) as [[x|e|p'] [q1 w1]] eqn:E; simplify_eq;
        destruct (fetchAndSaveCounts_fetched _ _ _ _ _ E) as [->|?]; done.
    + unfold updater_step, run_callback, callbackWhenRoutingTableUpdate in Hu.
      destruct i as [cm| |e]; simplify_eq; try done.
      destruct (FetchTableFromConfigMap cm); simplify_eq; try done.
      destruct (fetchAndSaveCounts fn get Now _) as [[x|e|p'] [q1 w1]] eqn:E; simplify_eq;
        destruct (fetchAndSaveCounts_fetched _ _ _ _ _ E) as [->|?]; done.
  - intros s1 s2 Hi Hb. destruct Hb as [s1 r rw q w Hq|s1 w Hw]; simpl; [|done].
    by destruct (scaler_admin_request _ _ _ _ _ _ Hq) as [->|?].
Qed.

Lemma startGrpcServer_stops listen serve : ∃ e, startGrpcServer listen serve true = Returned (Err e).
Proof. destruct listen, serve; by eexists. Qed.

Lemma scaler_tasks_stop t s :
  0 < ScalerConfig.QueueTickDuration cfg →
  ∃ r, is_panic r = false ∧ swork fn get Now delivers cfg env t true s (Returned r) s.
Proof.
  intros Ht. destruct s as [q tb w]. destruct t.
  - eexists (Err _). split; [done|]. apply s_deploy_stopped.
  - destruct (pinger_watch env) as [e|] eqn:E; eexists (Err _); (split; [done|]); [by apply s_pinger_watch|].
    by eapply (s_pinger_step _ _ _ _ _ _ true (mkScalerState q tb w) (PingerDone ContextCanceled) _ q w).
  - destruct (startGrpcServer_stops (grpc_listen env) (grpc_serve env w)) as [e He]. exists (Err e). split; [done|].
    rewrite <-He. apply (s_grpc _ _ _ _ _ _ true (mkScalerState q tb w)).
  - destruct (table_watch env) as [e|] eqn:E; eexists (Err _); (split; [done|]); [by apply s_updater_watch|by eapply s_updater_informer].
  - destruct (ServeContext_stops (admin_listener env w)) as [e He]. exists (Err e). split; [done|].
    rewrite <-He. apply (s_admin _ _ _ _ _ _ true (mkScalerState q tb w)).
Qed.

(** Why the pinger's task ends while its context is not done. *)
Lemma pinger_ends s x s' :
  swork fn get Now delivers cfg env SPinger false s (Returned x) s' → is_panic x = false →
  (∃ e, pinger_watch env = Some e ∧ x = Err e)
  ∨ ∃ e q w, fetchAndSaveCounts fn get Now (s_pinger s, s_world s) = (Err e, (q, w))
      ∧ x = Err (Wrap e "error getting request counts").
Proof.
  intros Hw Hx. inversion Hw as [|? ? ?|? ? e ? He|? ? i l q w ? ? Hrec Hst| | | | |]; subst; [done|left; by exists e|].
  right. unfold start_step in Hst. destruct i as [e| |]; [done|..];
    destruct (fetchAndSaveCounts fn get Now _) as [[u|e|m'] [q1 w1]] eqn:E; simplify_eq/=; by exists e, q, w.
Qed.

Lemma stasks_nodup : NoDup stasks.
Proof. apply (bool_decide_unpack _). by vm_compute. Qed.
End lemmas.

(** ** Properties *)

(** A scaler and two interceptors, which can be reached or not. *)
Definition demo_fn : GetEndpointsFunc bool := λ _ _ w, (Ok demo_two, w).
Definition demo_net (up : bool) (u : URL) : res string :=
  if up then demo_counts_get u else Err (ApiOther "connection refused").

Definition demo_cfg : ScalerConfig.config :=
  ScalerConfig.mkConfig 8080 8090 "keda" "int" "int" 9090 100 0 0 Second 100.

Definition demo_senv : senv bool := mkSenv None None None (λ _, None) (λ _, None).

Definition demo_sstate : sstate bool :=
  match scaler_main demo_fn demo_net (λ _, 0) (Ok tt) (Ok demo_cfg) (Ok tt) (Ok tt) (Ok tt) true with
  | Started (_, s) => s
  | Ended _ => mkScalerState (mkPinger "" "" "" "" 0 ∅ 0) NewTable true
  end.

Definition demo_down : sstate bool := mkScalerState (s_pinger demo_sstate) NewTable false.

Definition demo_smux : mux (queuePinger * bool) :=
  match scaler_admin demo_fn demo_net (λ _, 0) demo_cfg "main" with Ok m => m | _ => [] end.

Lemma demo_scaler_started :
  scaler_main demo_fn demo_net (λ _, 0) (Ok tt) (Ok demo_cfg) (Ok tt) (Ok tt) (Ok tt) true
  = Started (demo_cfg, demo_sstate).
Proof. by vm_compute. Qed.

(** The network goes down. *)
Lemma demo_down_reached :
  rtc (scaler_step (G := simple_group) demo_fn demo_net (λ _, 0) (λ _ _, False) demo_cfg demo_senv (λ _ _, True) demo_smux)
    (launch stasks demo_sstate) (launch stasks demo_down).
Proof.
  apply rtc_once. refine (p_background _ _ _ _ (launch stasks demo_sstate) demo_down eq_refl _).
  by apply (s_world_step _ _ demo_sstate false).
Qed.



(** C36: error. Fetching fails once on a tick and the scaler ends (given a tick
    duration that is positive, and a watch of the deployment that could be opened).
    From any reachable state in which no task has ended, a tick whose fetch fails
    ends the pinger's task with the wrapped error of the fetch; from then on the
    context is done, every task that still runs can end at once, and whenever the
    process ends its status is 0; and it can end in eleven steps, with the error of
    the fetch as what [Wait] reports and the pinger's counts as they were. Conversely, when
    the pinger's task is the first to end, the run went through a state in which no
    task had ended and the fetch of the counts failed, and the task ended with that
    error, wrapped. *)
Theorem scaler_tick_failure_exits {W} `{ErrgroupLaws G} (fn : GetEndpointsFunc W) (get : W → URL → res string)
    (Now : W → Time) (delivers : W → ConfigMap → Prop) (env : senv W) (world : W → W → Prop) (cfg : ScalerConfig.config)
    (m : mux (queuePinger * W)) (s0 : sstate W) (p : process stask G (sstate W)) :
  let sstep := scaler_step fn get Now delivers cfg env world m in
  0 < ScalerConfig.QueueTickDuration cfg → pinger_watch env = None →
  rtc sstep (launch stasks s0) p →
  (∀ e q w, p_status p = Up → p_ended p = [] →
     fetchAndSaveCounts fn get Now (s_pinger (p_state p), s_world (p_state p)) = (Err e, (q, w)) →
     let err := Wrap e "error getting request counts" in
     ∃ p1, sstep p p1 ∧ p_ended p1 = [(SPinger, Some err)]
     ∧ (∀ p2, rtc sstep p1 p2 →
          ctx_done p2 = true
          ∧ (∀ t, t ∈ p_running p2 → ∃ r, is_panic r = false
               ∧ swork fn get Now delivers cfg env t true (p_state p2) (Returned r) (p_state p2))
          ∧ ∀ c e', p_status p2 = Exited c e' → c = 0)
     ∧ ∃ p', nsteps sstep 10 p1 p' ∧ p_status p' = Exited 0 (Some err) ∧ s_pinger (p_state p') = s_pinger (p_state p))
  ∧ (∀ r rest, p_ended p = (SPinger, r) :: rest →
     ∃ p1 e q w, rtc sstep (launch stasks s0) p1 ∧ rtc sstep p1 p ∧ p_ended p1 = []
     ∧ fetchAndSaveCounts fn get Now (s_pinger (p_state p1), s_world (p_state p1)) = (Err e, (q, w))
     ∧ r = Some (Wrap e "error getting request counts")).
Proof.
  intros sstep Ht Hwatch Hr. pose proof (supervised_reach _ _ _ _ _ stasks_nodup _ _ Hr) as Hp. split.
  - intros e q w Hup Hnone Hf err. assert (p_returned p = []) as Hret.
    { apply length_zero_iff_nil. pose proof (recorded_length _ _ _ p Hp) as Hl. rewrite Hnone in Hl. simpl in Hl. lia. }
    assert (SPinger ∈ p_running p) as Hin.
    { pose proof (sup_tasks _ _ _ _ Hp) as Hta. rewrite Hnone, app_nil_r in Hta. rewrite Hta. set_solver. }
    set (p1 := mkProcess (mkScalerState q (s_table (p_state p)) w) (list_difference (p_running p) [SPinger])
                 (p_ended p ++ [(SPinger, Some err)]) (p_returned p) (p_group p) true Up).
    assert (sstep p p1) as Hs.
    { refine (p_return _ _ _ _ p SPinger (Err err) _ Hup Hin _ eq_refl).
      apply (s_pinger_step _ _ _ _ _ _ _ _ Tick); [done|done|done|]. unfold start_step. by rewrite Hf. }
    pose proof (supervised_step _ _ _ _ _ stasks_nodup _ _ Hp Hs) as Hp1.
    assert (p_ended p1 = [(SPinger, Some err)]) as Hend by (simpl; by rewrite Hnone).
    exists p1. split_and!; [done|done| |].
    + intros p2 Hr2. destruct (stays_done _ _ _ _ _ stasks_nodup p1 p2 Hp1 ltac:(by rewrite Hend) Hr2) as [_ Hd].
      pose proof (supervised_rtc _ _ _ _ _ stasks_nodup _ _ Hp1 Hr2) as Hp2. split_and!; [done| |].
      * intros t _. by apply scaler_tasks_stop.
      * intros c e' He. by destruct (sup_status _ _ _ _ Hp2 _ _ He) as (-> & _).
    + set (p2 := mkProcess (p_state p1) (p_running p1) (p_ended p1) (p_returned p1 ++ [(SPinger, Some err)])
                   (eg_return (Some err) (p_group p1)) (p_cancelled p1) Up).
      assert (sstep p1 p2) as Hs2 by (apply (p_record _ _ _ _ p1 SPinger (Some err));
        [done|rewrite Hend; left|simpl; rewrite Hret; apply not_elem_of_nil]).
      pose proof (supervised_step _ _ _ _ _ stasks_nodup _ _ Hp1 Hs2) as Hp2.
      destruct (process_stops _ (sbackground world m) _ _ _ stasks_nodup p2
                  (λ t s _, scaler_tasks_stop fn get Now delivers cfg env t s Ht) Hp2 eq_refl eq_refl) as (p' & e' & Hsteps & He & Hst).
      pose proof (returns_one _ _ (running_nodup _ _ _ stasks_nodup p Hp) Hin) as Hl%Permutation_length.
      pose proof (supervised_length _ _ _ _ Hp) as Hlen. rewrite Hnone in Hlen. simpl in Hlen, Hl.
      pose proof (supervised_rtc _ _ _ _ _ stasks_nodup _ _ Hp2 (rtc_nsteps_2 _ _ _ Hsteps)) as Hp'.
      exists p'. split_and!.
      * replace 10%nat with (S (length (p_running p2) + S (length stasks - length (p_returned p2)))) by (simpl; rewrite Hret; simpl; lia).
        by eapply nsteps_l.
      * rewrite He. f_equal. destruct (sup_status _ _ _ _ Hp' _ _ He) as (_ & _ & _ & ->).
        eapply first_returned; [by eapply rtc_nsteps_2|]. simpl. by rewrite Hret.
      * rewrite Hst. simpl. by rewrite (fetchAndSaveCounts_error _ _ _ _ _ _ _ _ Hf).
  - intros r rest Hend.
    destruct (first_end _ _ false 0 stasks stasks_nodup s0 p SPinger r rest eq_refl ltac:(done) Hr Hend)
      as (p1 & x & s2 & Hr1 & Hr2 & Hn1 & Hw & Hx & ->).
    destruct (pinger_ends fn get Now delivers cfg env _ _ _ Hw Hx) as [(e & ? & _)|(e & q & w & Hf & ->)]; [congruence|].
    by exists p1, e, q, w.
Qed.

Lemma scaler_tick_failure_exits_witness :
  ∃ p' e, rtc (scaler_step (G := simple_group) demo_fn demo_net (λ _, 0) (λ _ _, False) demo_cfg demo_senv (λ _ _, True) demo_smux)
            (launch stasks demo_sstate) p'
  ∧ p_status p' = Exited 0 (Some e).
Proof.
  destruct (fetchAndSaveCounts demo_fn demo_net (λ _, 0) (s_pinger demo_down, false)) as [[x|e|m] [q w]] eqn:Hf;
    [by vm_compute in Hf| |by vm_compute in Hf].
  destruct (scaler_tick_failure_exits demo_fn demo_net (λ _, 0) (λ _ _, False) demo_senv (λ _ _, True) demo_cfg demo_smux
    demo_sstate (launch stasks demo_down) ltac:(by vm_compute) eq_refl demo_down_reached) as [H _].
  destruct (H e q w eq_refl eq_refl Hf) as (p1 & Hs1 & _ & _ & p' & Hs & He & _).
  eexists p', _. split; [|exact He]. etransitivity; [apply demo_down_reached|].
  eapply rtc_l; [exact Hs1|by eapply rtc_nsteps_2].
Defined.
