(* ===== verification/Proto.v ===== *)
(** * The external scaler's messages and gRPC service (proto/scaler.pb.go, scaler_grpc.pb.go)

    The messages KEDA and the scaler exchange, with the getters of the generated
    code; the service interface, its unimplemented version, the handlers and the
    service descriptor, and the client stub. The wire format, the server and the
    connections are grpc-go's and protobuf's: a class of operations with the laws
    the generated code relies on. *)

From S2P Require Import Prelude GoStrings GoUrl Json Http Queue QueueRpc Routing ConfigMaps Net K8s Pinger Scaler.

(** ** Messages *)

Record ScaledObjectRef : Type := mkRef {
  sor_Name : string;
  sor_Namespace : string;
  sor_ScalerMetadata : gmap string string;
}.

Record IsActiveResponse : Type := mkIsActiveResponse { iar_Result : bool }.

Record MetricSpec : Type := mkMetricSpec { ms_MetricName : string; ms_TargetSize : Z }.
Record GetMetricSpecResponse : Type := mkMetricSpecs { MetricSpecs : list MetricSpec }.

(** A message in a message is a pointer, which is nil when the field is not on
    the wire. *)
Record GetMetricsRequest : Type := mkMetricsRequest {
  gmr_ScaledObjectRef : option ScaledObjectRef;
  gmr_MetricName : string;
}.

Record MetricValue : Type := mkMetricValue { mv_MetricName : string; mv_MetricValue : Z }.
Record GetMetricsResponse : Type := mkMetricValues { MetricValues : list MetricValue }.

(** The getters of the generated code are defined on nil pointers. *)
Definition GetName (x : option ScaledObjectRef) : string := match x with Some x => sor_Name x | None => "" end.
Definition GetNamespace (x : option ScaledObjectRef) : string := match x with Some x => sor_Namespace x | None => "" end.
Definition GetScalerMetadata (x : option ScaledObjectRef) : gmap string string :=
  match x with Some x => sor_ScalerMetadata x | None => ∅ end.
Definition GetResult (x : option IsActiveResponse) : bool := match x with Some x => iar_Result x | None => false end.
Definition GetMetricSpecs (x : option GetMetricSpecResponse) : list MetricSpec :=
  match x with Some x => MetricSpecs x | None => [] end.
Definition MetricSpec_GetMetricName (x : option MetricSpec) : string := match x with Some x => ms_MetricName x | None => "" end.
Definition GetTargetSize (x : option MetricSpec) : Z := match x with Some x => ms_TargetSize x | None => 0 end.
Definition GetScaledObjectRef (x : option GetMetricsRequest) : option ScaledObjectRef :=
  match x with Some x => gmr_ScaledObjectRef x | None => None end.
Definition GetMetricsRequest_GetMetricName (x : option GetMetricsRequest) : string :=
  match x with Some x => gmr_MetricName x | None => "" end.
Definition GetMetricValues (x : option GetMetricsResponse) : list MetricValue :=
  match x with Some x => MetricValues x | None => [] end.
Definition MetricValue_GetMetricName (x : option MetricValue) : string := match x with Some x => mv_MetricName x | None => "" end.
Definition GetMetricValue (x : option MetricValue) : Z := match x with Some x => mv_MetricValue x | None => 0 end.

(** What an [interface{}] of a handler holds: a pointer to a message. *)
Inductive message : Type :=
| MRef (m : ScaledObjectRef)
| MIsActive (m : IsActiveResponse)
| MSpecs (m : GetMetricSpecResponse)
| MRequest (m : GetMetricsRequest)
| MValues (m : GetMetricsResponse).

(** [new(T)], and what [Reset] makes of any message. *)
Definition new_ref : ScaledObjectRef := mkRef "" "" ∅.
Definition new_request : GetMetricsRequest := mkMetricsRequest None "".

Definition zero_like (m : message) : message :=
  match m with
  | MRef _ => MRef new_ref
  | MIsActive _ => MIsActive (mkIsActiveResponse false)
  | MSpecs _ => MSpecs (mkMetricSpecs [])
  | MRequest _ => MRequest new_request
  | MValues _ => MValues (mkMetricValues [])
  end.

(** Messages the wire carries: strings in UTF-8, integers of their width. *)
Definition ref_valid (m : ScaledObjectRef) : Prop :=
  valid_utf8 (sor_Name m) ∧ valid_utf8 (sor_Namespace m)
  ∧ map_Forall (λ k v, valid_utf8 k ∧ valid_utf8 v) (sor_ScalerMetadata m).

Definition message_valid (m : message) : Prop :=
  match m with
  | MRef m => ref_valid m
  | MIsActive _ => True
  | MSpecs m => Forall (λ s, valid_utf8 (ms_MetricName s) ∧ in_int64 (ms_TargetSize s)) (MetricSpecs m)
  | MRequest m => valid_utf8 (gmr_MetricName m) ∧ (∀ r, gmr_ScaledObjectRef m = Some r → ref_valid r)
  | MValues m => Forall (λ s, valid_utf8 (mv_MetricName s) ∧ in_int64 (mv_MetricValue s)) (MetricValues m)
  end.

(** ** The service *)

(** [ExternalScalerServer]: the streaming call sends messages until it returns,
    or has sent these so far. *)
Record ExternalScalerServer : Type := mkServerApi {
  srv_IsActive : option ScaledObjectRef → res IsActiveResponse;
  srv_StreamIsActive : option ScaledObjectRef → loop unit * list IsActiveResponse;
  srv_GetMetricSpec : option ScaledObjectRef → res GetMetricSpecResponse;
  srv_GetMetrics : option GetMetricsRequest → res GetMetricsResponse;
}.

(** [status.Errorf]. *)
Definition status_Errorf (code msg : string) : error := Errorf ("rpc error: code = " +:+ code +:+ " desc = " +:+ msg).

Definition not_implemented (method : string) : error :=
  status_Errorf "Unimplemented" ("method " +:+ method +:+ " not implemented").

Definition UnimplementedExternalScalerServer : ExternalScalerServer :=
  mkServerApi
    (λ _, Err (not_implemented "IsActive"))
    (λ _, (Returned (Err (not_implemented "StreamIsActive")), []))
    (λ _, Err (not_implemented "GetMetricSpec"))
    (λ _, Err (not_implemented "GetMetrics")).

(** An interceptor of unary calls gets the request, the method and the rest of
    the handling. *)
Definition UnaryServerInterceptor : Type := message → string → (message → res message) → res message.

(** The body the generated unary handlers share: decode into a new message,
    then call the server, through the interceptor if there is one. *)
Definition unary_handler (zero : message) (fullMethod : string) (call : message → res message)
    (dec : message → res message) (interceptor : option UnaryServerInterceptor) : res message :=
  in_ ← dec zero;
  match interceptor with
  | None => call in_
  | Some i => i in_ fullMethod call
  end.

(** [req.( *ScaledObjectRef)] and [req.( *GetMetricsRequest)]. *)
Definition as_ref (m : message) : res ScaledObjectRef :=
  match m with MRef m => Ok m | _ => Panic "interface conversion" end.
Definition as_request (m : message) : res GetMetricsRequest :=
  match m with MRequest m => Ok m | _ => Panic "interface conversion" end.

Definition ExternalScaler_IsActive_Handler (srv : ExternalScalerServer) :
    (message → res message) → option UnaryServerInterceptor → res message :=
  unary_handler (MRef new_ref) "/externalscaler.ExternalScaler/IsActive"
    (λ req, m ← as_ref req; r ← srv_IsActive srv (Some m); Ok (MIsActive r)).

Definition ExternalScaler_GetMetricSpec_Handler (srv : ExternalScalerServer) :
    (message → res message) → option UnaryServerInterceptor → res message :=
  unary_handler (MRef new_ref) "/externalscaler.ExternalScaler/GetMetricSpec"
    (λ req, m ← as_ref req; r ← srv_GetMetricSpec srv (Some m); Ok (MSpecs r)).

Definition ExternalScaler_GetMetrics_Handler (srv : ExternalScalerServer) :
    (message → res message) → option UnaryServerInterceptor → res message :=
  unary_handler (MRequest new_request) "/externalscaler.ExternalScaler/GetMetrics"
    (λ req, m ← as_request req; r ← srv_GetMetrics srv (Some m); Ok (MValues r)).

(** The streaming handler: [recv] is the stream's [RecvMsg], and [Send] is its
    [SendMsg]. *)
Definition ExternalScaler_StreamIsActive_Handler (srv : ExternalScalerServer) (recv : message → res message) :
    loop unit * list message :=
  match recv (MRef new_ref) with
  | Err e => (Returned (Err e), [])
  | Panic p => (Returned (Panic p), [])
  | Ok m =>
      match as_ref m with
      | Ok m => let '(r, l) := srv_StreamIsActive srv (Some m) in (r, MIsActive <$> l)
      | Err e => (Returned (Err e), [])
      | Panic p => (Returned (Panic p), [])
      end
  end.

(** ** The service descriptor *)

Record MethodDesc : Type := mkMethodDesc {
  MethodName : string;
  md_Handler : ExternalScalerServer → (message → res message) → option UnaryServerInterceptor → res message;
}.

Record StreamDesc : Type := mkStreamDesc {
  StreamName : string;
  sd_Handler : ExternalScalerServer → (message → res message) → loop unit * list message;
  ServerStreams : bool;
}.

Record ServiceDesc : Type := mkServiceDesc {
  ServiceName : string;
  Methods : list MethodDesc;
  Streams : list StreamDesc;
}.

Definition ExternalScaler_ServiceDesc : ServiceDesc :=
  mkServiceDesc "externalscaler.ExternalScaler"
    [mkMethodDesc "IsActive" ExternalScaler_IsActive_Handler;
     mkMethodDesc "GetMetricSpec" ExternalScaler_GetMetricSpec_Handler;
     mkMethodDesc "GetMetrics" ExternalScaler_GetMetrics_Handler]
    [mkStreamDesc "StreamIsActive" ExternalScaler_StreamIsActive_Handler true].

(** The path of a call. *)
Definition full_method (sd : ServiceDesc) (name : string) : string := "/" +:+ ServiceName sd +:+ "/" +:+ name.

(** ** gRPC and protobuf *)

(** A server with its services, a connection to it, and the wire format.
    [Invoke] and [NewStream] are a client's, on a connection to the server. *)
Class Grpc : Type := {
  Bytes : Type;
  marshal : message → res Bytes;
  unmarshal : Bytes → message → res message;
  GrpcServer : Type;
  NewServer : GrpcServer;
  RegisterService : ServiceDesc → ExternalScalerServer → GrpcServer → GrpcServer;
  Invoke : GrpcServer → string → message → message → res message;
  ClientStream : Type;
  NewStream : GrpcServer → string → res ClientStream;
  SendMsg : message → ClientStream → res unit * ClientStream;
  CloseSend : ClientStream → res unit * ClientStream;
  RecvMsg : message → ClientStream → res message * ClientStream;
}.

(** What a client reads of a stream until something else than a message comes. *)
Fixpoint recv_all `{Grpc} (n : nat) (zero : message) (cs : ClientStream) : list message :=
  match n with
  | O => []
  | S n => match RecvMsg zero cs with (Ok m, cs) => m :: recv_all n zero cs | _ => [] end
  end.

(** A reply on its way back, as the client reads it into [out]. An error that is
    not a status becomes one; a handler that panics takes the server's process
    with it, which the client sees as a lost connection. *)
Definition reply_of `{Grpc} (out : message) (r : res message) : res message :=
  match r with
  | Ok m => b ← marshal m; unmarshal b out
  | Err e => Err (status_Errorf "Unknown" (Error_string e))
  | Panic _ => Err (status_Errorf "Unavailable" "error reading from server: EOF")
  end.

(** The laws: valid messages survive the wire; a call to a method of a
    registered service runs its handler, without an interceptor as the server has
    none, on the bytes sent; a stream's messages arrive in order. *)
Class GrpcLaws `{Grpc} : Prop := {
  marshal_valid m : message_valid m → ∃ b, marshal m = Ok b ∧ unmarshal b (zero_like m) = Ok m;
  Invoke_registered sd srv md in_ out b :
    NoDup (MethodName <$> Methods sd) → md ∈ Methods sd → marshal in_ = Ok b →
    Invoke (RegisterService sd srv NewServer) (full_method sd (MethodName md)) in_ out
    = reply_of out (md_Handler md srv (unmarshal b) None);
  NewStream_registered sd srv st in_ b :
    NoDup (StreamName <$> Streams sd) → st ∈ Streams sd → ServerStreams st = true → marshal in_ = Ok b →
    ∃ cs cs1 cs2, NewStream (RegisterService sd srv NewServer) (full_method sd (StreamName st)) = Ok cs
    ∧ SendMsg in_ cs = (Ok tt, cs1) ∧ CloseSend cs1 = (Ok tt, cs2)
    ∧ ∀ zero sent, snd (sd_Handler st srv (unmarshal b)) = sent → Forall (λ m, message_valid m ∧ zero_like m = zero) sent →
      recv_all (length sent) zero cs2 = sent;
}.

(** ** The client stub *)

Section client.
Context `{Grpc}.

(** [Invoke] into a new message, and nil for it when the call fails. In Go the
    message has its type; here the other constructors are a last case that
    [Invoke] does not reach. *)
Definition client_IsActive (cc : GrpcServer) (in_ : ScaledObjectRef) : res IsActiveResponse :=
  out ← Invoke cc "/externalscaler.ExternalScaler/IsActive" (MRef in_) (MIsActive (mkIsActiveResponse false));
  match out with MIsActive m => Ok m | _ => Panic "interface conversion" end.

Definition client_GetMetricSpec (cc : GrpcServer) (in_ : ScaledObjectRef) : res GetMetricSpecResponse :=
  out ← Invoke cc "/externalscaler.ExternalScaler/GetMetricSpec" (MRef in_) (MSpecs (mkMetricSpecs []));
  match out with MSpecs m => Ok m | _ => Panic "interface conversion" end.

Definition client_GetMetrics (cc : GrpcServer) (in_ : GetMetricsRequest) : res GetMetricsResponse :=
  out ← Invoke cc "/externalscaler.ExternalScaler/GetMetrics" (MRequest in_) (MValues (mkMetricValues []));
  match out with MValues m => Ok m | _ => Panic "interface conversion" end.

Definition client_StreamIsActive (cc : GrpcServer) (in_ : ScaledObjectRef) : res ClientStream :=
  stream ← NewStream cc "/externalscaler.ExternalScaler/StreamIsActive";
  match SendMsg (MRef in_) stream with
  | (Ok _, stream) =>
      match CloseSend stream with
      | (Ok _, stream) => Ok stream
      | (Err e, _) => Err e
      | (Panic p, _) => Panic p
      end
  | (Err e, _) => Err e
  | (Panic p, _) => Panic p
  end.

(** [RegisterExternalScalerServer], on the server [startGrpcServer] makes. *)
Definition RegisterExternalScalerServer (srv : ExternalScalerServer) (s : GrpcServer) : GrpcServer :=
  RegisterService ExternalScaler_ServiceDesc srv s.
End client.

(** ** The scaler as the service *)

Section impl.
Context `{TableReader T}.

(** [sor.ScalerMetadata], a field of what may be a nil pointer. *)
Definition metadata_of (sor : option ScaledObjectRef) : res (gmap string string) :=
  match sor with Some sor => Ok (sor_ScalerMetadata sor) | None => Panic "nil pointer dereference" end.

Definition impl_IsActive (e : impl T) (sor : option ScaledObjectRef) : res IsActiveResponse :=
  m ← metadata_of sor; active ← IsActive e m; Ok (mkIsActiveResponse active).

Definition impl_GetMetricSpec (e : impl T) (sor : option ScaledObjectRef) : res GetMetricSpecResponse :=
  m ← metadata_of sor; l ← GetMetricSpec e m; Ok (mkMetricSpecs ((λ x, mkMetricSpec x.1 x.2) <$> l)).

(** [metricRequest.ScaledObjectRef] is not read with its getter. *)
Definition impl_GetMetrics (e : impl T) (metricRequest : option GetMetricsRequest) : res GetMetricsResponse :=
  match metricRequest with
  | None => Panic "nil pointer dereference"
  | Some r => m ← metadata_of (gmr_ScaledObjectRef r); l ← GetMetrics e m; Ok (mkMetricValues ((λ x, mkMetricValue x.1 x.2) <$> l))
  end.

(** The stream looks at the metadata at its first tick. *)
Definition impl_StreamIsActive (ins : list (stream_input (T := T))) (sor : option ScaledObjectRef) : loop unit * list IsActiveResponse :=
  match sor with
  | Some sor => let '(r, l) := StreamIsActive (sor_ScalerMetadata sor) ins in (r, mkIsActiveResponse <$> l)
  | None => match ins with
            | [] => (Waiting, [])
            | StreamDone :: _ => (Returned (Ok tt), [])
            | StreamTick _ _ :: _ => (Returned (Panic "nil pointer dereference"), [])
            end
  end.

(** The state [e] answers the unary calls; [ins] is what the stream's loop gets. *)
Definition impl_server (e : impl T) (ins : list (stream_input (T := T))) : ExternalScalerServer :=
  mkServerApi (impl_IsActive e) (impl_StreamIsActive ins) (impl_GetMetricSpec e) (impl_GetMetrics e).
End impl.

(** ** Lemmas *)

Section calls.
Context `{Grpc} `{!GrpcLaws}.

Lemma service_methods : NoDup (MethodName <$> Methods ExternalScaler_ServiceDesc).
Proof. by apply (bool_decide_unpack _). Qed.

(** What a client sees of a result. *)
Definition seen {A} (r : res A) : res A :=
  match r with
  | Ok a => Ok a
  | Err e => Err (status_Errorf "Unknown" (Error_string e))
  | Panic _ => Err (status_Errorf "Unavailable" "error reading from server: EOF")
  end.

(** A unary call, from the stub to the server's method [f] and back. *)
Lemma unary_call {A} srv md in_ out (f : res A) (inj : A → message) :
  md ∈ Methods ExternalScaler_ServiceDesc → message_valid in_ →
  (∀ dec, dec (zero_like in_) = Ok in_ → md_Handler md srv dec None = (a ← f; Ok (inj a))) →
  (∀ a, f = Ok a → message_valid (inj a) ∧ zero_like (inj a) = out) →
  Invoke (RegisterExternalScalerServer srv NewServer) (full_method ExternalScaler_ServiceDesc (MethodName md)) in_ out
  = (a ← seen f; Ok (inj a)).
Proof.
  intros Hmd Hv Hh Hf. destruct (marshal_valid in_ Hv) as (b & Hb & Hu).
  unfold RegisterExternalScalerServer. rewrite (Invoke_registered _ _ _ _ _ b) by (done || apply service_methods).
  rewrite (Hh _ Hu). destruct f as [a|e|p]; [|done|done]. destruct (Hf a eq_refl) as [Hva <-].
  destruct (marshal_valid (inj a) Hva) as (b' & Hb' & Hu'). simpl. by rewrite Hb'.
Qed.

Lemma client_IsActive_calls srv in_ :
  ref_valid in_ → client_IsActive (RegisterExternalScalerServer srv NewServer) in_ = seen (srv_IsActive srv (Some in_)).
Proof.
  intros Hv. unfold client_IsActive.
  rewrite (unary_call srv (mkMethodDesc "IsActive" ExternalScaler_IsActive_Handler) (MRef in_) _ (srv_IsActive srv (Some in_)) MIsActive);
    [by destruct (srv_IsActive srv _)|left|done| |done].
  intros dec Hd. simpl in *. unfold ExternalScaler_IsActive_Handler, unary_handler. by rewrite Hd.
Qed.

Lemma client_GetMetricSpec_calls srv in_ :
  ref_valid in_ → (∀ r, srv_GetMetricSpec srv (Some in_) = Ok r → message_valid (MSpecs r)) →
  client_GetMetricSpec (RegisterExternalScalerServer srv NewServer) in_ = seen (srv_GetMetricSpec srv (Some in_)).
Proof.
  intros Hv Hr. unfold client_GetMetricSpec.
  rewrite (unary_call srv (mkMethodDesc "GetMetricSpec" ExternalScaler_GetMetricSpec_Handler) (MRef in_) _
    (srv_GetMetricSpec srv (Some in_)) MSpecs); [by destruct (srv_GetMetricSpec srv _)|right; left|done| |by auto].
  intros dec Hd. simpl in *. unfold ExternalScaler_GetMetricSpec_Handler, unary_handler. by rewrite Hd.
Qed.

Lemma client_GetMetrics_calls srv in_ :
  message_valid (MRequest in_) → (∀ r, srv_GetMetrics srv (Some in_) = Ok r → message_valid (MValues r)) →
  client_GetMetrics (RegisterExternalScalerServer srv NewServer) in_ = seen (srv_GetMetrics srv (Some in_)).
Proof.
  intros Hv Hr. unfold client_GetMetrics.
  rewrite (unary_call srv (mkMethodDesc "GetMetrics" ExternalScaler_GetMetrics_Handler) (MRequest in_) _
    (srv_GetMetrics srv (Some in_)) MValues); [by destruct (srv_GetMetrics srv _)|right; right; left|done| |by auto].
  intros dec Hd. simpl in *. unfold ExternalScaler_GetMetrics_Handler, unary_handler. by rewrite Hd.
Qed.

Lemma client_StreamIsActive_calls srv in_ :
  ref_valid in_ →
  ∃ cs, client_StreamIsActive (RegisterExternalScalerServer srv NewServer) in_ = Ok cs
  ∧ let sent := snd (srv_StreamIsActive srv (Some in_)) in
    recv_all (length sent) (MIsActive (mkIsActiveResponse false)) cs = MIsActive <$> sent.
Proof.
  intros Hv. destruct (marshal_valid (MRef in_) Hv) as (b & Hb & Hu).
  destruct (NewStream_registered ExternalScaler_ServiceDesc srv
    (mkStreamDesc "StreamIsActive" ExternalScaler_StreamIsActive_Handler true) (MRef in_) b) as (cs & cs1 & cs2 & Hn & Hs & Hc & Hr);
    [by apply (bool_decide_unpack _)|left|done|done|].
  change (full_method _ _) with "/externalscaler.ExternalScaler/StreamIsActive" in Hn.
  exists cs2. split; [unfold client_StreamIsActive, RegisterExternalScalerServer; rewrite Hn; simpl; by rewrite Hs, Hc|].
  specialize (Hr (MIsActive (mkIsActiveResponse false)) _ eq_refl). cbn [sd_Handler] in Hr.
  unfold ExternalScaler_StreamIsActive_Handler in Hr. cbn [zero_like] in Hu. rewrite Hu in Hr. simpl in Hr.
  destruct (srv_StreamIsActive srv (Some in_)) as [r l]. simpl in *. rewrite length_fmap in Hr. apply Hr.
  apply Forall_fmap, Forall_true. done.
Qed.
End calls.

#[local] Arguments impl_IsActive : simpl never.
#[local] Arguments impl_GetMetricSpec : simpl never.
#[local] Arguments impl_GetMetrics : simpl never.

(** ** Properties *)

(** C30: roundtrip. Through the generated stub and service descriptor KEDA gets what
    the scaler's handlers compute, given gRPC's own laws (a registered method is
    called with the message sent and its answer comes back, a stream delivers in
    order what was sent on it with success). For valid messages and a reference
    with one or more hosts, without commas, all known to the scaler and none the
    reserved name [interceptor], the client's [IsActive] and [GetMetrics] answer
    with one value, the wrapped sum of the counts; [GetMetricSpec] answers with the
    target of the first host, if that is a 64-bit integer; and the stream yields,
    in order, the results that [StreamIsActive] passed to a [Send] that
    succeeded. *)
Theorem keda_stub_answers `{Grpc} `{!GrpcLaws} `{TableReader T} (tr_model : T → gmap string Target)
    `{!TableReaderLaws T tr_model} (e : impl T) (ins : list (stream_input (T := T))) (ref : ScaledObjectRef)
    (host : string) (rest : list string) (metricName : string) :
  ref_valid ref → valid_utf8 metricName →
  sor_ScalerMetadata ref !! "hosts" = Some (Join (host :: rest) ",") → Forall (no_char ",") (host :: rest) →
  Forall (λ h, h ≠ interceptor ∧ known tr_model e h) (host :: rest) →
  let cc := RegisterExternalScalerServer (impl_server e ins) NewServer in
  let v := int64 (hosts_total e (host :: rest)) in
  client_IsActive cc ref = Ok (mkIsActiveResponse (bool_decide (0 < v)))
  ∧ client_GetMetrics cc (mkMetricsRequest (Some ref) metricName) = Ok (mkMetricValues [mkMetricValue httpRequests v])
  ∧ (∀ x, tr_Lookup (routingTable e) host = Ok x → in_int64 (TargetPendingRequests x) →
     client_GetMetricSpec cc ref = Ok (mkMetricSpecs [mkMetricSpec httpRequests (TargetPendingRequests x)]))
  ∧ (let sent := snd (StreamIsActive (sor_ScalerMetadata ref) ins) in
     ∃ cs, client_StreamIsActive cc ref = Ok cs
     ∧ recv_all (length sent) (MIsActive (mkIsActiveResponse false)) cs = (λ b, MIsActive (mkIsActiveResponse b)) <$> sent).
Proof.
  intros Hv Hmn Hm Hc Hk cc v.
  assert (valid_utf8 httpRequests) as Hu by solve_utf8.
  assert (getHostsFromScaledObjectRef (sor_ScalerMetadata ref) = Ok (host :: rest)) as Hh by (by apply ref_hosts).
  assert (impl_IsActive e (Some ref) = Ok (mkIsActiveResponse (bool_decide (0 < v)))) as HI.
  { unfold impl_IsActive, IsActive. simpl. rewrite Hh. cbn [mbind res_bind]. by rewrite (is_active_known tr_model). }
  assert (impl_GetMetrics e (Some (mkMetricsRequest (Some ref) metricName)) = Ok (mkMetricValues [mkMetricValue httpRequests v])) as HG.
  { unfold impl_GetMetrics, GetMetrics. simpl. rewrite Hh. cbn [mbind res_bind].
    rewrite (metrics_known tr_model); [done| |done]. eapply Forall_impl; [exact Hk|]. naive_solver. }
  split_and!.
  - unfold cc. rewrite client_IsActive_calls by done. simpl. by rewrite HI.
  - unfold cc. rewrite client_GetMetrics_calls; simpl; [by rewrite HG| |].
    + split; [done|]. by intros r [= <-].
    + intros r. rewrite HG. intros [= <-]. apply Forall_singleton. split; [done|apply int64_range].
  - intros x Hx Hi. assert (impl_GetMetricSpec e (Some ref) = Ok (mkMetricSpecs [mkMetricSpec httpRequests (TargetPendingRequests x)])) as HS.
    { unfold impl_GetMetricSpec, GetMetricSpec. simpl. rewrite Hh. cbn [mbind res_bind].
      apply Forall_cons in Hk as [[Hne _] _]. rewrite decide_False by done. by rewrite Hx. }
    unfold cc. rewrite client_GetMetricSpec_calls; simpl; [by rewrite HS|done|].
    intros r. rewrite HS. intros [= <-]. by apply Forall_singleton.
  - destruct (client_StreamIsActive_calls (impl_server e ins) ref Hv) as (cs & Hcs & Hr). exists cs. split; [done|].
    simpl in Hr. destruct (StreamIsActive _ ins) as [r l]. simpl in Hr |- *.
    rewrite length_fmap in Hr. by rewrite Hr, <-list_fmap_compose.
Qed.

(** A metrics request without its ScaledObjectRef, which the wire format
    allows, makes the scaler's handler panic whatever its state, and its client sees
    the connection break. *)
Theorem GetMetrics_without_ref `{Grpc} `{!GrpcLaws} `{TableReader T} (e : impl T) (ins : list (stream_input (T := T))) (metricName : string) :
  let srv := impl_server e ins in
  ExternalScaler_GetMetrics_Handler srv (λ _, Ok (MRequest (mkMetricsRequest None metricName))) None
    = Panic "nil pointer dereference"
  ∧ (valid_utf8 metricName →
     client_GetMetrics (RegisterExternalScalerServer srv NewServer) (mkMetricsRequest None metricName)
       = Err (status_Errorf "Unavailable" "error reading from server: EOF")).
Proof.
  intros srv. split; [done|]. intros Hu. unfold srv. by rewrite client_GetMetrics_calls by (done || by split).
Qed.

(** *** A wire and a server *)

Definition same_type (m m' : message) : bool :=
  match m, m' with
  | MRef _, MRef _ | MIsActive _, MIsActive _ | MSpecs _, MSpecs _ | MRequest _, MRequest _ | MValues _, MValues _ => true
  | _, _ => false
  end.

Definition demo_unmarshal (b out : message) : res message := if same_type b out then Ok b else Err (Errorf "proto: wrong type").

(** The first of [l] whose name makes the path. *)
Fixpoint by_path {A} (name : A → string) (sd : ServiceDesc) (path : string) (l : list A) : option A :=
  match l with
  | [] => None
  | x :: l => if decide (full_method sd (name x) = path) then Some x else by_path name sd path l
  end.

Inductive demo_stream : Type :=
| Opened (h : (message → res message) → loop unit * list message)
| Answering (l : list message).

#[local] Instance demo_grpc : Grpc := {|
  Bytes := message;
  marshal := Ok;
  unmarshal := demo_unmarshal;
  GrpcServer := option (ServiceDesc * ExternalScalerServer);
  NewServer := None;
  RegisterService sd srv _ := Some (sd, srv);
  Invoke g path in_ out :=
    match g with
    | Some (sd, srv) =>
        match by_path MethodName sd path (Methods sd) with
        | Some md =>
            match md_Handler md srv (demo_unmarshal in_) None with
            | Ok m => demo_unmarshal m out
            | Err e => Err (status_Errorf "Unknown" (Error_string e))
            | Panic _ => Err (status_Errorf "Unavailable" "error reading from server: EOF")
            end
        | None => Err (status_Errorf "Unimplemented" "unknown method")
        end
    | None => Err (status_Errorf "Unimplemented" "unknown service")
    end;
  ClientStream := demo_stream;
  NewStream g path :=
    match g with
    | Some (sd, srv) =>
        match by_path StreamName sd path (Streams sd) with
        | Some st => Ok (Opened (sd_Handler st srv))
        | None => Err (status_Errorf "Unimplemented" "unknown method")
        end
    | None => Err (status_Errorf "Unimplemented" "unknown service")
    end;
  SendMsg m cs := match cs with Opened h => (Ok tt, Answering (snd (h (demo_unmarshal m)))) | Answering l => (Ok tt, Answering l) end;
  CloseSend cs := (Ok tt, cs);
  RecvMsg zero cs := match cs with Answering (m :: l) => (demo_unmarshal m zero, Answering l) | _ => (Err (Errorf "EOF"), cs) end;
|}.

Lemma string_app_inj_l a b c : a +:+ b = a +:+ c → b = c.
Proof. induction a as [|x a IH]; [done|]. by intros [= ?%IH]. Qed.

Lemma by_path_found {A} (name : A → string) sd x l :
  NoDup (name <$> l) → x ∈ l → by_path name sd (full_method sd (name x)) l = Some x.
Proof.
  induction l as [|y l IH]; csimpl; intros Hn Hx; [by apply elem_of_nil in Hx|].
  apply NoDup_cons in Hn as [Hy Hn]. apply elem_of_cons in Hx as [->|Hx]; [by rewrite decide_True|].
  rewrite decide_False; [by apply IH|]. intros Heq. unfold full_method in Heq.
  apply string_app_inj_l, string_app_inj_l, string_app_inj_l in Heq. apply Hy. rewrite Heq. by apply list_elem_of_fmap_2.
Qed.

#[local] Instance demo_grpc_laws : GrpcLaws.
Proof.
  split.
  - intros m _. exists m. split; [done|]. by destruct m.
  - intros sd srv md in_ out b Hn Hmd [= <-]. simpl. rewrite by_path_found by done.
    by destruct (md_Handler md srv (demo_unmarshal in_) None).
  - intros sd srv st in_ b Hn Hst _ [= <-]. simpl. rewrite by_path_found by done. do 3 eexists. split_and!; [done..|].
    intros zero sent <- Hall. induction Hall as [|m l [_ <-] _ IH]; [done|]. simpl.
    unfold demo_unmarshal at 1. replace (same_type m (zero_like m)) with true by (by destruct m). by rewrite IH.
Qed.

Definition demo_ref : ScaledObjectRef := mkRef "shop" "dp-1" (ref_for ["app.dp-1"]).

Lemma keda_stub_answers_witness :
  client_IsActive (RegisterExternalScalerServer (impl_server (demo_impl {["app.dp-1" := 2]}) []) NewServer) demo_ref
    = Ok (mkIsActiveResponse true)
  ∧ client_GetMetrics (RegisterExternalScalerServer (impl_server (demo_impl {["app.dp-1" := 2]}) []) NewServer)
      (mkMetricsRequest (Some demo_ref) "http-requests") = Ok (mkMetricValues [mkMetricValue "http-requests" 2]).
Proof.
  destruct (keda_stub_answers entries (demo_impl {["app.dp-1" := 2]}) [] demo_ref "app.dp-1" [] "http-requests")
    as (Ha & Hg & _ & _).
  - split_and!; [solve_utf8|solve_utf8|]. apply map_Forall_singleton. split; solve_utf8.
  - solve_utf8.
  - done.
  - repeat constructor; done.
  - apply Forall_singleton. split; [done|]. left. by eexists.
  - split; [exact Ha|exact Hg].
Defined.

Lemma GetMetrics_without_ref_witness :
  client_GetMetrics (RegisterExternalScalerServer (impl_server (demo_impl ∅) []) NewServer) (mkMetricsRequest None "http-requests")
  = Err (status_Errorf "Unavailable" "error reading from server: EOF").
Proof. apply (GetMetrics_without_ref (demo_impl ∅) [] "http-requests"). solve_utf8. Defined.
