(* ===== verification/Hso.v ===== *)
(** * HTTPScaledObjects (operator/apis/http/v1alpha1, operator/controllers/http: condition_provider.go, finalizer.go, sanitizeHosts; operator/controllers/http/config/app_info.go)

    The custom resource, the conditions appended to its status, the finalizer
    helpers on Go slices, and the normalisation of [host]/[hosts]. *)

From S2P Require Import Prelude GoStrings.

(** ** The resource *)

Record ScaleTargetRef : Type := mkScaleTargetRef {
  ref_Deployment : string;
  ref_Service : string;
  ref_Port : Z;
}.

Record ReplicaStruct : Type := mkReplicas { rep_Min : option Z; rep_Max : option Z }.

Inductive HTTPScaledObjectCreationStatus : Type :=
| Created | Terminated | ErrorStatus | Pending | Terminating | Unknown | Ready.

Inductive HTTPScaledObjectConditionReason : Type :=
| ErrorCreatingAppScaledObject
| AppScaledObjectCreated
| TerminatingResources
| AppScaledObjectTerminated
| AppScaledObjectTerminationError
| PendingCreation
| HTTPScaledObjectIsReady.

Inductive ConditionStatus : Type := ConditionTrue | ConditionFalse | ConditionUnknown.

Record HTTPScaledObjectCondition : Type := mkCondition {
  cond_Timestamp : string;
  cond_Type : HTTPScaledObjectCreationStatus;
  cond_Status : ConditionStatus;
  cond_Reason : HTTPScaledObjectConditionReason;
  cond_Message : string;
}.

(** Pointers and the [Hosts] slice, which the code compares with nil, are
    options. *)
Record HTTPScaledObjectSpec : Type := mkSpec {
  spec_Host : option string;
  spec_Hosts : option (list string);
  spec_ScaleTargetRef : option ScaleTargetRef;
  spec_Replicas : option ReplicaStruct;
  spec_TargetPendingRequests : option Z;
  spec_CooldownPeriod : option Z;
}.

Record HTTPScaledObject : Type := mkHso {
  hso_Namespace : string;
  hso_Name : string;
  hso_ResourceVersion : Z;
  hso_DeletionTimestamp : option string;
  hso_Finalizers : list string;
  hso_Spec : HTTPScaledObjectSpec;
  hso_Conditions : list HTTPScaledObjectCondition;
}.

#[export] Instance ScaleTargetRef_eq_dec : EqDecision ScaleTargetRef.
Proof. solve_decision. Defined.
#[export] Instance ReplicaStruct_eq_dec : EqDecision ReplicaStruct.
Proof. solve_decision. Defined.
#[export] Instance HTTPScaledObjectCreationStatus_eq_dec : EqDecision HTTPScaledObjectCreationStatus.
Proof. solve_decision. Defined.
#[export] Instance HTTPScaledObjectConditionReason_eq_dec : EqDecision HTTPScaledObjectConditionReason.
Proof. solve_decision. Defined.
#[export] Instance ConditionStatus_eq_dec : EqDecision ConditionStatus.
Proof. solve_decision. Defined.
#[export] Instance HTTPScaledObjectCondition_eq_dec : EqDecision HTTPScaledObjectCondition.
Proof. solve_decision. Defined.
#[export] Instance HTTPScaledObjectSpec_eq_dec : EqDecision HTTPScaledObjectSpec.
Proof. solve_decision. Defined.
#[export] Instance HTTPScaledObject_eq_dec : EqDecision HTTPScaledObject.
Proof. solve_decision. Defined.

Definition set_Finalizers (l : list string) (o : HTTPScaledObject) : HTTPScaledObject :=
  mkHso (hso_Namespace o) (hso_Name o) (hso_ResourceVersion o) (hso_DeletionTimestamp o) l
    (hso_Spec o) (hso_Conditions o).
Definition set_Spec (s : HTTPScaledObjectSpec) (o : HTTPScaledObject) : HTTPScaledObject :=
  mkHso (hso_Namespace o) (hso_Name o) (hso_ResourceVersion o) (hso_DeletionTimestamp o)
    (hso_Finalizers o) s (hso_Conditions o).
Definition set_Conditions (l : list HTTPScaledObjectCondition) (o : HTTPScaledObject) : HTTPScaledObject :=
  mkHso (hso_Namespace o) (hso_Name o) (hso_ResourceVersion o) (hso_DeletionTimestamp o)
    (hso_Finalizers o) (hso_Spec o) l.

(** ** Conditions *)

(** [now] is [time.Now().Format(time.RFC3339)]. *)
Definition CreateCondition (now : string) (condType : HTTPScaledObjectCreationStatus)
    (status : ConditionStatus) (reason : HTTPScaledObjectConditionReason) : HTTPScaledObjectCondition :=
  mkCondition now condType status reason "".

Definition SetMessage (c : HTTPScaledObjectCondition) (message : string) : HTTPScaledObjectCondition :=
  mkCondition (cond_Timestamp c) (cond_Type c) (cond_Status c) (cond_Reason c) message.

Definition AddCondition (httpso : HTTPScaledObject) (condition : HTTPScaledObjectCondition) :
    HTTPScaledObject :=
  set_Conditions (hso_Conditions httpso ++ [condition]) httpso.

(** ** Finalizers *)

Definition httpScaledObjectFinalizer : string := "httpscaledobject.http.keda.sh".

Fixpoint contains (l : list string) (s : string) : bool :=
  match l with
  | [] => false
  | v :: l => if decide (v = s) then true else contains l s
  end.

(** [remove] re-slices the list while ranging over it. [arr] is the array
    behind both slices, as long as the list was at the start; [len] is the
    length [list] has now. The range reads [arr] at each index up to the
    original length, and [append(list[:i], list[i+1:]...)] shifts the rest of
    [list] down in place; [list[i+1:]] panics once [i+1] is past its length. *)
Fixpoint remove_loop (n i : nat) (arr : list string) (len : nat) (s : string) : res (list string) :=
  match n with
  | O => Ok (take len arr)
  | S n =>
      if decide (arr !! i = Some s) then
        if decide (len < S i)%nat then Panic "slice bounds out of range"
        else remove_loop n (S i)
               (take i arr ++ drop (S i) (take len arr) ++ drop (len - 1) arr) (len - 1) s
      else remove_loop n (S i) arr len s
  end.

Definition remove (l : list string) (s : string) : res (list string) :=
  remove_loop (length l) 0 l (length l) s.

(** ** Hosts *)

Definition sanitizeHosts (httpso : HTTPScaledObject) : res unit * HTTPScaledObject :=
  let spec := hso_Spec httpso in
  match spec_Hosts spec, spec_Host spec with
  | Some _, Some _ => (Err (Errorf "mutually exclusive fields Error"), httpso)
  | None, None => (Err (Errorf "no host specified Error"), httpso)
  | None, Some host =>
      (Ok tt, set_Spec (mkSpec None (Some [host]) (spec_ScaleTargetRef spec) (spec_Replicas spec)
                          (spec_TargetPendingRequests spec) (spec_CooldownPeriod spec)) httpso)
  | Some _, None => (Ok tt, httpso)
  end.

(** [AppScaledObjectName] dereferences the scale target. *)
Definition AppScaledObjectName (httpso : HTTPScaledObject) : res string :=
  match spec_ScaleTargetRef (hso_Spec httpso) with
  | Some ref => Ok (ref_Deployment ref +:+ "-app")
  | None => Panic "nil pointer dereference"
  end.

(** ** Lemmas *)

Lemma contains_elem l s : contains l s = true ↔ s ∈ l.
Proof. induction l as [|v l IH]; simpl; [set_solver|]. case_decide; set_solver. Qed.

(** A stretch of the array without [s] is only read. *)
Lemma remove_loop_skip s len tl : ∀ rest pre n,
  s ∉ rest →
  remove_loop (length rest + n) (length pre) (pre ++ rest ++ tl) len s
  = remove_loop n (length pre + length rest) (pre ++ rest ++ tl) len s.
Proof.
  induction rest as [|v rest IH]; intros pre n Hr; simpl; [by rewrite Nat.add_0_r|].
  apply not_elem_of_cons in Hr as [Hv Hr]. rewrite decide_False.
  - specialize (IH (pre ++ [v]) n Hr). rewrite <-app_assoc, length_app in IH. simpl in IH.
    rewrite Nat.add_1_r in IH. rewrite IH. f_equal. lia.
  - rewrite lookup_app_r by lia. rewrite Nat.sub_diag. simpl. congruence.
Qed.

Lemma drop_last {A} (x d : A) l : drop (length l) (x :: l) = [List.last (x :: l) d].
Proof. revert x. induction l as [|y l IH]; intros x; [done|]. apply IH. Qed.

Lemma last_elem {A} (x d : A) l : List.last (x :: l) d ∈ x :: l.
Proof.
  revert x. induction l as [|y l IH]; intros x; [set_solver|].
  specialize (IH y). simpl in *. set_solver.
Qed.

(** The array after the first occurrence was cut out: the rest of it, with its
    last element left behind. *)
Lemma remove_loop_cut s l1 l2 n :
  s ∉ l1 →
  remove_loop (length l1 + S n) 0 (l1 ++ s :: l2) (length (l1 ++ s :: l2)) s
  = remove_loop n (S (length l1)) (l1 ++ l2 ++ [List.last (s :: l2) s]) (length l1 + length l2) s.
Proof.
  intros H1. etransitivity; [apply (remove_loop_skip s _ (s :: l2) l1 [] (S n) H1)|].
  simpl. rewrite decide_True; [|by rewrite lookup_app_r, Nat.sub_diag].
  rewrite decide_False by (rewrite length_app; simpl; lia).
  assert (length (l1 ++ s :: l2) - 1 = length l1 + length l2)%nat as ->
    by (rewrite length_app; simpl; lia).
  f_equal. rewrite take_app_length, (take_ge (l1 ++ s :: l2)) by lia. do 2 f_equal.
  - change (s :: l2) with ([s] ++ l2). rewrite app_assoc.
    rewrite drop_app_length'; [done|]. rewrite length_app. simpl. lia.
  - rewrite <-drop_drop, drop_app_length.
    apply drop_last.
Qed.

(** One occurrence: it goes, and the order of the rest is kept. *)
Lemma remove_once s l1 l2 : s ∉ l1 → s ∉ l2 → remove (l1 ++ s :: l2) s = Ok (l1 ++ l2).
Proof.
  intros H1 H2. unfold remove.
  replace (remove_loop (length (l1 ++ s :: l2)))
    with (remove_loop (length l1 + S (length l2))) by (f_equal; by rewrite length_app).
  rewrite remove_loop_cut by done.
  assert (take (length l1 + length l2) (l1 ++ l2 ++ [List.last (s :: l2) s]) = l1 ++ l2) as Ht.
  { rewrite app_assoc, take_app_length'; [done|]. by rewrite length_app. }
  destruct l2 as [|v l2]; [exact (f_equal Ok Ht)|].
  pose proof (remove_loop_skip s (length l1 + S (length l2)) []
                (l2 ++ [List.last (s :: v :: l2) s]) (l1 ++ [v]) 0) as Hskip.
  rewrite <-(app_assoc l1 [v]), app_nil_r, Nat.add_0_r, !length_app in Hskip. simpl in Hskip.
  rewrite !Nat.add_1_r in Hskip. simpl in *. rewrite Hskip.
  - exact (f_equal Ok Ht).
  - apply not_elem_of_app. split; [set_solver|]. apply not_elem_of_cons. split; [|set_solver].
    intros Heq. apply H2. pose proof (last_elem v s l2) as Hin. simpl in Hin.
    by rewrite <-Heq in Hin.
Qed.

Lemma remove_absent s l : s ∉ l → remove l s = Ok l.
Proof.
  intros H. unfold remove. pose proof (remove_loop_skip s (length l) [] l [] 0 H) as Hs.
  simpl in Hs. rewrite Nat.add_0_r, app_nil_r in Hs. rewrite Hs. simpl. by rewrite take_ge.
Qed.

Lemma filter_absent (s : string) (l : list string) : s ∉ l → filter (λ x, x ≠ s) l = l.
Proof.
  induction l as [|v l IH]; intros Hs; [done|]. apply not_elem_of_cons in Hs as [Hv Hs].
  rewrite filter_cons_True by congruence. by rewrite IH.
Qed.

(** ** Properties *)

(** [remove] on a list with at most one copy of the string gives
    the list without it, in order; this is the case of Kubernetes finalizers,
    which are a set. *)
Theorem remove_spec (l : list string) (s : string) :
  NoDup l → remove l s = Ok (filter (λ x, x ≠ s) l).
Proof.
  intros Hn. destruct (decide (s ∈ l)) as [(l1 & l2 & ->)%list_elem_of_split|Hs].
  - apply NoDup_app in Hn as (_ & H1 & H2). apply NoDup_cons in H2 as [H2 _].
    assert (s ∉ l1) by (intros ?; by apply (H1 s); set_solver).
    rewrite remove_once by done. rewrite filter_app, filter_cons_False by naive_solver.
    by rewrite !filter_absent.
  - rewrite remove_absent by done. by rewrite filter_absent.
Qed.

Lemma remove_spec_witness :
  remove ["a"; httpScaledObjectFinalizer; "b"] httpScaledObjectFinalizer
  = Ok (filter (λ x, x ≠ httpScaledObjectFinalizer) ["a"; httpScaledObjectFinalizer; "b"]).
Proof.
  apply (remove_spec ["a"; httpScaledObjectFinalizer; "b"] httpScaledObjectFinalizer).
  by apply (bool_decide_unpack _); vm_compute.
Defined.

(** With the string twice at the end of the list [remove] crashes:
    the second copy is found at an index past the shortened slice. *)
Theorem remove_twice_panics (l : list string) (s : string) :
  s ∉ l → remove (l ++ [s; s]) s = Panic "slice bounds out of range".
Proof.
  intros Hs. unfold remove.
  replace (remove_loop (length (l ++ [s; s]))) with (remove_loop (length l + 2))
    by (f_equal; by rewrite length_app).
  rewrite remove_loop_cut by done. simpl. rewrite decide_True.
  - rewrite decide_True; [done|]. rewrite Nat.add_1_r. lia.
  - rewrite lookup_app_r by lia. by replace (S (length l) - length l)%nat with 1%nat by lia.
Qed.

Lemma remove_twice_panics_witness :
  remove (["a"] ++ ["b"; "b"]) "b" = Panic "slice bounds out of range".
Proof. apply remove_twice_panics. by apply (bool_decide_unpack _); vm_compute. Defined.

(** [sanitizeHosts] succeeds exactly when one of [host] and
    [hosts] is set, and then [hosts] is set, [host] is not, and it holds the
    same hosts; nothing else of the object changes, and an error changes
    nothing at all. *)
Theorem sanitizeHosts_spec (o : HTTPScaledObject) :
  let '(r, o') := sanitizeHosts o in
  match spec_Host (hso_Spec o), spec_Hosts (hso_Spec o) with
  | Some h, None =>
      r = Ok tt ∧ spec_Host (hso_Spec o') = None ∧ spec_Hosts (hso_Spec o') = Some [h]
      ∧ spec_ScaleTargetRef (hso_Spec o') = spec_ScaleTargetRef (hso_Spec o)
      ∧ set_Spec (hso_Spec o) o' = o
  | None, Some hs => r = Ok tt ∧ o' = o
  | Some _, Some _ => r = Err (Errorf "mutually exclusive fields Error") ∧ o' = o
  | None, None => r = Err (Errorf "no host specified Error") ∧ o' = o
  end.
Proof.
  destruct o as [ns name rv del fin [h hs ref rep tpr cd] conds]; unfold sanitizeHosts; simpl.
  by destruct hs, h.
Qed.
