(* ===== verification/DeepCopy.v ===== *)
(** * Deep copies of the API types (operator/apis/http/v1alpha1/zz_generated.deepcopy.go)

    The generated copies on an explicit heap, because what they promise is about
    sharing: a change made through a copy is not seen through the original. A Go
    struct is a record whose pointers are locations and whose slices are
    windows on an array cell. [metav1.ObjectMeta] and [metav1.ListMeta] belong to
    apimachinery: their types, the cells they allocate and their [DeepCopyInto]
    are parameters, and what is relied on is the class [DeepCopies] that is
    proved here of the types of this package. *)

From S2P Require Import Prelude GoStrings Hso.

Definition loc : Type := nat.

(** A slice: the array it is a window on, where it starts, how long it is. *)
Record slice : Type := mkSlice { sl_array : loc; sl_off : nat; sl_len : nat }.

Definition window {A} (s : slice) (l : list A) : list A := take (sl_len s) (drop (sl_off s) l).

(** ** The structs in memory *)

Record ReplicaStruct_m : Type := mkReplicas_m { rm_Min : option loc; rm_Max : option loc }.

Record Spec_m : Type := mkSpec_m {
  sm_Host : option loc;
  sm_Hosts : option slice;
  sm_ScaleTargetRef : option loc;
  sm_Replicas : option loc;
  sm_TargetPendingRequests : option loc;
  sm_CooldownPeriod : option loc;
}.

Record Status_m : Type := mkStatus_m { stm_Conditions : option slice }.

Section types.
(** [metav1.ObjectMeta], [metav1.ListMeta] and the cells they point at. *)
Context (Meta ListMeta MetaCell : Type).

(** [TypeMeta] is two strings. *)
Record Object_m : Type := mkObject_m {
  om_TypeMeta : string * string;
  om_ObjectMeta : Meta;
  om_Spec : Spec_m;
  om_Status : Status_m;
}.

Record List_m : Type := mkList_m {
  lm_TypeMeta : string * string;
  lm_ListMeta : ListMeta;
  lm_Items : option slice;
}.

(** What a location holds: one variable, or the array behind a slice. *)
Inductive cell : Type :=
| CInt32 (z : Z)
| CString (s : string)
| CScaleTargetRef (r : ScaleTargetRef)
| CCondition (c : HTTPScaledObjectCondition)
| CReplicas (r : ReplicaStruct_m)
| CSpec (s : Spec_m)
| CStatus (s : Status_m)
| CObject (o : Object_m)
| CList (l : List_m)
| AStrings (l : list string)
| AConditions (l : list HTTPScaledObjectCondition)
| AItems (l : list Object_m)
| CMeta (c : MetaCell).
End types.
Arguments mkObject_m {Meta}.
Arguments om_TypeMeta {Meta}.
Arguments om_ObjectMeta {Meta}.
Arguments om_Spec {Meta}.
Arguments om_Status {Meta}.
Arguments mkList_m {ListMeta}.
Arguments lm_TypeMeta {ListMeta}.
Arguments lm_ListMeta {ListMeta}.
Arguments lm_Items {ListMeta}.
Arguments CInt32 {Meta ListMeta MetaCell}.
Arguments CString {Meta ListMeta MetaCell}.
Arguments CScaleTargetRef {Meta ListMeta MetaCell}.
Arguments CCondition {Meta ListMeta MetaCell}.
Arguments CReplicas {Meta ListMeta MetaCell}.
Arguments CSpec {Meta ListMeta MetaCell}.
Arguments CStatus {Meta ListMeta MetaCell}.
Arguments CObject {Meta ListMeta MetaCell}.
Arguments CList {Meta ListMeta MetaCell}.
Arguments AStrings {Meta ListMeta MetaCell}.
Arguments AConditions {Meta ListMeta MetaCell}.
Arguments AItems {Meta ListMeta MetaCell}.
Arguments CMeta {Meta ListMeta MetaCell}.

Section copies.
Context {Meta ListMeta MetaCell : Type}.
Abbreviation cellT := (cell Meta ListMeta MetaCell).
Abbreviation heap := (gmap loc cellT).
Abbreviation H := (ST heap).

(** ** Memory *)

(** [new(T)] followed by the store of its first value. *)
Definition new (c : cellT) : H loc := λ h,
  let l := fresh (dom h) in (Ok l, <[l := c]> h).

(** A dereference; Go's types rule the panic out. *)
Definition load {A} (view : cellT → option A) (l : loc) : H A := λ h,
  match h !! l ≫= view with
  | Some a => (Ok a, h)
  | None => (Panic "invalid memory address", h)
  end.

(** [if in.F != nil { in, out := &in.F, &out.F; *out = <new>; <copy into it> }]
    for a field [F] that is a pointer or a slice: [view r] is what the reference
    [r] sees of its cell, [into] copies that, and the copy goes into a new cell. *)
Definition copy_ref {R A} (addr : R → loc) (view : R → cellT → option A) (mk : A → cellT)
    (ref : loc → A → R) (into : A → H A) (p : option R) : H (option R) :=
  match p with
  | None => mret None
  | Some r =>
      a ← load (view r) (addr r);
      a' ← into a;
      l ← new (mk a');
      mret (Some (ref l a'))
  end.

Definition copy_ptr {A} (view : cellT → option A) (mk : A → cellT) (into : A → H A) :
    option loc → H (option loc) :=
  copy_ref (λ l, l) (λ _, view) mk (λ l _, l) into.

(** The loop over the elements: nothing else points at the new array while it
    is filled. *)
Fixpoint copy_elems {A} (into : A → H A) (l : list A) : H (list A) :=
  match l with
  | [] => mret []
  | a :: l =>
      a' ← into a;
      l' ← copy_elems into l;
      mret (a' :: l')
  end.

(** [make([]T, len( *in))] and its elements. *)
Definition copy_slice {A} (view : cellT → option (list A)) (mk : list A → cellT) (into : A → H A) :
    option slice → H (option slice) :=
  copy_ref sl_array (λ s c, window s <$> view c) mk (λ l a, mkSlice l 0 (length a)) (copy_elems into).

(** [func (in *T) DeepCopy() *T]. *)
Definition DeepCopy {A} (view : cellT → option A) (mk : A → cellT) (into : A → H A)
    (p : option loc) : H (option loc) := copy_ptr view mk into p.

Definition as_int32 (c : cellT) : option Z := if c is CInt32 z then Some z else None.
Definition as_string (c : cellT) : option string := if c is CString s then Some s else None.
Definition as_ref (c : cellT) : option ScaleTargetRef := if c is CScaleTargetRef r then Some r else None.
Definition as_condition (c : cellT) : option HTTPScaledObjectCondition :=
  if c is CCondition x then Some x else None.
Definition as_replicas (c : cellT) : option ReplicaStruct_m := if c is CReplicas r then Some r else None.
Definition as_spec (c : cellT) : option Spec_m := if c is CSpec s then Some s else None.
Definition as_status (c : cellT) : option Status_m := if c is CStatus s then Some s else None.
Definition as_object (c : cellT) : option (Object_m Meta) := if c is CObject o then Some o else None.
Definition as_list (c : cellT) : option (List_m ListMeta) := if c is CList l then Some l else None.
Definition as_strings (c : cellT) : option (list string) := if c is AStrings l then Some l else None.
Definition as_conditions (c : cellT) : option (list HTTPScaledObjectCondition) :=
  if c is AConditions l then Some l else None.
Definition as_items (c : cellT) : option (list (Object_m Meta)) := if c is AItems l then Some l else None.

(** ** The copies

    Each [DeepCopyInto] starts with [*out = *in] and then replaces fields: it is
    given by the value it leaves in [*out]. *)

Definition int32_copy (z : Z) : H Z := mret z.

Definition ScaleTargetRef_DeepCopyInto (r : ScaleTargetRef) : H ScaleTargetRef := mret r.

Definition Condition_DeepCopyInto (c : HTTPScaledObjectCondition) : H HTTPScaledObjectCondition := mret c.

Definition ReplicaStruct_DeepCopyInto (r : ReplicaStruct_m) : H ReplicaStruct_m :=
  mn ← copy_ptr as_int32 CInt32 int32_copy (rm_Min r);
  mx ← copy_ptr as_int32 CInt32 int32_copy (rm_Max r);
  mret (mkReplicas_m mn mx).

(** [Host] and [Hosts] keep what [*out = *in] gave them. *)
Definition Spec_DeepCopyInto (s : Spec_m) : H Spec_m :=
  ref ← copy_ptr as_ref CScaleTargetRef ScaleTargetRef_DeepCopyInto (sm_ScaleTargetRef s);
  reps ← copy_ptr as_replicas CReplicas ReplicaStruct_DeepCopyInto (sm_Replicas s);
  tpr ← copy_ptr as_int32 CInt32 int32_copy (sm_TargetPendingRequests s);
  cd ← copy_ptr as_int32 CInt32 int32_copy (sm_CooldownPeriod s);
  mret (mkSpec_m (sm_Host s) (sm_Hosts s) ref reps tpr cd).

Definition Status_DeepCopyInto (s : Status_m) : H Status_m :=
  conds ← copy_slice as_conditions AConditions Condition_DeepCopyInto (stm_Conditions s);
  mret (mkStatus_m conds).

Section meta.
Context (ObjectMeta_DeepCopyInto : Meta → H Meta) (ListMeta_DeepCopyInto : ListMeta → H ListMeta).

Definition Object_DeepCopyInto (o : Object_m Meta) : H (Object_m Meta) :=
  meta ← ObjectMeta_DeepCopyInto (om_ObjectMeta o);
  spec ← Spec_DeepCopyInto (om_Spec o);
  status ← Status_DeepCopyInto (om_Status o);
  mret (mkObject_m (om_TypeMeta o) meta spec status).

Definition List_DeepCopyInto (l : List_m ListMeta) : H (List_m ListMeta) :=
  meta ← ListMeta_DeepCopyInto (lm_ListMeta l);
  items ← copy_slice as_items AItems Object_DeepCopyInto (lm_Items l);
  mret (mkList_m (lm_TypeMeta l) meta items).

Definition ScaleTargetRef_DeepCopy := DeepCopy as_ref CScaleTargetRef ScaleTargetRef_DeepCopyInto.
Definition Condition_DeepCopy := DeepCopy as_condition CCondition Condition_DeepCopyInto.
Definition ReplicaStruct_DeepCopy := DeepCopy as_replicas CReplicas ReplicaStruct_DeepCopyInto.
Definition Spec_DeepCopy := DeepCopy as_spec CSpec Spec_DeepCopyInto.
Definition Status_DeepCopy := DeepCopy as_status CStatus Status_DeepCopyInto.
Definition Object_DeepCopy := DeepCopy as_object CObject Object_DeepCopyInto.
Definition List_DeepCopy := DeepCopy as_list CList List_DeepCopyInto.

(** [DeepCopyObject]: the same pointer as a [runtime.Object], nil when nil. *)
Definition Object_DeepCopyObject (p : option loc) : H (option loc) :=
  c ← Object_DeepCopy p;
  mret (match c with Some c => Some c | None => None end).
Definition List_DeepCopyObject (p : option loc) : H (option loc) :=
  c ← List_DeepCopy p;
  mret (match c with Some c => Some c | None => None end).
End meta.
End copies.

(** ** What a deep copy promises *)

Section laws.
Context {Meta ListMeta MetaCell : Type}.
Abbreviation cellT := (cell Meta ListMeta MetaCell).
Abbreviation heap := (gmap loc cellT).
Abbreviation H := (ST heap).

(** A value [x] of a Go type is read out of the heap by [rd], which fails when
    the memory is not what the type says; [locs] are the locations it reaches.
    [into] copies it: the copy reads the same, nothing that existed is changed,
    and the copy reaches new locations only, apart from those in [shared]. *)
Class DeepCopies {X D} (rd : heap → X → option D) (locs shared : heap → X → gset loc)
    (into : X → H X) : Prop := {
  dc_copy h x d : rd h x = Some d →
    ∃ x' h', into x h = (Ok x', h') ∧ h ⊆ h' ∧ rd h' x' = Some d
    ∧ ∀ l, l ∈ locs h' x' → l ∈ shared h x ∨ h !! l = None;
  dc_frame h h' x d : rd h x = Some d → (∀ l, l ∈ locs h x → h' !! l = h !! l) →
    rd h' x = Some d ∧ locs h' x = locs h x ∧ shared h' x = shared h x;
  dc_dom h x d l : rd h x = Some d → l ∈ locs h x → is_Some (h !! l);
  dc_shared h x d : rd h x = Some d → shared h x ⊆ locs h x;
}.

Lemma dc_grow {X D rd locs shared into} `{!@DeepCopies X D rd locs shared into} h h' x d :
  rd h x = Some d → h ⊆ h' → rd h' x = Some d ∧ locs h' x = locs h x ∧ shared h' x = shared h x.
Proof.
  intros Hr Hs. apply dc_frame; [done|]. intros l [c Hl]%(dc_dom _ _ _ _ Hr).
  rewrite Hl. by eapply lookup_weaken.
Qed.

(** A value without pointers. *)
Lemma dc_flat {X} : @DeepCopies X X (λ _ x, Some x) (λ _ _, ∅) (λ _ _, ∅) mret.
Proof.
  split; intros; simplify_eq/=; try set_solver; eauto.
Qed.

(** A field that is left as [*out = *in] made it. *)
Lemma dc_shallow {X D} (rd : heap → X → option D) locs shared into :
  @DeepCopies X D rd locs shared into → @DeepCopies X D rd locs locs mret.
Proof.
  intros HC. split.
  - intros h x d Hr. exists x, h. split_and!; [done..|]. auto.
  - intros h h' x d Hr Hl. destruct (dc_frame _ _ _ _ Hr Hl) as (? & ? & ?). done.
  - apply dc_dom.
  - done.
Qed.

(** Two fields, one after the other. *)
Lemma dc_pair {X Y DX DY} rd1 locs1 sh1 into1 rd2 locs2 sh2 into2 :
  @DeepCopies X DX rd1 locs1 sh1 into1 → @DeepCopies Y DY rd2 locs2 sh2 into2 →
  @DeepCopies (X * Y) (DX * DY)
    (λ h p, a ← rd1 h p.1; b ← rd2 h p.2; Some (a, b))
    (λ h p, locs1 h p.1 ∪ locs2 h p.2) (λ h p, sh1 h p.1 ∪ sh2 h p.2)
    (λ p, a ← into1 p.1; b ← into2 p.2; mret (a, b)).
Proof.
  intros C1 C2. split.
  - intros h [x y] [d e] (d' & Hx & (e' & Hy & [= <- <-])%bind_Some)%bind_Some; simpl in *.
    destruct (dc_copy h x d' Hx) as (x' & h1 & E1 & Hs1 & R1 & F1).
    destruct (dc_grow h h1 y e' Hy Hs1) as (Hy1 & Hl1 & Hsh).
    destruct (dc_copy h1 y e' Hy1) as (y' & h2 & E2 & Hs2 & R2 & F2).
    destruct (dc_grow h1 h2 x' d' R1 Hs2) as (R1' & L1' & _).
    exists (x', y'), h2. rewrite ST_bind_run, E1, ST_bind_run, E2. simpl. rewrite R1', R2.
    split_and!; [done|by etrans|done|]. intros l [Hl|Hl]%elem_of_union.
    + rewrite L1' in Hl. apply F1 in Hl as [?|?]; [left; set_solver|auto].
    + apply F2 in Hl as [?|?]; [left; rewrite Hsh in *; set_solver|right].
      by eapply lookup_weaken_None.
  - intros h h' [x y] [d e] (d' & Hx & (e' & Hy & [= <- <-])%bind_Some)%bind_Some Hl; simpl in *.
    destruct (dc_frame h h' x d' Hx) as (-> & -> & ->); [set_solver|].
    destruct (dc_frame h h' y e' Hy) as (-> & -> & ->); [set_solver|]. done.
  - intros h [x y] [d e] l (d' & Hx & (e' & Hy & [= <- <-])%bind_Some)%bind_Some [Hl|Hl]%elem_of_union;
      simpl in *; eauto using dc_dom.
  - intros h [x y] [d e] (d' & Hx & (e' & Hy & [= <- <-])%bind_Some)%bind_Some; simpl in *.
    pose proof (dc_shared _ _ _ Hx). pose proof (dc_shared _ _ _ Hy). set_solver.
Qed.

(** A struct is its fields under another name. *)
Lemma dc_iso {X Y DX DY} (f : X → Y) (g : Y → X) (dec : DY → DX) rdY locsY shY intoY rdX locsX shX intoX :
  (∀ y, f (g y) = y) →
  (∀ h x, rdX h x = dec <$> rdY h (f x)) → (∀ h x, locsX h x = locsY h (f x)) →
  (∀ h x, shX h x = shY h (f x)) →
  (∀ x h, intoX x h = let '(r, h') := intoY (f x) h in (g <$> r, h')) →
  @DeepCopies Y DY rdY locsY shY intoY → @DeepCopies X DX rdX locsX shX intoX.
Proof.
  intros Hfg Hrd Hlocs Hsh Hinto HC. split.
  - intros h x d Hr. rewrite Hrd in Hr. apply fmap_Some in Hr as (e & Hr & ->).
    destruct (dc_copy h (f x) e Hr) as (y & h' & E & Hs & R & F). exists (g y), h'.
    rewrite Hinto, E, Hrd, Hlocs, Hsh, Hfg, R. done.
  - intros h h' x d Hr Hl. rewrite Hrd in Hr. apply fmap_Some in Hr as (e & Hr & ->).
    rewrite Hrd, !Hlocs, !Hsh. rewrite Hlocs in Hl.
    by destruct (dc_frame h h' (f x) e Hr Hl) as (-> & -> & ->).
  - intros h x d l Hr. rewrite Hrd, Hlocs in *. apply fmap_Some in Hr as (e & Hr & ->). by eapply dc_dom.
  - intros h x d Hr. rewrite Hsh, Hlocs. rewrite Hrd in Hr. apply fmap_Some in Hr as (e & Hr & ->).
    by eapply dc_shared.
Qed.

(** ** Pointers and slices *)

Fixpoint rd_list {X D} (rd : heap → X → option D) (h : heap) (l : list X) : option (list D) :=
  match l with
  | [] => Some []
  | x :: l => d ← rd h x; ds ← rd_list rd h l; Some (d :: ds)
  end.
Definition locs_list {X} (locs : heap → X → gset loc) (h : heap) (l : list X) : gset loc := ⋃ (locs h <$> l).

(** What is behind a reference. *)
Definition rd_ref {R A D} (addr : R → loc) (view : R → cellT → option A) (rd : heap → A → option D)
    (h : heap) (p : option R) : option (option D) :=
  match p with
  | None => Some None
  | Some r => a ← h !! addr r ≫= view r; Some <$> rd h a
  end.
Definition behind {R A} (addr : R → loc) (view : R → cellT → option A) (locs : heap → A → gset loc)
    (h : heap) (p : option R) : gset loc :=
  match p ≫= λ r, h !! addr r ≫= view r with Some a => locs h a | None => ∅ end.
Definition locs_ref {R A} (addr : R → loc) (view : R → cellT → option A) (locs : heap → A → gset loc)
    (h : heap) (p : option R) : gset loc :=
  match p with None => ∅ | Some r => {[addr r]} end ∪ behind addr view locs h p.

Lemma dc_list {X D rd locs sh into} :
  @DeepCopies X D rd locs sh into →
  @DeepCopies (list X) (list D) (rd_list rd) (locs_list locs) (locs_list sh) (copy_elems into).
Proof.
  intros HC. unfold locs_list. split.
  - intros h l. revert h. induction l as [|x l IH]; intros h ds Hr; simpl in *.
    { simplify_eq. exists [], h. split_and!; [done..|]. set_solver. }
    apply bind_Some in Hr as (d & Hx & Hr). apply bind_Some in Hr as (es & Hl & [= <-]).
    destruct (dc_copy h x d Hx) as (x' & h1 & E1 & Hs1 & R1 & F1).
    assert (rd_list rd h1 l = Some es ∧ sh h1 <$> l = sh h <$> l) as [Hl1 Hsh].
    { clear IH. revert es Hl. induction l as [|y l IH]; intros es Hl; simplify_eq/=; [done|].
      apply bind_Some in Hl as (e & Hy & Hl). apply bind_Some in Hl as (es' & Hl & [= <-]).
      destruct (dc_grow _ _ _ _ Hy Hs1) as (-> & _ & ->). simpl. by destruct (IH _ Hl) as [-> ->]. }
    destruct (IH h1 es Hl1) as (l' & h2 & E2 & Hs2 & R2 & F2).
    destruct (dc_grow h1 h2 x' d R1 Hs2) as (R1' & L1' & _).
    exists (x' :: l'), h2. rewrite ST_bind_run, E1, ST_bind_run, E2. csimpl. rewrite R1'. simpl. rewrite R2.
    split_and!; [done|by etrans|done|]. intros y [Hy|Hy]%elem_of_union.
    + rewrite L1' in Hy. apply F1 in Hy as [?|?]; [left; set_solver|auto].
    + apply F2 in Hy as [Hy|?]; [left; rewrite Hsh in Hy; set_solver|right]. by eapply lookup_weaken_None.
  - intros h h' l. induction l as [|x l IH]; intros ds Hr Hf; simplify_eq/=; [done|].
    apply bind_Some in Hr as (d & Hx & Hr). apply bind_Some in Hr as (es & Hl & [= <-]).
    destruct (IH es Hl) as (E0 & E1 & E2); [set_solver|].
    destruct (dc_frame h h' x d Hx) as (-> & -> & ->); [set_solver|]. simpl. by rewrite E0, E1, E2.
  - intros h l ds y. revert ds. induction l as [|x l IH]; intros ds Hr Hy; simplify_eq/=; [set_solver|].
    apply bind_Some in Hr as (d & Hx & Hr). apply bind_Some in Hr as (es & Hl & [= <-]).
    apply elem_of_union in Hy as [Hy|Hy]; eauto using dc_dom.
  - intros h l. induction l as [|x l IH]; intros ds Hr; simplify_eq/=; [done|].
    apply bind_Some in Hr as (d & Hx & Hr). apply bind_Some in Hr as (es & Hl & [= <-]).
    pose proof (dc_shared _ _ _ Hx). specialize (IH _ Hl). set_solver.
Qed.

Lemma new_run (c : cellT) h : ∃ l, h !! l = None ∧ new c h = (Ok l, <[l := c]> h).
Proof.
  exists (fresh (dom h)). split; [|done]. apply not_elem_of_dom, is_fresh.
Qed.

Lemma load_run {A} (view : cellT → option A) l h a : h !! l ≫= view = Some a → load view l h = (Ok a, h).
Proof. intros Hl. unfold load. by rewrite Hl. Qed.

Lemma dc_ref {R A D addr view mk ref rd locs sh into} :
  (∀ l a, addr (ref l a) = l) → (∀ l a, view (ref l a) (mk a) = Some a) → @DeepCopies A D rd locs sh into →
  @DeepCopies (option R) (option D) (rd_ref addr view rd) (locs_ref addr view locs) (behind addr view sh)
    (copy_ref addr view mk ref into).
Proof.
  intros Haddr Hmk HC. unfold locs_ref, behind. split.
  - intros h [p|] d Hr; simplify_eq/=; [|exists None, h; split_and!; [done..|set_solver]].
    apply bind_Some in Hr as (a & Hp & Hr). apply fmap_Some in Hr as (e & Hr & ->).
    destruct (dc_copy h a e Hr) as (a' & h1 & E1 & Hs1 & R1 & F1).
    destruct (new_run (mk a') h1) as (l & Hl & En).
    assert (h1 ⊆ <[l := mk a']> h1) as Hs2 by by apply insert_subseteq.
    destruct (dc_grow _ _ _ _ R1 Hs2) as (R2 & L2 & _).
    exists (Some (ref l a')), (<[l := mk a']> h1). rewrite ST_bind_run, (load_run _ _ _ _ Hp), ST_bind_run, E1,
      ST_bind_run, En. simpl. rewrite Hp, Haddr, lookup_insert_eq. simpl. rewrite Hmk. simpl. rewrite R2, L2.
    split_and!; [done|by etrans|done|]. intros y [->%elem_of_singleton|Hy]%elem_of_union; [|auto].
    right. by eapply lookup_weaken_None.
  - intros h h' [p|] d Hr Hf; simplify_eq/=; [|done].
    apply bind_Some in Hr as (a & Hp & Hr). apply fmap_Some in Hr as (e & Hr & ->).
    rewrite Hf, Hp in * by set_solver. simpl.
    destruct (dc_frame h h' a e Hr) as (-> & -> & ->); [set_solver|]. done.
  - intros h [p|] d y Hr Hy; simplify_eq/=; [|set_solver].
    apply bind_Some in Hr as (a & Hp & Hr). apply fmap_Some in Hr as (e & Hr & ->).
    rewrite Hp in Hy. apply elem_of_union in Hy as [->%elem_of_singleton|Hy].
    + apply bind_Some in Hp as (c & -> & _). eauto.
    + by eapply dc_dom.
  - intros h [p|] d Hr; simplify_eq/=; [|done].
    apply bind_Some in Hr as (a & Hp & Hr). apply fmap_Some in Hr as (e & Hr & ->).
    rewrite Hp. pose proof (dc_shared _ _ _ Hr). set_solver.
Qed.

Definition rd_ptr {A D} (view : cellT → option A) (rd : heap → A → option D) := rd_ref (λ l, l) (λ _, view) rd.
Definition locs_ptr {A} (view : cellT → option A) (locs : heap → A → gset loc) := locs_ref (λ l, l) (λ _, view) locs.
Definition shared_ptr {A} (view : cellT → option A) (sh : heap → A → gset loc) := behind (λ l, l) (λ _, view) sh.

Definition rd_slice {A D} (view : cellT → option (list A)) (rd : heap → A → option D) :=
  rd_ref sl_array (λ s c, window s <$> view c) (rd_list rd).
Definition locs_slice {A} (view : cellT → option (list A)) (locs : heap → A → gset loc) :=
  locs_ref sl_array (λ s c, window s <$> view c) (locs_list locs).
Definition shared_slice {A} (view : cellT → option (list A)) (sh : heap → A → gset loc) :=
  behind sl_array (λ s c, window s <$> view c) (locs_list sh).

Lemma dc_ptr {A D view mk rd locs sh into} :
  (∀ a, view (mk a) = Some a) → @DeepCopies A D rd locs sh into →
  @DeepCopies (option loc) (option D) (rd_ptr view rd) (locs_ptr view locs) (shared_ptr view sh)
    (copy_ptr view mk into).
Proof. intros Hmk HC. by apply dc_ref. Qed.

Lemma window_all {A} a (l : list A) : window (mkSlice a 0 (length l)) l = l.
Proof. unfold window. simpl. by rewrite drop_0, firstn_all. Qed.

Lemma dc_slice {A D view mk rd locs sh into} :
  (∀ l, view (mk l) = Some l) → @DeepCopies A D rd locs sh into →
  @DeepCopies (option slice) (option (list D)) (rd_slice view rd) (locs_slice view locs) (shared_slice view sh)
    (copy_slice view mk into).
Proof.
  intros Hmk HC. apply dc_ref; [done| |by apply dc_list].
  intros l a. simpl. rewrite Hmk. simpl. by rewrite window_all.
Qed.

(** ** Independence, from the laws *)

Lemma dc_independent {X D rd locs sh into} `{!@DeepCopies X D rd locs sh into} h x d :
  rd h x = Some d →
  ∃ x' h', into x h = (Ok x', h') ∧ h ⊆ h' ∧ rd h' x = Some d ∧ rd h' x' = Some d
  ∧ (∀ l c, l ∈ locs h' x' → l ∉ sh h x → rd (<[l := c]> h') x = Some d)
  ∧ (∀ l c, l ∈ locs h x → l ∉ sh h x → rd (<[l := c]> h') x' = Some d).
Proof.
  intros Hr. destruct (dc_copy h x d Hr) as (x' & h' & E & Hs & R & F).
  destruct (dc_grow _ _ _ _ Hr Hs) as (Hr' & Hl' & _).
  exists x', h'. split_and!; [done..| |].
  - intros l c Hl Hn. eapply (dc_frame h'); [done|]. rewrite Hl'. intros y Hy.
    rewrite lookup_insert_ne; [done|]. intros ->.
    destruct (F _ Hl) as [?|Hnone]; [done|]. destruct (dc_dom _ _ _ _ Hr Hy). congruence.
  - intros l c Hl Hn. eapply (dc_frame h'); [done|]. intros y Hy.
    rewrite lookup_insert_ne; [done|]. intros ->.
    destruct (F _ Hy) as [?|Hnone]; [done|]. destruct (dc_dom _ _ _ _ Hr Hl). congruence.
Qed.
End laws.

(** ** The types of the package *)

Section package.
Context {Meta ListMeta MetaCell : Type}.
Abbreviation cellT := (cell Meta ListMeta MetaCell).
Abbreviation heap := (gmap loc cellT).
Abbreviation H := (ST heap).

Definition rd_flat {X} (h : heap) (x : X) : option X := Some x.
Definition no_locs {X} (h : heap) (x : X) : gset loc := ∅.

(** What a struct in memory says, as the values of Hso. *)
Definition read_Replicas (h : heap) (r : ReplicaStruct_m) : option ReplicaStruct :=
  mn ← rd_ptr as_int32 rd_flat h (rm_Min r);
  mx ← rd_ptr as_int32 rd_flat h (rm_Max r);
  Some (mkReplicas mn mx).
Definition locs_Replicas (h : heap) (r : ReplicaStruct_m) : gset loc :=
  locs_ptr as_int32 no_locs h (rm_Min r) ∪ locs_ptr as_int32 no_locs h (rm_Max r).

Definition read_Spec (h : heap) (s : Spec_m) : option HTTPScaledObjectSpec :=
  host ← rd_ptr as_string rd_flat h (sm_Host s);
  hosts ← rd_slice as_strings rd_flat h (sm_Hosts s);
  ref ← rd_ptr as_ref rd_flat h (sm_ScaleTargetRef s);
  reps ← rd_ptr as_replicas read_Replicas h (sm_Replicas s);
  tpr ← rd_ptr as_int32 rd_flat h (sm_TargetPendingRequests s);
  cd ← rd_ptr as_int32 rd_flat h (sm_CooldownPeriod s);
  Some (mkSpec host hosts ref reps tpr cd).

(** The string [Host] points at and the array behind [Hosts]. *)
Definition host_locs (h : heap) (s : Spec_m) : gset loc :=
  locs_ptr as_string no_locs h (sm_Host s) ∪ locs_slice as_strings no_locs h (sm_Hosts s).

Definition locs_Spec (h : heap) (s : Spec_m) : gset loc :=
  host_locs h s
  ∪ locs_ptr as_ref no_locs h (sm_ScaleTargetRef s) ∪ locs_ptr as_replicas locs_Replicas h (sm_Replicas s)
  ∪ locs_ptr as_int32 no_locs h (sm_TargetPendingRequests s) ∪ locs_ptr as_int32 no_locs h (sm_CooldownPeriod s).

Definition read_Status (h : heap) (s : Status_m) : option (option (list HTTPScaledObjectCondition)) :=
  rd_slice as_conditions rd_flat h (stm_Conditions s).
Definition locs_Status (h : heap) (s : Status_m) : gset loc :=
  locs_slice as_conditions no_locs h (stm_Conditions s).

(** A struct's copy is the copies of its fields in order. *)
Ltac run_fields :=
  intros [] ?; simpl; unfold mret, ST_ret;
  repeat (rewrite ?ST_bind_run; simpl;
    match goal with
    | |- context [match ?e with (_, _) => _ end] =>
        lazymatch e with context [match _ with _ => _ end] => fail | _ => idtac end;
        destruct e as [[?|?|?] ?]; simpl; try done
    end); done.
Ltac read_fields :=
  intros ? []; simpl;
  repeat match goal with
    | |- context [?e ≫= _] => destruct e; simpl; try done
    end; done.

#[local] Instance flat_copies {X} : @DeepCopies Meta ListMeta MetaCell X X rd_flat no_locs no_locs mret :=
  dc_flat.

Lemma shared_ptr_none {A} (view : cellT → option A) h p : shared_ptr view no_locs h p = ∅.
Proof. unfold shared_ptr, behind, no_locs. by repeat case_match. Qed.

Lemma shared_slice_none {A} (view : cellT → option (list A)) h p : shared_slice view no_locs h p = ∅.
Proof.
  unfold shared_slice, behind. case_match; [|done]. unfold locs_list. clear. induction l; [done|].
  csimpl. rewrite IHl. unfold no_locs. set_solver.
Qed.

#[local] Instance Replicas_copies :
  DeepCopies read_Replicas locs_Replicas no_locs ReplicaStruct_DeepCopyInto.
Proof.
  pose proof (dc_ptr (mk := CInt32) (view := as_int32) (λ _, eq_refl) (flat_copies (X := Z))) as P.
  refine (dc_iso (λ r, (rm_Min r, rm_Max r)) (λ p, mkReplicas_m p.1 p.2) (λ d, mkReplicas d.1 d.2)
    _ _ _ _ _ _ _ _ _ _ _ _ _ (dc_pair _ _ _ _ _ _ _ _ P P)).
  - by intros [].
  - unfold read_Replicas. read_fields.
  - done.
  - intros h [a b]. simpl. rewrite !shared_ptr_none. unfold no_locs. set_solver.
  - unfold ReplicaStruct_DeepCopyInto, int32_copy. run_fields.
Qed.

(** The copy of a spec shares [Host] and [Hosts]. *)
#[local] Instance Spec_copies : DeepCopies read_Spec locs_Spec host_locs Spec_DeepCopyInto.
Proof.
  pose proof (dc_ptr (mk := CString) (view := as_string) (λ _, eq_refl) (flat_copies (X := string))) as P1.
  apply dc_shallow in P1.
  pose proof (dc_slice (mk := AStrings) (view := as_strings) (λ _, eq_refl) (flat_copies (X := string))) as P2.
  apply dc_shallow in P2.
  pose proof (dc_ptr (mk := CScaleTargetRef) (view := as_ref) (λ _, eq_refl) (flat_copies (X := ScaleTargetRef))) as P3.
  pose proof (dc_ptr (mk := CReplicas) (view := as_replicas) (λ _, eq_refl) Replicas_copies) as P4.
  pose proof (dc_ptr (mk := CInt32) (view := as_int32) (λ _, eq_refl) (flat_copies (X := Z))) as P5.
  pose proof (dc_pair _ _ _ _ _ _ _ _ P1 P2) as Q. apply (dc_pair _ _ _ _ _ _ _ _ Q) in P3 as Q1.
  apply (dc_pair _ _ _ _ _ _ _ _ Q1) in P4 as Q2. pose proof (dc_pair _ _ _ _ _ _ _ _ Q2 P5) as Q3.
  pose proof (dc_pair _ _ _ _ _ _ _ _ Q3 P5) as Q4.
  refine (dc_iso (λ s, (sm_Host s, sm_Hosts s, sm_ScaleTargetRef s, sm_Replicas s,
                        sm_TargetPendingRequests s, sm_CooldownPeriod s))
    (λ '(a, b, c, d, e, f), mkSpec_m a b c d e f) (λ '(a, b, c, d, e, f), mkSpec a b c d e f)
    _ _ _ _ _ _ _ _ _ _ _ _ _ Q4).
  - by intros [[[[[]]]]].
  - unfold read_Spec. read_fields.
  - done.
  - intros h []. simpl. rewrite !shared_ptr_none. unfold host_locs. simpl. set_solver.
  - unfold Spec_DeepCopyInto, int32_copy, ScaleTargetRef_DeepCopyInto. run_fields.
Qed.

#[local] Instance Status_copies : DeepCopies read_Status locs_Status no_locs Status_DeepCopyInto.
Proof.
  pose proof (dc_slice (mk := AConditions) (view := as_conditions) (λ _, eq_refl)
    (flat_copies (X := HTTPScaledObjectCondition))) as P.
  refine (dc_iso stm_Conditions mkStatus_m (λ d, d) _ _ _ _ _ _ _ _ _ _ _ _ _ P); try done.
  - intros h []. unfold read_Status. simpl. by destruct (rd_slice _ _ _ _).
  - intros h s. by rewrite shared_slice_none.
  - unfold Status_DeepCopyInto, Condition_DeepCopyInto. run_fields.
Qed.

(** ** A store into an array of strings *)

(** A pointer to anything else does not see it. *)
Lemma rd_ptr_other {A D} (view : cellT → option A) (rd : heap → A → option D) h l x y p d :
  (∀ z, view (AStrings z) = None) → (∀ a d, rd h a = Some d → rd (<[l := AStrings y]> h) a = Some d) →
  h !! l = Some (AStrings x) → rd_ptr view rd h p = Some d → rd_ptr view rd (<[l := AStrings y]> h) p = Some d.
Proof.
  intros Hv Hrd Hl. destruct p as [p|]; [|done]. unfold rd_ptr, rd_ref. intros (a & Hp & Hr)%bind_Some.
  destruct (decide (p = l)) as [->|Hn]; [by rewrite Hl in Hp; simpl in Hp; rewrite Hv in Hp|].
  rewrite lookup_insert_ne, Hp by done. simpl. apply fmap_Some in Hr as (e & Hr & ->). by rewrite (Hrd _ _ Hr).
Qed.

Lemma rd_flat_other {A} (view : cellT → option A) h l x y p d :
  (∀ z, view (AStrings z) = None) → h !! l = Some (AStrings x) →
  rd_ptr view rd_flat h p = Some d → rd_ptr view rd_flat (<[l := AStrings y]> h) p = Some d.
Proof. intros Hv. by apply rd_ptr_other. Qed.

Lemma read_Replicas_other h l x y r d :
  h !! l = Some (AStrings x) → read_Replicas h r = Some d → read_Replicas (<[l := AStrings y]> h) r = Some d.
Proof.
  intros Hl (mn & Hmn & (mx & Hmx & [= <-])%bind_Some)%bind_Some. unfold read_Replicas.
  rewrite (rd_flat_other _ _ _ _ y _ _ (λ _, eq_refl) Hl Hmn). simpl.
  by rewrite (rd_flat_other _ _ _ _ y _ _ (λ _, eq_refl) Hl Hmx).
Qed.

Definition set_Hosts (hosts : option (list string)) (v : HTTPScaledObjectSpec) : HTTPScaledObjectSpec :=
  mkSpec (spec_Host v) hosts (spec_ScaleTargetRef v) (spec_Replicas v) (spec_TargetPendingRequests v)
    (spec_CooldownPeriod v).

Lemma rd_list_flat {X} (h : heap) (l : list X) : rd_list rd_flat h l = Some l.
Proof. induction l as [|a l IH]; [done|]. simpl. by rewrite IH. Qed.

Lemma rd_slice_store (h : heap) sl y :
  rd_slice as_strings rd_flat (<[sl_array sl := AStrings y]> h) (Some sl) = Some (Some (window sl y)).
Proof. unfold rd_slice, rd_ref. rewrite lookup_insert_eq. simpl. by rewrite rd_list_flat. Qed.

Lemma read_Spec_store h s v sl y :
  read_Spec h s = Some v → sm_Hosts s = Some sl →
  read_Spec (<[sl_array sl := AStrings y]> h) s = Some (set_Hosts (Some (window sl y)) v).
Proof.
  intros (host & H1 & (hosts & H2 & (ref & H3 & (reps & H4 & (tpr & H5 & (cd & H6 & [= <-])%bind_Some)
    %bind_Some)%bind_Some)%bind_Some)%bind_Some)%bind_Some Hs.
  unfold read_Spec. rewrite Hs in *. destruct (h !! sl_array sl ≫= as_strings) as [x|] eqn:Hx;
    [|unfold rd_slice, rd_ref in H2; apply bind_Some in H2 as (? & (c & Hc & Hw)%bind_Some & _);
      rewrite Hc in Hx; simpl in Hx; by rewrite Hx in Hw].
  apply bind_Some in Hx as (c & Hc & Hx). destruct c; try discriminate Hx.
  rewrite (rd_flat_other _ _ _ _ y _ _ (λ _, eq_refl) Hc H1). cbn [mbind option_bind].
  rewrite rd_slice_store. cbn [mbind option_bind].
  rewrite (rd_flat_other _ _ _ _ y _ _ (λ _, eq_refl) Hc H3). cbn [mbind option_bind].
  rewrite (rd_ptr_other _ _ _ _ _ y _ _ (λ _, eq_refl) (λ a d, read_Replicas_other _ _ _ y a d Hc) Hc H4). cbn [mbind option_bind].
  rewrite (rd_flat_other _ _ _ _ y _ _ (λ _, eq_refl) Hc H5). cbn [mbind option_bind].
  by rewrite (rd_flat_other _ _ _ _ y _ _ (λ _, eq_refl) Hc H6).
Qed.

(** ** Objects and lists *)

Context {MD LD : Type}.
Context (read_Meta : heap → Meta → option MD) (locs_Meta : heap → Meta → gset loc).
Context (read_LMeta : heap → ListMeta → option LD) (locs_LMeta : heap → ListMeta → gset loc).

Record object_data : Type := mkData {
  od_TypeMeta : string * string;
  od_Meta : MD;
  od_Spec : HTTPScaledObjectSpec;
  od_Conditions : option (list HTTPScaledObjectCondition);
}.

Definition read_Object (h : heap) (o : Object_m Meta) : option object_data :=
  meta ← read_Meta h (om_ObjectMeta o);
  spec ← read_Spec h (om_Spec o);
  status ← read_Status h (om_Status o);
  Some (mkData (om_TypeMeta o) meta spec status).
Definition locs_Object (h : heap) (o : Object_m Meta) : gset loc :=
  locs_Meta h (om_ObjectMeta o) ∪ locs_Spec h (om_Spec o) ∪ locs_Status h (om_Status o).

Definition read_List (h : heap) (l : List_m ListMeta) : option ((string * string) * LD * option (list object_data)) :=
  meta ← read_LMeta h (lm_ListMeta l);
  items ← rd_slice as_items read_Object h (lm_Items l);
  Some (lm_TypeMeta l, meta, items).
Definition locs_List (h : heap) (l : List_m ListMeta) : gset loc :=
  locs_LMeta h (lm_ListMeta l) ∪ locs_slice as_items locs_Object h (lm_Items l).

(** The strings and arrays of the hosts of a list's items. *)
Definition list_host_locs (h : heap) (l : List_m ListMeta) : gset loc :=
  shared_slice as_items (λ h o, host_locs h (om_Spec o)) h (lm_Items l).

Section meta_laws.
Context (ObjectMeta_DeepCopyInto : Meta → H Meta) (ListMeta_DeepCopyInto : ListMeta → H ListMeta).
Context `{HM : !DeepCopies read_Meta locs_Meta no_locs ObjectMeta_DeepCopyInto}.
Context `{HL : !DeepCopies read_LMeta locs_LMeta no_locs ListMeta_DeepCopyInto}.

#[local] Instance Object_copies :
  DeepCopies read_Object locs_Object (λ h o, host_locs h (om_Spec o)) (Object_DeepCopyInto ObjectMeta_DeepCopyInto).
Proof.
  pose proof (dc_pair _ _ _ _ _ _ _ _ (flat_copies (X := string * string)) HM) as Q1.
  pose proof (dc_pair _ _ _ _ _ _ _ _ (dc_pair _ _ _ _ _ _ _ _ Q1 Spec_copies) Status_copies) as Q.
  refine (dc_iso (λ o, (om_TypeMeta o, om_ObjectMeta o, om_Spec o, om_Status o))
    (λ '(a, b, c, d), mkObject_m a b c d) (λ '(a, b, c, d), mkData a b c d) _ _ _ _ _ _ _ _ _ _ _ _ _ Q).
  - by intros [[[]]].
  - unfold read_Object, rd_flat. read_fields.
  - intros h o. unfold locs_Object, no_locs. simpl. set_solver.
  - intros h o. unfold no_locs. simpl. set_solver.
  - unfold Object_DeepCopyInto. run_fields.
Qed.

#[local] Instance List_copies :
  DeepCopies read_List locs_List list_host_locs (List_DeepCopyInto ObjectMeta_DeepCopyInto ListMeta_DeepCopyInto).
Proof.
  pose proof (dc_pair _ _ _ _ _ _ _ _ (flat_copies (X := string * string)) HL) as Q1.
  pose proof (dc_slice (mk := AItems) (view := as_items) (λ _, eq_refl) Object_copies) as Q2.
  pose proof (dc_pair _ _ _ _ _ _ _ _ Q1 Q2) as Q.
  refine (dc_iso (λ l, (lm_TypeMeta l, lm_ListMeta l, lm_Items l))
    (λ '(a, b, c), mkList_m a b c) (λ d, d) _ _ _ _ _ _ _ _ _ _ _ _ _ Q).
  - by intros [[]].
  - unfold read_List, rd_flat. read_fields.
  - intros h l. unfold locs_List, no_locs. simpl. set_solver.
  - intros h l. unfold list_host_locs, no_locs. simpl. set_solver.
  - unfold List_DeepCopyInto. run_fields.
Qed.
End meta_laws.

End package.

(** ** Properties *)

(** C24: type. Copying a list of HTTPScaledObjects gives a list that reads the
    same, whatever its items point at, without touching what existed; and the
    two are independent: no store into memory the copy reaches is seen through
    the original, and none into the original's through the copy, as long as it
    is not a [Host] string or a [Hosts] array of an item. *)
Theorem List_DeepCopy_independent {Meta ListMeta MetaCell MD LD}
    (read_Meta : gmap loc (cell Meta ListMeta MetaCell) → Meta → option MD) locs_Meta
    (read_LMeta : gmap loc (cell Meta ListMeta MetaCell) → ListMeta → option LD) locs_LMeta
    (meta_copy : Meta → ST (gmap loc (cell Meta ListMeta MetaCell)) Meta)
    (lmeta_copy : ListMeta → ST (gmap loc (cell Meta ListMeta MetaCell)) ListMeta)
    (h : gmap loc (cell Meta ListMeta MetaCell)) (p : option loc) d :
  DeepCopies read_Meta locs_Meta no_locs meta_copy → DeepCopies read_LMeta locs_LMeta no_locs lmeta_copy →
  let read := rd_ptr as_list (read_List read_Meta read_LMeta) in
  let locs := locs_ptr as_list (locs_List locs_Meta locs_LMeta) in
  let hosts := shared_ptr as_list list_host_locs h p in
  read h p = Some d →
  ∃ p' h', List_DeepCopy meta_copy lmeta_copy p h = (Ok p', h') ∧ h ⊆ h' ∧ read h' p = Some d ∧ read h' p' = Some d
  ∧ (∀ l c, l ∈ locs h' p' → l ∉ hosts → read (<[l := c]> h') p = Some d)
  ∧ (∀ l c, l ∈ locs h p → l ∉ hosts → read (<[l := c]> h') p' = Some d).
Proof.
  intros HM HL. intros. pose proof (List_copies read_Meta locs_Meta read_LMeta locs_LMeta meta_copy lmeta_copy) as HC.
  apply (dc_independent (H0 := dc_ptr (mk := CList) (view := as_list) (λ _, eq_refl) HC)). done.
Qed.

(** [Hosts] is not copied: after a deep copy of a spec the copy's
    slice is the original's, so whatever is stored into its array through the
    copy is what the original now says. *)
Theorem Spec_DeepCopy_shares_hosts {Meta ListMeta MetaCell} (h h' : gmap loc (cell Meta ListMeta MetaCell))
    (s s' : Spec_m) (v : HTTPScaledObjectSpec) (sl : slice) (y : list string) :
  read_Spec h s = Some v → sm_Hosts s = Some sl → Spec_DeepCopyInto s h = (Ok s', h') →
  sm_Hosts s' = Some sl
  ∧ read_Spec (<[sl_array sl := AStrings y]> h') s = Some (set_Hosts (Some (window sl y)) v).
Proof.
  intros Hr Hs E. pose proof (Spec_copies (Meta := Meta) (ListMeta := ListMeta) (MetaCell := MetaCell)) as HC. destruct (dc_copy h s v Hr) as (s1 & h1 & E1 & Hsub & _).
  rewrite E in E1. simplify_eq. split.
  - unfold Spec_DeepCopyInto in E.
    repeat (apply ST_bind_Ok in E as (? & ? & _ & E)). simplify_eq/=. by inversion E.
  - apply read_Spec_store; [|done]. by eapply dc_grow.
Qed.

(** Metadata with a name and a slice of finalizers, for the witnesses. *)
Definition demo_meta : Type := string * option slice.
Abbreviation demo_heap := (gmap loc (cell demo_meta string (list string))).
Definition as_meta (c : cell demo_meta string (list string)) : option (list string) :=
  if c is CMeta l then Some l else None.
Definition demo_meta_copy : demo_meta → ST demo_heap demo_meta := λ p,
  a ← mret p.1; b ← copy_slice as_meta CMeta mret p.2; mret (a, b).
Definition demo_read_meta (h : demo_heap) (p : demo_meta) : option (string * option (list string)) :=
  a ← rd_flat h p.1; b ← rd_slice as_meta rd_flat h p.2; Some (a, b).
Definition demo_locs_meta (h : demo_heap) (p : demo_meta) : gset loc :=
  no_locs h p.1 ∪ locs_slice as_meta no_locs h p.2.

Lemma demo_meta_copies : DeepCopies demo_read_meta demo_locs_meta no_locs demo_meta_copy.
Proof.
  pose proof (dc_pair _ _ _ _ _ _ _ _ (flat_copies (X := string))
    (dc_slice (mk := CMeta) (view := as_meta) (λ _, eq_refl) (flat_copies (X := string)))) as Q.
  refine (dc_iso (λ p, p) (λ p, p) (λ d, d) _ _ _ _ _ _ _ _ _ _ _ _ _ Q); try done.
  - intros h p. unfold demo_read_meta. by destruct (rd_slice _ _ _ _).
  - intros h p. rewrite shared_slice_none. unfold no_locs. set_solver.
  - intros p h. change (demo_meta_copy p h = let '(r, h') := demo_meta_copy p h in ((λ p, p) <$> r, h')).
    by destruct (demo_meta_copy p h) as [[] ?].
Qed.

(** One list with one object: [hosts] is a window on the array at 3. *)
Definition demo_spec : Spec_m := mkSpec_m None (Some (mkSlice 3%nat 1%nat 2%nat)) (Some 4%nat) (Some 5%nat) (Some 6%nat) None.
Definition demo_memory : demo_heap :=
  {[ 0%nat := CList (mkList_m ("v1", "List") "17" (Some (mkSlice 1%nat 0%nat 1%nat)));
     1%nat := AItems [mkObject_m ("v1", "HTTPScaledObject") ("app", Some (mkSlice 2%nat 0%nat 1%nat)) demo_spec (mkStatus_m None)];
     2%nat := CMeta ["finalizer"];
     3%nat := AStrings ["x"; "a.dp-1"; "b.dp-1"];
     4%nat := CScaleTargetRef (mkScaleTargetRef "web" "app" 8080);
     5%nat := CReplicas (mkReplicas_m (Some 7%nat) None);
     6%nat := CInt32 100;
     7%nat := CInt32 1 ]}.

Lemma List_DeepCopy_independent_witness :
  let read := rd_ptr as_list (read_List demo_read_meta rd_flat) in
  let locs := locs_ptr as_list (locs_List demo_locs_meta no_locs) in
  ∃ d p' h', List_DeepCopy demo_meta_copy mret (Some 0%nat) demo_memory = (Ok p', h') ∧ read h' p' = Some d
  ∧ ∀ c, read (<[5%nat := c]> h') p' = Some d.
Proof.
  simpl. destruct (List_DeepCopy_independent demo_read_meta demo_locs_meta rd_flat no_locs demo_meta_copy mret
    demo_memory (Some 0%nat) (Some (("v1", "List"), "17", Some [mkData ("v1", "HTTPScaledObject") ("app", Some ["finalizer"])
      (mkSpec None (Some ["a.dp-1"; "b.dp-1"]) (Some (mkScaleTargetRef "web" "app" 8080))
         (Some (mkReplicas (Some 1) None)) (Some 100) None) None])))
    as (p' & h' & E & _ & _ & R & _ & I).
  - apply demo_meta_copies.
  - apply flat_copies.
  - by vm_compute.
  - eexists _, p', h'. split_and!; [exact E|exact R|]. intros c. apply I.
    + apply (bool_decide_unpack _). by vm_compute.
    + apply (bool_decide_unpack _). by vm_compute.
Defined.

Lemma Spec_DeepCopy_shares_hosts_witness :
  ∃ s' h', Spec_DeepCopyInto demo_spec demo_memory = (Ok s', h')
  ∧ sm_Hosts s' = Some (mkSlice 3%nat 1%nat 2%nat)
  ∧ spec_Hosts <$> read_Spec (<[3%nat := AStrings ["x"; "evil.dp-2"; "b.dp-1"]]> h') demo_spec
    = Some (Some ["evil.dp-2"; "b.dp-1"]).
Proof.
  destruct (Spec_DeepCopyInto demo_spec demo_memory) as [[s'|e|p] h'] eqn:E; [|by vm_compute in E..].
  exists s', h'. split; [done|].
  destruct (Spec_DeepCopy_shares_hosts demo_memory h' demo_spec s'
    (mkSpec None (Some ["a.dp-1"; "b.dp-1"]) (Some (mkScaleTargetRef "web" "app" 8080))
         (Some (mkReplicas (Some 1) None)) (Some 100) None) (mkSlice 3%nat 1%nat 2%nat)
    ["x"; "evil.dp-2"; "b.dp-1"]) as [E1 E2]; [by vm_compute|done|done|].
  split; [exact E1|]. exact (f_equal (fmap spec_Hosts) E2).
Defined.
