(* ===== verification/Kube.v ===== *)
(** * The Kubernetes API as the operator uses it (client.Client of controller-runtime; pkg/k8s/config_map.go, endpoints.go)

    The client is not under src/. It is a class of operations over a state [W];
    what the operator relies on is the class of laws [ClientLaws], stated on a
    view of [W] as a cluster: an operation that succeeds has its documented
    effect, one that fails has that effect or none. [MemCluster] is an in-memory
    server that satisfies the laws, with a script of failures of both kinds
    (refused calls, and calls that were served and whose answers were lost) and a
    log of the ConfigMaps it has stored. *)

From S2P Require Import Prelude GoStrings GoUrl Routing ConfigMaps K8s Hso.

(** ** The cluster *)

Record cluster : Type := mkCluster {
  configmaps : gmap objKey ConfigMap;
  httpscaledobjects : gmap objKey HTTPScaledObject;
  scaledobjects : gmap objKey ScaledObject;
  endpoints : gmap objKey Endpoints;
}.

Definition set_configmaps (f : gmap objKey ConfigMap → gmap objKey ConfigMap) (c : cluster) : cluster :=
  mkCluster (f (configmaps c)) (httpscaledobjects c) (scaledobjects c) (endpoints c).
Definition set_httpscaledobjects (f : gmap objKey HTTPScaledObject → gmap objKey HTTPScaledObject)
    (c : cluster) : cluster :=
  mkCluster (configmaps c) (f (httpscaledobjects c)) (scaledobjects c) (endpoints c).
Definition set_scaledobjects (f : gmap objKey ScaledObject → gmap objKey ScaledObject)
    (c : cluster) : cluster :=
  mkCluster (configmaps c) (httpscaledobjects c) (f (scaledobjects c)) (endpoints c).

Definition hso_key (o : HTTPScaledObject) : objKey := ObjKey (hso_Namespace o) (hso_Name o).
Definition so_key (o : ScaledObject) : objKey := ObjKey (so_Namespace o) (so_Name o).
Definition cm_key (o : ConfigMap) : objKey := ObjKey (cm_Namespace o) (cm_Name o).

(** ** Documented effects *)

(** [client.MergeFrom(old)] of [new], applied to the data the server has: the
    keys that differ are set or removed. *)
Definition merge_data (old new cur : gmap string string) : gmap string string :=
  merge (λ (d : option string) (c : option string), match d with Some d => Some d | None => c end)
    (filter (λ kv, old !! kv.1 ≠ Some kv.2) new)
    (filter (λ kv, ¬ (is_Some (old !! kv.1) ∧ new !! kv.1 = None)) cur).

Definition merge_configmap (old new cur : ConfigMap) : ConfigMap :=
  mkConfigMap (cm_Namespace cur) (cm_Name cur)
    (match cm_Data new, cm_Data cur with
     | None, None => None
     | _, _ => Some (merge_data (default ∅ (cm_Data old)) (default ∅ (cm_Data new)) (default ∅ (cm_Data cur)))
     end).

(** [client.Merge] of a whole ScaledObject: a JSON merge patch, in which fields
    that are omitted when empty leave the server's value, maps are merged and
    lists replaced. *)
Definition merge_scaledobject (patch cur : ScaledObject) : ScaledObject := {|
  so_APIVersion := so_APIVersion cur;
  so_Kind := so_Kind cur;
  so_Namespace := so_Namespace cur;
  so_Name := so_Name cur;
  so_Labels := so_Labels patch ∪ so_Labels cur;
  so_TargetAPIVersion := so_TargetAPIVersion patch;
  so_TargetKind := so_TargetKind patch;
  so_TargetName := so_TargetName patch;
  so_PollingInterval := match so_PollingInterval patch with Some v => Some v | None => so_PollingInterval cur end;
  so_CooldownPeriod := match so_CooldownPeriod patch with Some v => Some v | None => so_CooldownPeriod cur end;
  so_MinReplicaCount := match so_MinReplicaCount patch with Some v => Some v | None => so_MinReplicaCount cur end;
  so_MaxReplicaCount := match so_MaxReplicaCount patch with Some v => Some v | None => so_MaxReplicaCount cur end;
  so_RestoreToOriginalReplicaCount :=
    so_RestoreToOriginalReplicaCount patch || so_RestoreToOriginalReplicaCount cur;
  so_Triggers := so_Triggers patch;
|}.

Definition or_else {A} (x y : option A) : option A := match x with Some a => Some a | None => y end.

(** An answer of the server decoded into an object that is not empty: JSON
    leaves what the answer omits. *)
Definition decode_into (stored mine : HTTPScaledObject) : HTTPScaledObject :=
  let s := hso_Spec stored in
  let m := hso_Spec mine in
  mkHso (hso_Namespace stored) (hso_Name stored) (hso_ResourceVersion stored)
    (or_else (hso_DeletionTimestamp stored) (hso_DeletionTimestamp mine))
    (match hso_Finalizers stored with [] => hso_Finalizers mine | l => l end)
    (mkSpec (or_else (spec_Host s) (spec_Host m))
            (match spec_Hosts s with Some (_ :: _) => spec_Hosts s | _ => spec_Hosts m end)
            (or_else (spec_ScaleTargetRef s) (spec_ScaleTargetRef m))
            (or_else (spec_Replicas s) (spec_Replicas m))
            (or_else (spec_TargetPendingRequests s) (spec_TargetPendingRequests m))
            (or_else (spec_CooldownPeriod s) (spec_CooldownPeriod m)))
    (match hso_Conditions stored with [] => hso_Conditions mine | l => l end).

(** ** The client *)

Class Client (W : Type) : Type := {
  Get_ConfigMap : objKey → ST W ConfigMap;
  Patch_ConfigMap : ConfigMap → ConfigMap → ST W unit;
  Get_HTTPScaledObject : objKey → ST W HTTPScaledObject;
  (** the object afterwards, as the call leaves it in memory *)
  Update_HTTPScaledObject : HTTPScaledObject → ST W HTTPScaledObject;
  Status_Update : HTTPScaledObject → ST W HTTPScaledObject;
  Create_ScaledObject : ScaledObject → ST W unit;
  Get_ScaledObject : objKey → ST W ScaledObject;
  Patch_ScaledObject : ScaledObject → ST W unit;
  Delete_ScaledObject : objKey → ST W unit;
  Get_Endpoints : objKey → ST W Endpoints;
  (** [time.Now().Format(time.RFC3339)] *)
  Now_RFC3339 : W → string;
}.

Section laws.
Context {W : Type} (view : W → cluster).

(** [m] fails with one of its effects or none, or succeeds with its effect; it
    does not panic. *)
Definition effect {A} (m : ST W A) (eff : cluster → A → cluster → Prop) : Prop :=
  ∀ w, match m w with
       | (Ok a, w') => eff (view w) a (view w')
       | (Err _, w') => view w' = view w ∨ ∃ a, eff (view w) a (view w')
       | (Panic _, _) => False
       end.
End laws.

(** An update of an HTTPScaledObject: it is stored under a new version, with its
    status kept ([status = false]) or with only its status changed. A deleted
    object that has lost its last finalizer goes. *)
Definition stored_update (status : bool) (o cur : HTTPScaledObject) (rv : Z) : HTTPScaledObject :=
  if status then
    mkHso (hso_Namespace cur) (hso_Name cur) rv (hso_DeletionTimestamp cur) (hso_Finalizers cur)
      (hso_Spec cur) (hso_Conditions o)
  else
    mkHso (hso_Namespace cur) (hso_Name cur) rv (hso_DeletionTimestamp cur) (hso_Finalizers o)
      (hso_Spec o) (hso_Conditions cur).

Definition put_hso (o : HTTPScaledObject) (m : gmap objKey HTTPScaledObject) : gmap objKey HTTPScaledObject :=
  match hso_DeletionTimestamp o, hso_Finalizers o with
  | Some _, [] => delete (hso_key o) m
  | _, _ => <[hso_key o := o]> m
  end.

Definition update_effect (status : bool) (o : HTTPScaledObject) (c : cluster) (o' : HTTPScaledObject)
    (c' : cluster) : Prop :=
  ∃ cur rv, httpscaledobjects c !! hso_key o = Some cur
  ∧ c' = set_httpscaledobjects (put_hso (stored_update status o cur rv)) c
  ∧ o' = decode_into (stored_update status o cur rv) o.

Class ClientLaws (W : Type) `{Client W} (view : W → cluster) : Prop := {
  Get_ConfigMap_law k : effect view (Get_ConfigMap k) (λ c cm c',
    c' = c ∧ configmaps c !! k = Some cm);
  Patch_ConfigMap_law old new : effect view (Patch_ConfigMap old new) (λ c _ c',
    ∃ cur, configmaps c !! cm_key new = Some cur
    ∧ c' = set_configmaps (<[cm_key new := merge_configmap old new cur]>) c);
  Get_HTTPScaledObject_law k : effect view (Get_HTTPScaledObject k) (λ c o c',
    c' = c ∧ httpscaledobjects c !! k = Some o);
  Update_HTTPScaledObject_law o :
    effect view (Update_HTTPScaledObject o) (update_effect false o);
  Status_Update_law o : effect view (Status_Update o) (update_effect true o);
  Create_ScaledObject_law so : effect view (Create_ScaledObject so) (λ c _ c',
    scaledobjects c !! so_key so = None ∧ c' = set_scaledobjects (<[so_key so := so]>) c);
  Get_ScaledObject_law k : effect view (Get_ScaledObject k) (λ c so c',
    c' = c ∧ scaledobjects c !! k = Some so);
  Patch_ScaledObject_law so : effect view (Patch_ScaledObject so) (λ c _ c',
    ∃ cur, scaledobjects c !! so_key so = Some cur
    ∧ c' = set_scaledobjects (<[so_key so := merge_scaledobject so cur]>) c);
  Delete_ScaledObject_law k : effect view (Delete_ScaledObject k) (λ c _ c',
    is_Some (scaledobjects c !! k) ∧ c' = set_scaledobjects (delete k) c);
  Get_Endpoints_law k : effect view (Get_Endpoints k) (λ c ep c',
    c' = c ∧ endpoints c !! k = Some ep);
}.

(** ** pkg/k8s on the client *)

Section helpers.
Context `{Client W}.

Definition GetConfigMap (namespace name : string) : ST W ConfigMap :=
  Get_ConfigMap (ObjKey namespace name).

Definition PatchConfigMap (originalConfigMap patchConfigMap : ConfigMap) : ST W ConfigMap :=
  Patch_ConfigMap originalConfigMap patchConfigMap ≫= λ _, mret patchConfigMap.

Definition EndpointsFuncForControllerClient : GetEndpointsFunc W := λ namespace serviceName,
  Get_Endpoints (ObjKey namespace serviceName).
End helpers.

(** ** An in-memory server *)

(** What becomes of a call: it is served; it is refused before it has an effect;
    or it is served and its answer is lost on the way back. *)
Inductive fate : Type :=
| Served
| Refused (e : error)
| Lost (e : error).

(** [script] says what becomes of the next calls; when it has run out every call
    is served. [stored] has the versions of ConfigMaps that calls stored, oldest
    first: what watches of them are told of. *)
Record MemCluster : Type := mkMem {
  mem : cluster;
  script : list fate;
  version : Z;
  stored : list ConfigMap;
}.

(** The ConfigMaps of [new] that [old] does not have like this. *)
Definition cm_versions (old new : cluster) : list ConfigMap :=
  (map_to_list (filter (λ kv, configmaps old !! kv.1 ≠ Some kv.2) (configmaps new))).*2.

Definition after_call (c : cluster) (s : list fate) (w : MemCluster) : MemCluster :=
  mkMem c s (version w + 1) (stored w ++ cm_versions (mem w) c).

Definition served {A} (f : cluster → Z → res A * cluster) : ST MemCluster A := λ w,
  let '(r, c) := f (mem w) (version w) in
  match script w with
  | Refused e :: s => (Err e, mkMem (mem w) s (version w) (stored w))
  | Lost e :: s => (Err e, after_call c s w)
  | Served :: s => (r, after_call c s w)
  | [] => (r, after_call c [] w)
  end.

Definition found {A} (o : option A) (c : cluster) : res A * cluster :=
  match o with Some a => (Ok a, c) | None => (Err (ApiNotFound "not found"), c) end.

Definition mem_update (status : bool) (o : HTTPScaledObject) : ST MemCluster HTTPScaledObject :=
  served (λ c rv,
    match httpscaledobjects c !! hso_key o with
    | None => (Err (ApiNotFound "not found"), c)
    | Some cur =>
        if decide (hso_ResourceVersion o = hso_ResourceVersion cur) then
          (Ok (decode_into (stored_update status o cur rv) o),
           set_httpscaledobjects (put_hso (stored_update status o cur rv)) c)
        else (Err (ApiOther "conflict"), c)
    end).

#[export] Instance MemCluster_client : Client MemCluster := {
  Get_ConfigMap := λ k, served (λ c _, found (configmaps c !! k) c);
  Patch_ConfigMap := λ old new, served (λ c _,
    match configmaps c !! cm_key new with
    | Some cur => (Ok tt, set_configmaps (<[cm_key new := merge_configmap old new cur]>) c)
    | None => (Err (ApiNotFound "not found"), c)
    end);
  Get_HTTPScaledObject := λ k, served (λ c _, found (httpscaledobjects c !! k) c);
  Update_HTTPScaledObject := mem_update false;
  Status_Update := mem_update true;
  Create_ScaledObject := λ so, served (λ c _,
    match scaledobjects c !! so_key so with
    | Some _ => (Err (ApiAlreadyExists "already exists"), c)
    | None => (Ok tt, set_scaledobjects (<[so_key so := so]>) c)
    end);
  Get_ScaledObject := λ k, served (λ c _, found (scaledobjects c !! k) c);
  Patch_ScaledObject := λ so, served (λ c _,
    match scaledobjects c !! so_key so with
    | Some cur => (Ok tt, set_scaledobjects (<[so_key so := merge_scaledobject so cur]>) c)
    | None => (Err (ApiNotFound "not found"), c)
    end);
  Delete_ScaledObject := λ k, served (λ c _,
    match scaledobjects c !! k with
    | Some _ => (Ok tt, set_scaledobjects (delete k) c)
    | None => (Err (ApiNotFound "not found"), c)
    end);
  Get_Endpoints := λ k, served (λ c _, found (endpoints c !! k) c);
  Now_RFC3339 := λ w, "2023-01-01T00:00:00Z";
}.

(** ** Lemmas *)

Lemma effect_Ok {W A} (view : W → cluster) (m : ST W A) eff w a w' :
  effect view m eff → m w = (Ok a, w') → eff (view w) a (view w').
Proof. intros Hm Heq. specialize (Hm w). by rewrite Heq in Hm. Qed.

Lemma effect_no_panic {W A} (view : W → cluster) (m : ST W A) eff w p w' :
  effect view m eff → m w ≠ (Panic p, w').
Proof. intros Hm Heq. specialize (Hm w). by rewrite Heq in Hm. Qed.

Lemma served_effect {A} (f : cluster → Z → res A * cluster) eff :
  (∀ c v, match f c v with
          | (Ok a, c') => eff c a c'
          | (Err _, c') => c' = c
          | (Panic _, _) => False
          end) →
  effect mem (served f) eff.
Proof.
  intros Hf w. unfold served. specialize (Hf (mem w) (version w)).
  destruct (f (mem w) (version w)) as [[a|e|p] c']; [| |done]; [|subst c'];
    destruct (script w) as [|[|e'|e'] s]; simpl; auto; right; by exists a.
Qed.

(** The log of ConfigMaps is what changed in them. *)
Definition logged {A} (m : ST MemCluster A) : Prop :=
  ∀ w, stored (snd (m w)) = stored w ++ cm_versions (mem w) (mem (snd (m w))).

#[export] Instance MemCluster_laws : ClientLaws MemCluster mem.
Proof.
  split; intros; apply served_effect; intros c v; simpl;
    unfold found; try (destruct (_ !! _) eqn:?; naive_solver).
  - destruct (httpscaledobjects c !! hso_key o) as [cur|] eqn:E; [|done]. case_decide; [|done].
    by exists cur, v.
  - destruct (httpscaledobjects c !! hso_key o) as [cur|] eqn:E; [|done]. case_decide; [|done].
    by exists cur, v.
Qed.

(** What a call stores of ConfigMaps: nothing when it leaves them alone, the new
    one when it changes one. *)
Lemma cm_versions_same c c' : configmaps c' = configmaps c → cm_versions c c' = [].
Proof.
  intros Hc. unfold cm_versions. rewrite Hc.
  assert (filter (λ kv, configmaps c !! kv.1 ≠ Some kv.2) (configmaps c) = ∅) as ->; [|by rewrite map_to_list_empty].
  apply map_empty. intros k. apply map_lookup_filter_None. right. intros x Hx. simpl. by intros [].
Qed.

Lemma logged_served {A} (f : cluster → Z → res A * cluster) : logged (served f).
Proof.
  intros w. unfold served. destruct (f (mem w) (version w)) as [r c'], (script w) as [|[|e|e] s]; simpl; try done.
  by rewrite cm_versions_same, app_nil_r.
Qed.

Lemma cm_versions_insert c k cm :
  cm_versions c (set_configmaps (<[k := cm]>) c) = if decide (configmaps c !! k = Some cm) then [] else [cm].
Proof.
  unfold cm_versions. simpl.
  assert (filter (λ kv, configmaps c !! kv.1 ≠ Some kv.2) (<[k := cm]> (configmaps c))
          = if decide (configmaps c !! k = Some cm) then ∅ else {[k := cm]}) as ->.
  { apply map_eq. intros i. apply option_eq. intros x. rewrite map_lookup_filter_Some. simpl.
    rewrite lookup_insert_Some. case_decide as Hk.
    - rewrite lookup_empty. split; [|done]. intros [[[<- <-]|[? ?]] ?]; done.
    - rewrite lookup_singleton_Some. naive_solver. }
  case_decide; [by rewrite map_to_list_empty|by rewrite map_to_list_singleton].
Qed.

(** The patch the operator sends changes the routing key only, and gets it in,
    whatever else is in the ConfigMap by then. *)
Lemma merge_data_insert (old cur : gmap string string) k v :
  merge_data old (<[k := v]> old) cur
  = if decide (old !! k = Some v) then cur else <[k := v]> cur.
Proof.
  apply map_eq. intros j. unfold merge_data. rewrite lookup_merge.
  assert (filter (λ kv, old !! kv.1 ≠ Some kv.2) (<[k := v]> old)
          = if decide (old !! k = Some v) then ∅ else {[k := v]}) as ->.
  { apply map_eq. intros i. apply option_eq. intros x. rewrite map_lookup_filter_Some. simpl.
    rewrite lookup_insert_Some. case_decide as Hk.
    - rewrite lookup_empty. split; [|done]. intros [[[<- <-]|[? ?]] ?]; done.
    - rewrite lookup_singleton_Some. naive_solver. }
  assert (filter (λ kv, ¬ (is_Some (old !! kv.1) ∧ (<[k := v]> old) !! kv.1 = None)) cur = cur) as ->.
  { apply map_filter_id. intros i x _ [[y Hy] Hn]. simpl in *.
    apply lookup_insert_None in Hn as [Hn _]. congruence. }
  case_decide as Hk.
  - rewrite lookup_empty. by destruct (cur !! j).
  - destruct (decide (j = k)) as [->|Hj].
    + rewrite lookup_singleton_eq, lookup_insert_eq. by destruct (cur !! k).
    + rewrite lookup_singleton_ne, lookup_insert_ne by done. by destruct (cur !! j).
Qed.
