(* ===== verification/Generated.v ===== *)
(** * The generated clients (operator/generated/clientset)

    Code written by client-gen: the typed client with its constructors, the
    clientset, and their fakes. The REST client, the discovery client, rate
    limiters and the object tracker of client-go's testing package are not part
    of the repository and are parameters. *)

From Stdlib Require Import Floats.SpecFloat.
From S2P Require Import Prelude GoStrings GoUrl Queue Net K8s Hso Kube.

(** ** Groups and resources (operator/apis/http/v1alpha1/groupversion_info.go) *)

Definition GroupVersionResource : Type := string * string * string.

Definition SchemeGroupVersion : string * string := ("http.keda.sh", "v1alpha1").

Definition WithResource (gv : string * string) (resource : string) : GroupVersionResource := (gv, resource).

Definition GroupResource (r : GroupVersionResource) : string * string := (fst (fst r), snd r).

Definition Resource (resource : string) : string * string := GroupResource (WithResource SchemeGroupVersion resource).

Record HTTPScaledObjectList : Type := mkHsoList { ListMeta : string; Items : list HTTPScaledObject }.

(** [&HTTPScaledObject{}], [&HTTPScaledObjectList{}]. *)
Definition zero_hso : HTTPScaledObject := mkHso "" "" 0 None [] (mkSpec None None None None None None) [].
Definition zero_list : HTTPScaledObjectList := mkHsoList "" [].

(** Go's [(pointer, err)], either of which may be nil. *)
Definition answer (A : Type) : Type := option A * option error.

(** ** Requests of the REST client *)

Record ListOptions : Type := mkListOptions {
  TimeoutSeconds : option Z;
  Watch_ : bool;
  selector : string;
}.

(** The options of the other calls go into the request as they are. *)
Definition Options : Type := string.

Inductive verb : Type := GET | POST | PUT | DELETE | PATCH (pt : string).
Inductive params : Type := NoParams | Params (opts : Options) | ListParams (opts : ListOptions).
Inductive body : Type := NoBody | ObjectBody (o : HTTPScaledObject) | OptionsBody (opts : Options) | DataBody (data : string).

(** What the chain of calls on the REST client builds. *)
Record rest_request : Type := mkRest {
  rq_verb : verb;
  rq_namespace : string;
  rq_resource : string;
  rq_name : option string;
  rq_subresource : list string;
  rq_params : params;
  rq_timeout : Duration;
  rq_body : body;
}.

Definition timeout_of (opts : ListOptions) : Duration :=
  match TimeoutSeconds opts with Some n => int64 (n * Second) | None => 0 end.

(** [rest.Interface], which is client-go's: [Do(ctx).Into(result)] for an object
    and for a list, [Do(ctx).Error()], [Watch(ctx)]. *)
Record rest_Interface (W E : Type) : Type := mkRestInterface {
  rest_Into : rest_request → HTTPScaledObject → W → (HTTPScaledObject * option error) * W;
  rest_IntoList : rest_request → HTTPScaledObjectList → W → (HTTPScaledObjectList * option error) * W;
  rest_Error : rest_request → W → option error * W;
  rest_Watch : rest_request → W → answer E * W;
}.
Arguments mkRestInterface {W E}.
Arguments rest_Into {W E}.
Arguments rest_IntoList {W E}.
Arguments rest_Error {W E}.
Arguments rest_Watch {W E}.

(** A Go interface value: nil, or a pointer that may itself be nil. *)
Definition iface (A : Type) : Type := option (option A).

Definition nil_dereference : string := "invalid memory address or nil pointer dereference".

(** A call through an interface value. *)
Definition on_client {W C A} (c : iface C) (k : C → W → A * W) : ST W A := λ w,
  match c with
  | Some (Some c) => let '(a, w) := k c w in (Ok a, w)
  | _ => (Panic nil_dereference, w)
  end.

(** ** The interfaces of the clients *)

Record HTTPScaledObjectInterface (W E : Type) : Type := mkObjects {
  ho_Create : HTTPScaledObject → Options → ST W (answer HTTPScaledObject);
  ho_Update : HTTPScaledObject → Options → ST W (answer HTTPScaledObject);
  ho_UpdateStatus : HTTPScaledObject → Options → ST W (answer HTTPScaledObject);
  ho_Delete : string → Options → ST W (option error);
  ho_DeleteCollection : Options → ListOptions → ST W (option error);
  ho_Get : string → Options → ST W (answer HTTPScaledObject);
  ho_List : ListOptions → ST W (answer HTTPScaledObjectList);
  ho_Watch : ListOptions → ST W (answer E);
  ho_Patch : string → string → string → Options → list string → ST W (answer HTTPScaledObject);
}.
Arguments mkObjects {W E}.
Arguments ho_Create {W E}.
Arguments ho_Update {W E}.
Arguments ho_UpdateStatus {W E}.
Arguments ho_Delete {W E}.
Arguments ho_DeleteCollection {W E}.
Arguments ho_Get {W E}.
Arguments ho_List {W E}.
Arguments ho_Watch {W E}.
Arguments ho_Patch {W E}.

Record HttpV1alpha1Interface (W E : Type) : Type := mkV1alpha1 {
  v1_RESTClient : iface (rest_Interface W E);
  v1_HTTPScaledObjects : string → HTTPScaledObjectInterface W E;
}.
Arguments mkV1alpha1 {W E}.
Arguments v1_RESTClient {W E}.
Arguments v1_HTTPScaledObjects {W E}.

(** [versioned.Interface]. *)
Record versioned_Interface (W E D : Type) : Type := mkVersioned {
  cs_Discovery : iface D;
  cs_HttpV1alpha1 : res (HttpV1alpha1Interface W E);
}.
Arguments mkVersioned {W E D}.
Arguments cs_Discovery {W E D}.
Arguments cs_HttpV1alpha1 {W E D}.

(** ** The typed client (typed/http/v1alpha1/httpscaledobject.go) *)

Module TypedClient.
Section client.
Context {W E : Type}.

Record hTTPScaledObjects : Type := mkTyped { client : iface (rest_Interface W E); ns : string }.
Implicit Type c : hTTPScaledObjects.

Definition into (cl : rest_Interface W E) (rq : rest_request) (w : W) : answer HTTPScaledObject * W :=
  let '((result, err), w) := rest_Into cl rq zero_hso w in ((Some result, err), w).

Definition Get c (name : string) (options : Options) : ST W (answer HTTPScaledObject) :=
  on_client (client c) (λ cl,
    into cl (mkRest GET (ns c) "httpscaledobjects" (Some name) [] (Params options) 0 NoBody)).

Definition List_ c (opts : ListOptions) : ST W (answer HTTPScaledObjectList) :=
  let timeout := timeout_of opts in
  on_client (client c) (λ cl w,
    let '((result, err), w) :=
      rest_IntoList cl (mkRest GET (ns c) "httpscaledobjects" None [] (ListParams opts) timeout NoBody) zero_list w in
    ((Some result, err), w)).

Definition Watch c (opts : ListOptions) : ST W (answer E) :=
  let timeout := timeout_of opts in
  let opts := mkListOptions (TimeoutSeconds opts) true (selector opts) in
  on_client (client c) (λ cl,
    rest_Watch cl (mkRest GET (ns c) "httpscaledobjects" None [] (ListParams opts) timeout NoBody)).

Definition Create c (o : HTTPScaledObject) (opts : Options) : ST W (answer HTTPScaledObject) :=
  on_client (client c) (λ cl,
    into cl (mkRest POST (ns c) "httpscaledobjects" None [] (Params opts) 0 (ObjectBody o))).

Definition Update c (o : HTTPScaledObject) (opts : Options) : ST W (answer HTTPScaledObject) :=
  on_client (client c) (λ cl,
    into cl (mkRest PUT (ns c) "httpscaledobjects" (Some (hso_Name o)) [] (Params opts) 0 (ObjectBody o))).

Definition UpdateStatus c (o : HTTPScaledObject) (opts : Options) : ST W (answer HTTPScaledObject) :=
  on_client (client c) (λ cl,
    into cl (mkRest PUT (ns c) "httpscaledobjects" (Some (hso_Name o)) ["status"] (Params opts) 0 (ObjectBody o))).

Definition Delete c (name : string) (opts : Options) : ST W (option error) :=
  on_client (client c) (λ cl,
    rest_Error cl (mkRest DELETE (ns c) "httpscaledobjects" (Some name) [] NoParams 0 (OptionsBody opts))).

Definition DeleteCollection c (opts : Options) (listOpts : ListOptions) : ST W (option error) :=
  let timeout := timeout_of listOpts in
  on_client (client c) (λ cl,
    rest_Error cl (mkRest DELETE (ns c) "httpscaledobjects" None [] (ListParams listOpts) timeout (OptionsBody opts))).

Definition Patch c (name pt data : string) (opts : Options) (subresources : list string) : ST W (answer HTTPScaledObject) :=
  on_client (client c) (λ cl,
    into cl (mkRest (PATCH pt) (ns c) "httpscaledobjects" (Some name) subresources (Params opts) 0 (DataBody data))).

(** As a value of the interface. *)
Definition methods c : HTTPScaledObjectInterface W E :=
  mkObjects (Create c) (Update c) (UpdateStatus c) (Delete c) (DeleteCollection c) (Get c) (List_ c) (Watch c) (Patch c).
End client.
Arguments hTTPScaledObjects : clear implicits.
End TypedClient.

(** ** Configurations of clients

    The fields of [rest.Config] that the generated code reads or writes, and
    the rest of it. [QPS] is a float32. *)

Record Config (RL X : Type) : Type := mkConfig {
  cfg_GroupVersion : option (string * string);
  cfg_APIPath : string;
  cfg_NegotiatedSerializer : option string;
  cfg_UserAgent : string;
  cfg_RateLimiter : option RL;
  cfg_QPS : spec_float;
  cfg_Burst : Z;
  cfg_rest : X;
}.
Arguments mkConfig {RL X}.
Arguments cfg_GroupVersion {RL X}.
Arguments cfg_APIPath {RL X}.
Arguments cfg_NegotiatedSerializer {RL X}.
Arguments cfg_UserAgent {RL X}.
Arguments cfg_RateLimiter {RL X}.
Arguments cfg_QPS {RL X}.
Arguments cfg_Burst {RL X}.
Arguments cfg_rest {RL X}.

(** [qps > 0], false for NaN. *)
Definition positive (qps : spec_float) : bool := SFltb (S754_zero false) qps.

(** client-go: the transport of a configuration, the REST client and the
    discovery client of a configuration and a transport, rate limiters, the
    default user agent, the codecs of the scheme. *)
Record client_go (W E D RL X HC : Type) : Type := mkClientGo {
  HTTPClientFor : Config RL X → res HC;
  RESTClientForConfigAndClient : Config RL X → HC → res (rest_Interface W E);
  NewDiscoveryClientForConfigAndClient : Config RL X → HC → res D;
  NewDiscoveryClient : iface (rest_Interface W E) → D;
  NewTokenBucketRateLimiter : spec_float → Z → RL;
  DefaultKubernetesUserAgent : string;
  Codecs_WithoutConversion : string;
}.
Arguments mkClientGo {W E D RL X HC}.
Arguments HTTPClientFor {W E D RL X HC}.
Arguments RESTClientForConfigAndClient {W E D RL X HC}.
Arguments NewDiscoveryClientForConfigAndClient {W E D RL X HC}.
Arguments NewDiscoveryClient {W E D RL X HC}.
Arguments NewTokenBucketRateLimiter {W E D RL X HC}.
Arguments DefaultKubernetesUserAgent {W E D RL X HC}.
Arguments Codecs_WithoutConversion {W E D RL X HC}.

Section config.
Context {W E D RL X HC : Type} (lib : client_go W E D RL X HC).

Definition set_UserAgent (ua : string) (c : Config RL X) : Config RL X :=
  mkConfig (cfg_GroupVersion c) (cfg_APIPath c) (cfg_NegotiatedSerializer c) ua (cfg_RateLimiter c) (cfg_QPS c)
    (cfg_Burst c) (cfg_rest c).

Definition set_RateLimiter (rl : RL) (c : Config RL X) : Config RL X :=
  mkConfig (cfg_GroupVersion c) (cfg_APIPath c) (cfg_NegotiatedSerializer c) (cfg_UserAgent c) (Some rl) (cfg_QPS c)
    (cfg_Burst c) (cfg_rest c).

(** [if c.UserAgent == "" { c.UserAgent = rest.DefaultKubernetesUserAgent() }] *)
Definition default_agent (c : Config RL X) : Config RL X :=
  if decide (cfg_UserAgent c = "") then set_UserAgent (DefaultKubernetesUserAgent lib) c else c.
End config.

(** ** The client of the group (typed/http/v1alpha1/http_client.go) *)

Module HttpV1alpha1Client.
Section group.
Context {W E D RL X HC : Type} (lib : client_go W E D RL X HC).

Record HttpV1alpha1Client : Type := mkClient { restClient : iface (rest_Interface W E) }.

Definition RESTClient (c : option HttpV1alpha1Client) : iface (rest_Interface W E) :=
  match c with None => None | Some c => restClient c end.

Definition newHTTPScaledObjects (c : option HttpV1alpha1Client) (namespace : string) : TypedClient.hTTPScaledObjects W E :=
  TypedClient.mkTyped (RESTClient c) namespace.

Definition HTTPScaledObjects (c : option HttpV1alpha1Client) (namespace : string) : HTTPScaledObjectInterface W E :=
  TypedClient.methods (newHTTPScaledObjects c namespace).

Definition setConfigDefaults (config : Config RL X) : res (Config RL X) :=
  let gv := SchemeGroupVersion in
  Ok (default_agent lib
        (mkConfig (Some gv) "/apis" (Some (Codecs_WithoutConversion lib)) (cfg_UserAgent config) (cfg_RateLimiter config)
           (cfg_QPS config) (cfg_Burst config) (cfg_rest config))).

Definition NewForConfigAndClient (c : Config RL X) (h : HC) : res HttpV1alpha1Client :=
  match setConfigDefaults c with
  | Err e => Err e
  | Panic p => Panic p
  | Ok config =>
      match RESTClientForConfigAndClient lib config h with
      | Err e => Err e
      | Panic p => Panic p
      | Ok client => Ok (mkClient (Some (Some client)))
      end
  end.

Definition NewForConfig (c : Config RL X) : res HttpV1alpha1Client :=
  match setConfigDefaults c with
  | Err e => Err e
  | Panic p => Panic p
  | Ok config =>
      match HTTPClientFor lib config with
      | Err e => Err e
      | Panic p => Panic p
      | Ok httpClient => NewForConfigAndClient config httpClient
      end
  end.

Definition NewForConfigOrDie (c : Config RL X) : res HttpV1alpha1Client :=
  match NewForConfig c with
  | Err e => Panic (Error_string e)
  | r => r
  end.

Definition New (c : iface (rest_Interface W E)) : HttpV1alpha1Client := mkClient c.

(** As a value of the interface. *)
Definition methods (c : option HttpV1alpha1Client) : HttpV1alpha1Interface W E :=
  mkV1alpha1 (RESTClient c) (HTTPScaledObjects c).
End group.
Arguments HttpV1alpha1Client : clear implicits.
End HttpV1alpha1Client.

(** ** The clientset (versioned/clientset.go) *)

Module Clientset.
Section clientset.
Context {W E D RL X HC : Type} (lib : client_go W E D RL X HC).

Record Clientset : Type := mkClientset {
  DiscoveryClient : option D;
  httpV1alpha1 : option (HttpV1alpha1Client.HttpV1alpha1Client W E);
}.

(** The receiver is dereferenced. *)
Definition HttpV1alpha1 (c : option Clientset) : res (HttpV1alpha1Interface W E) :=
  match c with
  | None => Panic nil_dereference
  | Some c => Ok (HttpV1alpha1Client.methods (httpV1alpha1 c))
  end.

Definition Discovery (c : option Clientset) : iface D :=
  match c with None => None | Some c => Some (DiscoveryClient c) end.

Definition NewForConfigAndClient (c : Config RL X) (httpClient : HC) : res Clientset :=
  let limited : res (Config RL X) :=
    match cfg_RateLimiter c with
    | Some _ => Ok c
    | None =>
        if positive (cfg_QPS c) then
          if decide (cfg_Burst c ≤ 0) then
            Err (Errorf "burst is required to be greater than 0 when RateLimiter is not set and QPS is set to greater than 0")
          else Ok (set_RateLimiter (NewTokenBucketRateLimiter lib (cfg_QPS c) (cfg_Burst c)) c)
        else Ok c
    end in
  match limited with
  | Err e => Err e
  | Panic p => Panic p
  | Ok configShallowCopy =>
      match HttpV1alpha1Client.NewForConfigAndClient lib configShallowCopy httpClient with
      | Err e => Err e
      | Panic p => Panic p
      | Ok v1 =>
          match NewDiscoveryClientForConfigAndClient lib configShallowCopy httpClient with
          | Err e => Err e
          | Panic p => Panic p
          | Ok d => Ok (mkClientset (Some d) (Some v1))
          end
      end
  end.

Definition NewForConfig (c : Config RL X) : res Clientset :=
  let configShallowCopy := default_agent lib c in
  match HTTPClientFor lib configShallowCopy with
  | Err e => Err e
  | Panic p => Panic p
  | Ok httpClient => NewForConfigAndClient configShallowCopy httpClient
  end.

Definition NewForConfigOrDie (c : Config RL X) : res Clientset :=
  match NewForConfig c with
  | Err e => Panic (Error_string e)
  | r => r
  end.

Definition New (c : iface (rest_Interface W E)) : Clientset :=
  mkClientset (Some (NewDiscoveryClient lib c)) (Some (HttpV1alpha1Client.New c)).

(** As a value of the interface. *)
Definition methods (c : option Clientset) : versioned_Interface W E D := mkVersioned (Discovery c) (HttpV1alpha1 c).
End clientset.
Arguments Clientset : clear implicits.
End Clientset.

(** ** The fake typed client (typed/http/v1alpha1/fake) *)

Inductive action : Type :=
| GetAction (r : GroupVersionResource) (ns name : string)
| ListAction (r : GroupVersionResource) (ns : string) (opts : ListOptions)
| WatchAction (r : GroupVersionResource) (ns : string) (opts : ListOptions)
| CreateAction (r : GroupVersionResource) (ns : string) (o : HTTPScaledObject)
| UpdateAction (r : GroupVersionResource) (ns : string) (o : HTTPScaledObject)
| UpdateSubresourceAction (r : GroupVersionResource) (sub ns : string) (o : HTTPScaledObject)
| DeleteAction (r : GroupVersionResource) (ns name : string) (opts : Options)
| DeleteCollectionAction (r : GroupVersionResource) (ns : string) (opts : ListOptions)
| PatchSubresourceAction (r : GroupVersionResource) (ns name pt data : string) (subs : list string).

(** [action.GetResource()], [action.GetNamespace()]. *)
Definition action_place (a : action) : GroupVersionResource * string :=
  match a with
  | GetAction r ns _ | ListAction r ns _ | WatchAction r ns _ | CreateAction r ns _ | UpdateAction r ns _
  | UpdateSubresourceAction r _ ns _ | DeleteAction r ns _ _ | DeleteCollectionAction r ns _
  | PatchSubresourceAction r ns _ _ _ _ => (r, ns)
  end.

(** [testing.Fake], which is client-go's: what its reactors make of an action. *)
Record Fake (W E : Type) : Type := mkFake {
  Invokes : action → W → answer HTTPScaledObject * W;
  InvokesList : action → W → answer HTTPScaledObjectList * W;
  InvokesWatch : action → W → answer E * W;
}.
Arguments mkFake {W E}.
Arguments Invokes {W E}.
Arguments InvokesList {W E}.
Arguments InvokesWatch {W E}.

Module FakeHTTPScaledObjects.
Definition httpscaledobjectsResource : GroupVersionResource := ("http", "v1alpha1", "httpscaledobjects").

Section fake.
Context {W E : Type}.
(** The label selector of [testing.ExtractFromListOptions], on the labels of an
    object. *)
Context (label_of : ListOptions → option (HTTPScaledObject → bool)).

Record FakeHTTPScaledObjects : Type := mkFakeObjects { fake : Fake W E; ns : string }.
Implicit Type c : FakeHTTPScaledObjects.

(** [if obj == nil { return nil, err }; return obj.(...), err]. *)
Definition checked (r : answer HTTPScaledObject * W) : res (answer HTTPScaledObject) * W :=
  match r with
  | ((None, err), w) => (Ok (None, err), w)
  | ((Some obj, err), w) => (Ok (Some obj, err), w)
  end.

Definition Get c (name : string) (options : Options) : ST W (answer HTTPScaledObject) := λ w,
  checked (Invokes (fake c) (GetAction httpscaledobjectsResource (ns c) name) w).

Definition List_ c (opts : ListOptions) : ST W (answer HTTPScaledObjectList) := λ w,
  match InvokesList (fake c) (ListAction httpscaledobjectsResource (ns c) opts) w with
  | ((None, err), w) => (Ok (None, err), w)
  | ((Some obj, err), w) =>
      let label := default (λ _, true) (label_of opts) in
      (Ok (Some (mkHsoList (ListMeta obj) (List.filter label (Items obj))), err), w)
  end.

Definition Watch c (opts : ListOptions) : ST W (answer E) := λ w,
  let '(r, w) := InvokesWatch (fake c) (WatchAction httpscaledobjectsResource (ns c) opts) w in (Ok r, w).

Definition Create c (o : HTTPScaledObject) (opts : Options) : ST W (answer HTTPScaledObject) := λ w,
  checked (Invokes (fake c) (CreateAction httpscaledobjectsResource (ns c) o) w).

Definition Update c (o : HTTPScaledObject) (opts : Options) : ST W (answer HTTPScaledObject) := λ w,
  checked (Invokes (fake c) (UpdateAction httpscaledobjectsResource (ns c) o) w).

Definition UpdateStatus c (o : HTTPScaledObject) (opts : Options) : ST W (answer HTTPScaledObject) := λ w,
  checked (Invokes (fake c) (UpdateSubresourceAction httpscaledobjectsResource "status" (ns c) o) w).

Definition Delete c (name : string) (opts : Options) : ST W (option error) := λ w,
  let '((_, err), w) := Invokes (fake c) (DeleteAction httpscaledobjectsResource (ns c) name opts) w in (Ok err, w).

Definition DeleteCollection c (opts : Options) (listOpts : ListOptions) : ST W (option error) := λ w,
  let action := DeleteCollectionAction httpscaledobjectsResource (ns c) listOpts in
  let '((_, err), w) := InvokesList (fake c) action w in (Ok err, w).

Definition Patch c (name pt data : string) (opts : Options) (subresources : list string) : ST W (answer HTTPScaledObject) := λ w,
  checked (Invokes (fake c) (PatchSubresourceAction httpscaledobjectsResource (ns c) name pt data subresources) w).

(** As a value of the interface. *)
Definition methods c : HTTPScaledObjectInterface W E :=
  mkObjects (Create c) (Update c) (UpdateStatus c) (Delete c) (DeleteCollection c) (Get c) (List_ c) (Watch c) (Patch c).
End fake.
Arguments FakeHTTPScaledObjects : clear implicits.
End FakeHTTPScaledObjects.

Module FakeHttpV1alpha1.
Section fake.
Context {W E : Type} (label_of : ListOptions → option (HTTPScaledObject → bool)).

Record FakeHttpV1alpha1 : Type := mkFakeV1 { fake : Fake W E }.

Definition HTTPScaledObjects (c : FakeHttpV1alpha1) (namespace : string) : HTTPScaledObjectInterface W E :=
  FakeHTTPScaledObjects.methods label_of (FakeHTTPScaledObjects.mkFakeObjects (fake c) namespace).

(** [var ret *rest.RESTClient; return ret]: an interface that is not nil, with a
    nil pointer in it. *)
Definition RESTClient (c : FakeHttpV1alpha1) : iface (rest_Interface W E) := Some None.

Definition methods (c : FakeHttpV1alpha1) : HttpV1alpha1Interface W E := mkV1alpha1 (RESTClient c) (HTTPScaledObjects c).
End fake.
Arguments FakeHttpV1alpha1 : clear implicits.
End FakeHttpV1alpha1.

(** *** The fake clientset (versioned/fake) *)

(** client-go's object tracker: [Add] files an object under the resource of the
    kind the scheme has for it; a reaction to an action looks under the
    resource the action names. [watch_chain] is how a [Fake] asks its watch
    reactor. *)
Class ObjectTracker (W E : Type) : Type := {
  tracker_Add : GroupVersionResource → HTTPScaledObject → W → res W;
  tracker_Invokes : action → W → answer HTTPScaledObject * W;
  tracker_InvokesList : action → W → answer HTTPScaledObjectList * W;
  tracker_Watch : GroupVersionResource → string → W → answer E * W;
  watch_chain : (action → W → (bool * option E * option error) * W) → action → W → answer E * W;
}.

Class ObjectTrackerLaws (W E : Type) `{ObjectTracker W E}
    (view : W → gmap (GroupVersionResource * objKey) HTTPScaledObject) : Prop := {
  tracker_Add_law r o w w' : tracker_Add r o w = Ok w' → view w' = <[(r, hso_key o) := o]> (view w);
  tracker_Get_law r ns name w :
    tracker_Invokes (GetAction r ns name) w
    = (match view w !! (r, ObjKey ns name) with
       | Some o => (Some o, None)
       | None => (None, Some (ApiNotFound "not found"))
       end, w);
  tracker_Create_law r ns o w :
    view w !! (r, ObjKey ns (hso_Name o)) = None → hso_Namespace o = ns →
    fst (tracker_Invokes (CreateAction r ns o) w) = (Some o, None)
    ∧ view (snd (tracker_Invokes (CreateAction r ns o) w)) = <[(r, ObjKey ns (hso_Name o)) := o]> (view w);
}.

(** The scheme of the fake clientset has the types of operator/apis under their
    own group: the resource of their kind. *)
Definition scheme_resource : GroupVersionResource := WithResource SchemeGroupVersion "httpscaledobjects".

Module FakeClientset.
Section fake.
Context {W E D : Type} `{ObjectTracker W E} (label_of : ListOptions → option (HTTPScaledObject → bool)).

(** The tracker is the state [W]. *)
Record Clientset : Type := mkFakeClientset { fake : Fake W E; discovery : option D }.

(** The loop over the objects: one that cannot be added is a panic. *)
Fixpoint add_all (objects : list HTTPScaledObject) (o : W) : res W :=
  match objects with
  | [] => Ok o
  | obj :: objects =>
      match tracker_Add (E := E) scheme_resource obj o with
      | Ok o => add_all objects o
      | Err e => Panic (Error_string e)
      | Panic p => Panic p
      end
  end.

(** The function given to [AddWatchReactor]. *)
Definition watch_reactor (a : action) (w : W) : (bool * option E * option error) * W :=
  let '(gvr, ns) := action_place a in
  match tracker_Watch gvr ns w with
  | ((_, Some err), w) => ((false, None, Some err), w)
  | ((watch, None), w) => ((true, watch, None), w)
  end.

Definition NewSimpleClientset (FakeDiscovery : Fake W E → D) (objects : list HTTPScaledObject) (o : W) : res (Clientset * W) :=
  match add_all objects o with
  | Err e => Err e
  | Panic p => Panic p
  | Ok o =>
      let fk := mkFake (tracker_Invokes (E := E)) (tracker_InvokesList (E := E)) (watch_chain watch_reactor) in
      Ok (mkFakeClientset fk (Some (FakeDiscovery fk)), o)
  end.

Definition Discovery (c : Clientset) : iface D := Some (discovery c).

Definition HttpV1alpha1 (c : Clientset) : HttpV1alpha1Interface W E :=
  FakeHttpV1alpha1.methods label_of (FakeHttpV1alpha1.mkFakeV1 (fake c)).

(** As a value of the interface. *)
Definition methods (c : Clientset) : versioned_Interface W E D := mkVersioned (Discovery c) (Ok (HttpV1alpha1 c)).
End fake.
Arguments Clientset : clear implicits.
End FakeClientset.

(** ** Properties *)

Section clients.
Context {W E D RL X HC : Type} (lib : client_go W E D RL X HC).
Implicit Types (c : Config RL X) (cs : Clientset.Clientset W E D).

Lemma default_agent_set c :
  DefaultKubernetesUserAgent lib ≠ "" → cfg_UserAgent (default_agent lib c) ≠ "".
Proof. unfold default_agent. by case_decide. Qed.

Lemma default_agent_same c :
  cfg_RateLimiter (default_agent lib c) = cfg_RateLimiter c ∧ cfg_QPS (default_agent lib c) = cfg_QPS c
  ∧ cfg_Burst (default_agent lib c) = cfg_Burst c ∧ cfg_rest (default_agent lib c) = cfg_rest c
  ∧ cfg_GroupVersion (default_agent lib c) = cfg_GroupVersion c ∧ cfg_APIPath (default_agent lib c) = cfg_APIPath c.
Proof. unfold default_agent. by case_decide. Qed.

Lemma default_agent_idem c : cfg_UserAgent c ≠ "" → default_agent lib c = c.
Proof. unfold default_agent. by case_decide. Qed.

(** Filling in the defaults twice is filling them in once. *)
Lemma setConfigDefaults_idem c c' :
  DefaultKubernetesUserAgent lib ≠ "" →
  HttpV1alpha1Client.setConfigDefaults lib c = Ok c' → HttpV1alpha1Client.setConfigDefaults lib c' = Ok c'.
Proof.
  unfold HttpV1alpha1Client.setConfigDefaults, default_agent. intros Hua [= <-]. cbn.
  destruct (decide (cfg_UserAgent c = "")) as [|Hn]; cbn; [by rewrite decide_False|by rewrite decide_False].
Qed.

(** The limiter of both clients: the caller's, or a new one for the caller's rate. *)
Definition limiter c : option RL :=
  match cfg_RateLimiter c with
  | Some rl => Some rl
  | None => if positive (cfg_QPS c) then Some (NewTokenBucketRateLimiter lib (cfg_QPS c) (cfg_Burst c)) else None
  end.

(** The rate without a burst. *)
Definition burst_missing c : Prop :=
  cfg_RateLimiter c = None ∧ positive (cfg_QPS c) = true ∧ cfg_Burst c ≤ 0.

#[local] Instance burst_missing_dec c : Decision (burst_missing c).
Proof. unfold burst_missing. apply _. Defined.

(** A configuration whose rate limiter is in place. *)
Lemma NewForConfigAndClient_Ok c h cs :
  Clientset.NewForConfigAndClient lib c h = Ok cs →
  ∃ c' v1 d, HttpV1alpha1Client.NewForConfigAndClient lib c' h = Ok v1 ∧ NewDiscoveryClientForConfigAndClient lib c' h = Ok d
  ∧ cfg_RateLimiter c' = limiter c ∧ cfg_rest c' = cfg_rest c ∧ cs = Clientset.mkClientset (Some d) (Some v1) ∧ ¬ burst_missing c.
Proof.
  unfold Clientset.NewForConfigAndClient, limiter, burst_missing. intros Hcs.
  destruct (cfg_RateLimiter c) as [rl|] eqn:Er; [|destruct (positive (cfg_QPS c)) eqn:Eq; [case_decide; [done|]|]].
  all: destruct (HttpV1alpha1Client.NewForConfigAndClient lib _ h) as [v1| |] eqn:Ev; [|done..].
  all: destruct (NewDiscoveryClientForConfigAndClient lib _ h) as [d| |] eqn:Ed; [|done..].
  all: injection Hcs as <-; do 3 eexists; split_and!; [eassumption|eassumption|done|done|done|naive_solver].
Qed.

(** The client of the group, from its configuration. *)
Lemma group_client_Ok c h v1 :
  HttpV1alpha1Client.NewForConfigAndClient lib c h = Ok v1 →
  ∃ c' rc, RESTClientForConfigAndClient lib c' h = Ok rc ∧ HttpV1alpha1Client.RESTClient (Some v1) = Some (Some rc)
  ∧ cfg_RateLimiter c' = cfg_RateLimiter c ∧ cfg_rest c' = cfg_rest c
  ∧ cfg_GroupVersion c' = Some SchemeGroupVersion ∧ cfg_APIPath c' = "/apis".
Proof.
  unfold HttpV1alpha1Client.NewForConfigAndClient, HttpV1alpha1Client.setConfigDefaults. intros Hv.
  destruct (RESTClientForConfigAndClient lib _ h) as [rc| |] eqn:Erc; [|done..]. injection Hv as <-.
  do 2 eexists. split_and!; [exact Erc|done|..]; unfold default_agent; by case_decide.
Qed.
End clients.

(** A clientset for a configuration: without a rate limiter, a
    positive rate needs a positive burst, or there is an error and no client; else
    the client of the group and the discovery client share one transport, made
    for the configuration with a user agent, and one rate limiter (the caller's,
    or one made for the caller's rate), and the REST client is made for the group
    [http.keda.sh/v1alpha1] under [/apis]. *)
Theorem clientset_shares {W E D RL X HC : Type} (lib : client_go W E D RL X HC) (c : Config RL X) :
  (burst_missing c → ∀ cs, Clientset.NewForConfig lib c ≠ Ok cs)
  ∧ ∀ cs, Clientset.NewForConfig lib c = Ok cs →
    ∃ h c1 c2 rc d,
      HTTPClientFor lib (default_agent lib c) = Ok h
      ∧ RESTClientForConfigAndClient lib c1 h = Ok rc ∧ NewDiscoveryClientForConfigAndClient lib c2 h = Ok d
      ∧ cfg_RateLimiter c1 = limiter lib c ∧ cfg_RateLimiter c2 = limiter lib c
      ∧ cfg_rest c1 = cfg_rest c ∧ cfg_rest c2 = cfg_rest c
      ∧ cfg_GroupVersion c1 = Some SchemeGroupVersion ∧ cfg_APIPath c1 = "/apis"
      ∧ Clientset.Discovery (Some cs) = Some (Some d)
      ∧ ∃ v1, Clientset.HttpV1alpha1 (Some cs) = Ok v1 ∧ v1_RESTClient v1 = Some (Some rc).
Proof.
  destruct (default_agent_same lib c) as (Hr & Hq & Hb & Hx & _ & _). unfold Clientset.NewForConfig.
  assert (limiter lib (default_agent lib c) = limiter lib c) as Hlim by (unfold limiter; by rewrite Hr, Hq, Hb).
  split; [intros Hm cs Hcs|intros cs Hcs]; destruct (HTTPClientFor lib _) as [h| |]; try done;
    apply NewForConfigAndClient_Ok in Hcs as (c' & v1 & d & Hv & Hd & Hl & Hx' & -> & Hnb).
  - apply Hnb. unfold burst_missing in *. by rewrite Hr, Hq, Hb.
  - apply group_client_Ok in Hv as (c1 & rc & Hrc & Hcl & Hl1 & Hx1 & Hg & Ha).
    exists h, c1, c', rc, d. split_and!; try done; try congruence. by eexists.
Qed.

(** A client-go that makes something of every configuration: a limiter is its
    rate and burst. *)
Definition demo_rest : rest_Interface unit unit :=
  mkRestInterface (λ _ o w, ((o, None), w)) (λ _ l w, ((l, None), w)) (λ _ w, (None, w)) (λ _ w, ((Some tt, None), w)).
Definition demo_lib : client_go unit unit string (spec_float * Z) unit string :=
  mkClientGo (λ c, Ok (cfg_UserAgent c)) (λ _ _, Ok demo_rest) (λ _ h, Ok h) (λ _, "discovery") (λ q b, (q, b)) "agent" "json".
Definition demo_rate (burst : Z) : Config (spec_float * Z) unit :=
  mkConfig None "" None "" None (S754_finite false 5 0) burst tt.

Lemma clientset_shares_witness :
  (∀ cs, Clientset.NewForConfig demo_lib (demo_rate 0) ≠ Ok cs)
  ∧ ∃ cs h rc, Clientset.NewForConfig demo_lib (demo_rate 10) = Ok cs ∧ HTTPClientFor demo_lib (default_agent demo_lib (demo_rate 10)) = Ok h
    ∧ ∃ v1, Clientset.HttpV1alpha1 (Some cs) = Ok v1 ∧ v1_RESTClient v1 = Some (Some rc).
Proof.
  split; [apply (clientset_shares demo_lib (demo_rate 0)); by vm_compute|].
  destruct (proj2 (clientset_shares demo_lib (demo_rate 10))
    (Clientset.mkClientset (Some "agent") (Some (HttpV1alpha1Client.mkClient (Some (Some demo_rest))))) eq_refl)
    as (h & c1 & c2 & rc & d & Hh & _ & _ & _ & _ & _ & _ & _ & _ & _ & Hv).
  by do 3 eexists.
Defined.

(** [NewForConfig] is [NewForConfigAndClient] with the transport of the
    configuration, as its comment says, when the configuration has a user agent;
    otherwise the transport is made for another configuration than the caller's. *)
Theorem NewForConfig_documented {W E D RL X HC : Type} (lib : client_go W E D RL X HC) (c : Config RL X) (h : HC) :
  cfg_UserAgent c ≠ "" → HTTPClientFor lib c = Ok h →
  Clientset.NewForConfig lib c = Clientset.NewForConfigAndClient lib c h.
Proof. intros Hu Hh. unfold Clientset.NewForConfig. by rewrite default_agent_idem, Hh. Qed.

(** The client of the group fills in its defaults before and after making the
    transport: once more changes nothing. *)
Theorem group_NewForConfig_once {W E D RL X HC : Type} (lib : client_go W E D RL X HC) (c c' : Config RL X) (h : HC) :
  DefaultKubernetesUserAgent lib ≠ "" →
  HttpV1alpha1Client.setConfigDefaults lib c = Ok c' → HTTPClientFor lib c' = Ok h →
  HttpV1alpha1Client.NewForConfig lib c = HttpV1alpha1Client.NewForConfigAndClient lib c h.
Proof.
  intros Hua Hc Hh. unfold HttpV1alpha1Client.NewForConfig, HttpV1alpha1Client.NewForConfigAndClient.
  by rewrite Hc, Hh, (setConfigDefaults_idem lib c c').
Qed.

(** The REST client of the fake is not nil, and a client made of it panics on
    every call. *)
Theorem fake_rest_client_panics {W E : Type} (label_of : ListOptions → option (HTTPScaledObject → bool))
    (c : FakeHttpV1alpha1.FakeHttpV1alpha1 W E) (ns name : string) (options : Options) (w : W) :
  let rc := v1_RESTClient (FakeHttpV1alpha1.methods label_of c) in
  rc ≠ None
  ∧ ho_Get (HttpV1alpha1Client.HTTPScaledObjects (Some (HttpV1alpha1Client.New rc)) ns) name options w = (Panic nil_dereference, w).
Proof. done. Qed.

(** The fake clientset files the objects it is made with under the
    group [http.keda.sh] and its typed client looks under the group [http]: it
    does not find them, although what the client itself creates it does find. *)
Theorem fake_clientset_misses `{ObjectTracker W E} {D : Type} (FakeDiscovery : Fake W E → D)
    (label_of : ListOptions → option (HTTPScaledObject → bool))
    (view : W → gmap (GroupVersionResource * objKey) HTTPScaledObject) `{!ObjectTrackerLaws W E view}
    (objects : list HTTPScaledObject) (cs : FakeClientset.Clientset W E D) (w w' : W) :
  view w = ∅ → FakeClientset.NewSimpleClientset FakeDiscovery objects w = Ok (cs, w') →
  let client ns := v1_HTTPScaledObjects (FakeClientset.HttpV1alpha1 label_of cs) ns in
  (∀ ns name opts, fst (ho_Get (client ns) name opts w') = Ok (None, Some (ApiNotFound "not found")))
  ∧ ∀ o opts, let '(r, w'') := ho_Create (client (hso_Namespace o)) o opts w' in
         r = Ok (Some o, None)
         ∧ fst (ho_Get (client (hso_Namespace o)) (hso_Name o) opts w'') = Ok (Some o, None).
Proof.
  intros Hw Hn client. unfold FakeClientset.NewSimpleClientset in Hn.
  destruct (FakeClientset.add_all objects w) as [w1| |] eqn:Ea; [|done..]. injection Hn as <- ->.
  assert (∀ k, view w' !! (FakeHTTPScaledObjects.httpscaledobjectsResource, k) = None) as Hempty.
  { assert (∀ k, view w !! (FakeHTTPScaledObjects.httpscaledobjectsResource, k) = None) as H0 by (intros k; by rewrite Hw).
    clear Hw client. revert w Ea H0. induction objects as [|o objects IH]; intros w Hn H0; simpl in Hn; [by simplify_eq|].
    destruct (tracker_Add scheme_resource o w) as [w1|e|p] eqn:E1; [|done..]. apply (IH w1 Hn).
    intros k. rewrite (tracker_Add_law _ _ _ _ E1), lookup_insert_ne; done. }
  unfold client. cbn. split.
  - intros ns name opts. unfold FakeHTTPScaledObjects.Get. cbn. by rewrite tracker_Get_law, Hempty.
  - intros o opts. unfold FakeHTTPScaledObjects.Create. cbn.
    destruct (tracker_Create_law FakeHTTPScaledObjects.httpscaledobjectsResource (hso_Namespace o) o w' (Hempty _) eq_refl) as [H1 H2].
    destruct (tracker_Invokes _ w') as [[r err] w''] eqn:E1. simpl in H1, H2. simplify_eq. simpl. split; [done|].
    unfold FakeHTTPScaledObjects.Get. cbn. by rewrite tracker_Get_law, H2, lookup_insert_eq.
Qed.

(** A tracker that is a map. *)
#[local] Instance demo_tracker : ObjectTracker (gmap (GroupVersionResource * objKey) HTTPScaledObject) unit := {
  tracker_Add := λ r o w, Ok (<[(r, hso_key o) := o]> w);
  tracker_Invokes := λ a w,
    match a with
    | GetAction r ns name =>
        (match w !! (r, ObjKey ns name) with Some o => (Some o, None) | None => (None, Some (ApiNotFound "not found")) end, w)
    | CreateAction r ns o => ((Some o, None), <[(r, ObjKey ns (hso_Name o)) := o]> w)
    | _ => ((None, Some (ApiOther "no reaction")), w)
    end;
  tracker_InvokesList := λ _ w, ((None, Some (ApiOther "no reaction")), w);
  tracker_Watch := λ _ _ w, ((Some tt, None), w);
  watch_chain := λ react a w, let '((_, ret, err), w) := react a w in ((ret, err), w);
}.

#[local] Instance demo_tracker_laws : ObjectTrackerLaws _ unit (λ w, w).
Proof. split; intros; simpl in *; by simplify_eq. Qed.

Definition demo_stored : HTTPScaledObject :=
  mkHso "dp-1" "shop" 1 None [] (mkSpec None (Some ["app.dp-1"]) None None None None) [].

Lemma fake_clientset_misses_witness :
  ∃ (cs : FakeClientset.Clientset (gmap (GroupVersionResource * objKey) HTTPScaledObject) unit unit) w,
  FakeClientset.NewSimpleClientset (λ _, tt) [demo_stored] ∅ = Ok (cs, w)
  ∧ fst (ho_Get (v1_HTTPScaledObjects (FakeClientset.HttpV1alpha1 (λ _, None) cs) "dp-1") "shop" "" w)
    = Ok (None, Some (ApiNotFound "not found")).
Proof.
  eexists _, _. split; [reflexivity|].
  exact (proj1 (fake_clientset_misses (λ _, tt) (λ _, None) (λ w, w) [demo_stored] _ ∅ _ eq_refl eq_refl) "dp-1" "shop" "").
Defined.
