(* ===== verification/Scheme.v ===== *)
(** * Registering the API types (groupversion_info.go, httpscaledobject_types.go, register.go, operator/main.go)

    The package initialisers that put the types of operator/apis into schemes:
    the one of the generated clientset, the one of its fake, and the operator's
    own. Schemes and builders are apimachinery's and controller-runtime's: a class
    of operations with the laws the initialisers rely on. *)

From S2P Require Import Prelude GoStrings GoUrl Json Http Queue Routing ConfigMaps Hso Kube Generated.

(** ** Schemes *)

Abbreviation GroupVersion := (string * string)%type (only parsing).

(** The Go types of operator/apis, those of apimachinery's metav1 that stand for a
    kind in a version, and those of other packages. *)
Inductive go_type : Type :=
| THTTPScaledObject
| THTTPScaledObjectList
| TMeta (gv : GroupVersion) (kind : string)
| TOther (package name : string).

#[export] Instance go_type_eq_dec : EqDecision go_type.
Proof. solve_decision. Defined.

(** A type's kind is its name. *)
Definition kind_of (t : go_type) : string :=
  match t with
  | THTTPScaledObject => "HTTPScaledObject"
  | THTTPScaledObjectList => "HTTPScaledObjectList"
  | TMeta _ kind => kind
  | TOther _ name => name
  end.

(** The kinds [metav1.AddToGroupVersion] may add to a group and version. *)
Definition meta_kinds : list string :=
  ["WatchEvent"; "ListOptions"; "GetOptions"; "DeleteOptions"; "CreateOptions"; "UpdateOptions"; "PatchOptions";
   "Status"; "APIVersions"; "APIGroupList"; "APIGroup"; "APIResourceList"].

Class Schemes : Type := {
  Scheme : Type;
  NewScheme : Scheme;
  (** the type a scheme has for a kind *)
  recognizes : Scheme → GroupVersion → string → option go_type;
  AddKnownTypes : GroupVersion → list go_type → Scheme → res Scheme;
  AddToGroupVersion : GroupVersion → Scheme → res Scheme;
  (** [scheme.Builder] of controller-runtime *)
  Builder : Type;
  NewBuilder : GroupVersion → Builder;
  Register : list go_type → Builder → Builder;
  Builder_AddToScheme : Builder → Scheme → res Scheme;
  (** [runtime.SchemeBuilder], a list of functions *)
  SchemeBuilder_AddToScheme : list (Scheme → res Scheme) → Scheme → res Scheme;
}.

(** No kind would get a second type. *)
Definition compatible `{Schemes} (gv : GroupVersion) (ts : list go_type) (s : Scheme) : Prop :=
  ∀ t t', t ∈ ts → recognizes s gv (kind_of t) = Some t' → t' = t.

(** The kinds of metav1 have metav1's types only. *)
Definition meta_clean `{Schemes} (s : Scheme) : Prop :=
  ∀ gv k t, k ∈ meta_kinds → recognizes s gv k = Some t → t = TMeta gv k.

(** Where [AddToGroupVersion] adds kinds: the version, the group's internal one,
    and v1 of the core group. *)
Definition meta_versions (gv : GroupVersion) : list GroupVersion := [gv; (gv.1, "__internal"); ("", "v1")].

Class SchemesLaws `{Schemes} : Prop := {
  recognizes_new gv k : recognizes NewScheme gv k = None;
  AddKnownTypes_law gv ts s : compatible gv ts s → NoDup (kind_of <$> ts) →
    ∃ s', AddKnownTypes gv ts s = Ok s'
    ∧ (∀ t, t ∈ ts → recognizes s' gv (kind_of t) = Some t)
    ∧ (∀ gv' k, gv' ≠ gv ∨ k ∉ kind_of <$> ts → recognizes s' gv' k = recognizes s gv' k);
  AddToGroupVersion_law gv s : meta_clean s →
    ∃ s', AddToGroupVersion gv s = Ok s' ∧ meta_clean s'
    ∧ (∀ gv' k, gv' ∉ meta_versions gv ∨ k ∉ meta_kinds → recognizes s' gv' k = recognizes s gv' k);
  Builder_law gv ts s :
    Builder_AddToScheme (Register ts (NewBuilder gv)) s = (s ← AddKnownTypes gv ts s; AddToGroupVersion gv s);
  SchemeBuilder_law fs s : SchemeBuilder_AddToScheme fs s = foldl (λ r f, s ← r; f s) (Ok s) fs;
}.

(** [utilruntime.Must]. *)
Definition Must {A} (r : res A) : res A :=
  match r with Ok a => Ok a | Err e => Panic (Error_string e) | Panic p => Panic p end.

(** ** The initialisers *)

Section init.
Context `{Schemes}.

(** [SchemeBuilder], before the [init] of the types. *)
Definition SchemeBuilder : Builder := NewBuilder SchemeGroupVersion.

(** The [init] of httpscaledobject_types.go. *)
Definition types_init (b : Builder) : Builder := Register [THTTPScaledObject; THTTPScaledObjectList] b.

(** [AddToScheme = SchemeBuilder.AddToScheme]: a method of the builder itself, so
    it has what [init] registers. *)
Definition AddToScheme : Scheme → res Scheme := Builder_AddToScheme (types_init SchemeBuilder).

(** [localSchemeBuilder] and [AddToScheme] of the clientset's scheme. *)
Definition localSchemeBuilder : list (Scheme → res Scheme) := [AddToScheme].
Definition clientset_AddToScheme : Scheme → res Scheme := SchemeBuilder_AddToScheme localSchemeBuilder.

(** Its [init], on the package's [Scheme]. *)
Definition scheme_init : res Scheme :=
  s ← AddToGroupVersion ("", "v1") NewScheme;
  Must (clientset_AddToScheme s).

(** The fake clientset has a scheme of its own, made the same way. *)
Definition fake_scheme_init : res Scheme :=
  s ← AddToGroupVersion ("", "v1") NewScheme;
  Must (SchemeBuilder_AddToScheme [AddToScheme] s).

(** The [init] of operator/main.go; the types of client-go and of KEDA are
    registered by their own packages. *)
Definition operator_init (clientgo_AddToScheme keda_AddToScheme : Scheme → res Scheme) : res Scheme :=
  s ← Must (clientgo_AddToScheme NewScheme);
  s ← Must (AddToScheme s);
  Must (keda_AddToScheme s).

Context `{!SchemesLaws}.

Definition own_type (t : go_type) : Prop := t = THTTPScaledObject ∨ t = THTTPScaledObjectList.

Lemma meta_clean_new : meta_clean NewScheme.
Proof. intros gv k t _. by rewrite recognizes_new. Qed.

(** A scheme with nothing of the add-on's group gets its two types, and keeps
    everything else. *)
Lemma AddToScheme_spec s :
  meta_clean s → (∀ k, recognizes s SchemeGroupVersion k = None) →
  ∃ s', AddToScheme s = Ok s'
  ∧ (∀ t, own_type t → recognizes s' SchemeGroupVersion (kind_of t) = Some t)
  ∧ (∀ gv k, gv ≠ SchemeGroupVersion → k ∉ meta_kinds → recognizes s' gv k = recognizes s gv k).
Proof.
  intros Hm Hn. unfold AddToScheme, types_init, SchemeBuilder. rewrite Builder_law.
  destruct (AddKnownTypes_law SchemeGroupVersion [THTTPScaledObject; THTTPScaledObjectList] s) as (s1 & -> & H1 & H2).
  { intros t t' _. by rewrite Hn. }
  { by apply (bool_decide_unpack _). }
  destruct (AddToGroupVersion_law SchemeGroupVersion s1) as (s2 & H3 & _ & H4).
  { intros gv k t Hk. rewrite H2; [by apply Hm|]. right. unfold meta_kinds in Hk. simpl. set_solver. }
  exists s2. simpl. split_and!; [done| |].
  - intros t [->| ->]; (rewrite H4; [apply H1; set_solver|right; by apply (bool_decide_unpack _)]).
  - intros gv k Hgv Hk. rewrite H4 by (by right). apply H2. by left.
Qed.

(** The clientset's scheme and its fake's. *)
Lemma scheme_init_spec :
  ∃ s, scheme_init = Ok s ∧ ∀ t, own_type t → recognizes s SchemeGroupVersion (kind_of t) = Some t.
Proof.
  unfold scheme_init, clientset_AddToScheme, localSchemeBuilder.
  destruct (AddToGroupVersion_law ("", "v1") NewScheme meta_clean_new) as (s & -> & Hm & Hk). simpl.
  rewrite SchemeBuilder_law. simpl. destruct (AddToScheme_spec s Hm) as (s' & -> & Ho & _); [|by exists s'].
  intros k. rewrite Hk; [apply recognizes_new|]. left. by apply (bool_decide_unpack _).
Qed.
End init.

(** ** Properties *)

(** The initialisers succeed and register what the clients need: the
    schemes of the clientset and of its fake know both types of the add-on under
    http.keda.sh/v1alpha1; so does the operator's when client-go's and KEDA's
    registrations succeed, leave that group alone and keep what is there, and it
    then has theirs too; and a registration that fails stops the process. *)
Theorem schemes_initialised `{Schemes} `{!SchemesLaws} (clientgo keda : Scheme → res Scheme) (s1 : Scheme) :
  let knows (r : res Scheme) := ∃ s, r = Ok s ∧ ∀ t, own_type t → recognizes s SchemeGroupVersion (kind_of t) = Some t in
  knows scheme_init ∧ knows fake_scheme_init
  ∧ (clientgo NewScheme = Ok s1 → meta_clean s1 → (∀ k, recognizes s1 SchemeGroupVersion k = None) →
     (∀ s, ∃ s', keda s = Ok s' ∧ ∀ gv k t, recognizes s gv k = Some t → recognizes s' gv k = Some t) →
     knows (operator_init clientgo keda)
     ∧ ∀ s gv k t, operator_init clientgo keda = Ok s → k ∉ meta_kinds → recognizes s1 gv k = Some t → recognizes s gv k = Some t)
  ∧ (∀ e, clientgo NewScheme = Err e → operator_init clientgo keda = Panic (Error_string e)).
Proof.
  intros knows. split_and!; [apply scheme_init_spec|apply scheme_init_spec| |].
  - intros Hc Hm Hn Hk. unfold operator_init, knows. rewrite Hc. simpl.
    destruct (AddToScheme_spec s1 Hm Hn) as (s2 & -> & Ho & Hkeep). simpl.
    destruct (Hk s2) as (s3 & -> & Hk3). simpl. split; [exists s3; split; [done|]; intros t Ht; by apply Hk3, Ho|].
    intros s gv k t [= <-] Hmk Ht. apply Hk3. rewrite Hkeep; [done| |done]. intros ->. by rewrite Hn in Ht.
  - intros e He. unfold operator_init. by rewrite He.
Qed.

(** *** Schemes as maps *)

Definition scheme_map : Type := gmap (GroupVersion * string) go_type.

Definition known_types (gv : GroupVersion) (ts : list go_type) : scheme_map :=
  list_to_map ((λ t, ((gv, kind_of t), t)) <$> ts).

Definition meta_types (gv : GroupVersion) : scheme_map :=
  list_to_map (gv' ← meta_versions gv; k ← meta_kinds; [((gv', k), TMeta gv' k)]).

#[local] Instance map_schemes : Schemes := {|
  Scheme := scheme_map;
  NewScheme := ∅;
  recognizes s gv k := s !! (gv, k);
  AddKnownTypes gv ts s := Ok (known_types gv ts ∪ s);
  AddToGroupVersion gv s := Ok (meta_types gv ∪ s);
  Builder := GroupVersion * list go_type;
  NewBuilder gv := (gv, []);
  Register ts b := (b.1, b.2 ++ ts);
  Builder_AddToScheme b s := Ok (meta_types b.1 ∪ (known_types b.1 b.2 ∪ s));
  SchemeBuilder_AddToScheme fs s := foldl (λ r f, s ← r; f s) (Ok s) fs;
|}.

Lemma known_types_lookup gv ts t : NoDup (kind_of <$> ts) → t ∈ ts → known_types gv ts !! (gv, kind_of t) = Some t.
Proof.
  intros Hn Ht. apply elem_of_list_to_map_1.
  - rewrite <-list_fmap_compose. apply (NoDup_fmap_2 (λ k, (gv, k))) in Hn.
    by rewrite <-list_fmap_compose in Hn.
  - by apply (list_elem_of_fmap_2 (λ t, ((gv, kind_of t), t))).
Qed.

Lemma known_types_other gv ts gv' k : gv' ≠ gv ∨ k ∉ kind_of <$> ts → known_types gv ts !! (gv', k) = None.
Proof.
  intros Hne. apply not_elem_of_list_to_map_1. rewrite <-list_fmap_compose.
  intros (t & [= -> ->] & Ht)%list_elem_of_fmap. destruct Hne as [?|Hne]; [done|]. by apply Hne, list_elem_of_fmap_2.
Qed.

Lemma meta_types_lookup gv gv' k t :
  meta_types gv !! (gv', k) = Some t → t = TMeta gv' k ∧ gv' ∈ meta_versions gv ∧ k ∈ meta_kinds.
Proof.
  intros Ht%elem_of_list_to_map_2. apply list_elem_of_bind in Ht as (gv1 & Ht & Hg).
  apply list_elem_of_bind in Ht as (k1 & Ht & Hk). apply list_elem_of_singleton in Ht. by simplify_eq.
Qed.

#[local] Instance map_schemes_laws : SchemesLaws.
Proof.
  split; [done| | |done|done].
  - intros gv ts s _ Hn. eexists. split_and!; [done| |].
    + intros t Ht. apply lookup_union_Some_l. by apply known_types_lookup.
    + intros gv' k Hne. apply lookup_union_r. by apply known_types_other.
  - intros gv s Hm. eexists. split_and!; [done| |].
    + intros gv' k t Hk Ht. change ((meta_types gv ∪ (s : scheme_map)) !! (gv', k) = Some t) in Ht.
      apply lookup_union_Some_raw in Ht as [(-> & _)%meta_types_lookup|[_ Ht]]; [done|].
      by apply Hm.
    + intros gv' k Hne. apply lookup_union_r. destruct (meta_types gv !! (gv', k)) as [t|] eqn:E; [|done].
      apply meta_types_lookup in E as (_ & ? & ?). by destruct Hne.
Qed.

(** Registrations of another package, and a scheme that has them. *)
Definition demo_pods : @Scheme map_schemes := {[(("", "v1"), "Pod") := TOther "corev1" "Pod"]}.
Definition demo_clientgo (_ : @Scheme map_schemes) : res (@Scheme map_schemes) := Ok demo_pods.

Lemma schemes_initialised_witness :
  ∃ s, operator_init demo_clientgo Ok = Ok s
  ∧ recognizes s SchemeGroupVersion "HTTPScaledObject" = Some THTTPScaledObject
  ∧ recognizes s ("", "v1") "Pod" = Some (TOther "corev1" "Pod").
Proof.
  destruct (schemes_initialised demo_clientgo Ok demo_pods) as (_ & _ & Hop & _).
  destruct Hop as [(s & Hs & Ho) Hkeep].
  - done.
  - intros gv k t Hk Ht. change (({[(("", "v1"), "Pod") := TOther "corev1" "Pod"]} : scheme_map) !! (gv, k) = Some t) in Ht.
    apply lookup_singleton_Some in Ht as [[= <- <-] <-]. by apply (bool_decide_pack _) in Hk.
  - intros k. by apply (lookup_singleton_None (M := gmap _)).
  - intros s. by exists s.
  - exists s. split_and!; [exact Hs|apply (Ho THTTPScaledObject); by left|].
    apply (Hkeep s); [exact Hs|by apply (bool_decide_unpack _)|done].
Defined.
