(* ===== verification/Informers.v ===== *)
(** * The generated lister and informers (operator/generated/listers, operator/generated/informers)

    Code written by lister-gen and informer-gen: the lister, the informer of
    HTTPScaledObjects, the groups and versions that lead to it, and the shared
    informer factory. Indexers and running informers are client-go's. *)

From S2P Require Import Prelude GoStrings GoUrl Queue Net K8s Hso Kube Generated.

(** ** The lister (listers/http/v1alpha1/httpscaledobject.go) *)

Module HTTPScaledObjectLister.
Definition quoted (s : string) : string := String "034" (s +:+ String "034" "").

(** An indexer of HTTPScaledObjects, which is client-go's: [GetByKey], and the
    objects [cache.ListAll] and [cache.ListAllByNamespace] visit before they end,
    with the error they end with. *)
Record Indexer : Type := mkIndexer {
  GetByKey : string → res (option HTTPScaledObject);
  ListAll : string → list HTTPScaledObject * option error;
  ListAllByNamespace : string → string → list HTTPScaledObject * option error;
}.

Record hTTPScaledObjectLister : Type := mkLister { indexer : Indexer }.
Record hTTPScaledObjectNamespaceLister : Type := mkNamespaceLister { ns_indexer : Indexer; namespace : string }.

Definition NewHTTPScaledObjectLister (i : Indexer) : hTTPScaledObjectLister := mkLister i.

(** [func(m interface{}) { ret = append(ret, m.(...)) }] on every object visited. *)
Definition appended (visited : list HTTPScaledObject) : list HTTPScaledObject := foldl (λ ret m, ret ++ [m]) [] visited.

Definition List_ (s : hTTPScaledObjectLister) (selector : string) : list HTTPScaledObject * option error :=
  let '(visited, err) := ListAll (indexer s) selector in (appended visited, err).

Definition HTTPScaledObjects (s : hTTPScaledObjectLister) (ns : string) : hTTPScaledObjectNamespaceLister :=
  mkNamespaceLister (indexer s) ns.

Definition NamespaceList (s : hTTPScaledObjectNamespaceLister) (selector : string) : list HTTPScaledObject * option error :=
  let '(visited, err) := ListAllByNamespace (ns_indexer s) (namespace s) selector in (appended visited, err).

Definition Get (s : hTTPScaledObjectNamespaceLister) (name : string) : res HTTPScaledObject :=
  match GetByKey (ns_indexer s) (namespace s +:+ "/" +:+ name) with
  | Err e => Err e
  | Panic p => Panic p
  | Ok None => Err (ApiNotFound (snd (Resource "httpscaledobject") +:+ "." +:+ fst (Resource "httpscaledobject")
                                  +:+ " " +:+ quoted name +:+ " not found"))
  | Ok (Some obj) => Ok obj
  end.
End HTTPScaledObjectLister.

(** ** Informers

    [cache.NewSharedIndexInformer]: what an informer is made of. *)

Record SharedIndexInformer (W E : Type) : Type := mkSharedIndexInformer {
  ListFunc : ListOptions → ST W (answer HTTPScaledObjectList);
  WatchFunc : ListOptions → ST W (answer E);
  exampleObject : string;
  resyncPeriod : Duration;
  indexers : list string;
}.
Arguments mkSharedIndexInformer {W E}.
Arguments ListFunc {W E}.
Arguments WatchFunc {W E}.
Arguments exampleObject {W E}.
Arguments resyncPeriod {W E}.
Arguments indexers {W E}.

(** [reflect.TypeOf(&httpv1alpha1.HTTPScaledObject{})]; types go by name. *)
Definition HTTPScaledObject_type : string := "*v1alpha1.HTTPScaledObject".

Definition TweakListOptionsFunc : Type := ListOptions → ListOptions.
Definition NewInformerFunc (W E D : Type) : Type := versioned_Interface W E D → Duration → SharedIndexInformer W E.

(** ** The informer factory (informers/externalversions/factory.go) *)

Module SharedInformerFactory.
Section factory.
Context {W E D : Type}.

(** Informers are made by the caller's function; [id] tells them apart. *)
Record informer : Type := mkInformer { id : nat; made : SharedIndexInformer W E }.

(** [running] are the goroutines [wg] counts, by informer; [launched] remembers
    every call of [Run]. *)
Record factory : Type := mkFactory {
  client : versioned_Interface W E D;
  namespace : string;
  tweakListOptions : option TweakListOptionsFunc;
  defaultResync : Duration;
  customResync : gmap string Duration;
  informers : gmap string informer;
  startedInformers : gmap string bool;
  running : list nat;
  shuttingDown : bool;
  next_id : nat;
  launched : list nat;
}.

Definition SharedInformerOption : Type := factory → factory.

Definition WithCustomResyncConfig (resyncConfig : list (string * Duration)) : SharedInformerOption := λ f,
  mkFactory (client f) (namespace f) (tweakListOptions f) (defaultResync f)
    (foldl (λ m kv, <[kv.1 := kv.2]> m) (customResync f) resyncConfig)
    (informers f) (startedInformers f) (running f) (shuttingDown f) (next_id f) (launched f).

Definition WithTweakListOptions (tweak : TweakListOptionsFunc) : SharedInformerOption := λ f,
  mkFactory (client f) (namespace f) (Some tweak) (defaultResync f) (customResync f) (informers f) (startedInformers f)
    (running f) (shuttingDown f) (next_id f) (launched f).

Definition WithNamespace (ns : string) : SharedInformerOption := λ f,
  mkFactory (client f) ns (tweakListOptions f) (defaultResync f) (customResync f) (informers f) (startedInformers f)
    (running f) (shuttingDown f) (next_id f) (launched f).

Definition NewSharedInformerFactoryWithOptions (cl : versioned_Interface W E D) (defaultResync : Duration) (options : list SharedInformerOption) : factory :=
  foldl (λ f opt, opt f) (mkFactory cl "" None defaultResync ∅ ∅ ∅ [] false 0 []) options.

Definition NewSharedInformerFactory (cl : versioned_Interface W E D) (defaultResync : Duration) : factory :=
  NewSharedInformerFactoryWithOptions cl defaultResync [].

Definition NewFilteredSharedInformerFactory (cl : versioned_Interface W E D) (defaultResync : Duration) (ns : string)
    (tweak : TweakListOptionsFunc) : factory :=
  NewSharedInformerFactoryWithOptions cl defaultResync [WithNamespace ns; WithTweakListOptions tweak].

Definition InformerFor (ty : string) (newFunc : NewInformerFunc W E D) (f : factory) : informer * factory :=
  match informers f !! ty with
  | Some i => (i, f)
  | None =>
      let resyncPeriod := default (defaultResync f) (customResync f !! ty) in
      let i := mkInformer (next_id f) (newFunc (client f) resyncPeriod) in
      (i, mkFactory (client f) (namespace f) (tweakListOptions f) (defaultResync f) (customResync f)
            (<[ty := i]> (informers f)) (startedInformers f) (running f) (shuttingDown f) (S (next_id f)) (launched f))
  end.

(** One iteration of the loop of [Start]. *)
Definition start_informer (ty : string) (i : informer) (f : factory) : factory :=
  if default false (startedInformers f !! ty) then f
  else mkFactory (client f) (namespace f) (tweakListOptions f) (defaultResync f) (customResync f) (informers f)
         (<[ty := true]> (startedInformers f)) (running f ++ [id i]) (shuttingDown f) (next_id f) (launched f ++ [id i]).

Definition Start (f : factory) : factory :=
  if shuttingDown f then f else map_fold start_informer f (informers f).

(** The first half of [Shutdown]; the second, [wg.Wait()], returns when no
    goroutine is left. *)
Definition Shutdown_begin (f : factory) : factory :=
  mkFactory (client f) (namespace f) (tweakListOptions f) (defaultResync f) (customResync f) (informers f) (startedInformers f)
    (running f) true (next_id f) (launched f).

Definition Shutdown_returns (f : factory) : bool := shuttingDown f && bool_decide (running f = []).

(** [Run] returns, and the goroutine with it. *)
Definition run_ends (i : nat) (f : factory) : factory :=
  mkFactory (client f) (namespace f) (tweakListOptions f) (defaultResync f) (customResync f) (informers f) (startedInformers f)
    (list_difference (running f) [i]) (shuttingDown f) (next_id f) (launched f).

(** [synced] is what [cache.WaitForCacheSync] answers for an informer. *)
Definition WaitForCacheSync (synced : informer → bool) (f : factory) : gmap string bool :=
  synced <$> filter (λ kv, default false (startedInformers f !! kv.1) = true) (informers f).

(** The factory used by several goroutines: one lock, so one operation at a
    time. *)
Inductive fstep : factory → factory → Prop :=
| f_informer f ty newFunc : fstep f (snd (InformerFor ty newFunc f))
| f_start f : fstep f (Start f)
| f_shutdown f : fstep f (Shutdown_begin f)
| f_run_ends f i : i ∈ running f → fstep f (run_ends i f).

(** *** Lemmas *)

(** The options the package exports. *)
Definition documented_option (opt : SharedInformerOption) : Prop :=
  (∃ l, opt = WithCustomResyncConfig l) ∨ (∃ n, opt = WithTweakListOptions n) ∨ (∃ s, opt = WithNamespace s).

Record ok (f : factory) : Prop := {
  ok_ids : ∀ ty i, informers f !! ty = Some i → (id i < next_id f)%nat;
  ok_inj : ∀ ty ty' i i', informers f !! ty = Some i → informers f !! ty' = Some i' → id i = id i' → ty = ty';
  ok_started : ∀ ty, startedInformers f !! ty = Some true → ∃ i, informers f !! ty = Some i ∧ id i ∈ launched f;
  ok_launched : ∀ n, n ∈ launched f → ∃ ty i, informers f !! ty = Some i ∧ id i = n ∧ startedInformers f !! ty = Some true;
  ok_once : NoDup (launched f);
  ok_running : running f ⊆+ launched f;
}.

Lemma ok_new cl d opts :
  Forall documented_option opts →
  ok (NewSharedInformerFactoryWithOptions cl d opts).
Proof.
  unfold NewSharedInformerFactoryWithOptions.
  assert (ok (mkFactory cl "" None d ∅ ∅ ∅ [] false 0 [])) as H0.
  { split; simpl; try done; [by intros ? ?%elem_of_nil|apply NoDup_nil_2]. }
  revert H0. generalize (mkFactory cl "" None d ∅ ∅ ∅ [] false 0 []). intros f Hf Ho. revert f Hf.
  induction Ho as [|opt opts Hopt _ IH]; intros f Hf; simpl; [done|]. apply IH.
  destruct Hf, Hopt as [[? ->]|[[? ->]|[? ->]]]; by split.
Qed.

Lemma ok_InformerFor ty newFunc f : ok f → ok (snd (InformerFor ty newFunc f)).
Proof.
  intros [Hi Hj Hs Hl Ho Hr]. unfold InformerFor. destruct (informers f !! ty) as [i|] eqn:Ei; [by split|].
  split; simpl; try done.
  - intros ty' i' [[<- <-]|[_ H']]%lookup_insert_Some; simpl; [lia|]. apply Hi in H'. lia.
  - intros t1 t2 i1 i2 [[<- <-]|[_ H1]]%lookup_insert_Some [[<- <-]|[_ H2]]%lookup_insert_Some; simpl; intros Heq;
      [done|apply Hi in H2; lia|apply Hi in H1; lia|by eapply Hj].
  - intros t Ht. destruct (Hs t Ht) as (i & Hti & Hin). exists i. split; [|done].
    rewrite lookup_insert_ne; [done|]. congruence.
  - intros n Hn. destruct (Hl n Hn) as (t & i & Hti & Hid & Hst). exists t, i. split_and!; [|done|done].
    rewrite lookup_insert_ne; [done|]. congruence.
Qed.

Lemma ok_start_informer ty i f : ok f → informers f !! ty = Some i → ok (start_informer ty i f).
Proof.
  intros [Hi Hj Hs Hl Ho Hr] Hty. unfold start_informer.
  destruct (startedInformers f !! ty) as [[]|] eqn:Ei; simpl; [by split|..].
  all: assert (id i ∉ launched f) as Hnew
    by (intros (t & i' & Hti & Hid & Hst)%Hl; assert (t = ty) as -> by (by eapply Hj); congruence).
  all: split; simpl; try done;
    [ intros t [[<- _]|[_ Ht]]%lookup_insert_Some;
        [exists i; split; [done|]; apply elem_of_app; right; by left
        |destruct (Hs t Ht) as (i' & ? & ?); exists i'; split; [done|]; apply elem_of_app; by left]
    | intros n [Hn|Hn%list_elem_of_singleton]%elem_of_app;
        [destruct (Hl n Hn) as (t & i' & Hti & Hid & Hst); exists t, i'; split_and!; [done|done|];
           destruct (decide (t = ty)) as [->|]; [by rewrite lookup_insert_eq|by rewrite lookup_insert_ne]
        |exists ty, i; split_and!; [done|done|by rewrite lookup_insert_eq]]
    | apply NoDup_app; split_and!; [done|intros x Hx ->%list_elem_of_singleton; done|apply NoDup_singleton]
    | by apply submseteq_skips_r ].
Qed.

Lemma start_informer_informers ty i f : informers (start_informer ty i f) = informers f.
Proof. unfold start_informer. by destruct (default _ _). Qed.

Lemma ok_Start f : ok f → ok (Start f).
Proof.
  intros Hf. unfold Start. destruct (shuttingDown f); [done|].
  assert (∀ m, m ⊆ informers f → ok (map_fold start_informer f m) ∧ informers (map_fold start_informer f m) = informers f) as H.
  { intros m Hm. apply (map_fold_weak_ind (λ g m, m ⊆ informers f → ok g ∧ informers g = informers f)); [done| |done].
    intros ty i m' g Hn IH Hsub. destruct IH as [Hg Hi].
    - etransitivity; [|exact Hsub]. by apply insert_subseteq.
    - split; [|by rewrite start_informer_informers]. apply ok_start_informer; [done|]. rewrite Hi.
      eapply lookup_weaken; [apply lookup_insert_eq|done]. }
  by apply H.
Qed.

Lemma ok_step f f' : ok f → fstep f f' → ok f'.
Proof.
  intros Hf Hs. destruct Hs as [f ty nf|f|f|f i Hi]; [by apply ok_InformerFor|by apply ok_Start|by destruct Hf; split|].
  destruct Hf as [H1 H2 H3 H4 H5 H6]. split; simpl; try done.
  etransitivity; [|exact H6]. apply NoDup_submseteq.
  - apply NoDup_list_difference. apply submseteq_Permutation in H6 as [k Hk]. rewrite Hk in H5.
    by apply NoDup_app in H5 as [? _].
  - intros x Hx%list_elem_of_difference. naive_solver.
Qed.

(** What [Start] has started stays started through the loop. *)
Lemma Start_launches f ty i :
  ok f → shuttingDown f = false → informers f !! ty = Some i → id i ∈ launched (Start f).
Proof.
  intros Hf Hd Hty. unfold Start. rewrite Hd.
  assert (∀ m : gmap string informer, m ⊆ informers f →
    let g := map_fold start_informer f m in
    ok g ∧ informers g = informers f ∧ ∀ t i, m !! t = Some i → startedInformers g !! t = Some true) as H.
  { intros m. apply (map_fold_weak_ind (λ g m, m ⊆ informers f →
      ok g ∧ informers g = informers f ∧ ∀ t i, m !! t = Some i → startedInformers g !! t = Some true)); [done|].
    intros t x m' g Hn IH Hsub. destruct IH as (Hg & Hi & Hst); [by etransitivity; [apply insert_subseteq|]|].
    assert (informers g !! t = Some x) as Hx by (rewrite Hi; eapply lookup_weaken; [apply lookup_insert_eq|done]).
    split_and!; [by apply ok_start_informer|by rewrite start_informer_informers|].
    assert (∀ t', startedInformers g !! t' = Some true ∨ t' = t → startedInformers (start_informer t x g) !! t' = Some true) as Hkeep.
    { intros t' Ht'. unfold start_informer. destruct (startedInformers g !! t) as [[]|] eqn:Ei; simpl; [naive_solver|..];
        (destruct (decide (t' = t)) as [->|]; [by rewrite lookup_insert_eq|rewrite lookup_insert_ne by done; naive_solver]). }
    intros t' i' [[<- _]|[_ Ht']]%lookup_insert_Some; apply Hkeep; eauto. }
  destruct (H (informers f) (reflexivity _)) as (Hok & Hi & Hst).
  destruct (ok_started _ Hok ty (Hst ty i Hty)) as (i' & Hi' & Hin). rewrite Hi in Hi'. by simplify_eq.
Qed.

Lemma fstep_shutdown f f' : fstep f f' → shuttingDown f = true → shuttingDown f' = true ∧ launched f' = launched f.
Proof.
  intros Hs Hd. destruct Hs as [f ty nf|f|f|f i Hi]; [|by unfold Start; rewrite Hd|done|done].
  unfold InformerFor. by destruct (informers f !! ty).
Qed.

Lemma fstep_informer f f' ty i : fstep f f' → informers f !! ty = Some i → informers f' !! ty = Some i.
Proof.
  intros Hs Hi. destruct Hs as [f ty' nf|f|f|f n Hn]; try done.
  - unfold InformerFor. destruct (informers f !! ty') eqn:Ei; [done|]. simpl. rewrite lookup_insert_ne; [done|]. congruence.
  - unfold Start. destruct (shuttingDown f); [done|].
    assert (informers (map_fold start_informer f (informers f)) = informers f) as ->; [|done].
    apply (map_fold_weak_ind (λ g _, informers g = informers f)); [done|]. intros t x m g _ Hg. by rewrite start_informer_informers.
Qed.
End factory.
Arguments factory : clear implicits.
Arguments informer : clear implicits.
End SharedInformerFactory.

Import SharedInformerFactory.

(** ** The informer of HTTPScaledObjects (informers/externalversions/http/v1alpha1/httpscaledobject.go) *)

Module HTTPScaledObjectInformer.
Section informer.
Context {W E D : Type}.

(** The factory it points to is the state of the operations. *)
Record hTTPScaledObjectInformer : Type := mkHsoInformer {
  tweakListOptions : option TweakListOptionsFunc;
  namespace : string;
}.

(** [if tweakListOptions != nil { tweakListOptions(&options) }] *)
Definition tweaked (tweak : option TweakListOptionsFunc) (options : ListOptions) : ListOptions :=
  match tweak with Some t => t options | None => options end.

(** [client.HttpV1alpha1().HTTPScaledObjects(namespace)], and a call on it. *)
Definition objects_of {A} (client : versioned_Interface W E D) (ns : string)
    (k : HTTPScaledObjectInterface W E → ST W A) : ST W A := λ w,
  match cs_HttpV1alpha1 client with
  | Ok v1 => k (v1_HTTPScaledObjects v1 ns) w
  | Err e => (Err e, w)
  | Panic p => (Panic p, w)
  end.

Definition NewFilteredHTTPScaledObjectInformer (client : versioned_Interface W E D) (ns : string) (resyncPeriod : Duration)
    (indexers : list string) (tweak : option TweakListOptionsFunc) : SharedIndexInformer W E :=
  mkSharedIndexInformer
    (λ options, let options := tweaked tweak options in objects_of client ns (λ c, ho_List c options))
    (λ options, let options := tweaked tweak options in objects_of client ns (λ c, ho_Watch c options))
    HTTPScaledObject_type resyncPeriod indexers.

Definition NewHTTPScaledObjectInformer (client : versioned_Interface W E D) (ns : string) (resyncPeriod : Duration)
    (indexers : list string) : SharedIndexInformer W E :=
  NewFilteredHTTPScaledObjectInformer client ns resyncPeriod indexers None.

(** [cache.NamespaceIndex] is the string [namespace]. *)
Definition defaultInformer (f : hTTPScaledObjectInformer) : NewInformerFunc W E D := λ client resyncPeriod,
  NewFilteredHTTPScaledObjectInformer client (namespace f) resyncPeriod ["namespace"] (tweakListOptions f).

Definition Informer (f : hTTPScaledObjectInformer) : factory W E D → informer W E * factory W E D :=
  InformerFor HTTPScaledObject_type (defaultInformer f).

(** [GetIndexer] is what the informer fills. *)
Definition Lister (GetIndexer : informer W E → HTTPScaledObjectLister.Indexer) (f : hTTPScaledObjectInformer)
    (fac : factory W E D) : HTTPScaledObjectLister.hTTPScaledObjectLister * factory W E D :=
  let '(i, fac) := Informer f fac in (HTTPScaledObjectLister.NewHTTPScaledObjectLister (GetIndexer i), fac).
End informer.
End HTTPScaledObjectInformer.

(** ** Versions and groups (http/v1alpha1/interface.go, http/interface.go), and generic access (generic.go) *)

Module Version.
Record version : Type := mkVersion { namespace : string; tweakListOptions : option TweakListOptionsFunc }.
Definition New (ns : string) (tweak : option TweakListOptionsFunc) : version := mkVersion ns tweak.
Definition HTTPScaledObjects (v : version) : HTTPScaledObjectInformer.hTTPScaledObjectInformer :=
  HTTPScaledObjectInformer.mkHsoInformer (tweakListOptions v) (namespace v).
End Version.

Module Group.
Record group : Type := mkGroup { namespace : string; tweakListOptions : option TweakListOptionsFunc }.
Definition New (ns : string) (tweak : option TweakListOptionsFunc) : group := mkGroup ns tweak.
Definition V1alpha1 (g : group) : Version.version := Version.New (namespace g) (tweakListOptions g).
End Group.

Definition Http {W E D} (f : factory W E D) : Group.group := Group.New (namespace f) (tweakListOptions f).

Module GenericInformer.
Section generic.
Context {W E D : Type}.

Record genericInformer : Type := mkGeneric { informer_ : informer W E; resource : string * string }.

Definition Informer (f : genericInformer) : informer W E := informer_ f.

(** [cache.NewGenericLister(indexer, resource)] is client-go's. *)
Definition Lister {L} (NewGenericLister : HTTPScaledObjectLister.Indexer → string * string → L)
    (GetIndexer : informer W E → HTTPScaledObjectLister.Indexer) (f : genericInformer) : L :=
  NewGenericLister (GetIndexer (Informer f)) (resource f).

(** The resource is shown by its [String] method. *)
Definition ForResource (gvr_String : GroupVersionResource → string) (r : GroupVersionResource) (f : factory W E D) :
    res genericInformer * factory W E D :=
  if decide (r = WithResource SchemeGroupVersion "httpscaledobjects") then
    let '(i, f) := HTTPScaledObjectInformer.Informer (Version.HTTPScaledObjects (Group.V1alpha1 (Http f))) f in
    (Ok (mkGeneric i (GroupResource r)), f)
  else (Err (Errorf ("no informer found for " +:+ gvr_String r)), f).
End generic.
Arguments genericInformer : clear implicits.
End GenericInformer.

(** *** Lemmas *)

Section typed.
Context {W E D : Type}.
Implicit Types f : factory W E D.

(** [f.Http().V1alpha1().HTTPScaledObjects().Informer()]. *)
Definition typed_Informer f : informer W E * factory W E D :=
  HTTPScaledObjectInformer.Informer (Version.HTTPScaledObjects (Group.V1alpha1 (Http f))) f.

(** What a program does with a factory: the generated accessors, and [InformerFor]
    for any type with any constructor. *)
Inductive access_step (gvr_String : GroupVersionResource → string) : factory W E D → factory W E D → Prop :=
| a_typed f : access_step gvr_String f (snd (typed_Informer f))
| a_resource f r : access_step gvr_String f (snd (GenericInformer.ForResource gvr_String r f))
| a_informer f ty newFunc : access_step gvr_String f (snd (InformerFor ty newFunc f))
| a_start f : access_step gvr_String f (Start f)
| a_shutdown f : access_step gvr_String f (Shutdown_begin f)
| a_run_ends f i : i ∈ running f → access_step gvr_String f (run_ends i f).

(** What an option sets, and no operation changes. *)
Definition settings f : versioned_Interface W E D * string * option TweakListOptionsFunc * Duration * gmap string Duration :=
  (client f, namespace f, tweakListOptions f, defaultResync f, customResync f).

(** The informer a factory with these settings makes for HTTPScaledObjects. *)
Definition hso_informer f : SharedIndexInformer W E :=
  HTTPScaledObjectInformer.NewFilteredHTTPScaledObjectInformer (client f) (namespace f)
    (default (defaultResync f) (customResync f !! HTTPScaledObject_type)) ["namespace"] (tweakListOptions f).

Lemma InformerFor_settings ty newFunc f : settings (snd (InformerFor ty newFunc f)) = settings f.
Proof. unfold InformerFor. by destruct (informers f !! ty). Qed.

Lemma Start_frame f : settings (Start f) = settings f ∧ informers (Start f) = informers f.
Proof.
  unfold Start. destruct (shuttingDown f); [done|].
  apply (map_fold_weak_ind (λ g _, settings g = settings f ∧ informers g = informers f)); [done|].
  intros ty i m g _ [Hs Hi]. rewrite start_informer_informers. split; [|done]. rewrite <-Hs.
  unfold start_informer. by destruct (default _ _).
Qed.

Lemma hso_informer_settings f f' : settings f' = settings f → hso_informer f' = hso_informer f.
Proof. unfold settings, hso_informer. by intros [= -> -> -> -> ->]. Qed.

(** One way or the other, the typed informer. *)
Lemma ForResource_typed gvr_String r f :
  GenericInformer.ForResource gvr_String r f
  = if decide (r = scheme_resource)
    then (Ok (GenericInformer.mkGeneric (fst (typed_Informer f)) (GroupResource r)), snd (typed_Informer f))
    else (Err (Errorf ("no informer found for " +:+ gvr_String r)), f).
Proof.
  unfold GenericInformer.ForResource, scheme_resource, typed_Informer. case_decide; [|done].
  by destruct (HTTPScaledObjectInformer.Informer _ f).
Qed.

(** Asking makes the type's informer, unless there is one. *)
Lemma typed_Informer_made f :
  informers (snd (typed_Informer f)) !! HTTPScaledObject_type = Some (fst (typed_Informer f))
  ∧ (informers f !! HTTPScaledObject_type = None → made (fst (typed_Informer f)) = hso_informer f).
Proof.
  unfold typed_Informer, HTTPScaledObjectInformer.Informer, InformerFor.
  destruct (informers f !! HTTPScaledObject_type) as [i|] eqn:Ei; cbn; [done|]. by rewrite lookup_insert_eq.
Qed.

Lemma access_step_settings gvr_String f f' : access_step gvr_String f f' → settings f' = settings f.
Proof.
  intros Hs. destruct Hs as [f|f r|f ty nf|f|f|f i Hi]; [apply InformerFor_settings| |apply InformerFor_settings|apply Start_frame|done|done].
  rewrite ForResource_typed. case_decide; [apply InformerFor_settings|done].
Qed.

(** An informer stays. *)
Lemma access_step_keeps gvr_String f f' ty i : access_step gvr_String f f' → informers f !! ty = Some i → informers f' !! ty = Some i.
Proof.
  intros Hs Hi. destruct Hs as [f|f r|f ty' nf|f|f|f j Hj]; [by eapply fstep_informer; [apply f_informer|]| |
    by eapply fstep_informer; [apply f_informer|]|by rewrite (proj2 (Start_frame f))|done|done].
  rewrite ForResource_typed. case_decide; [by eapply fstep_informer; [apply f_informer|]|done].
Qed.

(** The exported options leave the client, the default period and the informers
    alone. *)
Lemma options_settings (cl : versioned_Interface W E D) d opts :
  Forall documented_option opts →
  let f := NewSharedInformerFactoryWithOptions cl d opts in client f = cl ∧ defaultResync f = d ∧ informers f = ∅.
Proof.
  intros Ho. unfold NewSharedInformerFactoryWithOptions.
  assert (∀ f : factory W E D, client f = cl ∧ defaultResync f = d ∧ informers f = ∅ →
    let f' := foldl (λ f opt, opt f) f opts in client f' = cl ∧ defaultResync f' = d ∧ informers f' = ∅) as H; [|by apply H].
  induction Ho as [|opt opts Hopt _ IH]; intros f Hf; simpl; [done|]. apply IH.
  by destruct Hopt as [[? ->]|[[? ->]|[? ->]]].
Qed.
End typed.

(** ** Properties *)

(** C26: invariant. The informer factory, whatever order its operations are called
    in: no informer is run twice, although [Start] may be called many times; a
    [Start] before the shutdown runs every informer asked for so far; a type
    keeps its informer; and after [Shutdown] has been called nothing is run any
    more. *)
Theorem informers_run_once {W E D : Type} (cl : versioned_Interface W E D) (d : Duration)
    (opts : list SharedInformerOption) (f f' : factory W E D) :
  Forall documented_option opts →
  rtc fstep (NewSharedInformerFactoryWithOptions cl d opts) f → rtc fstep f f' →
  NoDup (launched f)
  ∧ (shuttingDown f = false → ∀ ty i, informers f !! ty = Some i → id i ∈ launched (Start f))
  ∧ (∀ ty i, informers f !! ty = Some i → ∀ newFunc, fst (InformerFor ty newFunc f') = i)
  ∧ (shuttingDown f = true → launched f' = launched f).
Proof.
  intros Ho Hr Hr'. assert (ok f) as Hf.
  { pose proof (ok_new cl d opts Ho) as H0. revert Hr H0. generalize (NewSharedInformerFactoryWithOptions cl d opts).
    intros f0 Hr H0. induction Hr; eauto using ok_step. }
  split_and!.
  - apply Hf.
  - intros Hd ty i Hi. by apply (Start_launches f ty i).
  - intros ty i Hi newFunc. assert (informers f' !! ty = Some i) as Hi'.
    { clear Hf Hr. induction Hr' as [|f1 f2 f3 Hs _ IH]; [done|]. by eapply IH, fstep_informer. }
    unfold InformerFor. by rewrite Hi'.
  - clear Hf Hr. induction Hr' as [|f1 f2 f3 Hs _ IH]; [done|]. intros Hd.
    destruct (fstep_shutdown _ _ Hs Hd) as [Hd2 <-]. by apply IH.
Qed.

(** A clientset over a REST client that answers with nothing. *)
Definition demo_clientset : versioned_Interface unit unit string :=
  Clientset.methods (Some (Clientset.New demo_lib (Some (Some demo_rest)))).
Definition demo_factory : factory unit unit string := NewSharedInformerFactory demo_clientset 30.
Definition demo_asked : factory unit unit string := snd (typed_Informer demo_factory).

Lemma informers_run_once_witness :
  launched (Start (Start demo_asked)) = [0%nat] ∧ NoDup (launched (Start (Start demo_asked))).
Proof.
  split; [by vm_compute|].
  apply (informers_run_once demo_clientset 30 [] _ (Start (Start demo_asked))).
  - apply Forall_nil_2.
  - eapply rtc_l; [apply f_informer|]. eapply rtc_l; [apply f_start|]. eapply rtc_l; [apply f_start|apply rtc_refl].
  - apply rtc_refl.
Defined.

(** C33: functional. The informer of HTTPScaledObjects of a factory: whatever was
    called before, asking for it by type and by resource gives the same informer,
    now and later. The first call for the type makes it. If that is a call of the
    generated accessors, the informer lists and watches the objects of the
    factory's namespace with the factory's change to the options, and resyncs with
    the period set for its type, or the factory's default; if it is a call of
    [InformerFor] with a constructor of its own, the accessors get what that
    constructor made from the factory's client and that period. Any other resource
    is an error and changes nothing. *)
Theorem shared_informer {W E D : Type} (gvr_String : GroupVersionResource → string) (cl : versioned_Interface W E D)
    (d : Duration) (opts : list SharedInformerOption) (f : factory W E D) :
  let f0 := NewSharedInformerFactoryWithOptions cl d opts in
  let period := default d (customResync f0 !! HTTPScaledObject_type) in
  Forall documented_option opts → rtc (access_step gvr_String) f0 f →
  let i := fst (typed_Informer f) in
  (∀ f', rtc (access_step gvr_String) (snd (typed_Informer f)) f' →
    fst (typed_Informer f') = i
    ∧ fst (GenericInformer.ForResource gvr_String scheme_resource f') = Ok (GenericInformer.mkGeneric i (Resource "httpscaledobjects")))
  ∧ (informers f !! HTTPScaledObject_type = None →
     (∀ v1 o, cs_HttpV1alpha1 cl = Ok v1 →
        let o' := HTTPScaledObjectInformer.tweaked (tweakListOptions f0) o in
        ListFunc (made i) o = ho_List (v1_HTTPScaledObjects v1 (namespace f0)) o'
        ∧ WatchFunc (made i) o = ho_Watch (v1_HTTPScaledObjects v1 (namespace f0)) o')
     ∧ resyncPeriod (made i) = period
     ∧ ∀ newFunc, let '(j, f1) := InformerFor HTTPScaledObject_type newFunc f in
         made j = newFunc cl period ∧ fst (typed_Informer f1) = j)
  ∧ ∀ r, r ≠ scheme_resource →
      GenericInformer.ForResource gvr_String r f = (Err (Errorf ("no informer found for " +:+ gvr_String r)), f).
Proof.
  intros f0 period Ho Hr i.
  assert (client f0 = cl ∧ defaultResync f0 = d ∧ informers f0 = ∅) as (Hcl & Hd & Hi0) by (by apply options_settings).
  assert (settings f = settings f0) as Hs
    by (clear -Hr; induction Hr as [|f1 f2 f3 Hst _ IH]; [done|]; by rewrite IH, (access_step_settings _ _ _ Hst)).
  destruct (typed_Informer_made f) as [Hl Hm]. fold i in Hm, Hl. split_and!.
  - intros f' Hr'. assert (fst (typed_Informer f') = i) as Hi.
    { assert (informers f' !! HTTPScaledObject_type = Some i) as Hl' by (clear Hm; induction Hr'; eauto using access_step_keeps).
      unfold typed_Informer, HTTPScaledObjectInformer.Informer, InformerFor. by rewrite Hl'. }
    split; [done|]. rewrite ForResource_typed, decide_True by done. cbn [fst]. by rewrite Hi.
  - intros Hnone. rewrite (Hm Hnone), (hso_informer_settings _ _ Hs). split_and!.
    + intros v1 o Hv. cbn. unfold HTTPScaledObjectInformer.objects_of. by rewrite Hcl, Hv.
    + cbn. by rewrite Hd.
    + intros newFunc. unfold InformerFor at 1. rewrite Hnone. unfold settings in Hs. injection Hs as H1 _ _ H2 H3.
      split; [cbn; by rewrite H1, H2, H3, Hcl, Hd|].
      unfold typed_Informer, HTTPScaledObjectInformer.Informer, InformerFor. cbn. by rewrite lookup_insert_eq.
  - intros r Hne. by rewrite ForResource_typed, decide_False.
Qed.

Definition demo_opts : list (SharedInformerOption (W := unit) (E := unit) (D := string)) :=
  [WithNamespace "dp-1"; WithTweakListOptions (λ o, mkListOptions (TimeoutSeconds o) (Watch_ o) "team=web");
   WithCustomResyncConfig [(HTTPScaledObject_type, 60)]].

Definition demo_limited : factory unit unit string := NewSharedInformerFactoryWithOptions demo_clientset 30 demo_opts.

Lemma shared_informer_witness :
  resyncPeriod (made (fst (typed_Informer demo_limited))) = 60
  ∧ ∀ o w, ListFunc (made (fst (typed_Informer demo_limited))) o w = (Ok (Some zero_list, None), w).
Proof.
  destruct (shared_informer (λ _, "") demo_clientset 30 demo_opts demo_limited)
    as (_ & H & _).
  - repeat apply Forall_cons_2; [right; right|right; left|left|apply Forall_nil_2]; by eexists.
  - apply rtc_refl.
  - destruct (H eq_refl) as (Hl & Hr & _). split; [exact Hr|]. intros o w. destruct (Hl _ o eq_refl) as [-> _]. reflexivity.
Defined.
