(* ===== verification/Operator.v ===== *)
(** * The operator (operator/controllers/http)

    [Reconcile] and everything it calls, over any [Client]. The operator's
    memory is its routing table and the HTTPScaledObject at hand, which the
    functions of the package change through pointers: both are state beside the
    client's. *)

From S2P Require Import Prelude GoStrings GoUrl Json Queue Routing ConfigMaps Net Config K8s Hso Kube.

(** ** State *)

Record rstate (W : Type) : Type := mkRstate {
  rs_world : W;
  rs_table : Table;
  rs_httpso : HTTPScaledObject;
}.
Arguments mkRstate {W} rs_world rs_table rs_httpso.
Arguments rs_world {W} r.
Arguments rs_table {W} r.
Arguments rs_httpso {W} r.

(** [k8serrors.IsNotFound] and [IsAlreadyExists] look through wrapped errors. *)
Fixpoint IsNotFound (e : error) : bool :=
  match e with ApiNotFound _ => true | Wrap e _ => IsNotFound e | _ => false end.
Fixpoint IsAlreadyExists (e : error) : bool :=
  match e with ApiAlreadyExists _ => true | Wrap e _ => IsAlreadyExists e | _ => false end.

Section operator.
Context `{Client W}.
Abbreviation M := (ST (rstate W)).

(** A call of the client. *)
Definition api {A} (m : ST W A) : M A := λ s,
  let '(r, w) := m (rs_world s) in (r, mkRstate w (rs_table s) (rs_httpso s)).

(** A method of the routing table. *)
Definition on_table {A} (f : Table → res A * Table) : M A := λ s,
  let '(r, t) := f (rs_table s) in (r, mkRstate (rs_world s) t (rs_httpso s)).

Definition set_httpso (o : HTTPScaledObject) : M unit := λ s,
  (Ok tt, mkRstate (rs_world s) (rs_table s) o).

Definition get_httpso : M HTTPScaledObject := λ s, (Ok (rs_httpso s), s).

Definition wrap_err {A} (msg : string) (m : M A) : M A := λ s,
  let '(r, s') := m s in (map_err (λ e, Wrap e msg) r, s').

(** ** Conditions and status *)

(** [AddCondition(httpso, *SetMessage(CreateCondition(...), message))]. *)
Definition add_condition (condType : HTTPScaledObjectCreationStatus) (status : ConditionStatus)
    (reason : HTTPScaledObjectConditionReason) (message : string) : M unit := λ s,
  (Ok tt,
   mkRstate (rs_world s) (rs_table s)
     (AddCondition (rs_httpso s)
        (SetMessage (CreateCondition (Now_RFC3339 (rs_world s)) condType status reason) message))).

(** The update decodes the server's answer into the object; an error is logged. *)
Definition SaveStatus : M unit := λ s,
  match Status_Update (rs_httpso s) (rs_world s) with
  | (Ok o, w) => (Ok tt, mkRstate w (rs_table s) o)
  | (Err _, w) => (Ok tt, mkRstate w (rs_table s) (rs_httpso s))
  | (Panic p, w) => (Panic p, mkRstate w (rs_table s) (rs_httpso s))
  end.

(** ** Finalizers *)

Definition update_httpso : M unit := λ s,
  match Update_HTTPScaledObject (rs_httpso s) (rs_world s) with
  | (Ok o, w) => (Ok tt, mkRstate w (rs_table s) o)
  | (Err e, w) => (Err e, mkRstate w (rs_table s) (rs_httpso s))
  | (Panic p, w) => (Panic p, mkRstate w (rs_table s) (rs_httpso s))
  end.

Definition ensureFinalizer : M unit :=
  get_httpso ≫= λ httpso,
  if contains (hso_Finalizers httpso) httpScaledObjectFinalizer then mret tt
  else
    set_httpso (set_Finalizers (hso_Finalizers httpso ++ [httpScaledObjectFinalizer]) httpso) ≫= λ _,
    update_httpso.

Definition finalizeScaledObject : M unit :=
  get_httpso ≫= λ httpso,
  if contains (hso_Finalizers httpso) httpScaledObjectFinalizer then
    match remove (hso_Finalizers httpso) httpScaledObjectFinalizer with
    | Ok l => set_httpso (set_Finalizers l httpso) ≫= λ _, update_httpso
    | Err e => throw e
    | Panic p => crash p
    end
  else mret tt.

(** ** The routing table and its ConfigMap *)

Definition updateRoutingMap (namespace : string) : M unit :=
  wrap_err "routing table ConfigMap fetch error"
    (api (GetConfigMap namespace ConfigMapRoutingTableName)) ≫= λ routingConfigMap,
  (λ s, (map_err (λ e, Wrap e "ConfigMap save error")
           (SaveTableToConfigMap (rs_table s) routingConfigMap), s)) ≫= λ newCM,
  wrap_err "saving routing table ConfigMap to Kubernetes"
    (api (PatchConfigMap routingConfigMap newCM)) ≫= λ _,
  mret tt.

(** A host that is missing, or already there, is logged and passed over. *)
Fixpoint remove_hosts (hosts : list string) : M unit :=
  match hosts with
  | [] => mret tt
  | host :: hosts => try (on_table (RemoveTarget host)) ≫= λ _, remove_hosts hosts
  end.

Definition removeAndUpdateRoutingTable (hosts : list string) (namespace : string) : M unit :=
  remove_hosts hosts ≫= λ _, updateRoutingMap namespace.

Fixpoint add_hosts (hosts : list string) (target : Target) : M unit :=
  match hosts with
  | [] => mret tt
  | host :: hosts => try (on_table (AddTarget host target)) ≫= λ _, add_hosts hosts target
  end.

Definition addAndUpdateRoutingTable (hosts : list string) (target : Target) (namespace : string) : M unit :=
  add_hosts hosts target ≫= λ _, updateRoutingMap namespace.

(** ** The ScaledObject *)

(** [httpso.Spec.ScaleTargetRef], dereferenced. *)
Definition scale_target (o : HTTPScaledObject) : M ScaleTargetRef :=
  match spec_ScaleTargetRef (hso_Spec o) with
  | Some ref => mret ref
  | None => crash "nil pointer dereference"
  end.

Definition app_scaled_object (externalScalerHostName : string) (httpso : HTTPScaledObject)
    (ref : ScaleTargetRef) : ScaledObject :=
  let replicas := spec_Replicas (hso_Spec httpso) in
  NewScaledObject (hso_Namespace httpso) (hso_Name httpso +:+ "-app") (ref_Deployment ref)
    externalScalerHostName (default [] (spec_Hosts (hso_Spec httpso)))
    (replicas ≫= rep_Min) (replicas ≫= rep_Max) (spec_CooldownPeriod (hso_Spec httpso)).

Definition createOrUpdateScaledObject (externalScalerHostName : string) : M unit :=
  get_httpso ≫= λ httpso,
  scale_target httpso ≫= λ ref,
  let appScaledObject := app_scaled_object externalScalerHostName httpso ref in
  try (api (Create_ScaledObject appScaledObject)) ≫= λ r,
  match r with
  | inl _ => mret tt
  | inr err =>
      if IsAlreadyExists err then
        api (Get_ScaledObject (ObjKey (hso_Namespace httpso) (so_Name appScaledObject))) ≫= λ _,
        api (Patch_ScaledObject appScaledObject)
      else
        add_condition ErrorStatus ConditionFalse ErrorCreatingAppScaledObject (Error_string err) ≫= λ _,
        throw err
  end ≫= λ _,
  add_condition Created ConditionTrue AppScaledObjectCreated "App ScaledObject created".

(** ** Application resources *)

Definition removeApplicationResources (baseConfig : OperatorConfig.Base) : M unit :=
  deferred SaveStatus (
    add_condition Terminating ConditionUnknown TerminatingResources "Received termination signal" ≫= λ _,
    get_httpso ≫= λ httpso,
    match AppScaledObjectName httpso with
    | Ok name =>
        try (api (Delete_ScaledObject (ObjKey (hso_Namespace httpso) name))) ≫= λ r,
        match r with
        | inl _ => mret tt
        | inr err =>
            if IsNotFound err then mret tt
            else
              add_condition ErrorStatus ConditionFalse AppScaledObjectTerminationError (Error_string err) ≫= λ _,
              throw err
        end
    | Err e => throw e
    | Panic p => crash p
    end ≫= λ _,
    add_condition Terminated ConditionTrue AppScaledObjectTerminated "" ≫= λ _,
    get_httpso ≫= λ httpso,
    removeAndUpdateRoutingTable (default [] (spec_Hosts (hso_Spec httpso)))
      (OperatorConfig.base_CurrentNamespace baseConfig)).

Definition httpso_target (baseConfig : OperatorConfig.Base) (httpso : HTTPScaledObject)
    (ref : ScaleTargetRef) : Target :=
  NewTarget (hso_Namespace httpso) (ref_Service ref) (ref_Port ref) (ref_Deployment ref)
    (default (OperatorConfig.base_TargetPendingRequests baseConfig)
       (spec_TargetPendingRequests (hso_Spec httpso))).

Definition createOrUpdateApplicationResources (baseConfig : OperatorConfig.Base)
    (externalScalerConfig : OperatorConfig.ExternalScaler) : M unit :=
  deferred SaveStatus (
    add_condition Pending ConditionUnknown PendingCreation
      "Identified HTTPScaledObject creation signal" ≫= λ _,
    createOrUpdateScaledObject
      (OperatorConfig.HostName externalScalerConfig (OperatorConfig.base_CurrentNamespace baseConfig)) ≫= λ _,
    get_httpso ≫= λ httpso,
    scale_target httpso ≫= λ ref,
    addAndUpdateRoutingTable (default [] (spec_Hosts (hso_Spec httpso)))
      (httpso_target baseConfig httpso ref) (OperatorConfig.base_CurrentNamespace baseConfig)).

(** ** Reconcile *)

Record reconciler : Type := mkReconciler {
  InterceptorConfig : OperatorConfig.Interceptor;
  ExternalScalerConfig : OperatorConfig.ExternalScaler;
  BaseConfig : OperatorConfig.Base;
}.

(** [ctrl.Result]'s [RequeueAfter], and the error. *)
Definition outcome : Type := Duration * option error.

Definition sanitize : M unit := λ s,
  let '(r, o) := sanitizeHosts (rs_httpso s) in (r, mkRstate (rs_world s) (rs_table s) o).

(** What follows the [Get]. *)
Definition reconcile_object (c : reconciler) : M outcome :=
  get_httpso ≫= λ httpso,
  match hso_DeletionTimestamp httpso with
  | Some _ =>
      try (removeApplicationResources (BaseConfig c)) ≫= λ r,
      match r with
      | inr removeErr => mret (1000 * Millisecond, Some removeErr)
      | inl _ =>
          try finalizeScaledObject ≫= λ r,
          mret (0, match r with inl _ => None | inr e => Some e end)
      end
  | None =>
      try ensureFinalizer ≫= λ r,
      match r with
      | inr err => mret (0, Some err)
      | inl _ =>
          try sanitize ≫= λ r,
          match r with
          | inr err => mret (0, Some err)
          | inl _ =>
              try (createOrUpdateApplicationResources (BaseConfig c) (ExternalScalerConfig c)) ≫= λ r,
              match r with
              | inr err =>
                  try (removeApplicationResources (BaseConfig c)) ≫= λ _, mret (0, Some err)
              | inl _ =>
                  add_condition Ready ConditionTrue HTTPScaledObjectIsReady "Finished object creation" ≫= λ _,
                  SaveStatus ≫= λ _,
                  mret (0, None)
              end
          end
      end
  end.

(** The operator's memory between calls is its client and its table. *)
Definition Reconcile (c : reconciler) (req : objKey) (w : W) (t : Table) : res outcome * (W * Table) :=
  match Get_HTTPScaledObject req w with
  | (Err err, w) =>
      if IsNotFound err then (Ok (0, None), (w, t)) else (Ok (500 * Millisecond, Some err), (w, t))
  | (Panic p, w) => (Panic p, (w, t))
  | (Ok httpso, w) =>
      let '(r, s) := reconcile_object c (mkRstate w t httpso) in
      (r, (rs_world s, rs_table s))
  end.

(** ** Pinging the interceptors *)

(** One GET per endpoint, all of them made; the error is that of the first that
    failed ([get] answers in the order of the endpoints). *)
Fixpoint ping_all (get : string → ST W unit) (urls : list URL) : ST W unit := λ w,
  match urls with
  | [] => (Ok tt, w)
  | u :: urls =>
      match get (URL_String u +:+ "/routing_ping") w with
      | (Panic p, w) => (Panic p, w)
      | (r, w) =>
          match ping_all get urls w, r with
          | (Ok _, w), Err e => (Err e, w)
          | (Err _, w), Err e => (Err e, w)
          | x, _ => x
          end
      end
  end.

Definition pingInterceptors (get : string → ST W unit) (ns interceptorSvcName interceptorPort : string) : ST W unit := λ w,
  match EndpointsForService ns interceptorSvcName interceptorPort EndpointsFuncForControllerClient w with
  | (Err e, w) => (Err (Wrap e "pingInterceptors"), w)
  | (Panic p, w) => (Panic p, w)
  | (Ok endpointURLs, w) => ping_all get endpointURLs w
  end.
End operator.
