(* ===== verification/OperatorProofs.v ===== *)
(** * What a reconciliation does (operator/controllers/http)

    The theorems on Operator, for every client that satisfies [ClientLaws]:
    what is in the routing table, in the ConfigMap and among the ScaledObjects
    after a reconciliation that reported no error, for an object that exists
    and for one that is being deleted. *)

From S2P Require Import Prelude GoStrings GoUrl Json Queue QueueRpc Routing ConfigMaps Net Config K8s Hso Kube Operator.

(** ** Running the monad *)

Section monad.
Context {S : Type}.

Lemma try_run {A} (m : ST S A) s x s' :
  try m s = (Ok x, s') →
  match x with
  | inl a => m s = (Ok a, s')
  | inr e => m s = (Err e, s')
  end.
Proof. unfold try. destruct (m s) as [[a|e|p] s1]; intros Heq; by simplify_eq. Qed.

Lemma deferred_run {A} (d : ST S unit) (m : ST S A) s r s' :
  deferred d m s = (r, s') →
  ∃ s1 x, m s = (if is_panic r then fst (m s) else r, s1) ∧ d s1 = (x, s').
Proof.
  unfold deferred. destruct (m s) as [r1 s1]. destruct (d s1) as [[[]|e|p] s2] eqn:Ed;
    intros Heq; simplify_eq; exists s1; eauto; destruct (is_panic r); eauto.
Qed.

Lemma deferred_Ok {A} (d : ST S unit) (m : ST S A) s a s' :
  deferred d m s = (Ok a, s') → ∃ s1 x, m s = (Ok a, s1) ∧ d s1 = (x, s').
Proof.
  unfold deferred. destruct (m s) as [r1 s1]. destruct (d s1) as [[[]|e|p] s2] eqn:Ed;
    intros Heq; simplify_eq; eauto.
Qed.
End monad.

(** Splits a run of a sequence of calls into the runs of its parts. *)
Ltac run_bind H :=
  let a := fresh "a" in let s := fresh "s" in let H1 := fresh "Hrun" in
  apply ST_bind_Ok in H as (a & s & H1 & H).

(** ** Tables *)

(** The entries after adding, and after removing, some hosts. *)
Definition added (hosts : list string) (x : Target) (m m' : gmap string Target) : Prop :=
  ∀ h, m' !! h = match m !! h with
                 | Some y => Some y
                 | None => if decide (h ∈ hosts) then Some x else None
                 end.

Definition removed (hosts : list string) (m m' : gmap string Target) : Prop :=
  ∀ h, m' !! h = if decide (h ∈ hosts) then None else m !! h.

Section tables.
Context `{Client W}.
Implicit Types (s : rstate W).

Lemma add_hosts_run hosts x s r s' :
  table_map (rs_table s) ≠ None → add_hosts hosts x s = (r, s') →
  r = Ok tt ∧ rs_world s' = rs_world s ∧ rs_httpso s' = rs_httpso s
  ∧ table_map (rs_table s') ≠ None
  ∧ added hosts x (entries (rs_table s)) (entries (rs_table s')).
Proof.
  revert s. induction hosts as [|h hosts IH]; intros s Hn; cbn [add_hosts].
  - intros [= <- <-]. split_and!; [done..|]. intros k. by destruct (entries _ !! k).
  - rewrite ST_bind_run. unfold try, on_table.
    pose proof (AddTarget_no_panic (rs_table s) h x Hn) as Hp.
    pose proof (AddTarget_not_nil (rs_table s) h x Hn) as Hn'.
    pose proof (AddTarget_entries (rs_table s) h x Hn) as He.
    destruct (AddTarget h x (rs_table s)) as [[[]|e|p] t']; simpl in *; [| |done].
    all: intros (-> & Hw & Ho & Hn2 & Ha)%IH; [|done]; simpl in *.
    all: split_and!; [done..|]; intros k; rewrite (Ha k), He; clear - k.
    all: destruct (decide (is_Some (entries (rs_table s) !! h))) as [[y Hy]|Hy];
      [destruct (entries _ !! k) eqn:Ek; [done|]; repeat case_decide; set_solver|].
    all: rewrite lookup_insert; destruct (decide (h = k)) as [->|Hk];
      [rewrite (proj2 (eq_None_not_Some _) Hy); by rewrite decide_True by set_solver|].
    all: destruct (entries _ !! k) eqn:Ek; [done|]; repeat case_decide; set_solver.
Qed.

Lemma remove_hosts_run hosts s r s' :
  table_map (rs_table s) ≠ None → remove_hosts hosts s = (r, s') →
  r = Ok tt ∧ rs_world s' = rs_world s ∧ rs_httpso s' = rs_httpso s
  ∧ table_map (rs_table s') ≠ None
  ∧ removed hosts (entries (rs_table s)) (entries (rs_table s')).
Proof.
  revert s. induction hosts as [|h hosts IH]; intros s Hn; cbn [remove_hosts].
  - intros [= <- <-]. split_and!; [done..|]. intros k. done.
  - rewrite ST_bind_run. unfold try, on_table.
    pose proof (RemoveTarget_no_panic (rs_table s) h) as Hp.
    pose proof (RemoveTarget_not_nil (rs_table s) h Hn) as Hn'.
    pose proof (RemoveTarget_entries (rs_table s) h) as He.
    destruct (RemoveTarget h (rs_table s)) as [[[]|e|p] t']; simpl in *; [| |done].
    all: intros (-> & Hw & Ho & Hn2 & Ha)%IH; [|done]; simpl in *.
    all: split_and!; [done..|]; intros k; rewrite (Ha k), He, lookup_delete; clear;
      repeat case_decide; set_solver.
Qed.
End tables.

(** ** The ConfigMap *)

Definition routing_key (ns : string) : objKey := ObjKey ns ConfigMapRoutingTableName.

(** The routing table a reader finds in a cluster. *)
Definition published (c : cluster) (ns : string) : res Table :=
  match configmaps c !! routing_key ns with
  | Some cm => FetchTableFromConfigMap cm
  | None => Err (ApiNotFound "not found")
  end.

(** The ConfigMap in the cluster is the one its key names. *)
Definition routing_cm_ok (c : cluster) (ns : string) : Prop :=
  ∀ cm, configmaps c !! routing_key ns = Some cm → cm_key cm = routing_key ns.

(** The ConfigMap with the table in it: the server stores it as it is, and
    readers find the table. *)
Definition saved (t : Table) (cm : ConfigMap) (d : gmap string string) : ConfigMap :=
  mkConfigMap (cm_Namespace cm) (cm_Name cm)
    (Some (<[configMapRoutingTableKey := print_json (table_json t) +:+ newline]> d)).

Lemma merge_saved cm d t : cm_Data cm = Some d → merge_configmap cm (saved t cm d) cm = saved t cm d.
Proof.
  intros Hd. unfold merge_configmap, saved. simpl. rewrite Hd. simpl. f_equal. f_equal.
  rewrite merge_data_insert. case_decide as Hi; [|done]. by rewrite insert_id.
Qed.

Lemma fetch_saved cm d t : table_ok t → FetchTableFromConfigMap (saved t cm d) = Ok t.
Proof.
  intros Ht. unfold FetchTableFromConfigMap, saved. cbn [cm_Data default]. simpl. rewrite lookup_insert_eq.
  by rewrite UnmarshalJSON_MarshalJSON.
Qed.

Section updates.
Context `{Client W} (view : W → cluster) `{!ClientLaws W view}.
Implicit Types (s : rstate W).

Lemma api_Ok {A} (m : ST W A) s a s' :
  api m s = (Ok a, s') → ∃ w, m (rs_world s) = (Ok a, w) ∧ s' = mkRstate w (rs_table s) (rs_httpso s).
Proof. unfold api. destruct (m (rs_world s)) as [r w]. intros [= -> <-]. eauto. Qed.

Lemma wrap_api_Ok {A} msg (m : ST W A) s a s' :
  wrap_err msg (api m) s = (Ok a, s') →
  ∃ w, m (rs_world s) = (Ok a, w) ∧ s' = mkRstate w (rs_table s) (rs_httpso s).
Proof.
  unfold wrap_err. destruct (api m s) as [r s1] eqn:Ea. intros [= Hr <-].
  apply map_err_Ok in Hr as ->. by apply api_Ok.
Qed.

Lemma updateRoutingMap_run ns s s' :
  updateRoutingMap ns s = (Ok tt, s') → routing_cm_ok (view (rs_world s)) ns →
  rs_table s' = rs_table s ∧ rs_httpso s' = rs_httpso s
  ∧ ∃ cm d, configmaps (view (rs_world s)) !! routing_key ns = Some cm ∧ cm_Data cm = Some d
    ∧ view (rs_world s')
      = set_configmaps (<[routing_key ns := mkConfigMap (cm_Namespace cm) (cm_Name cm)
          (Some (<[configMapRoutingTableKey := print_json (table_json (rs_table s)) +:+ newline]> d))]>)
          (view (rs_world s)).
Proof.
  intros Hr Hok. unfold updateRoutingMap in Hr.
  apply ST_bind_Ok in Hr as (cm & s1 & Hg & Hr).
  apply ST_bind_Ok in Hr as (new & s2 & Hs & Hr).
  apply ST_bind_Ok in Hr as (cm' & s3 & Hp & Hr). injection Hr as <-.
  apply wrap_api_Ok in Hg as (w1 & Hg & ->).
  apply (effect_Ok view _ _ _ _ _ (Get_ConfigMap_law _)) in Hg as [Hv Hcm].
  injection Hs as Hs <-. unfold SaveTableToConfigMap in Hs.
  cbn [MarshalJSON mbind res_bind rs_table] in Hs.
  destruct (cm_Data cm) as [d|] eqn:Ed; [|done]. injection Hs as <-.
  apply wrap_api_Ok in Hp as (w2 & Hp & ->). cbn [rs_world rs_table rs_httpso] in *.
  apply ST_bind_Ok in Hp as ([] & w3 & Hp & Hret). injection Hret as <- <-.
  apply (effect_Ok view _ _ _ _ _ (Patch_ConfigMap_law _ _)) in Hp as (cur & Hcur & Hv2).
  split_and!; [done..|]. exists cm, d. split_and!; [done..|].
  pose proof (Hok cm Hcm) as Hk.
  assert (∀ dd, cm_key (mkConfigMap (cm_Namespace cm) (cm_Name cm) dd) = routing_key ns) as Hk'
    by (intros dd; exact Hk).
  rewrite Hk', Hv in Hcur. rewrite Hk', Hv in Hv2.
  change (ObjKey ns ConfigMapRoutingTableName) with (routing_key ns) in Hcm.
  assert (cur = cm) as -> by congruence. rewrite Hv2. do 2 f_equal. exact (merge_saved cm d (rs_table s) Ed).
Qed.

(** After the routing map was updated, readers find the operator's table. *)
Lemma updateRoutingMap_published ns s s' :
  updateRoutingMap ns s = (Ok tt, s') → routing_cm_ok (view (rs_world s)) ns → table_ok (rs_table s) →
  published (view (rs_world s')) ns = Ok (rs_table s) ∧ routing_cm_ok (view (rs_world s')) ns
  ∧ rs_table s' = rs_table s ∧ rs_httpso s' = rs_httpso s
  ∧ scaledobjects (view (rs_world s')) = scaledobjects (view (rs_world s))
  ∧ httpscaledobjects (view (rs_world s')) = httpscaledobjects (view (rs_world s)).
Proof.
  intros Hr Hok Ht. destruct (updateRoutingMap_run _ _ _ Hr Hok) as (Htb & Ho & cm & d & Hcm & Hd & Hv).
  rewrite Hv. unfold published, routing_cm_ok. simpl. rewrite lookup_insert_eq. split_and!; try done.
  - exact (fetch_saved cm d (rs_table s) Ht).
  - intros cm' [= <-]. unfold cm_key. simpl. apply (Hok cm Hcm).
Qed.
End updates.

(** ** Objects *)

(** Everything but the version and the conditions. *)
Definition same_core (o o' : HTTPScaledObject) : Prop :=
  hso_Namespace o' = hso_Namespace o ∧ hso_Name o' = hso_Name o
  ∧ hso_DeletionTimestamp o' = hso_DeletionTimestamp o ∧ hso_Finalizers o' = hso_Finalizers o
  ∧ hso_Spec o' = hso_Spec o.

#[export] Instance same_core_equiv : Equivalence same_core.
Proof. split; unfold same_core; [intros o|intros o o'|intros o o' o'']; naive_solver congruence. Qed.

Lemma same_core_key o o' : same_core o o' → hso_key o' = hso_key o.
Proof. intros (Hns & Hn & _). unfold hso_key. by rewrite Hns, Hn. Qed.

(** Every HTTPScaledObject is stored under its own name. *)
Definition hso_ok (c : cluster) : Prop :=
  ∀ k o, httpscaledobjects c !! k = Some o → hso_key o = k.

(** The server keeps an object that is not on its way out. *)
Definition kept (o : HTTPScaledObject) : Prop :=
  hso_DeletionTimestamp o = None ∨ hso_Finalizers o ≠ [].

(** What a change of statuses leaves alone. *)
Record status_frame (c c' : cluster) : Prop := {
  sf_configmaps : configmaps c' = configmaps c;
  sf_scaledobjects : scaledobjects c' = scaledobjects c;
  sf_hso_ok : hso_ok c → hso_ok c';
  sf_kept k o : hso_ok c → httpscaledobjects c !! k = Some o → kept o →
    ∃ o', httpscaledobjects c' !! k = Some o' ∧ same_core o o';
}.

#[export] Instance status_frame_refl : Reflexive status_frame.
Proof. intros c. split; [done..|]. intros k o _ Hk _. by exists o. Qed.

#[export] Instance status_frame_trans : Transitive status_frame.
Proof.
  intros c1 c2 c3 [A1 A2 A3 A4] [B1 B2 B3 B4]. split; [congruence|congruence|auto|].
  intros k o Hok Hk Ho. destruct (A4 k o Hok Hk Ho) as (o2 & Hk2 & Hc2).
  destruct (B4 k o2 (A3 Hok) Hk2) as (o3 & Hk3 & Hc3).
  - destruct Hc2 as (_ & _ & Hd & Hf & _). unfold kept. by rewrite Hd, Hf.
  - exists o3. split; [done|]. by etransitivity.
Qed.

Lemma put_hso_lookup o m k :
  kept o → put_hso o m !! k = if decide (hso_key o = k) then Some o else m !! k.
Proof.
  intros Hk. unfold put_hso.
  destruct (hso_DeletionTimestamp o) eqn:Ed, (hso_Finalizers o) eqn:Ef; rewrite ?lookup_insert; try done.
  by destruct Hk; congruence.
Qed.

Lemma put_hso_ne o m k : hso_key o ≠ k → put_hso o m !! k = m !! k.
Proof.
  intros Hk. unfold put_hso.
  destruct (hso_DeletionTimestamp o), (hso_Finalizers o);
    first [by apply lookup_delete_ne | by apply lookup_insert_ne].
Qed.

Lemma put_hso_self o m o' : put_hso o m !! hso_key o = Some o' → o' = o.
Proof.
  unfold put_hso. destruct (hso_DeletionTimestamp o), (hso_Finalizers o);
    rewrite ?lookup_insert_eq, ?lookup_delete_eq; congruence.
Qed.

Lemma put_hso_ok o m k o' : put_hso o m !! k = Some o' → (o' = o ∧ hso_key o = k) ∨ m !! k = Some o'.
Proof.
  unfold put_hso. intros Hk.
  assert ((<[hso_key o := o]> m) !! k = Some o' → (o' = o ∧ hso_key o = k) ∨ m !! k = Some o') as Hi.
  { rewrite lookup_insert. case_decide; naive_solver. }
  destruct (hso_DeletionTimestamp o), (hso_Finalizers o); auto.
  apply lookup_delete_Some in Hk as [_ ?]. auto.
Qed.

Lemma stored_status_core o cur rv : same_core cur (stored_update true o cur rv).
Proof. by unfold same_core, stored_update. Qed.

Lemma update_status_frame o c o' c' :
  update_effect true o c o' c' → status_frame c c'.
Proof.
  intros (cur & rv & Hcur & -> & ->). split; simpl; [done|done| |].
  - intros Hok k o1. intros [[-> Hk]|Hk]%put_hso_ok; [done|by apply Hok].
  - intros k o1 Hok Hk Ho. pose proof (stored_status_core o cur rv) as Hc.
    assert (hso_key (stored_update true o cur rv) = hso_key o) as Hkey.
    { rewrite (same_core_key _ _ Hc). by apply (Hok _ _ Hcur). }
    destruct (decide (hso_key o = k)) as [<-|Hne].
    + assert (cur = o1) as -> by congruence. exists (stored_update true o o1 rv). split; [|done].
      rewrite put_hso_lookup by done. by rewrite decide_True.
    + exists o1. split; [|done]. rewrite put_hso_ne; [done|]. simpl in *. congruence.
Qed.

Section objects.
Context `{Client W} (view : W → cluster) `{!ClientLaws W view}.
Implicit Types (s : rstate W).

Lemma SaveStatus_run s r s' :
  SaveStatus s = (r, s') →
  r = Ok tt ∧ rs_table s' = rs_table s ∧ status_frame (view (rs_world s)) (view (rs_world s'))
  ∧ (rs_httpso s' = rs_httpso s
     ∨ ∃ cur rv, httpscaledobjects (view (rs_world s)) !! hso_key (rs_httpso s) = Some cur
       ∧ rs_httpso s' = decode_into (stored_update true (rs_httpso s) cur rv) (rs_httpso s)).
Proof.
  unfold SaveStatus. pose proof (Status_Update_law (view := view) (rs_httpso s) (rs_world s)) as Hl.
  destruct (Status_Update _ _) as [[o|e|p] w1]; [| |done]; intros [= <- <-]; simpl.
  - split_and!; [done|done|by eapply update_status_frame|]. right.
    destruct Hl as (cur & rv & ? & ? & ?). eauto.
  - split_and!; [done|done| |by left].
    destruct Hl as [->|[o Hl]]; [done|by eapply update_status_frame].
Qed.

Lemma decode_same_spec stored mine :
  hso_Spec stored = hso_Spec mine → hso_Spec (decode_into stored mine) = hso_Spec mine.
Proof.
  destruct stored as [? ? ? ? ? sp ?], mine as [? ? ? ? ? sp' ?]. simpl. intros ->.
  destruct sp' as [h hs ref rep tpr cd]. unfold or_else; simpl.
  by destruct h, hs as [[|]|], ref, rep, tpr, cd.
Qed.

Lemma ensureFinalizer_run s s' :
  ensureFinalizer s = (Ok tt, s') →
  hso_ok (view (rs_world s)) →
  httpscaledobjects (view (rs_world s)) !! hso_key (rs_httpso s) = Some (rs_httpso s) →
  hso_DeletionTimestamp (rs_httpso s) = None →
  hso_Spec (rs_httpso s') = hso_Spec (rs_httpso s)
  ∧ hso_Namespace (rs_httpso s') = hso_Namespace (rs_httpso s)
  ∧ hso_Name (rs_httpso s') = hso_Name (rs_httpso s)
  ∧ rs_table s' = rs_table s
  ∧ configmaps (view (rs_world s')) = configmaps (view (rs_world s))
  ∧ scaledobjects (view (rs_world s')) = scaledobjects (view (rs_world s))
  ∧ hso_ok (view (rs_world s'))
  ∧ ∃ o, httpscaledobjects (view (rs_world s')) !! hso_key (rs_httpso s) = Some o
    ∧ hso_DeletionTimestamp o = None ∧ hso_Spec o = hso_Spec (rs_httpso s)
    ∧ httpScaledObjectFinalizer ∈ hso_Finalizers o.
Proof.
  intros Hr Hok Hst Hdel. unfold ensureFinalizer in Hr.
  apply ST_bind_Ok in Hr as (o & s1 & [= <- <-] & Hr).
  destruct (contains _ _) eqn:Ec.
  - injection Hr as <-. split_and!; try done. exists (rs_httpso s). split_and!; [done|done|done|].
    by apply contains_elem.
  - apply ST_bind_Ok in Hr as ([] & s1 & [= <-] & Hr). unfold update_httpso in Hr.
    cbn [rs_world rs_table rs_httpso] in Hr.
    set (o1 := set_Finalizers _ _) in Hr.
    destruct (Update_HTTPScaledObject o1 (rs_world s)) as [[o2|e|p] w1] eqn:Eu; [|done..].
    injection Hr as <-. cbn [rs_world rs_table rs_httpso].
    apply (effect_Ok view _ _ _ _ _ (Update_HTTPScaledObject_law _)) in Eu as (cur & rv & Hcur & Hv & ->).
    assert (hso_key o1 = hso_key (rs_httpso s)) as Hk by done. rewrite Hk, Hst in Hcur.
    injection Hcur as <-. rewrite Hv.
    cbn [configmaps scaledobjects httpscaledobjects set_httpscaledobjects]. split_and!; try done.
    + by rewrite decode_same_spec.
    + intros k o3 [[-> <-]|Hk3]%put_hso_ok; [done|by apply Hok].
    + exists (stored_update false o1 (rs_httpso s) rv).
      rewrite put_hso_lookup by (left; simpl; done). rewrite decide_True by done.
      split_and!; [done|done|done|]. simpl. set_solver.
Qed.
End objects.

(** ** The ScaledObject *)

(** [so] scales what [app] asks for: same target, same triggers, and the bounds
    [app] sets. *)
Definition scales_as (app so : ScaledObject) : Prop :=
  so_TargetName so = so_TargetName app ∧ so_Triggers so = so_Triggers app
  ∧ (∀ v, so_MinReplicaCount app = Some v → so_MinReplicaCount so = Some v)
  ∧ (∀ v, so_MaxReplicaCount app = Some v → so_MaxReplicaCount so = Some v)
  ∧ (∀ v, so_CooldownPeriod app = Some v → so_CooldownPeriod so = Some v).

Lemma scales_as_refl app : scales_as app app.
Proof. by split_and!. Qed.

Lemma scales_as_merge app cur : scales_as app (merge_scaledobject app cur).
Proof. unfold scales_as, merge_scaledobject; simpl. split_and!; try done; by intros v ->. Qed.

(** Only the ScaledObject under [k] changed. *)
Definition only_scaledobject (k : objKey) (c c' : cluster) : Prop :=
  configmaps c' = configmaps c ∧ httpscaledobjects c' = httpscaledobjects c
  ∧ ∀ k', k' ≠ k → scaledobjects c' !! k' = scaledobjects c !! k'.

#[export] Instance only_scaledobject_refl k : Reflexive (only_scaledobject k).
Proof. by intros c. Qed.

#[export] Instance only_scaledobject_trans k : Transitive (only_scaledobject k).
Proof.
  intros c1 c2 c3 (A1 & A2 & A3) (B1 & B2 & B3). split_and!; [congruence|congruence|].
  intros k' Hk. by rewrite B3, A3.
Qed.

Lemma only_set_scaledobjects k so c : only_scaledobject k c (set_scaledobjects (<[k := so]>) c).
Proof. split_and!; [done|done|]. intros k' Hk. by apply lookup_insert_ne. Qed.

Lemma only_delete_scaledobjects k c : only_scaledobject k c (set_scaledobjects (delete k) c).
Proof. split_and!; [done|done|]. intros k' Hk. by apply lookup_delete_ne. Qed.

Section scaledobjects.
Context `{Client W} (view : W → cluster) `{!ClientLaws W view}.
Implicit Types (s : rstate W).

Lemma add_condition_run ty st reason msg s r s' :
  add_condition ty st reason msg s = (r, s') →
  r = Ok tt ∧ rs_world s' = rs_world s ∧ rs_table s' = rs_table s ∧ same_core (rs_httpso s) (rs_httpso s').
Proof. by intros [= <- <-]. Qed.

Lemma api_run {A} (m : ST W A) s r s' :
  api m s = (r, s') →
  ∃ w, m (rs_world s) = (r, w) ∧ s' = mkRstate w (rs_table s) (rs_httpso s).
Proof. unfold api. destruct (m (rs_world s)) as [r' w]. intros [= -> <-]. eauto. Qed.

Lemma Create_only so w r w' :
  Create_ScaledObject so w = (r, w') → only_scaledobject (so_key so) (view w) (view w').
Proof.
  intros Hr. pose proof (Create_ScaledObject_law (view := view) so w) as Hl. rewrite Hr in Hl.
  destruct r as [[]|e|p]; [|destruct Hl as [->|([] & Hl)]; [done|]|done];
    destruct Hl as [_ ->]; apply only_set_scaledobjects.
Qed.

Lemma createOrUpdateScaledObject_run host s s' :
  createOrUpdateScaledObject host s = (Ok tt, s') →
  rs_table s' = rs_table s ∧ same_core (rs_httpso s) (rs_httpso s')
  ∧ ∃ ref, spec_ScaleTargetRef (hso_Spec (rs_httpso s)) = Some ref
    ∧ let app := app_scaled_object host (rs_httpso s) ref in
      only_scaledobject (so_key app) (view (rs_world s)) (view (rs_world s'))
      ∧ ∃ so, scaledobjects (view (rs_world s')) !! so_key app = Some so ∧ scales_as app so.
Proof.
  intros Hr. unfold createOrUpdateScaledObject in Hr.
  apply ST_bind_Ok in Hr as (o & s1 & [= <- <-] & Hr).
  apply ST_bind_Ok in Hr as (ref & s1 & Href & Hr). unfold scale_target in Href.
  destruct (spec_ScaleTargetRef _) as [ref'|] eqn:Eref; [|done]. injection Href as <- <-.
  set (app := app_scaled_object host (rs_httpso s) ref') in *.
  apply ST_bind_Ok in Hr as (x & s1 & Hc & Hr). apply try_run in Hc.
  apply ST_bind_Ok in Hr as ([] & s2 & Hm & Hr). apply add_condition_run in Hr as (_ & Hw & Ht & Hcore).
  rewrite Hw, Ht.
  assert (rs_table s2 = rs_table s ∧ rs_httpso s2 = rs_httpso s
    ∧ only_scaledobject (so_key app) (view (rs_world s)) (view (rs_world s2))
    ∧ ∃ so, scaledobjects (view (rs_world s2)) !! so_key app = Some so ∧ scales_as app so) as (-> & Ho & ? & ?).
  { destruct x as [[]|err].
    - injection Hm as <-. apply api_run in Hc as (w & Hc & ->). simpl. split_and!; [done|done|by eapply Create_only|].
      apply (effect_Ok view _ _ _ _ _ (Create_ScaledObject_law _)) in Hc as [_ ->].
      exists app. split; [apply lookup_insert_eq|apply scales_as_refl].
    - apply api_run in Hc as (w & Hc & ->). destruct (IsAlreadyExists err); [|by apply ST_bind_Ok in Hm as (? & ? & _ & ?)].
      apply ST_bind_Ok in Hm as (so & s3 & Hg & Hm). apply api_Ok in Hg as (w3 & Hg & ->).
      apply api_Ok in Hm as (w4 & Hm & ->). simpl in *.
      apply (effect_Ok view _ _ _ _ _ (Get_ScaledObject_law _)) in Hg as [Hv3 _].
      apply (effect_Ok view _ _ _ _ _ (Patch_ScaledObject_law _)) in Hm as (cur & Hcur & ->).
      split_and!; [done|done| |].
      + rewrite Hv3. etransitivity; [by eapply Create_only|]. apply only_set_scaledobjects.
      + eexists. split; [apply lookup_insert_eq|apply scales_as_merge]. }
  rewrite <-Ho. split_and!; [done|done|]. rewrite Ho. exists ref'. split_and!; done.
Qed.

Lemma createOrUpdateApplicationResources_run base es s s' :
  createOrUpdateApplicationResources base es s = (Ok tt, s') →
  let ns := OperatorConfig.base_CurrentNamespace base in
  let hosts := default [] (spec_Hosts (hso_Spec (rs_httpso s))) in
  routing_cm_ok (view (rs_world s)) ns → table_map (rs_table s) ≠ None →
  ∃ ref, spec_ScaleTargetRef (hso_Spec (rs_httpso s)) = Some ref
  ∧ let x := httpso_target base (rs_httpso s) ref in
    let app := app_scaled_object (OperatorConfig.HostName es ns) (rs_httpso s) ref in
    added hosts x (entries (rs_table s)) (entries (rs_table s'))
    ∧ table_map (rs_table s') ≠ None
    ∧ (table_ok (rs_table s') → published (view (rs_world s')) ns = Ok (rs_table s'))
    ∧ (∃ so, scaledobjects (view (rs_world s')) !! so_key app = Some so ∧ scales_as app so)
    ∧ (∀ k, k ≠ so_key app → scaledobjects (view (rs_world s')) !! k = scaledobjects (view (rs_world s)) !! k)
    ∧ (hso_ok (view (rs_world s)) → hso_ok (view (rs_world s')))
    ∧ (∀ k o, hso_ok (view (rs_world s)) → httpscaledobjects (view (rs_world s)) !! k = Some o → kept o →
       ∃ o', httpscaledobjects (view (rs_world s')) !! k = Some o' ∧ same_core o o').
Proof.
  intros Hr ns hosts Hcm Hnil. unfold createOrUpdateApplicationResources in Hr.
  apply deferred_Ok in Hr as (s4 & y & Hr & Hsave).
  apply ST_bind_Ok in Hr as ([] & s1 & Hc1 & Hr). apply add_condition_run in Hc1 as (_ & Hw1 & Ht1 & Hcore1).
  apply ST_bind_Ok in Hr as ([] & s2 & Hso & Hr).
  apply createOrUpdateScaledObject_run in Hso as (Ht2 & Hcore2 & ref & Href & Honly & so & Hso & Hsc).
  apply ST_bind_Ok in Hr as (o & s3 & [= <- <-] & Hr).
  assert (same_core (rs_httpso s) (rs_httpso s2)) as Hcore by (by etransitivity).
  destruct Hcore1 as (Hns1 & Hn1 & _ & _ & Hsp1). destruct Hcore as (Hns & Hn & _ & _ & Hsp).
  assert (∀ h r, app_scaled_object h (rs_httpso s1) r = app_scaled_object h (rs_httpso s) r) as Happ
    by (intros h r; unfold app_scaled_object; by rewrite Hns1, Hn1, Hsp1).
  rewrite Happ, Hw1 in *. rewrite Hsp1 in Href.
  apply ST_bind_Ok in Hr as (ref' & s3 & Href' & Hr). unfold scale_target in Href'.
  rewrite Hsp, Href in Href'. injection Href' as <- <-.
  assert (httpso_target base (rs_httpso s2) ref = httpso_target base (rs_httpso s) ref) as Hx
    by (unfold httpso_target; by rewrite Hns, Hsp).
  rewrite Hsp, Hx in Hr. unfold addAndUpdateRoutingTable in Hr.
  apply ST_bind_Ok in Hr as ([] & s3 & Hadd & Hr).
  apply add_hosts_run in Hadd as (_ & Hw3 & Ho3 & Hnil3 & Hadded); [|by rewrite Ht2, Ht1].
  rewrite Ht2, Ht1 in Hadded. destruct Honly as (Hcms & Hhsos & Hsos).
  assert (routing_cm_ok (view (rs_world s3)) ns) as Hcm3 by (unfold routing_cm_ok; by rewrite Hw3, Hcms).
  pose proof (updateRoutingMap_run view ns s3 s4 Hr Hcm3) as (Ht4 & Ho4 & cm & d & _ & _ & Hv4).
  apply (SaveStatus_run view) in Hsave as (_ & Hts & Hfr & _). destruct Hfr as [F1 F2 F3 F4].
  rewrite Hv4 in F1, F2, F3, F4. cbn [configmaps scaledobjects httpscaledobjects set_configmaps] in *.
  rewrite Hw3 in *. exists ref. split; [done|]. rewrite Hts, Ht4.
  assert (hso_ok (view (rs_world s)) → hso_ok (set_configmaps id (view (rs_world s2)))) as Hok2
    by (intros Hok k' o'; simpl; rewrite Hhsos; apply Hok).
  split_and!; [done|done| | | | |].
  - intros Hok. apply (updateRoutingMap_published view) in Hr as (Hp & _); [|by rewrite Hw3|done].
    unfold published in *. rewrite F1. by rewrite Hv4 in Hp.
  - exists so. split; [by rewrite F2|done].
  - intros k Hk. rewrite F2. by apply Hsos.
  - intros Hhok. apply F3. by apply Hok2.
  - intros k o Hhok Hk Hkept. apply (F4 k o); [by apply Hok2|by rewrite Hhsos|done].
Qed.
End scaledobjects.

(** ** Deletion *)

(** What must hold of an object on its way out, through the calls: the server's
    copy and the one in memory agree on all but the conditions. *)
Definition leaving (o : HTTPScaledObject) (c : cluster) (mine : HTTPScaledObject) : Prop :=
  hso_ok c ∧ same_core o mine
  ∧ ∃ o', httpscaledobjects c !! hso_key o = Some o' ∧ same_core o o'.

Lemma decode_same_core stored mine : same_core mine stored → same_core mine (decode_into stored mine).
Proof.
  intros (Hns & Hn & Hd & Hf & Hs). unfold same_core. split_and!; try done.
  - simpl. rewrite Hd. by destruct (hso_DeletionTimestamp mine).
  - simpl. rewrite Hf. by destruct (hso_Finalizers mine).
  - by apply decode_same_spec.
Qed.

Section deletion.
Context `{Client W} (view : W → cluster) `{!ClientLaws W view}.
Implicit Types (s : rstate W).

Lemma SaveStatus_leaving o s r s' :
  SaveStatus s = (r, s') → kept o → leaving o (view (rs_world s)) (rs_httpso s) →
  leaving o (view (rs_world s')) (rs_httpso s').
Proof.
  intros Hs Hk (Hok & Hmine & o' & Ho' & Hc').
  apply (SaveStatus_run view) in Hs as (_ & _ & Hfr & Hobj).
  assert (kept o') as Hk' by (destruct Hc' as (_ & _ & Hd & Hf & _); unfold kept; by rewrite Hd, Hf).
  destruct (sf_kept _ _ Hfr _ _ Hok Ho' Hk') as (o2 & Ho2 & Hc2). split_and!.
  - by apply (sf_hso_ok _ _ Hfr).
  - destruct Hobj as [->|(cur & rv & Hcur & ->)]; [done|].
    rewrite (same_core_key _ _ Hmine), Ho' in Hcur. injection Hcur as <-.
    etransitivity; [exact Hmine|]. apply decode_same_core.
    etransitivity; [symmetry; exact Hmine|]. etransitivity; [exact Hc'|]. apply stored_status_core.
  - exists o2. split; [done|]. by etransitivity.
Qed.

Lemma Delete_only k w r w' :
  Delete_ScaledObject k w = (r, w') → only_scaledobject k (view w) (view w').
Proof.
  intros Hr. pose proof (Delete_ScaledObject_law (view := view) k w) as Hl. rewrite Hr in Hl.
  destruct r as [[]|e|p]; [|destruct Hl as [->|([] & Hl)]; [done|]|done];
    destruct Hl as [_ ->]; apply only_delete_scaledobjects.
Qed.

Lemma leaving_same_hsos o c c' mine :
  httpscaledobjects c' = httpscaledobjects c → leaving o c mine → leaving o c' mine.
Proof. intros Heq (Hok & Hm & Ho). unfold leaving, hso_ok. rewrite Heq. done. Qed.

Lemma removeApplicationResources_run base o s s' :
  removeApplicationResources base s = (Ok tt, s') →
  let ns := OperatorConfig.base_CurrentNamespace base in
  let hosts := default [] (spec_Hosts (hso_Spec o)) in
  routing_cm_ok (view (rs_world s)) ns → table_map (rs_table s) ≠ None →
  kept o → leaving o (view (rs_world s)) (rs_httpso s) →
  leaving o (view (rs_world s')) (rs_httpso s')
  ∧ removed hosts (entries (rs_table s)) (entries (rs_table s'))
  ∧ table_map (rs_table s') ≠ None
  ∧ (table_ok (rs_table s') → published (view (rs_world s')) ns = Ok (rs_table s'))
  ∧ ∃ ref, spec_ScaleTargetRef (hso_Spec o) = Some ref
    ∧ ∀ k, k ≠ ObjKey (hso_Namespace o) (ref_Deployment ref +:+ "-app") →
        scaledobjects (view (rs_world s')) !! k = scaledobjects (view (rs_world s)) !! k.
Proof.
  intros Hr ns hosts Hcm Hnil Hkept Hl. unfold removeApplicationResources in Hr.
  apply deferred_Ok in Hr as (s4 & y & Hr & Hsave).
  apply ST_bind_Ok in Hr as ([] & s1 & Hc1 & Hr). apply add_condition_run in Hc1 as (_ & Hw1 & Ht1 & Hcore1).
  apply ST_bind_Ok in Hr as (o1 & s1' & [= <- <-] & Hr).
  apply ST_bind_Ok in Hr as ([] & s2 & Hdel & Hr).
  apply ST_bind_Ok in Hr as ([] & s3 & Hc3 & Hr). apply add_condition_run in Hc3 as (_ & Hw3 & Ht3 & Hcore3).
  apply ST_bind_Ok in Hr as (o3 & s3' & [= <- <-] & Hr).
  destruct Hl as (Hok & Hmine & Hstored).
  assert (same_core o (rs_httpso s1)) as Hm1 by (by etransitivity).
  destruct (AppScaledObjectName (rs_httpso s1)) as [name|e|p] eqn:En; [|done..].
  unfold AppScaledObjectName in En. destruct Hm1 as (Hns1 & Hn1 & Hd1 & Hf1 & Hs1). rewrite Hs1 in En.
  destruct (spec_ScaleTargetRef (hso_Spec o)) as [ref|] eqn:Eref; [|done]. injection En as <-.
  set (k := ObjKey (hso_Namespace (rs_httpso s1)) (ref_Deployment ref +:+ "-app")) in *.
  assert (rs_table s2 = rs_table s1 ∧ rs_httpso s2 = rs_httpso s1
    ∧ only_scaledobject k (view (rs_world s1)) (view (rs_world s2))) as (Ht2 & Ho2 & Honly).
  { apply ST_bind_Ok in Hdel as (x & s5 & Hd & Hx). apply try_run in Hd.
    destruct x as [[]|err]; apply api_run in Hd as (w & Hd & ->); apply Delete_only in Hd.
    - by injection Hx as <-.
    - destruct (IsNotFound err); [by injection Hx as <-|]. by apply ST_bind_Ok in Hx as (? & ? & _ & ?). }
  destruct Honly as (Hcms & Hhsos & Hsos). rewrite Hw1 in Hcms, Hhsos, Hsos.
  assert (same_core o (rs_httpso s3)) as Hm3 by (rewrite Ho2 in Hcore3; do 2 (etransitivity; [eassumption|]); done).
  destruct Hm3 as (Hns3 & Hn3 & Hd3 & Hf3 & Hs3). rewrite Hs3 in Hr.
  unfold removeAndUpdateRoutingTable in Hr. apply ST_bind_Ok in Hr as ([] & s5 & Hrm & Hr).
  apply remove_hosts_run in Hrm as (_ & Hw5 & Ho5 & Hnil5 & Hremoved); [|by rewrite Ht3, Ht2, Ht1].
  rewrite Ht3, Ht2, Ht1 in Hremoved. rewrite Hw3 in Hw5.
  assert (routing_cm_ok (view (rs_world s5)) ns) as Hcm5 by (unfold routing_cm_ok; by rewrite Hw5, Hcms).
  pose proof (updateRoutingMap_run view ns s5 s4 Hr Hcm5) as (Ht4 & Ho4 & cm & d & _ & _ & Hv4).
  assert (leaving o (view (rs_world s4)) (rs_httpso s4)) as Hl4.
  { apply (leaving_same_hsos o (view (rs_world s))); [by rewrite Hv4, Hw5|].
    split_and!; [done| |done]. rewrite Ho4, Ho5. by split_and!. }
  split_and!.
  - by eapply SaveStatus_leaving.
  - apply (SaveStatus_run view) in Hsave as (_ & Hts & _). by rewrite Hts, Ht4.
  - apply (SaveStatus_run view) in Hsave as (_ & Hts & _). by rewrite Hts, Ht4.
  - apply (SaveStatus_run view) in Hsave as (_ & Hts & Hfr & _). rewrite Hts, Ht4. intros Hok5.
    apply (updateRoutingMap_published view) in Hr as (Hp & _); [|done|done].
    unfold published in *. by rewrite (sf_configmaps _ _ Hfr).
  - apply (SaveStatus_run view) in Hsave as (_ & Hts & Hfr & _). exists ref. split; [done|].
    intros k' Hk'. rewrite (sf_scaledobjects _ _ Hfr), Hv4. simpl. rewrite Hw5. apply Hsos.
    unfold k. by rewrite Hns1.
Qed.
End deletion.

(** ** Reconciliations *)

(** The hosts an object asks for, when it sets one of [host] and [hosts]. *)
Definition hosts_of (o : HTTPScaledObject) : option (list string) :=
  match spec_Hosts (hso_Spec o), spec_Host (hso_Spec o) with
  | Some hosts, None => Some hosts
  | None, Some h => Some [h]
  | _, _ => None
  end.

(** An object whose hosts and target JSON carries. *)
Definition object_ok (base : OperatorConfig.Base) (o : HTTPScaledObject) : Prop :=
  (∀ hosts, hosts_of o = Some hosts → Forall valid_utf8 hosts)
  ∧ ∀ ref, spec_ScaleTargetRef (hso_Spec o) = Some ref → target_ok (httpso_target base o ref).

Lemma table_ok_not_nil t : table_ok t → table_map t ≠ None.
Proof. intros (m & Hm & _). by rewrite Hm. Qed.

Lemma table_ok_entries t :
  table_map t ≠ None → map_Forall (λ h x, valid_utf8 h ∧ target_ok x) (entries t) → table_ok t.
Proof. unfold entries, table_ok. destruct (table_map t) as [m|]; [|done]. eauto. Qed.

Lemma table_ok_Forall t : table_ok t → map_Forall (λ h x, valid_utf8 h ∧ target_ok x) (entries t).
Proof. intros (m & Hm & Hf). unfold entries. by rewrite Hm. Qed.

Lemma added_ok hosts x t t' :
  added hosts x (entries t) (entries t') → table_ok t → table_map t' ≠ None →
  Forall valid_utf8 hosts → target_ok x → table_ok t'.
Proof.
  intros Ha Ht Hn Hh Hx. apply table_ok_entries; [done|]. intros h y Hy. rewrite Ha in Hy.
  destruct (entries t !! h) eqn:E; [injection Hy as <-; by apply (table_ok_Forall t Ht)|].
  case_decide as Hin; [|done]. injection Hy as <-. split; [|done].
  by apply (proj1 (Forall_forall _ _) Hh).
Qed.

Lemma removed_ok hosts t t' :
  removed hosts (entries t) (entries t') → table_ok t → table_map t' ≠ None → table_ok t'.
Proof.
  intros Ha Ht Hn. apply table_ok_entries; [done|]. intros h y Hy. rewrite Ha in Hy.
  case_decide; [done|]. by apply (table_ok_Forall t Ht).
Qed.

(** Finalizers that do not repeat lose ours. *)
Lemma remove_finalizer fin :
  NoDup fin → contains fin httpScaledObjectFinalizer = true →
  ∃ l, remove fin httpScaledObjectFinalizer = Ok l ∧ httpScaledObjectFinalizer ∉ l.
Proof.
  intros Hnd Ec. apply contains_elem in Ec. apply list_elem_of_split in Ec as (l1 & l2 & Heq). rewrite Heq in *.
  apply NoDup_app in Hnd as (_ & H1 & H2). apply NoDup_cons in H2 as [H2 _].
  assert (httpScaledObjectFinalizer ∉ l1) by (intros Hin; by apply (H1 _ Hin); set_solver).
  exists (l1 ++ l2). split; [by apply remove_once|]. by rewrite elem_of_app; intros [?|?].
Qed.

Section reconcile.
Context `{Client W} (view : W → cluster) `{!ClientLaws W view}.
Implicit Types (s : rstate W).

Lemma sanitize_run s s' :
  sanitize s = (Ok tt, s') →
  rs_world s' = rs_world s ∧ rs_table s' = rs_table s
  ∧ hso_Namespace (rs_httpso s') = hso_Namespace (rs_httpso s)
  ∧ hso_Name (rs_httpso s') = hso_Name (rs_httpso s)
  ∧ spec_ScaleTargetRef (hso_Spec (rs_httpso s')) = spec_ScaleTargetRef (hso_Spec (rs_httpso s))
  ∧ spec_Hosts (hso_Spec (rs_httpso s')) = hosts_of (rs_httpso s)
  ∧ is_Some (hosts_of (rs_httpso s))
  ∧ (∀ base ref, httpso_target base (rs_httpso s') ref = httpso_target base (rs_httpso s) ref).
Proof.
  unfold sanitize, sanitizeHosts, hosts_of, httpso_target.
  destruct (spec_Hosts _) as [hosts|] eqn:E1, (spec_Host _) as [h|] eqn:E2; intros Hr; simplify_eq/=;
    rewrite ?E1, ?E2; split_and!; try done; by eexists.
Qed.

Lemma finalizeScaledObject_run o s s' :
  finalizeScaledObject s = (Ok tt, s') →
  leaving o (view (rs_world s)) (rs_httpso s) →
  rs_table s' = rs_table s
  ∧ configmaps (view (rs_world s')) = configmaps (view (rs_world s))
  ∧ scaledobjects (view (rs_world s')) = scaledobjects (view (rs_world s))
  ∧ (NoDup (hso_Finalizers o) → ∀ o', httpscaledobjects (view (rs_world s')) !! hso_key o = Some o' →
       httpScaledObjectFinalizer ∉ hso_Finalizers o')
  ∧ (hso_Finalizers o = [httpScaledObjectFinalizer] → is_Some (hso_DeletionTimestamp o) →
     httpscaledobjects (view (rs_world s')) !! hso_key o = None).
Proof.
  intros Hr (Hok & Hm & o1 & Ho1 & Hc1). unfold finalizeScaledObject in Hr.
  apply ST_bind_Ok in Hr as (? & ? & [= <- <-] & Hr).
  pose proof (same_core_key _ _ Hm) as Hkey.
  destruct Hm as (_ & _ & _ & Hf & _). destruct Hc1 as (Hns1 & Hn1 & Hd1 & Hf1 & Hs1).
  rewrite Hf in Hr. destruct (contains _ _) eqn:Ec.
  - destruct (remove (hso_Finalizers o) httpScaledObjectFinalizer) as [l|e|p] eqn:Hl; [|done..].
    apply ST_bind_Ok in Hr as ([] & ? & [= <-] & Hr). unfold update_httpso in Hr.
    cbn [rs_world rs_table rs_httpso] in Hr. set (o2 := set_Finalizers l _) in Hr.
    destruct (Update_HTTPScaledObject o2 (rs_world s)) as [[o3|e|p] w1] eqn:Eu; [|done..].
    injection Hr as <-. cbn [rs_world rs_table rs_httpso].
    apply (effect_Ok view _ _ _ _ _ (Update_HTTPScaledObject_law _)) in Eu as (cur & rv & Hcur & Hv & ->).
    assert (hso_key o2 = hso_key o) as Hk2 by exact Hkey. rewrite Hk2, Ho1 in Hcur.
    injection Hcur as <-. rewrite Hv.
    cbn [configmaps scaledobjects httpscaledobjects set_httpscaledobjects].
    assert (hso_key (stored_update false o2 o1 rv) = hso_key o) as Hk3
      by (unfold hso_key; simpl; by rewrite Hns1, Hn1).
    rewrite <-Hk3. split_and!; try done.
    + intros Hnd o' Ho'. destruct (remove_finalizer _ Hnd Ec) as (l' & Hl' & Hni).
      apply put_hso_self in Ho' as ->. by assert (l' = l) as -> by congruence.
    + intros Hone [ts Hts]. rewrite Hone in Hl. vm_compute in Hl. injection Hl as <-.
      unfold put_hso. cbn [hso_DeletionTimestamp hso_Finalizers stored_update]. rewrite Hd1, Hts.
      cbn [hso_Finalizers o2 set_Finalizers]. apply lookup_delete_eq.
  - injection Hr as <-. split_and!; try done.
    + intros _ o' Ho'. rewrite Ho1 in Ho'. injection Ho' as <-.
      rewrite Hf1. intros Hin. apply contains_elem in Hin. congruence.
    + intros Hone. rewrite Hone in Ec. by vm_compute in Ec.
Qed.

(** What a reconciliation that reports no error went through. *)
Lemma Reconcile_alive c req w w1 t o d w' t' :
  Get_HTTPScaledObject req w = (Ok o, w1) → hso_DeletionTimestamp o = None →
  Reconcile c req w t = (Ok (d, None), (w', t')) →
  ∃ s1 s2 s3 s4 r, ensureFinalizer (mkRstate w1 t o) = (Ok tt, s1) ∧ sanitize s1 = (Ok tt, s2)
  ∧ createOrUpdateApplicationResources (BaseConfig c) (ExternalScalerConfig c) s2 = (Ok tt, s3)
  ∧ SaveStatus (snd (add_condition Ready ConditionTrue HTTPScaledObjectIsReady "Finished object creation" s3))
    = (r, s4) ∧ w' = rs_world s4 ∧ t' = rs_table s4 ∧ d = 0.
Proof.
  intros Hg Hd Hr. unfold Reconcile in Hr. rewrite Hg in Hr.
  destruct (reconcile_object c (mkRstate w1 t o)) as [x s4] eqn:Hro. injection Hr as -> <- <-.
  unfold reconcile_object in Hro. apply ST_bind_Ok in Hro as (? & ? & [= <- <-] & Hro). simpl in Hro.
  rewrite Hd in Hro.
  apply ST_bind_Ok in Hro as (x1 & s1 & H1 & Hro). apply try_run in H1. destruct x1 as [[]|e]; [|done].
  apply ST_bind_Ok in Hro as (x2 & s2 & H2 & Hro). apply try_run in H2. destruct x2 as [[]|e]; [|done].
  apply ST_bind_Ok in Hro as (x3 & s3 & H3 & Hro). apply try_run in H3. destruct x3 as [[]|e].
  - apply ST_bind_Ok in Hro as ([] & s5 & H5 & Hro). apply ST_bind_Ok in Hro as (u & s6 & H6 & Hro).
    injection Hro as <- <-. exists s1, s2, s3, s6, (Ok u). rewrite H5. by split_and!.
  - by apply ST_bind_Ok in Hro as (? & ? & _ & ?).
Qed.

Lemma Reconcile_leaving c req w w1 t o d w' t' ts :
  Get_HTTPScaledObject req w = (Ok o, w1) → hso_DeletionTimestamp o = Some ts →
  Reconcile c req w t = (Ok (d, None), (w', t')) →
  ∃ s1 s2, removeApplicationResources (BaseConfig c) (mkRstate w1 t o) = (Ok tt, s1)
  ∧ finalizeScaledObject s1 = (Ok tt, s2) ∧ w' = rs_world s2 ∧ t' = rs_table s2.
Proof.
  intros Hg Hd Hr. unfold Reconcile in Hr. rewrite Hg in Hr.
  destruct (reconcile_object c (mkRstate w1 t o)) as [x s4] eqn:Hro. injection Hr as -> <- <-.
  unfold reconcile_object in Hro. apply ST_bind_Ok in Hro as (? & ? & [= <- <-] & Hro). simpl in Hro.
  rewrite Hd in Hro.
  apply ST_bind_Ok in Hro as (x1 & s1 & H1 & Hro). apply try_run in H1. destruct x1 as [[]|e]; [|done].
  apply ST_bind_Ok in Hro as (x2 & s2 & H2 & Hro). apply try_run in H2.
  destruct x2 as [[]|e]; [|done]. injection Hro as <- <-. by exists s1, s2.
Qed.
End reconcile.

(** The deletion of an object, in full. *)
Lemma reconcile_deletion `{Client W} (view : W → cluster) `{!ClientLaws W view}
    (c : reconciler) (req : objKey) (w w1 w' : W) (t t' : Table) (o : HTTPScaledObject) (d : Duration) ts :
  let ns := OperatorConfig.base_CurrentNamespace (BaseConfig c) in
  Get_HTTPScaledObject req w = (Ok o, w1) → hso_DeletionTimestamp o = Some ts →
  hso_Finalizers o ≠ [] →
  hso_ok (view w) → routing_cm_ok (view w) ns → table_ok t →
  Reconcile c req w t = (Ok (d, None), (w', t')) →
  removed (default [] (spec_Hosts (hso_Spec o))) (entries t) (entries t')
  ∧ published (view w') ns = Ok t'
  ∧ (∃ ref, spec_ScaleTargetRef (hso_Spec o) = Some ref
     ∧ ∀ k, k ≠ ObjKey (hso_Namespace o) (ref_Deployment ref +:+ "-app") →
         scaledobjects (view w') !! k = scaledobjects (view w) !! k)
  ∧ (NoDup (hso_Finalizers o) →
     ∀ o', httpscaledobjects (view w') !! req = Some o' → httpScaledObjectFinalizer ∉ hso_Finalizers o')
  ∧ (hso_Finalizers o = [httpScaledObjectFinalizer] → httpscaledobjects (view w') !! req = None).
Proof.
  intros ns Hg Hd Hf Hok Hcm Ht Hr.
  destruct (Reconcile_leaving _ _ _ _ _ _ _ _ _ _ Hg Hd Hr) as (s1 & s2 & H1 & H2 & -> & ->).
  apply (effect_Ok view _ _ _ _ _ (Get_HTTPScaledObject_law _)) in Hg as [Hv Hst].
  rewrite <-Hv in Hok, Hcm, Hst |- *. pose proof (Hok _ _ Hst) as Hkey.
  assert (leaving o (view w1) o) as Hl by (split_and!; [done|done|exists o; by rewrite Hkey]).
  apply (removeApplicationResources_run view _ o) in H1 as (Hl1 & Hrem & Hnil & Hpub & ref & Href & Hso);
    [|done|by apply table_ok_not_nil|by right|done].
  apply (finalizeScaledObject_run view o) in H2 as (Ht2 & Hcm2 & Hso2 & Hfin & Hgone); [|done..].
  rewrite Ht2. simpl in *. split_and!; [done| | | |].
  - unfold published. rewrite Hcm2. apply Hpub. by eapply removed_ok.
  - exists ref. split; [done|]. intros k Hk. rewrite Hso2. by apply Hso.
  - by rewrite <-Hkey.
  - rewrite <-Hkey. intros Hone. apply Hgone; [done|by rewrite Hd].
Qed.

(** The creation of an object, in full. *)
Lemma reconcile_creation `{Client W} (view : W → cluster) `{!ClientLaws W view}
    (c : reconciler) (req : objKey) (w w1 w' : W) (t t' : Table) (o : HTTPScaledObject) (d : Duration) :
  let ns := OperatorConfig.base_CurrentNamespace (BaseConfig c) in
  Get_HTTPScaledObject req w = (Ok o, w1) → hso_DeletionTimestamp o = None →
  hso_ok (view w) → routing_cm_ok (view w) ns → table_ok t → object_ok (BaseConfig c) o →
  Reconcile c req w t = (Ok (d, None), (w', t')) →
  ∃ hosts ref so, hosts_of o = Some hosts ∧ spec_ScaleTargetRef (hso_Spec o) = Some ref
  ∧ added hosts (httpso_target (BaseConfig c) o ref) (entries t) (entries t')
  ∧ published (view w') ns = Ok t'
  ∧ scaledobjects (view w') !! ObjKey (hso_Namespace o) (hso_Name o +:+ "-app") = Some so
  ∧ so_TargetName so = ref_Deployment ref
  ∧ so_Triggers so = [mkTrigger soTriggerType
      (<[mkScalerAddress := OperatorConfig.HostName (ExternalScalerConfig c) ns]> {[mkHosts := Join hosts ","]})]
  ∧ (∃ o', httpscaledobjects (view w') !! req = Some o' ∧ httpScaledObjectFinalizer ∈ hso_Finalizers o'
       ∧ hso_DeletionTimestamp o' = None ∧ hso_Spec o' = hso_Spec o).
Proof.
  intros ns Hg Hd Hok Hcm Ht Hobj Hr.
  destruct (Reconcile_alive _ _ _ _ _ _ _ _ _ Hg Hd Hr) as (s1 & s2 & s3 & s4 & r & H1 & H2 & H3 & H4 & -> & -> & ->).
  apply (effect_Ok view _ _ _ _ _ (Get_HTTPScaledObject_law _)) in Hg as [Hv Hst]. rewrite <-Hv in Hok, Hcm, Hst.
  pose proof (Hok _ _ Hst) as Hkey. rewrite <-Hkey in Hst.
  apply (ensureFinalizer_run view) in H1
    as (Hsp1 & Hns1 & Hn1 & Ht1 & Hcm1 & Hso1 & Hok1 & o1 & Ho1 & Hd1 & Hs1 & Hf1); [|done..]. simpl in *.
  apply sanitize_run in H2 as (Hw2 & Ht2 & Hns2 & Hn2 & Href2 & Hhosts2 & [hosts Hhosts] & Htgt2).
  assert (∀ base ref, httpso_target base (rs_httpso s1) ref = httpso_target base o ref) as Htgt1
    by (intros; unfold httpso_target; by rewrite Hns1, Hsp1).
  assert (hosts_of (rs_httpso s1) = hosts_of o) as Hho by (unfold hosts_of; by rewrite Hsp1).
  apply (createOrUpdateApplicationResources_run view) in H3 as (ref & Href & Hadd & Hnil & Hpub & (so & Hso & Hsc) & _ & Hok3 & Hkept);
    [|by unfold routing_cm_ok; rewrite Hw2, Hcm1|by rewrite Ht2, Ht1; apply table_ok_not_nil].
  rewrite Hhosts2, Hhosts, Htgt2, Htgt1, Ht2, Ht1 in Hadd. simpl in Hadd. rewrite Href2, Hsp1 in Href.
  destruct Hobj as [Hu Htg]. rewrite Hho in Hhosts.
  assert (table_ok (rs_table s3)) as Ht3 by (eapply added_ok; eauto).
  apply (SaveStatus_run view) in H4 as (_ & Ht4 & Hfr & _). simpl in Ht4, Hfr. rewrite Ht4.
  rewrite Hw2 in Hkept, Hok3. destruct (Hkept _ _ Hok1 Ho1 (or_introl Hd1)) as (o3 & Ho3 & Hc3).
  exists hosts, ref, so. destruct Hsc as (Htn & Htr & _).
  split_and!; [done|done|done| | |done| |].
  - unfold published. rewrite (sf_configmaps _ _ Hfr). by apply Hpub.
  - rewrite (sf_scaledobjects _ _ Hfr), <-Hso. unfold app_scaled_object, so_key. simpl. by rewrite Hns2, Hn2, Hns1, Hn1.
  - rewrite Htr. simpl. by rewrite Hhosts2, Hho, Hhosts.
  - destruct Hc3 as (_ & _ & Hd3 & Hf3 & Hs3).
    destruct (sf_kept _ _ Hfr _ _ (Hok3 Hok1) Ho3) as (o4 & Ho4 & _ & _ & Hd4 & Hf4 & Hs4);
      [left; by rewrite Hd3|].
    exists o4. rewrite <-Hkey. split_and!; [done|by rewrite Hf4, Hf3|by rewrite Hd4, Hd3|by rewrite Hs4, Hs3].
Qed.

(** ** Properties *)

(** C7: functional. A reconciliation of an object that is not being deleted and
    that reports no error: the object sets exactly one of [host] and [hosts] and
    a scale target; every one of its hosts is in the routing table, a host that
    was there keeping its old target; the ConfigMap holds exactly the operator's
    table; the ScaledObject [name-app] points KEDA at the Deployment and at the
    scaler with these hosts; and the server's copy carries the finalizer. *)
Theorem Reconcile_creates `{Client W} (view : W → cluster) `{!ClientLaws W view}
    (c : reconciler) (req : objKey) (w w1 w' : W) (t t' : Table) (o : HTTPScaledObject) (d : Duration) :
  let ns := OperatorConfig.base_CurrentNamespace (BaseConfig c) in
  Get_HTTPScaledObject req w = (Ok o, w1) → hso_DeletionTimestamp o = None →
  hso_ok (view w) → routing_cm_ok (view w) ns → table_ok t → object_ok (BaseConfig c) o →
  Reconcile c req w t = (Ok (d, None), (w', t')) →
  ∃ hosts ref so, hosts_of o = Some hosts ∧ spec_ScaleTargetRef (hso_Spec o) = Some ref
  ∧ added hosts (httpso_target (BaseConfig c) o ref) (entries t) (entries t')
  ∧ published (view w') ns = Ok t'
  ∧ scaledobjects (view w') !! ObjKey (hso_Namespace o) (hso_Name o +:+ "-app") = Some so
  ∧ so_TargetName so = ref_Deployment ref
  ∧ so_Triggers so = [mkTrigger soTriggerType
      (<[mkScalerAddress := OperatorConfig.HostName (ExternalScalerConfig c) ns]> {[mkHosts := Join hosts ","]})]
  ∧ (∃ o', httpscaledobjects (view w') !! req = Some o' ∧ httpScaledObjectFinalizer ∈ hso_Finalizers o').
Proof.
  intros ns Hg Hd Hok Hcm Ht Hobj Hr.
  destruct (reconcile_creation view c req w w1 w' t t' o d Hg Hd Hok Hcm Ht Hobj Hr)
    as (hosts & ref & so & ? & ? & ? & ? & ? & ? & ? & o' & ? & ? & _).
  exists hosts, ref, so. split_and!; try done. by exists o'.
Qed.

(** A cluster with the routing ConfigMap and one object. *)
Definition demo_config : reconciler :=
  mkReconciler (OperatorConfig.mkInterceptor "int" 8080 9090) (OperatorConfig.mkExternalScaler "scaler" 9090)
    (OperatorConfig.mkBase 100 "keda" "").

Definition demo_hso (name : string) (hosts : option (list string)) (host : option string)
    (del : option string) (fin : list string) : HTTPScaledObject :=
  mkHso "dp-1" name 1 del fin
    (Hso.mkSpec host hosts (Some (mkScaleTargetRef "web" "app" 8080)) None None None) [].

Definition demo_world (o : HTTPScaledObject) (sos : gmap objKey ScaledObject) : MemCluster :=
  mkMem (mkCluster {[routing_key "keda" := mkConfigMap "keda" ConfigMapRoutingTableName (Some ∅)]}
           {[hso_key o := o]} sos ∅) [] 1 [].

Lemma demo_hso_ok o sos : hso_ok (mem (demo_world o sos)).
Proof. intros k o'. simpl. by intros [<- <-]%lookup_singleton_Some. Qed.

Lemma demo_cm_ok o sos : routing_cm_ok (mem (demo_world o sos)) "keda".
Proof. intros cm. simpl. by intros [_ <-]%lookup_singleton_Some. Qed.

Lemma demo_empty_ok : table_ok NewTable.
Proof. eexists. split; [done|]. apply map_Forall_empty. Qed.

Lemma demo_object_ok name hosts host del fin :
  (∀ hs, hosts_of (demo_hso name hosts host del fin) = Some hs → Forall valid_utf8 hs) →
  object_ok (BaseConfig demo_config) (demo_hso name hosts host del fin).
Proof.
  intros Hh. split; [done|]. intros ref [= <-].
  split_and!; simpl; try solve_utf8; vm_compute; intuition congruence.
Qed.

Lemma demo_get_hso o sos :
  Get_HTTPScaledObject (hso_key o) (demo_world o sos)
  = (Ok o, mkMem (mem (demo_world o sos)) [] 2 []).
Proof.
  simpl. unfold served, found, after_call. simpl. rewrite lookup_singleton_eq. simpl. by rewrite cm_versions_same.
Qed.

Lemma Reconcile_creates_witness :
  ∃ w' t', Reconcile demo_config (ObjKey "dp-1" "shop")
    (demo_world (demo_hso "shop" (Some ["app.dp-1"]) None None []) ∅) NewTable = (Ok (0, None), (w', t'))
  ∧ published (mem w') "keda" = Ok t'.
Proof.
  set (o := demo_hso "shop" (Some ["app.dp-1"]) None None []).
  destruct (Reconcile demo_config (ObjKey "dp-1" "shop") (demo_world o ∅) NewTable) as [r [w' t']] eqn:Hr.
  assert (r = Ok (0, None)) as -> by (vm_compute in Hr; by injection Hr as <- _ _).
  exists w', t'. split; [done|].
  assert (object_ok (BaseConfig demo_config) o) as Hobj.
  { apply demo_object_ok. intros hs [= <-]. apply Forall_cons_2; [solve_utf8 | by apply Forall_nil]. }
  destruct (Reconcile_creates mem demo_config _ _ _ w' NewTable t' o 0 (demo_get_hso o ∅) eq_refl
              (demo_hso_ok o ∅) (demo_cm_ok o ∅) demo_empty_ok Hobj Hr)
    as (? & ? & ? & _ & _ & _ & Hp & _). exact Hp.
Defined.

(** C8: functional. A reconciliation that reports no error, of an object that is
    being deleted and that at least one finalizer holds (the API server keeps no
    other deleted object), with a routing table JSON can carry: the hosts listed
    under [spec.hosts] are out of the routing table, whoever registered them, and
    no other entry changed (a host written under [spec.host] stays); the ConfigMap
    holds exactly the operator's table; among the ScaledObjects at most
    [deployment-app] is gone; and, provided that no finalizer is listed twice, the
    server's copy, if it still exists, has lost the operator's finalizer. *)
Theorem Reconcile_deletes `{Client W} (view : W → cluster) `{!ClientLaws W view}
    (c : reconciler) (req : objKey) (w w1 w' : W) (t t' : Table) (o : HTTPScaledObject) (d : Duration) ts :
  let ns := OperatorConfig.base_CurrentNamespace (BaseConfig c) in
  Get_HTTPScaledObject req w = (Ok o, w1) → hso_DeletionTimestamp o = Some ts →
  hso_Finalizers o ≠ [] →
  hso_ok (view w) → routing_cm_ok (view w) ns → table_ok t →
  Reconcile c req w t = (Ok (d, None), (w', t')) →
  removed (default [] (spec_Hosts (hso_Spec o))) (entries t) (entries t')
  ∧ published (view w') ns = Ok t'
  ∧ (∃ ref, spec_ScaleTargetRef (hso_Spec o) = Some ref
     ∧ ∀ k, k ≠ ObjKey (hso_Namespace o) (ref_Deployment ref +:+ "-app") →
         scaledobjects (view w') !! k = scaledobjects (view w) !! k)
  ∧ (NoDup (hso_Finalizers o) →
     ∀ o', httpscaledobjects (view w') !! req = Some o' → httpScaledObjectFinalizer ∉ hso_Finalizers o').
Proof.
  intros ns Hg Hd Hf Hok Hcm Ht Hr.
  by destruct (reconcile_deletion view c req w w1 w' t t' o d ts Hg Hd Hf Hok Hcm Ht Hr) as (? & ? & ? & ? & _).
Qed.

(** A cluster in which the object is being deleted and a ScaledObject of its
    name exists. *)
Definition demo_app : ScaledObject :=
  NewScaledObject "dp-1" "shop-app" "web" "scaler.keda:9090" ["app.dp-1"] None None None.

Definition demo_leaving (hosts : option (list string)) (host : option string) : HTTPScaledObject :=
  demo_hso "shop" hosts host (Some "2023-01-02T00:00:00Z") [httpScaledObjectFinalizer].

Lemma demo_table_app : table_ok (mkTable (Some {["app.dp-1" := demo_target]})).
Proof. apply demo_table_ok. Qed.

Lemma Reconcile_deletes_witness :
  ∃ w' t', Reconcile demo_config (ObjKey "dp-1" "shop")
    (demo_world (demo_leaving (Some ["app.dp-1"]) None) {[so_key demo_app := demo_app]})
    (mkTable (Some {["app.dp-1" := demo_target]})) = (Ok (0, None), (w', t'))
  ∧ entries t' !! "app.dp-1" = None ∧ published (mem w') "keda" = Ok t'.
Proof.
  set (o := demo_leaving (Some ["app.dp-1"]) None). set (w := demo_world o {[so_key demo_app := demo_app]}).
  destruct (Reconcile demo_config (ObjKey "dp-1" "shop") w (mkTable (Some {["app.dp-1" := demo_target]})))
    as [r [w' t']] eqn:Hr.
  assert (r = Ok (0, None)) as -> by (vm_compute in Hr; by injection Hr as <- _ _).
  exists w', t'. split; [done|].
  destruct (Reconcile_deletes mem demo_config _ _ _ w' _ t' o 0 _ (demo_get_hso o _) eq_refl
              ltac:(done) (demo_hso_ok o _) (demo_cm_ok o _) demo_table_app Hr)
    as (Hrem & Hp & _).
  split; [|exact Hp]. rewrite (Hrem "app.dp-1"). apply decide_True. apply list_elem_of_here.
Defined.

(** C39: error. Deleting an object whose name is not that of its Deployment leaves
    its ScaledObject behind: it was created as [name-app], and the deletion
    removes [deployment-app]. *)
Theorem Reconcile_delete_orphans `{Client W} (view : W → cluster) `{!ClientLaws W view}
    (c : reconciler) (req : objKey) (w w1 w' : W) (t t' : Table) (o : HTTPScaledObject) (d : Duration) ts ref so :
  let ns := OperatorConfig.base_CurrentNamespace (BaseConfig c) in
  Get_HTTPScaledObject req w = (Ok o, w1) → hso_DeletionTimestamp o = Some ts →
  hso_Finalizers o ≠ [] →
  hso_ok (view w) → routing_cm_ok (view w) ns → table_ok t →
  spec_ScaleTargetRef (hso_Spec o) = Some ref → hso_Name o ≠ ref_Deployment ref →
  scaledobjects (view w) !! ObjKey (hso_Namespace o) (hso_Name o +:+ "-app") = Some so →
  Reconcile c req w t = (Ok (d, None), (w', t')) →
  scaledobjects (view w') !! ObjKey (hso_Namespace o) (hso_Name o +:+ "-app") = Some so.
Proof.
  intros ns Hg Hd Hf Hok Hcm Ht Href Hne Hso Hr.
  destruct (reconcile_deletion view c req w w1 w' t t' o d ts Hg Hd Hf Hok Hcm Ht Hr)
    as (_ & _ & (ref' & Href' & Hsos) & _).
  rewrite Hsos; [done|]. assert (ref' = ref) as -> by congruence.
  intros [= Heq]. apply Hne. by apply app_suffix_inj in Heq.
Qed.

Lemma Reconcile_delete_orphans_witness :
  ∃ w' t', Reconcile demo_config (ObjKey "dp-1" "shop")
    (demo_world (demo_leaving (Some ["app.dp-1"]) None) {[so_key demo_app := demo_app]})
    (mkTable (Some {["app.dp-1" := demo_target]})) = (Ok (0, None), (w', t'))
  ∧ scaledobjects (mem w') !! ObjKey "dp-1" "shop-app" = Some demo_app.
Proof.
  set (o := demo_leaving (Some ["app.dp-1"]) None). set (w := demo_world o {[so_key demo_app := demo_app]}).
  destruct (Reconcile demo_config (ObjKey "dp-1" "shop") w (mkTable (Some {["app.dp-1" := demo_target]})))
    as [r [w' t']] eqn:Hr.
  assert (r = Ok (0, None)) as -> by (vm_compute in Hr; by injection Hr as <- _ _).
  exists w', t'. split; [done|].
  exact (Reconcile_delete_orphans mem demo_config _ _ _ w' _ t' o 0 _ (mkScaleTargetRef "web" "app" 8080) demo_app
    (demo_get_hso o _) eq_refl ltac:(done) (demo_hso_ok o _) (demo_cm_ok o _)
    demo_table_app eq_refl ltac:(done) (lookup_singleton_eq _ _) Hr).
Defined.

(** Deleting an object that was written with the [host] field leaves
    its route: the deletion looks at [hosts] only, so the routing table and the
    published one are those from before. *)
Theorem Reconcile_delete_keeps_host `{Client W} (view : W → cluster) `{!ClientLaws W view}
    (c : reconciler) (req : objKey) (w w1 w' : W) (t t' : Table) (o : HTTPScaledObject) (d : Duration) ts :
  let ns := OperatorConfig.base_CurrentNamespace (BaseConfig c) in
  Get_HTTPScaledObject req w = (Ok o, w1) → hso_DeletionTimestamp o = Some ts →
  hso_Finalizers o ≠ [] →
  hso_ok (view w) → routing_cm_ok (view w) ns → table_ok t →
  spec_Hosts (hso_Spec o) = None →
  Reconcile c req w t = (Ok (d, None), (w', t')) →
  entries t' = entries t ∧ ∃ t'', published (view w') ns = Ok t'' ∧ entries t'' = entries t.
Proof.
  intros ns Hg Hd Hf Hok Hcm Ht Hh Hr.
  destruct (reconcile_deletion view c req w w1 w' t t' o d ts Hg Hd Hf Hok Hcm Ht Hr) as (Hrem & Hp & _).
  rewrite Hh in Hrem. assert (entries t' = entries t) as He.
  { apply map_eq. intros h. rewrite (Hrem h). apply decide_False. apply not_elem_of_nil. }
  split; [done|]. by exists t'.
Qed.

Lemma Reconcile_delete_keeps_host_witness :
  ∃ w' t', Reconcile demo_config (ObjKey "dp-1" "shop")
    (demo_world (demo_leaving None (Some "app.dp-1")) ∅)
    (mkTable (Some {["app.dp-1" := demo_target]})) = (Ok (0, None), (w', t'))
  ∧ entries t' = {["app.dp-1" := demo_target]}.
Proof.
  set (o := demo_leaving None (Some "app.dp-1")). set (w := demo_world o ∅).
  destruct (Reconcile demo_config (ObjKey "dp-1" "shop") w (mkTable (Some {["app.dp-1" := demo_target]})))
    as [r [w' t']] eqn:Hr.
  assert (r = Ok (0, None)) as -> by (vm_compute in Hr; by injection Hr as <- _ _).
  exists w', t'. split; [done|].
  destruct (Reconcile_delete_keeps_host mem demo_config _ _ _ w' _ t' o 0 _ (demo_get_hso o _) eq_refl
              ltac:(done) (demo_hso_ok o _) (demo_cm_ok o _) demo_table_app eq_refl Hr)
    as [He _]. exact He.
Defined.
