(* ===== verification/OperatorLive.v ===== *)
(** * Reconciliation on a healthy server (operator/controllers/http)

    OperatorProofs says what holds when a reconciliation reports no error; here
    it is shown to report none on the in-memory server of Kube when that serves
    every call. *)

From S2P Require Import Prelude GoStrings GoUrl Json Queue QueueRpc Routing ConfigMaps Net Config K8s Hso Kube Operator OperatorProofs.

(** ** Success on a healthy server *)

Section healthy.
Implicit Types (s : rstate MemCluster).

(** The server serves everything and has the routing ConfigMap. *)
Definition healthy (ns : string) (w : MemCluster) : Prop :=
  script w = [] ∧ ∃ cm d, configmaps (mem w) !! routing_key ns = Some cm ∧ cm_key cm = routing_key ns
  ∧ cm_Data cm = Some d.

Lemma served_nil {A} (f : cluster → Z → res A * cluster) w :
  script w = [] → served f w = (fst (f (mem w) (version w)), after_call (snd (f (mem w) (version w))) [] w).
Proof. intros Hs. unfold served. rewrite Hs. by destruct (f _ _). Qed.

(** Anything but a change of the ConfigMaps keeps the server healthy. *)
Lemma healthy_same ns w w' :
  healthy ns w → script w' = [] → configmaps (mem w') = configmaps (mem w) → healthy ns w'.
Proof. intros [_ Hc] Hs Heq. split; [done|]. by rewrite Heq. Qed.

Lemma mem_update_configmaps ns status o w r w' :
  healthy ns w → mem_update status o w = (r, w') → healthy ns w'.
Proof.
  intros Hh Hu. destruct Hh as [Hs Hc]. unfold mem_update in Hu. rewrite served_nil in Hu by done.
  injection Hu as _ <-. apply (healthy_same ns w); [done|done|]. simpl.
  destruct (httpscaledobjects (mem w) !! hso_key o) as [cur|]; [|done]. by destruct (decide _).
Qed.

Lemma SaveStatus_healthy ns s :
  healthy ns (rs_world s) → ∃ s', SaveStatus s = (Ok tt, s') ∧ healthy ns (rs_world s').
Proof.
  intros Hh. unfold SaveStatus. destruct (Status_Update _ _) as [[o|e|p] w] eqn:Eu;
    (apply mem_update_configmaps with (ns := ns) in Eu as Hw; [|done]); eauto.
  by destruct (effect_no_panic mem _ _ _ _ _ (Status_Update_law _) Eu).
Qed.

Lemma updateRoutingMap_healthy ns s :
  healthy ns (rs_world s) → ∃ s', updateRoutingMap ns s = (Ok tt, s') ∧ healthy ns (rs_world s').
Proof.
  intros (Hs & cm & d & Hcm & Hk & Hd). unfold updateRoutingMap.
  rewrite ST_bind_run. unfold wrap_err, api, GetConfigMap.
  cbn [Get_ConfigMap MemCluster_client]. rewrite served_nil by done. unfold routing_key in Hcm. rewrite Hcm. simpl.
  rewrite ST_bind_run. unfold SaveTableToConfigMap. cbn [MarshalJSON mbind res_bind]. rewrite Hd. simpl.
  rewrite ST_bind_run. unfold PatchConfigMap. rewrite ST_bind_run. cbn [Patch_ConfigMap MemCluster_client].
  rewrite served_nil by done. simpl.
  change (cm_key (mkConfigMap (cm_Namespace cm) (cm_Name cm) ?x)) with (cm_key cm). rewrite Hk.
  unfold routing_key at 1 3. rewrite Hcm. simpl. eexists. split; [done|]. split; [done|].
  eexists _, _. simpl. split_and!; [apply lookup_insert_eq|exact Hk|]. unfold merge_configmap. simpl. done.
Qed.

Lemma createOrUpdateScaledObject_healthy ns host s ref :
  healthy ns (rs_world s) → spec_ScaleTargetRef (hso_Spec (rs_httpso s)) = Some ref →
  ∃ s', createOrUpdateScaledObject host s = (Ok tt, s') ∧ healthy ns (rs_world s')
  ∧ rs_table s' = rs_table s ∧ same_core (rs_httpso s) (rs_httpso s').
Proof.
  intros Hh Href. pose proof Hh as [Hs _]. unfold createOrUpdateScaledObject.
  rewrite ST_bind_run. simpl. rewrite ST_bind_run. unfold scale_target. rewrite Href. simpl.
  set (app := app_scaled_object host (rs_httpso s) ref).
  rewrite ST_bind_run. unfold try, api. cbn [Create_ScaledObject MemCluster_client].
  rewrite served_nil by done. destruct (scaledobjects (mem (rs_world s)) !! so_key app) as [cur|] eqn:E; simpl.
  - rewrite ST_bind_run. rewrite ST_bind_run. cbn [Get_ScaledObject MemCluster_client].
    rewrite served_nil by done. change (ObjKey (hso_Namespace (rs_httpso s)) (hso_Name (rs_httpso s) +:+ "-app")) with (so_key app).
    cbn [rs_world after_call mem fst snd]. rewrite E. cbn [found fst snd Patch_ScaledObject MemCluster_client].
    rewrite served_nil by done. cbn [rs_world after_call mem fst snd]. rewrite E. simpl. eexists. split; [done|].
    split_and!; [|done|done]. by apply (healthy_same ns (rs_world s)).
  - eexists. split; [done|]. split_and!; [|done|done]. by apply (healthy_same ns (rs_world s)).
Qed.

Lemma ensureFinalizer_healthy ns s :
  healthy ns (rs_world s) →
  httpscaledobjects (mem (rs_world s)) !! hso_key (rs_httpso s) = Some (rs_httpso s) →
  ∃ s', ensureFinalizer s = (Ok tt, s') ∧ healthy ns (rs_world s').
Proof.
  intros Hh Hst. unfold ensureFinalizer. rewrite ST_bind_run. simpl.
  destruct (contains _ _); [by eexists|]. rewrite ST_bind_run. simpl. unfold update_httpso. simpl.
  set (o1 := set_Finalizers _ _).
  destruct (mem_update false o1 (rs_world s)) as [r w] eqn:Eu. pose proof Eu as Hw.
  apply mem_update_configmaps with (ns := ns) in Hw; [|done].
  pose proof Hh as [Hs _]. unfold mem_update in Eu. rewrite served_nil in Eu by done.
  change (hso_key o1) with (hso_key (rs_httpso s)) in Eu. rewrite Hst in Eu.
  change (hso_ResourceVersion o1) with (hso_ResourceVersion (rs_httpso s)) in Eu.
  rewrite decide_True in Eu by done. injection Eu as <- _. by eexists.
Qed.

Lemma createOrUpdateApplicationResources_healthy base es s ref :
  let ns := OperatorConfig.base_CurrentNamespace base in
  healthy ns (rs_world s) → table_map (rs_table s) ≠ None →
  spec_ScaleTargetRef (hso_Spec (rs_httpso s)) = Some ref →
  ∃ s', createOrUpdateApplicationResources base es s = (Ok tt, s') ∧ healthy ns (rs_world s').
Proof.
  intros ns Hh Hn Href. unfold createOrUpdateApplicationResources, deferred. fold ns.
  rewrite ST_bind_run.
  destruct (add_condition Pending ConditionUnknown PendingCreation
              "Identified HTTPScaledObject creation signal" s) as [r1 s1] eqn:E1.
  apply add_condition_run in E1 as (-> & Hw1 & Ht1 & Hc1).
  rewrite ST_bind_run.
  destruct (createOrUpdateScaledObject_healthy ns (OperatorConfig.HostName es ns) s1 ref) as (s2 & -> & Hh2 & Ht2 & Hc2).
  { by rewrite Hw1. }
  { destruct Hc1 as (_ & _ & _ & _ & Hsp). by rewrite Hsp. }
  rewrite ST_bind_run. cbn [get_httpso]. rewrite ST_bind_run. unfold scale_target.
  assert (spec_ScaleTargetRef (hso_Spec (rs_httpso s2)) = Some ref) as ->.
  { assert (same_core (rs_httpso s) (rs_httpso s2)) as (_ & _ & _ & _ & Hsp) by (by etransitivity). by rewrite Hsp. }
  cbn [mret ST_ret]. unfold addAndUpdateRoutingTable. rewrite ST_bind_run.
  destruct (add_hosts _ _ s2) as [r3 s3] eqn:E3.
  apply add_hosts_run in E3 as (-> & Hw3 & _ & _); [|by rewrite Ht2, Ht1].
  destruct (updateRoutingMap_healthy ns s3) as (s4 & -> & Hh4); [by rewrite Hw3|].
  destruct (SaveStatus_healthy ns s4 Hh4) as (s5 & -> & Hh5). by exists s5.
Qed.

(** *** Deletion *)

(** The object in memory has the version the server has, which is not about to
    go by itself. *)
Definition synced s : Prop :=
  ∃ cur, httpscaledobjects (mem (rs_world s)) !! hso_key (rs_httpso s) = Some cur
  ∧ hso_key cur = hso_key (rs_httpso s) ∧ hso_ResourceVersion (rs_httpso s) = hso_ResourceVersion cur
  ∧ hso_Finalizers cur = hso_Finalizers (rs_httpso s) ∧ hso_Finalizers cur ≠ [].

Lemma synced_same s s' :
  synced s → httpscaledobjects (mem (rs_world s')) = httpscaledobjects (mem (rs_world s)) →
  hso_key (rs_httpso s') = hso_key (rs_httpso s) →
  hso_ResourceVersion (rs_httpso s') = hso_ResourceVersion (rs_httpso s) →
  hso_Finalizers (rs_httpso s') = hso_Finalizers (rs_httpso s) → synced s'.
Proof. intros (cur & H1 & H2 & H3 & H4 & H5) Hw Hk Hv Hf. exists cur. rewrite Hw, Hk, Hv, Hf. done. Qed.

(** An update of such an object succeeds. *)
Lemma update_synced status o s cur :
  script (rs_world s) = [] → httpscaledobjects (mem (rs_world s)) !! hso_key o = Some cur →
  hso_ResourceVersion o = hso_ResourceVersion cur →
  mem_update status o (rs_world s)
  = (Ok (decode_into (stored_update status o cur (version (rs_world s))) o),
     after_call (set_httpscaledobjects (put_hso (stored_update status o cur (version (rs_world s)))) (mem (rs_world s))) []
       (rs_world s)).
Proof.
  intros Hs Hc Hv. unfold mem_update. rewrite served_nil by done. rewrite Hc. by rewrite decide_True.
Qed.

Lemma SaveStatus_synced ns s :
  healthy ns (rs_world s) → synced s →
  ∃ s', SaveStatus s = (Ok tt, s') ∧ healthy ns (rs_world s') ∧ synced s'
  ∧ hso_Finalizers (rs_httpso s') = hso_Finalizers (rs_httpso s).
Proof.
  intros Hh (cur & Hc & Hk & Hv & Hf & Hn). pose proof Hh as [Hs _].
  destruct (SaveStatus s) as [r s'] eqn:E. pose proof E as E'.
  destruct (SaveStatus_healthy ns s Hh) as (s2 & E2 & Hh2). rewrite E in E2. injection E2 as -> ->.
  exists s2. unfold SaveStatus in E'. cbn [Status_Update MemCluster_client] in E'.
  rewrite (update_synced true (rs_httpso s) s cur Hs Hc Hv) in E'. injection E' as <-.
  assert (hso_Finalizers (decode_into (stored_update true (rs_httpso s) cur (version (rs_world s))) (rs_httpso s))
          = hso_Finalizers (rs_httpso s)) as Hfin.
  { simpl. rewrite Hf. by destruct (hso_Finalizers (rs_httpso s)). }
  split_and!; [done|done| |exact Hfin].
  exists (stored_update true (rs_httpso s) cur (version (rs_world s))).
  cbn [rs_world rs_httpso after_call mem httpscaledobjects set_httpscaledobjects].
  split_and!; [|done|done| |done].
  - unfold put_hso. cbn [hso_DeletionTimestamp hso_Finalizers stored_update]. destruct (hso_Finalizers cur); [done|].
    by destruct (hso_DeletionTimestamp cur); apply lookup_insert_eq.
  - by etransitivity; [exact Hf|symmetry].
Qed.

Lemma updateRoutingMap_synced ns s :
  healthy ns (rs_world s) → synced s →
  ∃ s', updateRoutingMap ns s = (Ok tt, s') ∧ healthy ns (rs_world s') ∧ synced s'
  ∧ hso_Finalizers (rs_httpso s') = hso_Finalizers (rs_httpso s).
Proof.
  intros Hh Hy. destruct (updateRoutingMap_healthy ns s Hh) as (s' & E & Hh'). exists s'.
  pose proof E as E'. apply (updateRoutingMap_run mem) in E' as (_ & Ho & cm & d & _ & _ & Hv).
  - split_and!; [done|done| |by rewrite Ho]. apply (synced_same s); rewrite ?Ho; try done. by rewrite Hv.
  - destruct Hh as (_ & cm & d & Hcm & Hk & _). intros cm' Hcm'. congruence.
Qed.

(** Deleting a ScaledObject: it is there, or not found. *)
Lemma Delete_healthy ns k s :
  healthy ns (rs_world s) → synced s →
  ∃ x s', try (api (Delete_ScaledObject k)) s = (Ok x, s')
  ∧ (if x is inr e then IsNotFound e = true else True)
  ∧ healthy ns (rs_world s') ∧ synced s' ∧ rs_table s' = rs_table s ∧ rs_httpso s' = rs_httpso s.
Proof.
  intros Hh Hy. pose proof Hh as [Hs _]. unfold try, api. cbn [Delete_ScaledObject MemCluster_client].
  rewrite served_nil by done.
  destruct (scaledobjects (mem (rs_world s)) !! k); simpl; eexists _, _;
    (split_and!; [done|done|by apply (healthy_same ns (rs_world s))|by apply (synced_same s)|done|done]).
Qed.

Lemma removeApplicationResources_healthy base s ref :
  let ns := OperatorConfig.base_CurrentNamespace base in
  healthy ns (rs_world s) → synced s → table_map (rs_table s) ≠ None →
  spec_ScaleTargetRef (hso_Spec (rs_httpso s)) = Some ref →
  ∃ s', removeApplicationResources base s = (Ok tt, s') ∧ healthy ns (rs_world s') ∧ synced s'
  ∧ hso_Finalizers (rs_httpso s') = hso_Finalizers (rs_httpso s).
Proof.
  intros ns Hh Hy Hn Href. unfold removeApplicationResources, deferred. fold ns.
  rewrite ST_bind_run. cbn [add_condition]. rewrite ST_bind_run. cbn [get_httpso rs_httpso].
  unfold AppScaledObjectName. change (hso_Spec (AddCondition ?o ?x)) with (hso_Spec o). rewrite Href.
  rewrite ST_bind_run. set (s0 := mkRstate _ _ _).
  assert (synced s0) as Hy0 by (by apply (synced_same s)).
  rewrite ST_bind_run.
  match goal with |- context [Delete_ScaledObject ?k] =>
    destruct (Delete_healthy ns k s0 Hh Hy0) as (x & s1 & -> & Hx & Hh1 & Hy1 & Ht1 & Ho1) end.
  assert (match x with inl _ => mret tt | inr err => if IsNotFound err then mret tt
            else add_condition ErrorStatus ConditionFalse AppScaledObjectTerminationError (Error_string err) ≫= λ _, throw err
          end s1 = (Ok tt, s1)) as -> by (destruct x as [[]|e]; [done|by rewrite Hx]).
  rewrite ST_bind_run. cbn [add_condition]. rewrite ST_bind_run. cbn [get_httpso rs_httpso].
  unfold removeAndUpdateRoutingTable. rewrite ST_bind_run.
  destruct (remove_hosts _ _) as [r2 s2] eqn:E2. apply remove_hosts_run in E2 as (-> & Hw2 & Ho2 & _ & _); [|simpl; by rewrite Ht1].
  destruct (updateRoutingMap_synced ns s2) as (s3 & -> & Hh3 & Hy3 & Hf3).
  { by rewrite Hw2. }
  { apply (synced_same s1); rewrite ?Hw2, ?Ho2; done. }
  destruct (SaveStatus_synced ns s3 Hh3 Hy3) as (s4 & -> & Hh4 & Hy4 & Hf4).
  exists s4. split_and!; [done|done|done|]. rewrite Hf4, Hf3, Ho2. simpl. by rewrite Ho1.
Qed.

Lemma finalizeScaledObject_healthy ns s :
  healthy ns (rs_world s) → synced s → NoDup (hso_Finalizers (rs_httpso s)) →
  ∃ s', finalizeScaledObject s = (Ok tt, s') ∧ healthy ns (rs_world s').
Proof.
  intros Hh (cur & Hc & Hk & Hv & Hf & Hn) Hnd. unfold finalizeScaledObject. rewrite ST_bind_run. cbn [get_httpso].
  destruct (contains _ _) eqn:Ec; [|by eexists].
  destruct (remove_finalizer _ Hnd Ec) as (l & -> & _). rewrite ST_bind_run. cbn [set_httpso]. unfold update_httpso.
  cbn [rs_httpso rs_world]. pose proof Hh as [Hs _]. cbn [Update_HTTPScaledObject MemCluster_client].
  rewrite (update_synced false (set_Finalizers l (rs_httpso s)) s cur Hs Hc Hv).
  eexists. split; [done|]. by apply (healthy_same ns (rs_world s)).
Qed.
End healthy.

(** Both kinds of reconciliation, in full. *)
Lemma reconcile_succeeds (c : reconciler) (req : objKey) (w : MemCluster) (t : Table)
    (o : HTTPScaledObject) :
  let ns := OperatorConfig.base_CurrentNamespace (BaseConfig c) in
  healthy ns w → httpscaledobjects (mem w) !! req = Some o → hso_key o = req →
  hso_ok (mem w) → hso_DeletionTimestamp o = None →
  is_Some (hosts_of o) → is_Some (spec_ScaleTargetRef (hso_Spec o)) → table_map t ≠ None →
  ∃ w' t', Reconcile c req w t = (Ok (0, None), (w', t')) ∧ healthy ns w'.
Proof.
  intros ns Hh Hst Hkey Hok Hd [hosts Hhosts] [ref Href] Hn. pose proof Hh as [Hs _].
  unfold Reconcile. cbn [Get_HTTPScaledObject MemCluster_client]. rewrite served_nil by done. rewrite Hst. cbn [found fst snd].
  set (w1 := after_call (mem w) [] w).
  assert (healthy ns w1) as Hh1 by (by apply (healthy_same ns w)).
  unfold reconcile_object. rewrite ST_bind_run. cbn [get_httpso rs_httpso]. rewrite Hd.
  destruct (ensureFinalizer_healthy ns (mkRstate w1 t o) Hh1) as (s1 & E1 & Hh2); [by simpl; rewrite Hkey|].
  rewrite ST_bind_run. unfold try at 1. rewrite E1.
  apply (ensureFinalizer_run mem) in E1 as (Hsp1 & _ & _ & Ht1 & _); [|done|by simpl; rewrite Hkey|done].
  simpl in Hsp1, Ht1. rewrite ST_bind_run. unfold try at 1.
  assert (∃ s2, sanitize s1 = (Ok tt, s2)) as [s2 E2].
  { unfold sanitize, sanitizeHosts. revert Hhosts. unfold hosts_of. rewrite Hsp1.
    destruct (spec_Hosts _), (spec_Host _); try done; by eexists. }
  rewrite E2. apply sanitize_run in E2 as (Hw2 & Ht2 & _ & _ & Href2 & _).
  rewrite ST_bind_run. unfold try at 1.
  destruct (createOrUpdateApplicationResources_healthy (BaseConfig c) (ExternalScalerConfig c) s2 ref)
    as (s3 & -> & Hh3); [by rewrite Hw2|by rewrite Ht2, Ht1|by rewrite Href2, Hsp1|].
  rewrite ST_bind_run. cbn [add_condition]. rewrite ST_bind_run.
  match goal with |- context [SaveStatus ?s] => destruct (SaveStatus_healthy ns s Hh3) as (s4 & -> & Hh4) end.
  by eexists _, _.
Qed.

Lemma reconcile_deletion_succeeds (c : reconciler) (req : objKey) (w : MemCluster) (t : Table)
    (o : HTTPScaledObject) (ts : string) :
  let ns := OperatorConfig.base_CurrentNamespace (BaseConfig c) in
  healthy ns w → httpscaledobjects (mem w) !! req = Some o → hso_key o = req →
  hso_DeletionTimestamp o = Some ts → hso_Finalizers o ≠ [] → NoDup (hso_Finalizers o) →
  is_Some (spec_ScaleTargetRef (hso_Spec o)) → table_map t ≠ None →
  ∃ w' t', Reconcile c req w t = (Ok (0, None), (w', t')) ∧ healthy ns w'.
Proof.
  intros ns Hh Hst Hkey Hd Hf Hnd [ref Href] Hn. pose proof Hh as [Hs _].
  unfold Reconcile. cbn [Get_HTTPScaledObject MemCluster_client]. rewrite served_nil by done. rewrite Hst. cbn [found fst snd].
  set (w1 := after_call (mem w) [] w).
  assert (healthy ns w1) as Hh1 by (by apply (healthy_same ns w)).
  assert (synced (mkRstate w1 t o)) as Hy1 by (exists o; simpl; by rewrite Hkey).
  unfold reconcile_object. rewrite ST_bind_run. cbn [get_httpso rs_httpso]. rewrite Hd.
  rewrite ST_bind_run. unfold try at 1.
  destruct (removeApplicationResources_healthy (BaseConfig c) (mkRstate w1 t o) ref Hh1 Hy1 Hn Href)
    as (s2 & -> & Hh2 & Hy2 & Hf2). simpl in Hf2.
  rewrite ST_bind_run. unfold try at 1.
  destruct (finalizeScaledObject_healthy ns s2 Hh2 Hy2) as (s3 & -> & Hh3); [by rewrite Hf2|].
  by eexists _, _.
Qed.

(** ** Properties *)

(** On a server that serves every call, reconciling a stored object
    that sets one of [host] and [hosts] and a scale target succeeds: no error,
    no requeue; and the server is then ready for the next one. *)
Theorem Reconcile_succeeds (c : reconciler) (req : objKey) (w : MemCluster) (t : Table)
    (o : HTTPScaledObject) :
  let ns := OperatorConfig.base_CurrentNamespace (BaseConfig c) in
  healthy ns w → httpscaledobjects (mem w) !! req = Some o → hso_key o = req →
  hso_ok (mem w) → hso_DeletionTimestamp o = None →
  is_Some (hosts_of o) → is_Some (spec_ScaleTargetRef (hso_Spec o)) → table_map t ≠ None →
  ∃ w' t', Reconcile c req w t = (Ok (0, None), (w', t')) ∧ healthy ns w'.
Proof. exact (reconcile_succeeds c req w t o). Qed.

Lemma Reconcile_succeeds_witness :
  ∃ w' t', Reconcile demo_config (ObjKey "dp-1" "shop")
    (demo_world (demo_hso "shop" None (Some "app.dp-1") None []) ∅) NewTable = (Ok (0, None), (w', t')).
Proof.
  set (o := demo_hso "shop" None (Some "app.dp-1") None []).
  destruct (Reconcile_succeeds demo_config (ObjKey "dp-1" "shop") (demo_world o ∅) NewTable o)
    as (w' & t' & Hr & _).
  - split; [done|]. eexists _, _. split_and!; [apply lookup_singleton_eq|done|done].
  - apply lookup_singleton_eq.
  - done.
  - apply demo_hso_ok.
  - done.
  - by eexists.
  - by eexists.
  - done.
  - exists w', t'. exact Hr.
Defined.

(** On a server that serves every call, reconciling a stored object
    that is being deleted, with no finalizer twice and with a scale target,
    succeeds: no error and no requeue, and the server is left in a state in
    which the next reconciliation is served too. *)
Theorem Reconcile_deletion_succeeds (c : reconciler) (req : objKey) (w : MemCluster) (t : Table)
    (o : HTTPScaledObject) (ts : string) :
  let ns := OperatorConfig.base_CurrentNamespace (BaseConfig c) in
  healthy ns w → httpscaledobjects (mem w) !! req = Some o → hso_key o = req →
  hso_DeletionTimestamp o = Some ts → hso_Finalizers o ≠ [] → NoDup (hso_Finalizers o) →
  is_Some (spec_ScaleTargetRef (hso_Spec o)) → table_map t ≠ None →
  ∃ w' t', Reconcile c req w t = (Ok (0, None), (w', t')) ∧ healthy ns w'.
Proof. exact (reconcile_deletion_succeeds c req w t o ts). Qed.

Lemma Reconcile_deletion_succeeds_witness :
  ∃ w' t', Reconcile demo_config (ObjKey "dp-1" "shop")
    (demo_world (demo_hso "shop" (Some ["app.dp-1"]) None (Some "2023-01-01T00:00:00Z") [httpScaledObjectFinalizer]) ∅)
    NewTable = (Ok (0, None), (w', t')).
Proof.
  set (o := demo_hso "shop" (Some ["app.dp-1"]) None (Some "2023-01-01T00:00:00Z") [httpScaledObjectFinalizer]).
  destruct (Reconcile_deletion_succeeds demo_config (ObjKey "dp-1" "shop") (demo_world o ∅) NewTable o
              "2023-01-01T00:00:00Z") as (w' & t' & Hr & _).
  - split; [done|]. eexists _, _. split_and!; [apply lookup_singleton_eq|done|done].
  - apply lookup_singleton_eq.
  - done.
  - done.
  - done.
  - apply NoDup_singleton.
  - by eexists.
  - done.
  - exists w', t'. exact Hr.
Defined.
