(* ===== verification/OperatorFrame.v ===== *)
(** * What a reconciliation can do to the routing table, whatever fails (operator/controllers/http)

    OperatorProofs and OperatorLive are about reconciliations that succeed. Here
    every outcome counts: an error of any call of the API at any point, the
    roll-back after a failed creation, a panic. *)

From S2P Require Import Prelude GoStrings GoUrl Json Queue Routing ConfigMaps Net Config K8s Hso Kube Operator OperatorProofs.

(** The hosts an object names, in either field. *)
Definition all_hosts (o : HTTPScaledObject) : list string :=
  default [] (spec_Hosts (hso_Spec o)) ++ option_list (spec_Host (hso_Spec o)).

Section frame.
Context `{Client W} (view : W → cluster) `{!ClientLaws W view} (base : OperatorConfig.Base).
(** The object that is reconciled, and the cluster before. *)
Context (o0 : HTTPScaledObject) (c0 : cluster).
Implicit Types (s : rstate W) (t : Table).

(** ** Versions of the object *)

(** The same object, as far as its routes go: some of its hosts, its target. *)
Definition version_of (o : HTTPScaledObject) : Prop :=
  hso_Namespace o = hso_Namespace o0 ∧ hso_Name o = hso_Name o0
  ∧ all_hosts o ⊆ all_hosts o0
  ∧ spec_ScaleTargetRef (hso_Spec o) = spec_ScaleTargetRef (hso_Spec o0)
  ∧ spec_TargetPendingRequests (hso_Spec o) = spec_TargetPendingRequests (hso_Spec o0).

Lemma version_key o : version_of o → hso_key o = hso_key o0.
Proof. intros (Hns & Hn & _). unfold hso_key. by rewrite Hns, Hn. Qed.

Lemma version_target o ref : version_of o → httpso_target base o ref = httpso_target base o0 ref.
Proof. intros (Hns & _ & _ & _ & Ht). unfold httpso_target. by rewrite Hns, Ht. Qed.

Lemma version_core o o' : same_core o o' → version_of o → version_of o'.
Proof.
  intros (Hns & Hn & _ & _ & Hsp) Hv. unfold version_of, all_hosts in *. rewrite Hns, Hn, Hsp. exact Hv.
Qed.

Lemma or_else_same {A} (x : option A) : or_else x x = x.
Proof. by destruct x. Qed.

Lemma version_decode o o' : version_of o → version_of o' → version_of (decode_into o o').
Proof.
  destruct o as [ns nm rv dt fin [h hs ref rep tpr cd] cs], o' as [ns' nm' rv' dt' fin' [h' hs' ref' rep' tpr' cd'] cs'].
  intros (Hns & Hn & Hh & Hr & Ht) (_ & _ & Hh' & Hr' & Ht'). unfold version_of, all_hosts in *. simpl in *.
  split_and!; [done|done| |by rewrite Hr, Hr', or_else_same|by rewrite Ht, Ht', or_else_same].
  intros x [Hx|Hx]%elem_of_app.
  - destruct hs as [[|y hs]|]; simpl in *; set_solver.
  - destruct h; simpl in *; set_solver.
Qed.

Lemma version_stored status o cur rv :
  version_of o → version_of cur → version_of (stored_update status o cur rv).
Proof.
  intros (Hns & Hn & Hh & Hr & Ht) (Hns' & Hn' & Hh' & Hr' & Ht'). by destruct status.
Qed.

(** ** The invariant of a run, and what a run may do to the table *)

Record in_run s : Prop := {
  run_mine : version_of (rs_httpso s);
  run_stored : ∀ o, httpscaledobjects (view (rs_world s)) !! hso_key o0 = Some o → version_of o;
  run_others : ∀ k, k ≠ hso_key o0 → httpscaledobjects (view (rs_world s)) !! k = httpscaledobjects c0 !! k;
}.

(** Every route is as before, unless its host is one of the object's: then it
    can be gone, or lead to the object's target. *)
Definition routes_framed t t' : Prop :=
  ∀ h, entries t' !! h = entries t !! h
  ∨ h ∈ all_hosts o0 ∧ (entries t' !! h = None
     ∨ ∃ ref, spec_ScaleTargetRef (hso_Spec o0) = Some ref ∧ entries t' !! h = Some (httpso_target base o0 ref)).

#[local] Instance routes_framed_preorder : PreOrder routes_framed.
Proof.
  split; [by intros t h; left|]. intros t1 t2 t3 H12 H23 h.
  destruct (H23 h) as [->|?]; [apply H12|by right].
Qed.

(** [m] respects both, whatever it returns. *)
Definition framed {A} (m : ST (rstate W) A) : Prop :=
  ∀ s r s', in_run s → table_map (rs_table s) ≠ None → m s = (r, s') →
  in_run s' ∧ table_map (rs_table s') ≠ None ∧ routes_framed (rs_table s) (rs_table s').

Lemma framed_pure {A} (m : ST (rstate W) A) : (∀ s, snd (m s) = s) → framed m.
Proof. intros Hm s r s' Hi Ht Hr. specialize (Hm s). rewrite Hr in Hm. simpl in Hm. by subst. Qed.

Lemma framed_bind {A B} (m : ST (rstate W) A) (f : A → ST (rstate W) B) :
  framed m → (∀ a, framed (f a)) → framed (m ≫= f).
Proof.
  intros Hm Hf s r s' Hi Ht Hr. rewrite ST_bind_run in Hr. destruct (m s) as [[a|e|p] s1] eqn:Em;
    destruct (Hm _ _ _ Hi Ht Em) as (Hi1 & Ht1 & Hf1); simplify_eq/=; [|done..].
  destruct (Hf a _ _ _ Hi1 Ht1 Hr) as (Hi2 & Ht2 & Hf2). split_and!; [done|done|by etransitivity].
Qed.

Lemma framed_try {A} (m : ST (rstate W) A) : framed m → framed (try m).
Proof.
  intros Hm s r s' Hi Ht Hr. unfold try in Hr. destruct (m s) as [[a|e|p] s1] eqn:Em; simplify_eq/=;
    by eapply Hm.
Qed.

Lemma framed_wrap {A} msg (m : ST (rstate W) A) : framed m → framed (wrap_err msg m).
Proof.
  intros Hm s r s' Hi Ht Hr. unfold wrap_err in Hr. destruct (m s) as [x s1] eqn:Em. simplify_eq/=. by eapply Hm.
Qed.

Lemma framed_deferred {A} (d : ST (rstate W) unit) (m : ST (rstate W) A) :
  framed d → framed m → framed (deferred d m).
Proof.
  intros Hd Hm s r s' Hi Ht Hr. unfold deferred in Hr. destruct (m s) as [x s1] eqn:Em.
  destruct (Hm _ _ _ Hi Ht Em) as (Hi1 & Ht1 & Hf1). destruct (d s1) as [y s2] eqn:Ed.
  destruct (Hd _ _ _ Hi1 Ht1 Ed) as (Hi2 & Ht2 & Hf2).
  assert (s' = s2) as -> by (by destruct y; simplify_eq). split_and!; [done|done|by etransitivity].
Qed.

(** A call that leaves the HTTPScaledObjects alone, when it works and when it
    does not. *)
Lemma framed_api {A} (m : ST W A) eff :
  effect view m eff → (∀ c a c', eff c a c' → httpscaledobjects c' = httpscaledobjects c) → framed (api m).
Proof.
  intros Hm Heff s r s' Hi Ht Hr. unfold api in Hr. specialize (Hm (rs_world s)).
  destruct (m (rs_world s)) as [x w] eqn:Em. simplify_eq/=.
  assert (httpscaledobjects (view w) = httpscaledobjects (view (rs_world s))) as Hh.
  { destruct r as [a|e|p]; [by eapply Heff| |done]. destruct Hm as [->|[a Ha]]; [done|by eapply Heff]. }
  destruct Hi as [H1 H2 H3]. split_and!; [|done|done]. split; simpl; [done|by rewrite Hh|]. intros k. rewrite Hh. apply H3.
Qed.

(** A change of the object in memory to another version of it. *)
Lemma framed_set (m : ST (rstate W) unit) (f : HTTPScaledObject → HTTPScaledObject) :
  (∀ o, version_of o → version_of (f o)) →
  (∀ s, snd (m s) = mkRstate (rs_world s) (rs_table s) (f (rs_httpso s))) → framed m.
Proof.
  intros Hf Hm s r s' [H1 H2 H3] Ht Hr. specialize (Hm s). rewrite Hr in Hm. simpl in Hm. subst s'.
  split_and!; [|done|done]. split; simpl; eauto.
Qed.

(** An update of the object, which the server may have done even when the call
    reports an error. *)
Lemma in_run_update status o s c' o' :
  in_run s → version_of o → update_effect status o (view (rs_world s)) o' c' →
  (∀ x, httpscaledobjects c' !! hso_key o0 = Some x → version_of x)
  ∧ (∀ k, k ≠ hso_key o0 → httpscaledobjects c' !! k = httpscaledobjects c0 !! k) ∧ version_of o'.
Proof.
  intros [H1 H2 H3] Hv (cur & rv & Hcur & -> & ->). rewrite (version_key o Hv) in Hcur.
  pose proof (H2 _ Hcur) as Hvc. pose proof (version_stored status o cur rv Hv Hvc) as Hvs.
  split_and!; simpl.
  - intros x [[-> _]|Hx]%put_hso_ok; [done|by apply H2].
  - intros k Hk. rewrite put_hso_ne by (by rewrite (version_key _ Hvs)). by apply H3.
  - by apply version_decode.
Qed.

Lemma framed_update (status : bool) (m : ST (rstate W) unit) (upd : HTTPScaledObject → ST W HTTPScaledObject) :
  (∀ o, effect view (upd o) (update_effect status o)) →
  (∀ s, snd (m s) = match upd (rs_httpso s) (rs_world s) with
                    | (Ok o, w) => mkRstate w (rs_table s) o
                    | (_, w) => mkRstate w (rs_table s) (rs_httpso s)
                    end) →
  framed m.
Proof.
  intros Hu Hm s r s' Hi Ht Hr. specialize (Hm s). rewrite Hr in Hm. simpl in Hm.
  specialize (Hu (rs_httpso s) (rs_world s)). pose proof (run_mine _ Hi) as Hv.
  destruct (upd (rs_httpso s) (rs_world s)) as [[o|e|p] w]; subst s'; (split_and!; [|done|done]); [..|done].
  - destruct (in_run_update _ _ _ _ _ Hi Hv Hu) as (? & ? & ?). by split.
  - destruct Hu as [Heq|[o Hu]].
    + destruct Hi as [H1 H2 H3]. split; simpl; by rewrite ?Heq.
    + destruct (in_run_update _ _ _ _ _ Hi Hv Hu) as (? & ? & ?). by split.
Qed.

(** ** The functions of the operator *)

Lemma framed_get {A} (f : HTTPScaledObject → ST (rstate W) A) :
  (∀ o, version_of o → framed (f o)) → framed (get_httpso ≫= f).
Proof. intros Hf s r s' Hi Ht Hr. rewrite ST_bind_run in Hr. simpl in Hr. eapply Hf, Hr; [|done|done]. by apply run_mine. Qed.

Lemma framed_add_condition ty st reason msg : framed (add_condition ty st reason msg).
Proof.
  intros s r s' [H1 H2 H3] Ht Hr. apply add_condition_run in Hr as (_ & Hw & Htab & Hc).
  rewrite Htab. split_and!; [|done|done]. split; rewrite ?Hw; [by eapply version_core|done|done].
Qed.

Lemma framed_set_httpso o : version_of o → framed (set_httpso o).
Proof. intros Hv. by eapply (framed_set _ (λ _, o)). Qed.

Lemma framed_SaveStatus : framed SaveStatus.
Proof.
  eapply (framed_update true); [apply Status_Update_law|]. intros s. unfold SaveStatus.
  by destruct (Status_Update _ _) as [[]].
Qed.

Lemma framed_update_httpso : framed update_httpso.
Proof.
  eapply (framed_update false); [apply Update_HTTPScaledObject_law|]. intros s. unfold update_httpso.
  by destruct (Update_HTTPScaledObject _ _) as [[]].
Qed.

Lemma framed_on_table {A} (f : Table → res A * Table) :
  (∀ t, table_map t ≠ None → table_map (snd (f t)) ≠ None ∧ routes_framed t (snd (f t))) → framed (on_table f).
Proof.
  intros Hf s r s' [H1 H2 H3] Ht Hr. unfold on_table in Hr. destruct (Hf (rs_table s) Ht) as [Hn Hfr].
  destruct (f (rs_table s)) as [x t]. simplify_eq/=. split_and!; [by split|done|done].
Qed.

Lemma framed_remove h : h ∈ all_hosts o0 → framed (on_table (RemoveTarget h)).
Proof.
  intros Hh. apply framed_on_table. intros t Hn. split; [by apply RemoveTarget_not_nil|].
  intros h'. rewrite RemoveTarget_entries, lookup_delete. case_decide as Hd; [subst; by right; split; [|left]|by left].
Qed.

Lemma framed_add h ref :
  h ∈ all_hosts o0 → spec_ScaleTargetRef (hso_Spec o0) = Some ref →
  framed (on_table (AddTarget h (httpso_target base o0 ref))).
Proof.
  intros Hh Href. apply framed_on_table. intros t Hn. split; [by apply AddTarget_not_nil|].
  intros h'. rewrite AddTarget_entries by done. case_decide as Hs; [by left|].
  rewrite lookup_insert. case_decide; [subst; right; eauto|by left].
Qed.

Lemma framed_remove_hosts hosts : hosts ⊆ all_hosts o0 → framed (remove_hosts hosts).
Proof.
  induction hosts as [|h hosts IH]; intros Hs; simpl; [by apply framed_pure|].
  apply framed_bind; [apply framed_try, framed_remove; set_solver|]. intros _. apply IH. set_solver.
Qed.

Lemma framed_add_hosts hosts ref :
  hosts ⊆ all_hosts o0 → spec_ScaleTargetRef (hso_Spec o0) = Some ref →
  framed (add_hosts hosts (httpso_target base o0 ref)).
Proof.
  intros Hs Href. revert Hs. induction hosts as [|h hosts IH]; intros Hs; simpl; [by apply framed_pure|].
  apply framed_bind; [apply framed_try, framed_add; set_solver|]. intros _. apply IH. set_solver.
Qed.

Lemma version_hosts o : version_of o → default [] (spec_Hosts (hso_Spec o)) ⊆ all_hosts o0.
Proof. intros (_ & _ & Hh & _). unfold all_hosts in Hh at 1. set_solver. Qed.

(** Calls that are not about HTTPScaledObjects. *)
Definition quiet {A} (m : ST W A) : Prop :=
  effect view m (λ c _ c', httpscaledobjects c' = httpscaledobjects c).

Lemma framed_quiet {A} (m : ST W A) : quiet m → framed (api m).
Proof. intros Hm. by eapply framed_api. Qed.

Lemma quiet_effect {A} (m : ST W A) eff :
  effect view m eff → (∀ c a c', eff c a c' → httpscaledobjects c' = httpscaledobjects c) → quiet m.
Proof.
  intros Hm Heff w. specialize (Hm w). destruct (m w) as [[a|e|p] w']; [by eapply Heff| |done].
  destruct Hm as [Hm|[a Ha]]; [by left|]. right. exists a. by eapply Heff.
Qed.

Lemma quiet_calls :
  (∀ k, quiet (Get_ConfigMap k)) ∧ (∀ o n, quiet (Patch_ConfigMap o n)) ∧ (∀ so, quiet (Create_ScaledObject so))
  ∧ (∀ k, quiet (Get_ScaledObject k)) ∧ (∀ so, quiet (Patch_ScaledObject so)) ∧ (∀ k, quiet (Delete_ScaledObject k)).
Proof.
  split_and!; intros; (eapply quiet_effect; [first
    [apply Get_ConfigMap_law|apply Patch_ConfigMap_law|apply Create_ScaledObject_law|apply Get_ScaledObject_law
    |apply Patch_ScaledObject_law|apply Delete_ScaledObject_law]|]); simpl; naive_solver.
Qed.

Lemma quiet_PatchConfigMap o n : quiet (PatchConfigMap o n).
Proof.
  intros w. destruct quiet_calls as (_ & Hq & _). specialize (Hq o n w). unfold PatchConfigMap. rewrite ST_bind_run.
  destruct (Patch_ConfigMap o n w) as [[a|e|p] w']; [done| |done].
  destruct Hq as [?|[_ ?]]; [by left|right]. by exists n.
Qed.

(** Takes a function apart at its binds, tries and branches. *)
Ltac framed_steps :=
  destruct quiet_calls as (Hget_cm & _ & Hcreate & Hget & Hpatch & Hdelete);
  repeat match goal with
    | |- framed (mbind _ get_httpso) => apply framed_get; intros ? ?
    | |- framed (mbind _ _) => apply framed_bind; [|intros ?]
    | |- framed (try _) => apply framed_try
    | |- framed (wrap_err _ _) => apply framed_wrap
    | |- framed (deferred _ _) => apply framed_deferred
    | |- framed (add_condition _ _ _ _) => apply framed_add_condition
    | |- framed SaveStatus => apply framed_SaveStatus
    | |- framed update_httpso => apply framed_update_httpso
    | |- framed (api _) => apply framed_quiet;
        first [apply Hget_cm|apply quiet_PatchConfigMap|apply Hcreate|apply Hget|apply Hpatch|apply Hdelete]
    | |- framed (match _ with _ => _ end) => case_match
    | |- framed _ => by apply framed_pure
    end.

Lemma framed_updateRoutingMap ns : framed (updateRoutingMap ns).
Proof. unfold updateRoutingMap. framed_steps. Qed.

Lemma framed_ensureFinalizer : framed ensureFinalizer.
Proof. unfold ensureFinalizer. framed_steps. by apply framed_set_httpso. Qed.

Lemma framed_finalize : framed finalizeScaledObject.
Proof. unfold finalizeScaledObject. framed_steps. by apply framed_set_httpso. Qed.

Lemma framed_createOrUpdateScaledObject host : framed (createOrUpdateScaledObject host).
Proof. unfold createOrUpdateScaledObject, scale_target. framed_steps. Qed.

Lemma framed_sanitize : framed sanitize.
Proof.
  eapply (framed_set _ (λ o, snd (sanitizeHosts o))); [|intros s; unfold sanitize; by destruct (sanitizeHosts _)].
  intros [ns nm rv dt fin [h hs ref rep tpr cd] cs] (? & ? & Hh & ? & ?).
  unfold version_of, sanitizeHosts, all_hosts in *. simpl in *.
  destruct hs, h; simpl in *; split_and!; try done; set_solver.
Qed.

Lemma framed_removeApplicationResources : framed (removeApplicationResources base).
Proof.
  unfold removeApplicationResources, removeAndUpdateRoutingTable. framed_steps.
  - by apply framed_remove_hosts, version_hosts.
  - apply framed_updateRoutingMap.
Qed.

Lemma framed_createOrUpdateApplicationResources es : framed (createOrUpdateApplicationResources base es).
Proof.
  unfold createOrUpdateApplicationResources. apply framed_deferred; [apply framed_SaveStatus|].
  apply framed_bind; [apply framed_add_condition|intros _].
  apply framed_bind; [apply framed_createOrUpdateScaledObject|intros _].
  apply framed_get. intros o Hv s r s' Hi Ht Hr. rewrite ST_bind_run in Hr. unfold scale_target in Hr.
  destruct (spec_ScaleTargetRef (hso_Spec o)) as [ref|] eqn:Href; [|by simplify_eq/=].
  simpl in Hr. revert Hr. rewrite version_target by done. apply framed_bind; [|intros _; apply framed_updateRoutingMap|done|done].
  apply framed_add_hosts; [by apply version_hosts|]. by destruct Hv as (_ & _ & _ & <- & _).
Qed.

Lemma framed_reconcile_object c : BaseConfig c = base → framed (reconcile_object c).
Proof.
  intros Hb. unfold reconcile_object. rewrite Hb. framed_steps;
    eauto using framed_removeApplicationResources, framed_finalize, framed_ensureFinalizer, framed_sanitize,
      framed_createOrUpdateApplicationResources.
Qed.
End frame.

Section outcomes.
Context `{Client W} (view : W → cluster) `{!ClientLaws W view}.

Lemma Reconcile_framed c req w t r w' t' :
  hso_ok (view w) → table_map t ≠ None → Reconcile c req w t = (r, (w', t')) →
  (view w' = view w ∧ t' = t)
  ∨ ∃ o, httpscaledobjects (view w) !! req = Some o ∧ hso_key o = req ∧ table_map t' ≠ None
    ∧ (∀ k, k ≠ req → httpscaledobjects (view w') !! k = httpscaledobjects (view w) !! k)
    ∧ (∀ o', httpscaledobjects (view w') !! req = Some o' → version_of o o')
    ∧ routes_framed (BaseConfig c) o t t'.
Proof.
  intros Hok Ht Hr. unfold Reconcile in Hr. pose proof (Get_HTTPScaledObject_law (view := view) req w) as Hg.
  destruct (Get_HTTPScaledObject req w) as [[o|e|p] w1] eqn:Eg; [|left|done].
  - destruct Hg as [Hv Ho]. destruct (reconcile_object c (mkRstate w1 t o)) as [x s] eqn:Er.
    injection Hr as <- <- <-. right. exists o. pose proof (Hok _ _ Ho) as Hk.
    destruct (framed_reconcile_object view (BaseConfig c) o (view w) c eq_refl (mkRstate w1 t o) x s) as ([_ H2 H3] & Hn & Hf);
      [|done|done|].
    { split; simpl; rewrite ?Hv; [done| |done]. intros o'. rewrite Hk, Ho. by intros [= <-]. }
    rewrite Hk in H2, H3. split_and!; done.
  - assert (view w1 = view w) as Hv by (destruct Hg as [?|(? & ? & _)]; done).
    destruct (IsNotFound e); by simplify_eq.
Qed.

Lemma version_object_ok base o o' : version_of o o' → object_ok base o → Forall valid_utf8 (all_hosts o) → object_ok base o'.
Proof.
  intros Hv [_ Hr] Hu. pose proof Hv as (_ & _ & Hh & Href & _). split.
  - intros hosts Hhosts. apply Forall_forall. intros h Hin. rewrite Forall_forall in Hu. apply Hu, Hh.
    unfold all_hosts, hosts_of in *. destruct (spec_Hosts (hso_Spec o')), (spec_Host (hso_Spec o')); simplify_eq; apply elem_of_app; solve [by left|by right].
  - intros ref Hs. rewrite (version_target base o o' ref Hv). apply Hr. congruence.
Qed.

Lemma version_hso_ok (c c' : cluster) o req :
  hso_key o = req → hso_ok c →
  (∀ k, k ≠ req → httpscaledobjects c' !! k = httpscaledobjects c !! k) →
  (∀ o', httpscaledobjects c' !! req = Some o' → version_of o o') → hso_ok c'.
Proof.
  intros Hk Hok Hne Hv k o' Ho'. destruct (decide (k = req)) as [->|Hn].
  - rewrite <-Hk. by apply version_key, Hv.
  - apply Hok. by rewrite <-Hne.
Qed.
End outcomes.

(** ** Properties *)

(** C9: safety. A reconciliation touches only its own object's routes, whatever
    it returns and whichever calls of the API fail: every other route, and every
    other HTTPScaledObject, is as before; a route of one of the object's hosts
    is as before, or gone, or leads to the object's target. *)
Theorem Reconcile_own_routes `{Client W} (view : W → cluster) `{!ClientLaws W view}
    (c : reconciler) (req : objKey) (w w' : W) (t t' : Table) (r : res outcome) :
  hso_ok (view w) → table_map t ≠ None → Reconcile c req w t = (r, (w', t')) →
  table_map t' ≠ None
  ∧ (∀ k, k ≠ req → httpscaledobjects (view w') !! k = httpscaledobjects (view w) !! k)
  ∧ ∀ h, entries t' !! h = entries t !! h
    ∨ ∃ o, httpscaledobjects (view w) !! req = Some o ∧ h ∈ all_hosts o
      ∧ (entries t' !! h = None
         ∨ ∃ ref, spec_ScaleTargetRef (hso_Spec o) = Some ref
           ∧ entries t' !! h = Some (httpso_target (BaseConfig c) o ref)).
Proof.
  intros Hok Ht Hr. destruct (Reconcile_framed view c req w t r w' t' Hok Ht Hr) as [[-> ->]|(o & Ho & _ & Hn & Hk & _ & Hf)].
  - split_and!; [done|done|by left].
  - split_and!; [done|done|]. intros h. destruct (Hf h) as [?|[??]]; [by left|right; eauto].
Qed.

(** Two objects with the same host, and a server that refuses to create a
    ScaledObject. *)
Definition demo_shop : HTTPScaledObject := demo_hso "shop" (Some ["app.dp-1"]) None None [].
Definition demo_blog : HTTPScaledObject :=
  mkHso "dp-1" "blog" 1 None [] (Hso.mkSpec None (Some ["app.dp-1"]) (Some (mkScaleTargetRef "web" "blog" 80)) None None None) [].
Definition demo_denied : MemCluster :=
  mkMem (mkCluster {[routing_key "keda" := mkConfigMap "keda" ConfigMapRoutingTableName (Some ∅)]}
           {[hso_key demo_shop := demo_shop; hso_key demo_blog := demo_blog]} ∅ ∅)
    [Served; Served; Refused (ApiOther "denied")] 1 [].
Definition demo_routes : Table := mkTable (Some {["app.dp-1" := NewTarget "dp-1" "app" 8080 "web" 100]}).

Lemma Reconcile_own_routes_witness :
  ∃ r w' t', Reconcile demo_config (ObjKey "dp-1" "blog") demo_denied demo_routes = (r, (w', t'))
  ∧ table_map t' ≠ None ∧ ∀ h, h ≠ "app.dp-1" → entries t' !! h = entries demo_routes !! h.
Proof.
  destruct (Reconcile demo_config (ObjKey "dp-1" "blog") demo_denied demo_routes) as [r [w' t']] eqn:Hr.
  destruct (Reconcile_own_routes mem demo_config (ObjKey "dp-1" "blog") demo_denied w' demo_routes t' r)
    as (Hn & _ & Hf); [|done|done|].
  { intros k o. simpl. intros [[<- <-]|[_ [<- <-]%lookup_singleton_Some]]%lookup_insert_Some; done. }
  exists r, w', t'. split_and!; [done|done|]. intros h Hh.
  destruct (Hf h) as [?|(o & Ho & Hin & _)]; [done|]. simpl in Ho.
  rewrite lookup_insert_ne in Ho by done. rewrite lookup_singleton_eq in Ho. injection Ho as <-.
  change (all_hosts demo_blog) with ["app.dp-1"] in Hin. exfalso. exact (Hh (proj1 (list_elem_of_singleton _ _) Hin)).
Defined.
