(* ===== verification/OperatorConverge.v ===== *)
(** * Sequences of reconciliations (operator/controllers/http)

    The controller calls [Reconcile] for objects in any order and as often as it
    likes. On a server that serves every call, once every object has had its
    turn, the routing table is the union of the routes of the objects that
    exist, and it is published. *)

From S2P Require Import Prelude GoStrings GoUrl Json Queue Routing ConfigMaps Net Config K8s Hso Kube Operator OperatorProofs OperatorLive OperatorFrame.

(** What the controller does with a list of requests. *)
Fixpoint reconcile_all `{Client W} (c : reconciler) (reqs : list objKey) (w : W) (t : Table) :
    list (res outcome) * (W * Table) :=
  match reqs with
  | [] => ([], (w, t))
  | req :: reqs =>
      let '(r, (w, t)) := Reconcile c req w t in
      let '(rs, s) := reconcile_all c reqs w t in
      (r :: rs, s)
  end.

Section converge.
Context (c : reconciler).
#[local] Abbreviation base := (BaseConfig c).
#[local] Abbreviation ns := (OperatorConfig.base_CurrentNamespace (BaseConfig c)).
Implicit Types (o : HTTPScaledObject) (cl : cluster) (w : MemCluster) (t : Table).

(** The routes an object asks for. *)
Definition claims o (h : string) (x : Target) : Prop :=
  ∃ hosts ref, hosts_of o = Some hosts ∧ h ∈ hosts ∧ spec_ScaleTargetRef (hso_Spec o) = Some ref
  ∧ x = httpso_target base o ref.

(** An object to serve, and one that is on its way out, written with [hosts]
    and held by the operator's finalizer only. *)
Definition living o : Prop :=
  hso_DeletionTimestamp o = None ∧ is_Some (hosts_of o) ∧ is_Some (spec_ScaleTargetRef (hso_Spec o)) ∧ object_ok base o.

Definition departing o : Prop :=
  is_Some (hso_DeletionTimestamp o) ∧ hso_Finalizers o = [httpScaledObjectFinalizer]
  ∧ is_Some (spec_ScaleTargetRef (hso_Spec o)) ∧ spec_Host (hso_Spec o) = None.

(** A cluster whose objects are of these kinds and share no host. *)
Record reconcilable cl : Prop := {
  rc_ok : hso_ok cl;
  rc_kinds : ∀ k o, httpscaledobjects cl !! k = Some o → living o ∨ departing o;
  rc_disjoint : ∀ k k' o o' h x x', httpscaledobjects cl !! k = Some o → httpscaledobjects cl !! k' = Some o' →
    claims o h x → claims o' h x' → k = k';
}.

(** The object as the server has it after its status and finalizers changed. *)
Definition alike o o' : Prop :=
  hso_Namespace o' = hso_Namespace o ∧ hso_Name o' = hso_Name o
  ∧ hso_DeletionTimestamp o' = hso_DeletionTimestamp o ∧ hso_Spec o' = hso_Spec o.

Lemma alike_target o o' ref : alike o o' → httpso_target base o' ref = httpso_target base o ref.
Proof. intros (Hns & _ & _ & Hs). unfold httpso_target. by rewrite Hns, Hs. Qed.

Lemma alike_hosts o o' : alike o o' → hosts_of o' = hosts_of o.
Proof. intros (_ & _ & _ & Hs). unfold hosts_of. by rewrite Hs. Qed.

Lemma alike_living o o' : alike o o' → living o → living o'.
Proof.
  intros Ha (Hd & Hh & Hr & Ho1 & Ho2). pose proof (alike_hosts _ _ Ha) as Hhs. pose proof Ha as (_ & _ & Hd' & Hs).
  split_and!; [by rewrite Hd'|by rewrite Hhs|by rewrite Hs|]. split; [by rewrite Hhs|].
  intros ref. rewrite Hs, (alike_target _ _ _ Ha). apply Ho2.
Qed.

Lemma claims_fun o h x x' : claims o h x → claims o h x' → x = x'.
Proof. intros (? & ref & _ & _ & Hr & ->) (? & ref' & _ & _ & Hr' & ->). congruence. Qed.

(** ** Progress *)

(** The table after the requests in [D]: only routes of objects, none of an
    object that has departed, and all of an object that has been served. *)
Record routed (c0 : cluster) (D : list objKey) t : Prop := {
  rt_sound : ∀ h x, entries t !! h = Some x →
    ∃ k o, httpscaledobjects c0 !! k = Some o ∧ claims o h x ∧ (departing o → k ∉ D);
  rt_complete : ∀ k o h x, k ∈ D → httpscaledobjects c0 !! k = Some o → living o → claims o h x →
    entries t !! h = Some x;
}.

Lemma living_departing o : living o → departing o → False.
Proof. intros [Hd _] [[ts Hts] _]. congruence. Qed.

(** The object that claims a host is the only one. *)
Lemma claims_unique c0 k k' o o' h x x' :
  reconcilable c0 → httpscaledobjects c0 !! k = Some o → httpscaledobjects c0 !! k' = Some o' →
  claims o h x → claims o' h x' → k' = k ∧ o' = o ∧ x' = x.
Proof.
  intros Hrc Ho Ho' Hc Hc'. assert (k' = k) as -> by (by eapply (rc_disjoint _ Hrc)).
  assert (o' = o) as -> by congruence. split_and!; [done|done|]. by eapply claims_fun.
Qed.

Lemma routed_living c0 D k o hosts ref t t' :
  reconcilable c0 → routed c0 D t → httpscaledobjects c0 !! k = Some o → living o →
  hosts_of o = Some hosts → spec_ScaleTargetRef (hso_Spec o) = Some ref →
  added hosts (httpso_target base o ref) (entries t) (entries t') → routed c0 (k :: D) t'.
Proof.
  intros Hrc [Hs Hc] Ho Hlv Hhosts Href Hadd.
  assert (∀ h, h ∈ hosts → claims o h (httpso_target base o ref)) as Hmine by (intros h Hin; by exists hosts, ref).
  split.
  - intros h x Hx. rewrite (Hadd h) in Hx. destruct (entries t !! h) as [y|] eqn:E.
    + injection Hx as <-. destruct (Hs h y E) as (k' & o1 & Ho1 & Hcl & Hnd). exists k', o1. split_and!; [done|done|].
      intros Hd1 [->|Hin]%elem_of_cons; [|by apply Hnd]. assert (o1 = o) as -> by congruence. by eapply living_departing.
    + case_decide as Hin; [|done]. injection Hx as <-. exists k, o. split_and!; [done|by apply Hmine|].
      intros Hd1. by destruct (living_departing o).
  - intros k' o1 h x Hin Ho1 Hl1 Hcl. rewrite (Hadd h). destruct (entries t !! h) as [y|] eqn:E.
    + destruct (Hs h y E) as (k2 & o2 & Ho2 & Hc2 & _).
      by destruct (claims_unique c0 _ _ _ _ _ _ _ Hrc Ho1 Ho2 Hcl Hc2) as (_ & _ & ->).
    + apply elem_of_cons in Hin as [->|Hin]; [|by rewrite (Hc k' o1 h x) in E].
      assert (o1 = o) as -> by congruence. pose proof Hcl as (hosts' & ref' & Hh1 & Hin' & _).
      assert (hosts' = hosts) as -> by congruence. rewrite decide_True by done. f_equal. eapply claims_fun; [by apply Hmine|done].
Qed.

Lemma routed_departing c0 D k o t t' :
  reconcilable c0 → routed c0 D t → httpscaledobjects c0 !! k = Some o → departing o →
  removed (default [] (spec_Hosts (hso_Spec o))) (entries t) (entries t') → routed c0 (k :: D) t'.
Proof.
  intros Hrc [Hs Hc] Ho Hdp Hrem.
  assert (∀ h, h ∈ default [] (spec_Hosts (hso_Spec o)) ↔ ∃ x, claims o h x) as Hmine.
  { destruct Hdp as (_ & _ & [ref Href] & Hhost). intros h. unfold claims, hosts_of. rewrite Hhost.
    destruct (spec_Hosts _) as [hosts|]; simpl; split.
    - intros Hin. by exists (httpso_target base o ref), hosts, ref.
    - intros (? & ? & ? & [= <-] & Hin & _). done.
    - by intros ?%elem_of_nil.
    - by intros (? & ? & ? & [=] & _). }
  split.
  - intros h x Hx. rewrite (Hrem h) in Hx. case_decide as Hin; [done|].
    destruct (Hs h x Hx) as (k' & o1 & Ho1 & Hcl & Hnd). exists k', o1. split_and!; [done|done|].
    intros Hd1 [->|?]%elem_of_cons; [|by apply Hnd]. assert (o1 = o) as -> by congruence. apply Hin, Hmine. by exists x.
  - intros k' o1 h x Hin Ho1 Hl1 Hcl. rewrite (Hrem h), decide_False.
    + apply elem_of_cons in Hin as [->|Hin]; [|by eapply Hc].
      assert (o1 = o) as -> by congruence. by destruct (living_departing o).
    + intros [x' Hcl']%Hmine. destruct (claims_unique c0 _ _ _ _ _ _ _ Hrc Ho Ho1 Hcl' Hcl) as (_ & -> & _).
      by eapply living_departing.
Qed.

(** After the requests in [D], in a cluster that was [c0]. *)
Record progress (c0 : cluster) (D : list objKey) w t : Prop := {
  pg_healthy : healthy ns w;
  pg_ok : hso_ok (mem w);
  pg_table : table_ok t;
  pg_living : ∀ k o, httpscaledobjects c0 !! k = Some o → living o →
    ∃ o', httpscaledobjects (mem w) !! k = Some o' ∧ alike o o';
  pg_departing : ∀ k o, httpscaledobjects c0 !! k = Some o → departing o →
    httpscaledobjects (mem w) !! k = if decide (k ∈ D) then None else Some o;
  pg_absent : ∀ k, httpscaledobjects c0 !! k = None → httpscaledobjects (mem w) !! k = None;
  pg_routed : routed c0 D t;
  pg_published : (∃ k, k ∈ D ∧ is_Some (httpscaledobjects c0 !! k)) → published (mem w) ns = Ok t;
}.

Lemma healthy_cm w : healthy ns w → routing_cm_ok (mem w) ns.
Proof. intros (_ & cm & d & Hcm & Hk & _) cm' Hcm'. congruence. Qed.

Lemma get_served k w o :
  healthy ns w → httpscaledobjects (mem w) !! k = Some o →
  Get_HTTPScaledObject k w = (Ok o, after_call (mem w) [] w).
Proof.
  intros [Hs _] Ho. cbn [Get_HTTPScaledObject MemCluster_client]. rewrite served_nil by done. by rewrite Ho.
Qed.

(** A request for an object that is not there, or not any more. *)
Lemma progress_absent c0 D k w t :
  progress c0 D w t → httpscaledobjects (mem w) !! k = None →
  (∀ o, httpscaledobjects c0 !! k = Some o → departing o ∧ k ∈ D) →
  ∃ w', Reconcile c k w t = (Ok (0, None), (w', t)) ∧ progress c0 (k :: D) w' t.
Proof.
  intros [Hh Hok Ht Hl Hd Ha Hrt Hp] Hk Hk0. pose proof Hh as [Hscr _].
  assert (∀ k' o, httpscaledobjects c0 !! k' = Some o → k' ∈ k :: D → k' ∈ D) as HD.
  { intros k' o Ho [->|?]%elem_of_cons; [by apply (Hk0 o)|done]. }
  exists (after_call (mem w) [] w). split.
  - unfold Reconcile. cbn [Get_HTTPScaledObject MemCluster_client]. rewrite served_nil by done. by rewrite Hk.
  - split; simpl; [by apply (healthy_same ns w)|done|done|done| |done| |].
    + intros k' o Ho Hdep. rewrite (Hd k' o Ho Hdep). repeat case_decide; try done; exfalso; [set_solver|by eauto].
    + destruct Hrt as [Hs Hc]. split.
      * intros h x Hx. destruct (Hs h x Hx) as (k' & o & Ho & Hcl & Hn). exists k', o. split_and!; [done|done|].
        intros Hdep Hin. by apply Hn; [|eapply HD].
      * intros k' o h x Hin Ho. eapply Hc; [by eapply HD|done].
    + intros (k' & Hin & o & Ho). apply Hp. exists k'. split; [by eapply HD|by exists o].
Qed.

(** What any reconciliation leaves of the other objects. *)
Lemma reconcile_others k w t r w' t' :
  hso_ok (mem w) → table_ok t → Reconcile c k w t = (r, (w', t')) →
  hso_ok (mem w') ∧ table_map t' ≠ None
  ∧ ∀ k', k' ≠ k → httpscaledobjects (mem w') !! k' = httpscaledobjects (mem w) !! k'.
Proof.
  intros Hok Ht Hr.
  destruct (Reconcile_framed mem c k w t r w' t' Hok (table_ok_not_nil _ Ht) Hr)
    as [[Hm ->]|(o1 & Ho1 & Hk1 & Hn & Hne & Hver & _)].
  - rewrite Hm. split_and!; [done|by apply table_ok_not_nil|done].
  - split_and!; [|done|done]. by apply (version_hso_ok (mem w) (mem w') o1 k).
Qed.

(** A request for an object to serve. *)
Lemma progress_living c0 D k w t o0 :
  reconcilable c0 → progress c0 D w t → httpscaledobjects c0 !! k = Some o0 → living o0 →
  ∃ w' t', Reconcile c k w t = (Ok (0, None), (w', t')) ∧ progress c0 (k :: D) w' t'.
Proof.
  intros Hrc [Hh Hok Ht Hl Hd Ha Hrt Hp] Ho0 Hlv.
  destruct (Hl k o0 Ho0 Hlv) as (o & Ho & Hal). pose proof (alike_living _ _ Hal Hlv) as (Hdo & Hho & Hro & Hobj).
  destruct (reconcile_succeeds c k w t o Hh Ho (Hok _ _ Ho) Hok Hdo Hho Hro (table_ok_not_nil _ Ht)) as (w' & t' & Hr & Hh').
  exists w', t'. split; [done|].
  destruct (reconcile_creation mem c k w _ w' t t' o 0 (get_served k w o Hh Ho) Hdo Hok (healthy_cm w Hh) Ht Hobj Hr)
    as (hosts & ref & so & Hhosts & Href & Hadd & Hpub & _ & _ & _ & o' & Ho' & _ & Hdo' & Hso').
  destruct (reconcile_others k w t _ w' t' Hok Ht Hr) as (Hok' & Hn' & Hne).
  rewrite (alike_hosts _ _ Hal) in Hhosts. rewrite (alike_target _ _ _ Hal) in Hadd.
  pose proof Hal as (Hans & Han & Had & Hsp). rewrite Hsp in Href.
  split; [done|done| | | | | |by intros _].
  - destruct Hlv as (_ & _ & _ & Hu & Htg). eapply added_ok; [exact Hadd|done|done|by apply Hu|by apply Htg].
  - intros k' o1 Ho1 Hl1. destruct (decide (k' = k)) as [->|Hk']; [|rewrite Hne by done; by apply Hl].
    assert (o1 = o0) as -> by congruence. exists o'. split; [done|].
    pose proof (Hok' _ _ Ho') as Hk1. pose proof (Hok _ _ Ho) as Hk2. rewrite <-Hk2 in Hk1.
    injection Hk1 as Hns Hn. unfold alike. split_and!; congruence.
  - intros k' o1 Ho1 Hd1. assert (k' ≠ k) by (intros ->; apply (living_departing o0); [done|congruence]).
    rewrite Hne by done. rewrite (Hd _ _ Ho1 Hd1). repeat case_decide; set_solver.
  - intros k' Hk'. rewrite Hne by congruence. by apply Ha.
  - by eapply routed_living.
Qed.

(** A request for an object that is on its way out. *)
Lemma progress_departing c0 D k w t o :
  reconcilable c0 → progress c0 D w t → httpscaledobjects c0 !! k = Some o → departing o → k ∉ D →
  ∃ w' t', Reconcile c k w t = (Ok (0, None), (w', t')) ∧ progress c0 (k :: D) w' t'.
Proof.
  intros Hrc [Hh Hok Ht Hl Hd Ha Hrt Hp] Ho0 Hdp HkD. pose proof (Hd k o Ho0 Hdp) as Ho.
  rewrite decide_False in Ho by done. pose proof Hdp as ([ts Hts] & Hfin & Href & _).
  destruct (reconcile_deletion_succeeds c k w t o ts Hh Ho (Hok _ _ Ho) Hts) as (w' & t' & Hr & Hh');
    [by rewrite Hfin|rewrite Hfin; apply NoDup_singleton|done|by apply table_ok_not_nil|].
  exists w', t'. split; [done|].
  destruct (reconcile_deletion mem c k w _ w' t t' o 0 ts (get_served k w o Hh Ho) Hts) as (Hrem & Hpub & _ & _ & Hgone);
    [by rewrite Hfin|done|by apply healthy_cm|done|exact Hr|].
  destruct (reconcile_others k w t _ w' t' Hok Ht Hr) as (Hok' & Hn' & Hne).
  split; [done|done|by eapply removed_ok| | | | |by intros _].
  - intros k' o1 Ho1 Hl1. assert (k' ≠ k) by (intros ->; apply (living_departing o); [congruence|done]).
    rewrite Hne by done. by apply Hl.
  - intros k' o1 Ho1 Hd1. destruct (decide (k' = k)) as [->|Hk'].
    + rewrite decide_True by left. by apply Hgone.
    + rewrite Hne by done. rewrite (Hd _ _ Ho1 Hd1). repeat case_decide; set_solver.
  - intros k' Hk'. rewrite Hne by congruence. by apply Ha.
  - by eapply routed_departing.
Qed.

Lemma progress_step c0 D k w t :
  reconcilable c0 → progress c0 D w t →
  ∃ w' t', Reconcile c k w t = (Ok (0, None), (w', t')) ∧ progress c0 (k :: D) w' t'.
Proof.
  intros Hrc Hpg. destruct (httpscaledobjects c0 !! k) as [o|] eqn:Ho.
  - destruct (rc_kinds _ Hrc k o Ho) as [Hlv|Hdp]; [by eapply progress_living|].
    destruct (decide (k ∈ D)) as [Hin|Hin]; [|by eapply progress_departing].
    destruct (progress_absent c0 D k w t Hpg) as (w' & Hr & Hpg'); [| |by exists w', t].
    + by rewrite (pg_departing _ _ _ _ Hpg k o Ho Hdp), decide_True.
    + intros o1 Ho1. assert (o1 = o) as -> by congruence. done.
  - destruct (progress_absent c0 D k w t Hpg) as (w' & Hr & Hpg'); [by apply (pg_absent _ _ _ _ Hpg)|congruence|by exists w', t].
Qed.

Lemma progress_run c0 D reqs w t :
  reconcilable c0 → progress c0 D w t →
  ∃ rs w' t', reconcile_all c reqs w t = (rs, (w', t')) ∧ Forall (λ r, r = Ok (0, None)) rs
  ∧ progress c0 (reverse reqs ++ D) w' t'.
Proof.
  intros Hrc. revert D w t. induction reqs as [|k reqs IH]; intros D w t Hpg.
  - exists [], w, t. split_and!; [done|constructor|done].
  - destruct (progress_step c0 D k w t Hrc Hpg) as (w1 & t1 & Hr & Hpg1).
    destruct (IH _ _ _ Hpg1) as (rs & w2 & t2 & Hrs & Hf & Hpg2). exists (Ok (0, None) :: rs), w2, t2.
    simpl. rewrite Hr, Hrs. split_and!; [done|by constructor|]. by rewrite reverse_cons, <-(assoc_L (++)).
Qed.

(** Before the first request: a table that has only routes of the objects. *)
Lemma progress_init w t :
  healthy ns w → reconcilable (mem w) → table_ok t →
  (∀ h x, entries t !! h = Some x → ∃ k o, httpscaledobjects (mem w) !! k = Some o ∧ claims o h x) →
  progress (mem w) [] w t.
Proof.
  intros Hh Hrc Ht Hs. split; [done|apply Hrc|done| | | | |]; [by intros k o Ho _; exists o| |done| |by intros (k & ?%elem_of_nil & _)].
  - intros k o Ho _. by rewrite decide_False by apply not_elem_of_nil.
  - split; [|by intros k o h x ?%elem_of_nil]. intros h x Hx. destruct (Hs h x Hx) as (k & o & ? & ?).
    exists k, o. split_and!; [done|done|]. intros _. apply not_elem_of_nil.
Qed.

(** What the operator works towards: the table is the union of the routes of the
    objects to serve and is published, and only those objects are left. *)
Definition converged (c0 : cluster) w t : Prop :=
  published (mem w) ns = Ok t
  ∧ (∀ h x, entries t !! h = Some x ↔ ∃ k o, httpscaledobjects c0 !! k = Some o ∧ living o ∧ claims o h x)
  ∧ ∀ k, is_Some (httpscaledobjects (mem w) !! k) ↔ ∃ o, httpscaledobjects c0 !! k = Some o ∧ living o.

Lemma progress_converged c0 D w t :
  reconcilable c0 → progress c0 D w t → (∀ k, is_Some (httpscaledobjects c0 !! k) → k ∈ D) → httpscaledobjects c0 ≠ ∅ →
  converged c0 w t.
Proof.
  intros Hrc [_ _ _ Hl Hd Ha [Hsn Hcm] Hp] Hin Hne. split_and!.
  - apply Hp. destruct (map_choose _ Hne) as (k & o & Ho). exists k. split; [apply Hin|]; by exists o.
  - intros h x. split.
    + intros (k & o & Ho & Hc & Hdn)%Hsn. exists k, o. split_and!; [done| |done].
      destruct (rc_kinds _ Hrc k o Ho) as [?|Hdp]; [done|]. destruct (Hdn Hdp). apply Hin. by exists o.
    + intros (k & o & Ho & Hlv & Hc). eapply Hcm; [apply Hin; by exists o|done..].
  - intros k. split.
    + intros [o' Ho']. destruct (httpscaledobjects c0 !! k) as [o|] eqn:Ho; [|by rewrite (Ha k Ho) in Ho'].
      exists o. split; [done|]. destruct (rc_kinds _ Hrc k o Ho) as [?|Hdp]; [done|].
      rewrite (Hd k o Ho Hdp), decide_True in Ho'; [done|]. apply Hin. by exists o.
    + intros (o & Ho & Hlv). destruct (Hl k o Ho Hlv) as (o' & Ho' & _). by exists o'.
Qed.
End converge.

(** ** Properties *)

(** The operator converges: on a server that serves every call, with
    objects that can be served or are on their way out and that share no host,
    and with a routing table that has only routes of theirs (the empty one of a
    fresh start, say), reconciling a list of requests that has every object, in
    any order and any number of times, succeeds each time; at the end the routing
    table is exactly the union of the routes of the objects to serve, it is
    published, and the objects on their way out are gone. *)
Theorem reconciliations_converge (c : reconciler) (reqs : list objKey) (w : MemCluster) (t : Table) :
  let ns := OperatorConfig.base_CurrentNamespace (BaseConfig c) in
  healthy ns w → reconcilable c (mem w) → table_ok t →
  (∀ h x, entries t !! h = Some x → ∃ k o, httpscaledobjects (mem w) !! k = Some o ∧ claims c o h x) →
  (∀ k, is_Some (httpscaledobjects (mem w) !! k) → k ∈ reqs) → httpscaledobjects (mem w) ≠ ∅ →
  ∃ rs w' t', reconcile_all c reqs w t = (rs, (w', t')) ∧ Forall (λ r, r = Ok (0, None)) rs ∧ converged c (mem w) w' t'.
Proof.
  intros ns Hh Hrc Ht Hs Hreq Hne.
  destruct (progress_run c (mem w) [] reqs w t Hrc (progress_init c w t Hh Hrc Ht Hs)) as (rs & w' & t' & Hr & Hf & Hpg).
  exists rs, w', t'. split_and!; [done|done|]. apply (progress_converged c _ _ _ _ Hrc Hpg); [|done].
  intros k Hk. rewrite app_nil_r, elem_of_reverse. by apply Hreq.
Qed.

(** Two objects, one written with [host], and a third that is on its way out
    and still has its route. *)
Definition demo_three : MemCluster :=
  mkMem (mkCluster {[routing_key "keda" := mkConfigMap "keda" ConfigMapRoutingTableName (Some ∅)]}
           (list_to_map ((λ o, (hso_key o, o)) <$>
              [demo_hso "shop" (Some ["app.dp-1"]) None None []; demo_hso "blog" None (Some "blog.dp-1") None [];
               demo_hso "old" (Some ["old.dp-1"]) None (Some "2023-01-02T00:00:00Z") [httpScaledObjectFinalizer]]))
           ∅ ∅) [] 1 [].

Definition demo_route : Target := NewTarget "dp-1" "app" 8080 "web" 100.

Lemma demo_three_lookup k o :
  httpscaledobjects (mem demo_three) !! k = Some o →
  (k = ObjKey "dp-1" "shop" ∧ o = demo_hso "shop" (Some ["app.dp-1"]) None None [])
  ∨ (k = ObjKey "dp-1" "blog" ∧ o = demo_hso "blog" None (Some "blog.dp-1") None [])
  ∨ (k = ObjKey "dp-1" "old"
     ∧ o = demo_hso "old" (Some ["old.dp-1"]) None (Some "2023-01-02T00:00:00Z") [httpScaledObjectFinalizer]).
Proof.
  simpl. intros [[<- <-]|[_ [[<- <-]|[_ [<- <-]%lookup_singleton_Some]]%lookup_insert_Some]]%lookup_insert_Some; auto.
Qed.

Lemma demo_three_claims k o h x :
  httpscaledobjects (mem demo_three) !! k = Some o → claims demo_config o h x →
  x = demo_route ∧ h = if decide (k = ObjKey "dp-1" "shop") then "app.dp-1"
                       else if decide (k = ObjKey "dp-1" "blog") then "blog.dp-1" else "old.dp-1".
Proof.
  intros [[-> ->]|[[-> ->]|[-> ->]]]%demo_three_lookup (hosts & ref & [= <-] & Hin%list_elem_of_singleton & [= <-] & ->); done.
Qed.

Lemma demo_three_living k o :
  httpscaledobjects (mem demo_three) !! k = Some o → k ≠ ObjKey "dp-1" "old" → living demo_config o.
Proof.
  intros [[-> ->]|[[-> ->]|[-> ->]]]%demo_three_lookup Hk; [| |done];
    (split_and!; [done|by eexists|by eexists|]); apply demo_object_ok; intros hs [= <-];
    (apply Forall_cons_2; [solve_utf8|by apply Forall_nil]).
Qed.

Lemma demo_three_reconcilable : reconcilable demo_config (mem demo_three).
Proof.
  split.
  - by intros k o [[-> ->]|[[-> ->]|[-> ->]]]%demo_three_lookup.
  - intros k o Ho. destruct (decide (k = ObjKey "dp-1" "old")) as [->|Hk]; [right|left; by eapply demo_three_living].
    apply demo_three_lookup in Ho as [[[=] _]|[[[=] _]|[_ ->]]]. split_and!; by eauto.
  - intros k k' o o' h x x' Ho Ho' Hc Hc'. pose proof (demo_three_claims _ _ _ _ Ho Hc) as [_ H1].
    pose proof (demo_three_claims _ _ _ _ Ho' Hc') as [_ H2]. rewrite H1 in H2.
    destruct (demo_three_lookup _ _ Ho) as [[-> _]|[[-> _]|[-> _]]], (demo_three_lookup _ _ Ho') as [[-> _]|[[-> _]|[-> _]]];
      done.
Qed.

Lemma reconciliations_converge_witness :
  ∃ rs w' t', reconcile_all demo_config
      [ObjKey "dp-1" "old"; ObjKey "dp-1" "shop"; ObjKey "dp-1" "old"; ObjKey "dp-1" "gone"; ObjKey "dp-1" "blog"; ObjKey "dp-1" "shop"]
      demo_three (mkTable (Some {["old.dp-1" := demo_route]})) = (rs, (w', t'))
  ∧ Forall (λ r, r = Ok (0, None)) rs ∧ published (mem w') "keda" = Ok t'
  ∧ entries t' !! "app.dp-1" = Some demo_route ∧ entries t' !! "blog.dp-1" = Some demo_route
  ∧ entries t' !! "old.dp-1" = None.
Proof.
  destruct (reconciliations_converge demo_config
    [ObjKey "dp-1" "old"; ObjKey "dp-1" "shop"; ObjKey "dp-1" "old"; ObjKey "dp-1" "gone"; ObjKey "dp-1" "blog"; ObjKey "dp-1" "shop"]
    demo_three (mkTable (Some {["old.dp-1" := demo_route]}))) as (rs & w' & t' & Hr & Hf & Hp & He & _).
  - split; [done|]. eexists _, _. split_and!; [apply lookup_singleton_eq|done|done].
  - apply demo_three_reconcilable.
  - eexists. split; [done|]. apply map_Forall_singleton. split; [solve_utf8|].
    split_and!; simpl; try solve_utf8; vm_compute; intuition congruence.
  - intros h x Hx. change (({["old.dp-1" := demo_route]} : gmap string Target) !! h = Some x) in Hx.
    apply lookup_singleton_Some in Hx as [<- <-]. eexists (ObjKey "dp-1" "old"), _. split; [by vm_compute|].
    eexists _, _. split_and!; [done|left|done|done].
  - intros k [o [[-> _]|[[-> _]|[-> _]]]%demo_three_lookup]; set_solver.
  - intros Hne. by apply (f_equal (lookup (ObjKey "dp-1" "shop"))) in Hne.
  - exists rs, w', t'. split_and!; [exact Hr|exact Hf|exact Hp| | |].
    + apply He. eexists (ObjKey "dp-1" "shop"), _. split_and!; [by vm_compute|by eapply (demo_three_living (ObjKey "dp-1" "shop"))|].
      eexists _, _. split_and!; [done|left|done|done].
    + apply He. eexists (ObjKey "dp-1" "blog"), _. split_and!; [by vm_compute|by eapply (demo_three_living (ObjKey "dp-1" "blog"))|].
      eexists _, _. split_and!; [done|left|done|done].
    + apply eq_None_not_Some. intros [x (k & o & Ho & [Hd _] & Hc)%He].
      pose proof (demo_three_claims _ _ _ _ Ho Hc) as [_ Hk].
      apply demo_three_lookup in Ho as [[-> ->]|[[-> ->]|[-> ->]]]; done.
Defined.
