(* ===== verification/OperatorRollback.v ===== *)
(** * The roll-back of a creation (operator/controllers/http)

    When the resources of an object cannot be created, [Reconcile] removes them
    again. Here the API server refuses the object's ScaledObject, which is what
    the creation asks for first, and then serves the roll-back. *)

From S2P Require Import Prelude GoStrings GoUrl Json Queue Routing ConfigMaps Net Config K8s Hso Kube Operator OperatorProofs OperatorLive OperatorFrame OperatorConverge.

Section rollback.
Implicit Types (s : rstate MemCluster) (w : MemCluster) (o : HTTPScaledObject).

Lemma served_next {A} (f : cluster → Z → res A * cluster) w l :
  script w = Served :: l → served f w = (fst (f (mem w) (version w)), after_call (snd (f (mem w) (version w))) l w).
Proof. intros Hs. unfold served. rewrite Hs. by destruct (f _ _). Qed.

Lemma served_refused {A} (f : cluster → Z → res A * cluster) w e l :
  script w = Refused e :: l → served f w = (Err e, mkMem (mem w) l (version w) (stored w)).
Proof. intros Hs. unfold served. rewrite Hs. by destruct (f _ _). Qed.

(** The calls of [ensureFinalizer]. *)
Definition finalizer_calls o : list fate :=
  if contains (hso_Finalizers o) httpScaledObjectFinalizer then [] else [Served].

Lemma contains_not_nil l f : contains l f = true → l ≠ [].
Proof. by destruct l. Qed.

Lemma ensureFinalizer_served s l :
  script (rs_world s) = finalizer_calls (rs_httpso s) ++ l → hso_ok (mem (rs_world s)) →
  httpscaledobjects (mem (rs_world s)) !! hso_key (rs_httpso s) = Some (rs_httpso s) →
  hso_DeletionTimestamp (rs_httpso s) = None →
  ∃ s', ensureFinalizer s = (Ok tt, s') ∧ script (rs_world s') = l ∧ synced s'
  ∧ leaving (rs_httpso s') (mem (rs_world s')) (rs_httpso s') ∧ hso_DeletionTimestamp (rs_httpso s') = None.
Proof.
  unfold finalizer_calls, ensureFinalizer. intros Hs Hok Hst Hd. rewrite ST_bind_run. cbn [get_httpso].
  destruct (contains _ _) eqn:Ec.
  - exists s. split_and!; [done|done| |split_and!; [done|done|by exists (rs_httpso s)]|done].
    exists (rs_httpso s). split_and!; [done..|]. by eapply contains_not_nil.
  - rewrite ST_bind_run. cbn [set_httpso]. unfold update_httpso. cbn [rs_world rs_httpso Update_HTTPScaledObject MemCluster_client].
    unfold mem_update. rewrite (served_next _ _ l) by done.
    change (hso_key (set_Finalizers ?x ?o)) with (hso_key o). rewrite Hst.
    rewrite decide_True by done. cbn [fst snd]. eexists. split; [done|]. cbn [rs_world rs_httpso after_call script mem].
    set (o2 := set_Finalizers _ _). set (o3 := stored_update false o2 (rs_httpso s) (version (rs_world s))).
    assert (same_core (decode_into o3 o2) o3) as Hc.
    { symmetry. etransitivity; [|apply decode_same_core]; done. }
    assert (put_hso o3 (httpscaledobjects (mem (rs_world s))) = <[hso_key o3 := o3]> (httpscaledobjects (mem (rs_world s)))) as Hp
      by (unfold put_hso; cbn [hso_DeletionTimestamp o3 stored_update]; by rewrite Hd).
    split_and!; [done| | |].
    + exists o3. cbn [rs_world rs_httpso after_call mem httpscaledobjects set_httpscaledobjects]. rewrite Hp. split_and!; [|done|done| |].
      * change (hso_key (decode_into o3 o2)) with (hso_key o3). apply lookup_insert_eq.
      * destruct Hc as (_ & _ & _ & ? & _). done.
      * simpl. by destruct (hso_Finalizers (rs_httpso s)).
    + split_and!; [|done|exists o3; split; [|done]].
      * intros k x. cbn [httpscaledobjects set_httpscaledobjects]. rewrite Hp.
        intros [[<- <-]|[_ Hx]]%lookup_insert_Some; [done|by apply Hok].
      * cbn [httpscaledobjects set_httpscaledobjects]. rewrite Hp. change (hso_key (decode_into o3 o2)) with (hso_key o3). apply lookup_insert_eq.
    + destruct Hc as (_ & _ & Hcd & _). rewrite <-Hcd. simpl. by rewrite Hd.
Qed.

(** The ScaledObject is refused: nothing is added to the table, and the statuses
    are saved. *)
Lemma creation_refused base es s ref e :
  let ns := OperatorConfig.base_CurrentNamespace base in
  script (rs_world s) = [Refused e] → healthy ns (mkMem (mem (rs_world s)) [] (version (rs_world s)) (stored (rs_world s))) →
  IsAlreadyExists e = false → spec_ScaleTargetRef (hso_Spec (rs_httpso s)) = Some ref → synced s →
  kept (rs_httpso s) → leaving (rs_httpso s) (mem (rs_world s)) (rs_httpso s) →
  ∃ s', createOrUpdateApplicationResources base es s = (Err e, s') ∧ healthy ns (rs_world s') ∧ synced s'
  ∧ rs_table s' = rs_table s ∧ leaving (rs_httpso s) (mem (rs_world s')) (rs_httpso s').
Proof.
  intros ns Hs Hh He Href Hy Hk Hl. unfold createOrUpdateApplicationResources, deferred. fold ns.
  rewrite ST_bind_run. cbn [add_condition]. rewrite ST_bind_run. unfold createOrUpdateScaledObject.
  rewrite ST_bind_run. cbn [get_httpso]. rewrite ST_bind_run. unfold scale_target. cbn [rs_httpso].
  change (hso_Spec (AddCondition ?o ?x)) with (hso_Spec o). rewrite Href. cbn [mret ST_ret].
  rewrite ST_bind_run. unfold try, api. cbn [rs_world Create_ScaledObject MemCluster_client]. rewrite (served_refused _ _ e []) by done.
  rewrite ST_bind_run, He, ST_bind_run. cbn [add_condition throw]. unfold throw.
  match goal with |- context [SaveStatus ?s] => set (s1 := s) end.
  assert (synced s1) as Hy1 by (by apply (synced_same s)).
  destruct (SaveStatus_synced ns s1 Hh Hy1) as (s2 & Es & Hh2 & Hy2 & _). rewrite Es. exists s2. split_and!; [done|done|done| |].
  - by apply (SaveStatus_run mem) in Es as (_ & ? & _).
  - eapply (SaveStatus_leaving mem); [exact Es|done|]. destruct Hl as (? & ? & ?). by split_and!.
Qed.

Lemma sanitize_hosts s hosts :
  spec_Hosts (hso_Spec (rs_httpso s)) = Some hosts → spec_Host (hso_Spec (rs_httpso s)) = None → sanitize s = (Ok tt, s).
Proof. intros H1 H2. unfold sanitize, sanitizeHosts. rewrite H1, H2. by destruct s. Qed.

(** A creation that is refused, and its roll-back. *)
Lemma reconcile_refused c s e hosts ref :
  let ns := OperatorConfig.base_CurrentNamespace (BaseConfig c) in
  script (rs_world s) = finalizer_calls (rs_httpso s) ++ [Refused e] → IsAlreadyExists e = false →
  (∃ cm d, configmaps (mem (rs_world s)) !! routing_key ns = Some cm ∧ cm_key cm = routing_key ns ∧ cm_Data cm = Some d) →
  hso_ok (mem (rs_world s)) → httpscaledobjects (mem (rs_world s)) !! hso_key (rs_httpso s) = Some (rs_httpso s) →
  hso_DeletionTimestamp (rs_httpso s) = None → spec_Hosts (hso_Spec (rs_httpso s)) = Some hosts →
  spec_Host (hso_Spec (rs_httpso s)) = None → spec_ScaleTargetRef (hso_Spec (rs_httpso s)) = Some ref → table_ok (rs_table s) →
  ∃ s', reconcile_object c s = (Ok (0, Some e), s') ∧ removed hosts (entries (rs_table s)) (entries (rs_table s'))
  ∧ published (mem (rs_world s')) ns = Ok (rs_table s').
Proof.
  intros ns Hs He Hcm Hok Hst Hd Hhs Hh Href Ht. unfold reconcile_object. rewrite ST_bind_run. cbn [get_httpso]. rewrite Hd.
  destruct (ensureFinalizer_served s _ Hs Hok Hst Hd) as (s1 & E1 & Hs1 & Hy1 & Hl1 & Hd1).
  pose proof E1 as E1'. apply (ensureFinalizer_run mem) in E1' as (Hsp1 & _ & _ & Ht1 & Hc1 & _); [|done..].
  rewrite ST_bind_run. unfold try at 1. rewrite E1, ST_bind_run. unfold try at 1.
  rewrite (sanitize_hosts s1 hosts) by (by rewrite Hsp1). rewrite ST_bind_run. unfold try at 1.
  destruct (creation_refused (BaseConfig c) (ExternalScalerConfig c) s1 ref e Hs1) as (s2 & -> & Hh2 & Hy2 & Ht2 & Hl2);
    [by split; [done|]; simpl; rewrite Hc1|done|by rewrite Hsp1|done|by left|done|].
  rewrite ST_bind_run. unfold try.
  assert (same_core (rs_httpso s1) (rs_httpso s2)) as (_ & _ & _ & _ & Hsp2) by (by destruct Hl2 as (_ & ? & _)).
  pose proof (table_ok_not_nil _ Ht) as Hn.
  destruct (removeApplicationResources_healthy (BaseConfig c) s2 ref Hh2 Hy2) as (s3 & E3 & _);
    [by rewrite Ht2, Ht1|by rewrite Hsp2, Hsp1|].
  rewrite E3. exists s3. split; [done|].
  apply (removeApplicationResources_run mem _ (rs_httpso s1)) in E3 as (_ & Hrem & Hn3 & Hpub & _);
    [|by apply healthy_cm|by rewrite Ht2, Ht1|by left|done].
  rewrite Hsp1, Hhs, Ht2, Ht1 in Hrem. split; [done|]. apply Hpub. by eapply removed_ok.
Qed.
End rollback.

(** ** Properties *)

(** C38: error. The roll-back of a failed creation takes routes that are not its
    own. For any object that is not being deleted, is written with [spec.hosts] and
    has a scale target, a routing ConfigMap with data and a table JSON can carry,
    when the API server refuses its ScaledObject (with anything but
    AlreadyExists) and serves the other calls: the creation stops before it adds a
    route, and the roll-back removes every host of the object from the table,
    whoever registered it, changes no other entry and publishes that table; the
    reconciliation reports the refusal; and any other object that claims such a
    host (without a colon) is still in the cluster, with its host no longer found. *)
Theorem rollback_drops_foreign_route (c : reconciler) (req : objKey) (w : MemCluster) (t : Table)
    (o : HTTPScaledObject) (hosts : list string) (e : error) :
  let ns := OperatorConfig.base_CurrentNamespace (BaseConfig c) in
  (∃ cm d, configmaps (mem w) !! routing_key ns = Some cm ∧ cm_key cm = routing_key ns ∧ cm_Data cm = Some d) →
  hso_ok (mem w) → table_ok t → httpscaledobjects (mem w) !! req = Some o → hso_DeletionTimestamp o = None →
  spec_Hosts (hso_Spec o) = Some hosts → spec_Host (hso_Spec o) = None → is_Some (spec_ScaleTargetRef (hso_Spec o)) →
  script w = Served :: finalizer_calls o ++ [Refused e] → IsAlreadyExists e = false →
  ∃ w' t', Reconcile c req w t = (Ok (0, Some e), (w', t'))
  ∧ removed hosts (entries t) (entries t') ∧ published (mem w') ns = Ok t'
  ∧ ∀ k o' h x, k ≠ req → httpscaledobjects (mem w) !! k = Some o' → claims c o' h x → h ∈ hosts → no_char ":" h →
    httpscaledobjects (mem w') !! k = Some o' ∧ Lookup h t' = Err ErrTargetNotFound.
Proof.
  intros ns Hcm Hok Ht Ho Hd Hhs Hh [ref Href] Hs He. pose proof (Hok _ _ Ho) as Hk.
  destruct (reconcile_refused c (mkRstate (after_call (mem w) (finalizer_calls o ++ [Refused e]) w) t o) e hosts ref)
    as (s' & Er & Hrem & Hpub); [done|done|done|done|by simpl; rewrite Hk|done..|].
  assert (Reconcile c req w t = (Ok (0, Some e), (rs_world s', rs_table s'))) as Hr.
  { unfold Reconcile. cbn [Get_HTTPScaledObject MemCluster_client]. rewrite (served_next _ _ _ Hs), Ho. cbn [found fst snd]. by rewrite Er. }
  exists (rs_world s'), (rs_table s'). split_and!; [done|done|done|]. intros k o' h x Hne Ho' _ Hin Hc.
  destruct (reconcile_others c req w t _ _ _ Hok Ht Hr) as (_ & _ & Hoth). split; [by rewrite Hoth|].
  rewrite Lookup_plain, (Hrem h) by done. by rewrite decide_True.
Qed.

(** The route of [app.dp-1] is that of [shop]; the creation of [blog], which
    lists it too, is refused. *)
Lemma rollback_drops_foreign_route_witness :
  ∃ w' t', Reconcile demo_config (ObjKey "dp-1" "blog") demo_denied demo_routes = (Ok (0, Some (ApiOther "denied")), (w', t'))
  ∧ Lookup "app.dp-1" demo_routes = Ok (httpso_target (BaseConfig demo_config) demo_shop (mkScaleTargetRef "web" "app" 8080))
  ∧ httpscaledobjects (mem w') !! hso_key demo_shop = Some demo_shop ∧ Lookup "app.dp-1" t' = Err ErrTargetNotFound.
Proof.
  destruct (rollback_drops_foreign_route demo_config (ObjKey "dp-1" "blog") demo_denied demo_routes demo_blog ["app.dp-1"]
    (ApiOther "denied")) as (w' & t' & Hr & _ & _ & Hf).
  - eexists _, _. split_and!; [apply lookup_singleton_eq|done|done].
  - intros k o. simpl. intros [[<- <-]|[_ [<- <-]%lookup_singleton_Some]]%lookup_insert_Some; done.
  - eexists. split; [done|]. apply map_Forall_singleton.
    split; [solve_utf8|]. split_and!; simpl; try solve_utf8; vm_compute; intuition congruence.
  - by vm_compute.
  - done.
  - done.
  - done.
  - by eexists.
  - done.
  - done.
  - destruct (Hf (ObjKey "dp-1" "shop") demo_shop "app.dp-1"
      (httpso_target (BaseConfig demo_config) demo_shop (mkScaleTargetRef "web" "app" 8080))) as [Ha Hb].
    + intros [=].
    + by vm_compute.
    + exists ["app.dp-1"], (mkScaleTargetRef "web" "app" 8080). split_and!; [reflexivity|apply list_elem_of_here|reflexivity..].
    + apply list_elem_of_here.
    + by vm_compute.
    + exists w', t'. split_and!; [exact Hr|by vm_compute|exact Ha|exact Hb].
Defined.
