(* ===== verification/OperatorController.v ===== *)
(** * When the operator reconciles (SetupWithManager of operator/controllers/http)

    The controller reconciles an object when an event about it passes the
    predicate [SetupWithManager] registers: updates count only when they change
    the object's generation. The operator's own writes never do, so a
    reconciliation causes no further one, and the queue of requests empties. *)

From S2P Require Import Prelude GoStrings GoUrl Json Queue Routing ConfigMaps Net Config K8s Hso Kube Operator OperatorProofs OperatorLive OperatorFrame OperatorConverge.

(** ** Events and requests *)

Inductive hso_event : Type :=
| CreateEvent (k : objKey)
| UpdateEvent (k : objKey) (oldGeneration newGeneration : Z)
| DeleteEvent (k : objKey).

(** [predicate.GenerationChangedPredicate]: it looks at updates only. *)
Definition GenerationChanged (e : hso_event) : bool :=
  match e with
  | UpdateEvent _ old new => bool_decide (old ≠ new)
  | CreateEvent _ | DeleteEvent _ => true
  end.

Definition event_object (e : hso_event) : objKey :=
  match e with CreateEvent k | UpdateEvent k _ _ | DeleteEvent k => k end.

(** [For(&HTTPScaledObject{}, WithPredicates(...))]: the requests of an event. *)
Definition SetupWithManager (e : hso_event) : list objKey :=
  if GenerationChanged e then [event_object e] else [].

(** ** Generations

    The server numbers the states it is asked for: a call that leaves an
    object's spec and deletion mark alone leaves its generation alone. *)

Definition same_desired (o o' : HTTPScaledObject) : Prop :=
  hso_Spec o' = hso_Spec o ∧ hso_DeletionTimestamp o' = hso_DeletionTimestamp o.

Section server.
Context `{Client W} (view : W → cluster) (generation : W → objKey → Z).

Definition numbers {A} (m : ST W A) : Prop :=
  ∀ w r w' k o o', m w = (r, w') →
  httpscaledobjects (view w) !! k = Some o → httpscaledobjects (view w') !! k = Some o' → same_desired o o' →
  generation w' k = generation w k.

Class GenerationLaws : Prop := {
  numbers_Get_ConfigMap k : numbers (Get_ConfigMap k);
  numbers_Patch_ConfigMap o n : numbers (Patch_ConfigMap o n);
  numbers_Get_HTTPScaledObject k : numbers (Get_HTTPScaledObject k);
  numbers_Update_HTTPScaledObject o : numbers (Update_HTTPScaledObject o);
  numbers_Status_Update o : numbers (Status_Update o);
  numbers_Create_ScaledObject so : numbers (Create_ScaledObject so);
  numbers_Get_ScaledObject k : numbers (Get_ScaledObject k);
  numbers_Patch_ScaledObject so : numbers (Patch_ScaledObject so);
  numbers_Delete_ScaledObject k : numbers (Delete_ScaledObject k);
}.

(** The event between two states of the cluster, for one object. *)
Definition event_between (w w' : W) (k : objKey) : option hso_event :=
  match httpscaledobjects (view w) !! k, httpscaledobjects (view w') !! k with
  | None, Some _ => Some (CreateEvent k)
  | Some _, None => Some (DeleteEvent k)
  | Some _, Some _ => Some (UpdateEvent k (generation w k) (generation w' k))
  | None, None => None
  end.

(** The requests that come of it. *)
Definition triggered (w w' : W) : gset objKey :=
  filter (λ k, k ∈ default [] (SetupWithManager <$> event_between w w' k))
    (dom (httpscaledobjects (view w)) ∪ dom (httpscaledobjects (view w'))).
End server.

(** ** What a reconciliation does to specs and deletion marks *)

Section still.
Context `{Client W} (view : W → cluster) `{!ClientLaws W view} (generation : W → objKey → Z) `{!GenerationLaws view generation}.
(** The world before. *)
Context (w0 : W).
Implicit Types (s : rstate W) (w : W).

(** Every object is asked for what it was asked for before; only one that is
    marked as deleted can have gone. *)
Record settled w : Prop := {
  st_ok : hso_ok (view w);
  st_same : ∀ k o, httpscaledobjects (view w) !! k = Some o →
    ∃ o0, httpscaledobjects (view w0) !! k = Some o0 ∧ same_desired o0 o ∧ generation w k = generation w0 k;
  st_there : ∀ k o0, httpscaledobjects (view w0) !! k = Some o0 → hso_DeletionTimestamp o0 = None →
    is_Some (httpscaledobjects (view w) !! k);
}.

(** The object in memory has the spec of the stored one. *)
Definition in_sync s : Prop :=
  ∀ cur, httpscaledobjects (view (rs_world s)) !! hso_key (rs_httpso s) = Some cur →
  hso_Spec (rs_httpso s) = hso_Spec cur.

Definition inv (b : bool) s : Prop := settled (rs_world s) ∧ (b = true → in_sync s).

(** From [inv b] to [inv b'], whatever is returned. *)
Definition still {A} (b b' : bool) (m : ST (rstate W) A) : Prop :=
  ∀ s r s', inv b s → m s = (r, s') → inv b' s'.

Lemma still_weaken {A} b (m : ST (rstate W) A) : still b b m → still b false m.
Proof. intros Hm s r s' Hi Hr. destruct (Hm _ _ _ Hi Hr). by split. Qed.

Lemma still_pure {A} b (m : ST (rstate W) A) : (∀ s, snd (m s) = s) → still b b m.
Proof. intros Hm s r s' Hi Hr. specialize (Hm s). rewrite Hr in Hm. by simpl in Hm; subst. Qed.

Lemma still_bind {A B} b b1 b2 (m : ST (rstate W) A) (f : A → ST (rstate W) B) :
  still b b1 m → (∀ a, still b1 b2 (f a)) → (b2 = true → b1 = true) → still b b2 (m ≫= f).
Proof.
  intros Hm Hf Hb s r s' Hi Hr. rewrite ST_bind_run in Hr.
  destruct (m s) as [[a|e|p] s1] eqn:Em; pose proof (Hm _ _ _ Hi Em) as Hi1; simplify_eq/=; [by eapply Hf|..].
  all: destruct Hi1 as [H1 H2]; split; [done|]; intros ->; apply H2, Hb; done.
Qed.

Lemma still_bind' {A B} b (m : ST (rstate W) A) (f : A → ST (rstate W) B) :
  still b b m → (∀ a, still b b (f a)) → still b b (m ≫= f).
Proof. intros Hm Hf. by apply (still_bind b b b). Qed.

Lemma still_try {A} b b' (m : ST (rstate W) A) : still b b' m → still b b' (try m).
Proof. intros Hm s r s' Hi Hr. unfold try in Hr. destruct (m s) as [[a|e|p] s1] eqn:Em; simplify_eq/=; by eapply Hm. Qed.

Lemma still_wrap {A} b b' msg (m : ST (rstate W) A) : still b b' m → still b b' (wrap_err msg m).
Proof. intros Hm s r s' Hi Hr. unfold wrap_err in Hr. destruct (m s) as [x s1] eqn:Em. simplify_eq/=. by eapply Hm. Qed.

Lemma still_deferred {A} b (d : ST (rstate W) unit) (m : ST (rstate W) A) :
  still b b d → still b b m → still b b (deferred d m).
Proof.
  intros Hd Hm s r s' Hi Hr. unfold deferred in Hr. destruct (m s) as [x s1] eqn:Em.
  destruct (d s1) as [y s2] eqn:Ed. assert (s' = s2) as -> by (by destruct y; simplify_eq).
  eapply Hd, Ed. by eapply Hm.
Qed.

Lemma still_get {A} b b' (f : HTTPScaledObject → ST (rstate W) A) : (∀ o, still b b' (f o)) → still b b' (get_httpso ≫= f).
Proof. intros Hf s r s' Hi Hr. rewrite ST_bind_run in Hr. simpl in Hr. by eapply Hf. Qed.

(** A call that leaves the HTTPScaledObjects alone. *)
Lemma settled_same {A} (m : ST W A) w r w' :
  numbers view generation m → m w = (r, w') → httpscaledobjects (view w') = httpscaledobjects (view w) →
  settled w → settled w'.
Proof.
  intros Hn Hm Hh [H1 H2 H3]. split; [intros k o; rewrite Hh; apply H1| |intros k o0; rewrite Hh; apply H3].
  intros k o Ho. pose proof Ho as Ho'. rewrite Hh in Ho'. destruct (H2 k o Ho') as (o0 & ? & ? & Hg). exists o0.
  split_and!; [done|done|]. by rewrite (Hn w r w' k o o Hm Ho' Ho).
Qed.

Lemma still_api {A} b (m : ST W A) : quiet view m → numbers view generation m → still b b (api m).
Proof.
  intros Hq Hn s r s' [Hs Hy] Hr. apply api_run in Hr as (w & Hm & ->). specialize (Hq (rs_world s)). rewrite Hm in Hq.
  assert (httpscaledobjects (view w) = httpscaledobjects (view (rs_world s))) as Hh.
  { destruct r as [a|e|p]; [done| |done]. by destruct Hq as [->|[a Ha]]. }
  split; simpl; [by eapply settled_same|]. intros Hb cur. simpl. rewrite Hh. by apply Hy.
Qed.

(** A write of the object in memory, which the server may have done even when
    the call reports an error. *)
Lemma settled_update status o w c' o' w' r :
  settled w → update_effect status o (view w) o' c' → view w' = c' →
  (status = false → ∀ cur, httpscaledobjects (view w) !! hso_key o = Some cur → hso_Spec o = hso_Spec cur) →
  numbers view generation (if status then Status_Update o else Update_HTTPScaledObject o) →
  (if status then Status_Update o else Update_HTTPScaledObject o) w = (r, w') →
  settled w'
  ∧ (∀ cur, httpscaledobjects (view w') !! hso_key o = Some cur →
      ∃ old, httpscaledobjects (view w) !! hso_key o = Some old ∧ hso_Spec cur = hso_Spec old).
Proof.
  intros [H1 H2 H3] (cur & rv & Hcur & -> & _) Hv Hsp Hn Hm.
  set (new := stored_update status o cur rv) in *.
  assert (hso_key new = hso_key o) as Hk by (rewrite <-(H1 _ _ Hcur); by destruct status).
  assert (same_desired cur new) as Hd.
  { destruct status; [by split|]. split; [|done]. simpl. by apply Hsp. }
  assert (∀ k x, httpscaledobjects (view w') !! k = Some x →
            ∃ y, httpscaledobjects (view w) !! k = Some y ∧ same_desired y x ∧ hso_key x = k) as Hback.
  { intros k x. rewrite Hv. simpl. intros [[-> Hkx]|Hx]%put_hso_ok; [|by exists x; split_and!; [..|apply H1]].
    exists cur. rewrite <-Hkx, Hk. by split_and!. }
  split; [split|].
  - intros k x Hx. by destruct (Hback k x Hx) as (y & _ & _ & ?).
  - intros k x Hx. destruct (Hback k x Hx) as (y & Hy & [Hd1 Hd2] & _). destruct (H2 k y Hy) as (o0 & Ho0 & [Hd3 Hd4] & Hg).
    exists o0. split_and!; [done|split; congruence|]. by rewrite (Hn w r w' k y x Hm Hy Hx).
  - intros k o0 Ho0 Hdel. destruct (H3 k o0 Ho0 Hdel) as [y Hy]. rewrite Hv. simpl.
    destruct (decide (hso_key new = k)) as [<-|Hne]; [|rewrite put_hso_ne by done; by exists y].
    destruct (H2 _ _ Hy) as (o1 & Ho1 & [_ Hd4] & _). assert (o1 = o0) as -> by congruence.
    assert (y = cur) as -> by congruence.
    assert (hso_DeletionTimestamp new = None) as Hnd by (destruct Hd; congruence).
    unfold put_hso. rewrite Hnd, lookup_insert_eq. by eexists.
  - intros x Hx. destruct (Hback _ x Hx) as (y & Hy & [Hd1 _] & _). by exists y.
Qed.

Lemma still_update status (m : ST (rstate W) unit) b :
  (status = false → b = true) →
  (∀ s, snd (m s) = match (if status then Status_Update (rs_httpso s) else Update_HTTPScaledObject (rs_httpso s)) (rs_world s) with
                    | (Ok o, w) => mkRstate w (rs_table s) o
                    | (_, w) => mkRstate w (rs_table s) (rs_httpso s)
                    end) →
  still b b m.
Proof.
  intros Hb Hm s r s' [Hs Hy] Hr. specialize (Hm s). rewrite Hr in Hm. simpl in Hm.
  set (upd := (if status then Status_Update (rs_httpso s) else Update_HTTPScaledObject (rs_httpso s))) in *.
  assert (effect view upd (update_effect status (rs_httpso s))) as Hu
    by (destruct status; [apply Status_Update_law|apply Update_HTTPScaledObject_law]).
  assert (numbers view generation upd) as Hn by (destruct status; by eauto using numbers_Status_Update, numbers_Update_HTTPScaledObject).
  specialize (Hu (rs_world s)). destruct (upd (rs_world s)) as [x w] eqn:Eu.
  assert (∀ o', update_effect status (rs_httpso s) (view (rs_world s)) o' (view w) →
    settled w ∧ (b = true → ∀ cur, httpscaledobjects (view w) !! hso_key (rs_httpso s) = Some cur → hso_Spec (rs_httpso s) = hso_Spec cur)) as Hdone.
  { intros o' Heff. destruct (settled_update status (rs_httpso s) (rs_world s) (view w) o' w x Hs Heff eq_refl) as [Hs' Hsp];
      [by intros Hst; apply Hy, Hb|done|exact Eu|]. split; [done|]. intros Hbt cur Hcur.
    destruct (Hsp cur Hcur) as (old & Hold & ->). by apply Hy. }
  destruct x as [o'|e|p]; [|destruct Hu as [Hw|[o' Hu]]|done]; subst s'; split; simpl.
  - by apply (Hdone o').
  - intros Hbt cur Hcur. pose proof (Hdone o' Hu) as [Hs' Hsp]. destruct Hu as (old & rv & Hold & Hw & ->).
    assert (hso_key (decode_into (stored_update status (rs_httpso s) old rv) (rs_httpso s)) = hso_key (rs_httpso s)) as Hk.
    { pose proof (st_ok _ Hs _ _ Hold) as <-. by destruct status. }
    simpl in Hcur. rewrite Hk in Hcur. rewrite <-(Hsp Hbt cur Hcur).
    assert (hso_Spec (stored_update status (rs_httpso s) old rv) = hso_Spec (rs_httpso s)) as Hsame
      by (destruct status; [exact (eq_sym (Hy Hbt old Hold))|done]).
    unfold decode_into. rewrite Hsame. destruct (hso_Spec (rs_httpso s)) as [[] [[]|] [] [] [] []]; done.
  - eapply settled_same; [exact Hn|exact Eu|by rewrite Hw|done].
  - intros Hbt cur. simpl. rewrite Hw. by apply Hy.
  - by apply (Hdone o').
  - intros Hbt. exact (proj2 (Hdone o' Hu) Hbt).
Qed.

Lemma still_add_condition b ty st reason msg : still b b (add_condition ty st reason msg).
Proof.
  intros s r s' [Hs Hy] Hr. apply add_condition_run in Hr as (_ & Hw & _ & Hc). split; [by rewrite Hw|].
  intros Hb cur. rewrite Hw, (same_core_key _ _ Hc). destruct Hc as (_ & _ & _ & _ & ->). by apply Hy.
Qed.

Lemma still_SaveStatus b : still b b SaveStatus.
Proof. apply (still_update true); [done|]. intros s. unfold SaveStatus. by destruct (Status_Update _ _) as [[]]. Qed.

Lemma still_update_httpso : still true true update_httpso.
Proof.
  apply (still_update false); [done|]. intros s. unfold update_httpso. by destruct (Update_HTTPScaledObject _ _) as [[]].
Qed.

Lemma still_on_table {A} b (f : Table → res A * Table) : still b b (on_table f).
Proof. intros s r s' [Hs Hy] Hr. unfold on_table in Hr. destruct (f (rs_table s)) as [x t]. simplify_eq/=. by split. Qed.

(** Takes a function apart at its binds, tries and branches. *)
Ltac still_steps :=
  destruct (quiet_calls view) as (Hget_cm & _ & Hcreate & Hget & Hpatch & Hdelete);
  repeat match goal with
    | |- still _ _ (mbind _ get_httpso) => apply still_get; intros ?
    | |- still ?b ?b (mbind _ _) => apply still_bind'; [|intros ?]
    | |- still _ _ (try _) => apply still_try
    | |- still _ _ (wrap_err _ _) => apply still_wrap
    | |- still _ _ (deferred _ _) => apply still_deferred
    | |- still _ _ (add_condition _ _ _ _) => apply still_add_condition
    | |- still _ _ SaveStatus => apply still_SaveStatus
    | |- still _ _ update_httpso => apply still_update_httpso
    | |- still _ _ (on_table _) => apply still_on_table
    | |- still _ _ (match _ with _ => _ end) => case_match
    | |- still _ _ _ => by apply still_pure
    | |- still _ _ (api _) => apply still_api; [solve [auto using quiet_PatchConfigMap]|]
    end.

Lemma numbers_PatchConfigMap o n : numbers view generation (PatchConfigMap o n).
Proof.
  intros w r w' k x y Hm. unfold PatchConfigMap in Hm. rewrite ST_bind_run in Hm.
  destruct (Patch_ConfigMap o n w) as [q w1] eqn:Ep.
  assert (w' = w1) as -> by (destruct q; by injection Hm). by apply (numbers_Patch_ConfigMap view generation o n w q w1 k x y).
Qed.

#[local] Hint Resolve numbers_Get_ConfigMap numbers_PatchConfigMap numbers_Create_ScaledObject numbers_Get_ScaledObject
  numbers_Patch_ScaledObject numbers_Delete_ScaledObject : core.

Lemma still_updateRoutingMap b ns : still b b (updateRoutingMap ns).
Proof. unfold updateRoutingMap, GetConfigMap. still_steps; auto. Qed.

Lemma still_createOrUpdateScaledObject b host : still b b (createOrUpdateScaledObject host).
Proof. unfold createOrUpdateScaledObject, scale_target. still_steps; auto. Qed.

Lemma still_remove_hosts b hosts : still b b (remove_hosts hosts).
Proof. induction hosts as [|h hosts IH]; simpl; still_steps; done. Qed.

Lemma still_add_hosts b hosts x : still b b (add_hosts hosts x).
Proof. induction hosts as [|h hosts IH]; simpl; still_steps; done. Qed.

Lemma still_removeApplicationResources b base : still b b (removeApplicationResources base).
Proof.
  unfold removeApplicationResources, removeAndUpdateRoutingTable. still_steps;
    auto using still_remove_hosts, still_updateRoutingMap.
Qed.

Lemma still_createOrUpdateApplicationResources b base es : still b b (createOrUpdateApplicationResources base es).
Proof.
  unfold createOrUpdateApplicationResources, addAndUpdateRoutingTable, scale_target. still_steps;
    auto using still_add_hosts, still_updateRoutingMap, still_createOrUpdateScaledObject.
Qed.

Lemma still_ensureFinalizer : still true true ensureFinalizer.
Proof.
  unfold ensureFinalizer. intros s r s' Hi Hr. rewrite ST_bind_run in Hr. simpl in Hr. case_match; [by injection Hr as _ <-|].
  revert Hr. rewrite ST_bind_run. simpl. intros Hr. eapply still_update_httpso, Hr. by destruct Hi as [Hs Hy]; split.
Qed.

Lemma still_finalize : still true true finalizeScaledObject.
Proof.
  unfold finalizeScaledObject. intros s r s' Hi Hr. rewrite ST_bind_run in Hr. simpl in Hr. case_match; [|by injection Hr as _ <-].
  destruct (remove _ _) as [l| |]; [|by injection Hr as _ <-..].
  revert Hr. rewrite ST_bind_run. simpl. intros Hr. eapply still_update_httpso, Hr. by destruct Hi as [Hs Hy]; split.
Qed.

Lemma still_sanitize : still true false sanitize.
Proof.
  intros s r s' [Hs _] Hr. unfold sanitize in Hr. destruct (sanitizeHosts _). simplify_eq/=. by split.
Qed.

Lemma still_reconcile_object c : still true false (reconcile_object c).
Proof.
  unfold reconcile_object. apply still_get. intros o. case_match.
  - apply still_weaken. still_steps; auto using still_removeApplicationResources, still_finalize.
  - apply (still_bind true true false); [apply still_try, still_ensureFinalizer| |done]. intros [|].
    + apply (still_bind true false false); [apply still_try, still_sanitize| |done]. intros [|];
        still_steps; auto using still_removeApplicationResources, still_createOrUpdateApplicationResources.
    + apply still_weaken. still_steps.
Qed.

Lemma Reconcile_settled c req t r w' t' :
  hso_ok (view w0) → Reconcile c req w0 t = (r, (w', t')) → settled w'.
Proof.
  intros Hok Hr. assert (settled w0) as H0.
  { split; [done| |]; [by intros k o Ho; exists o|by intros k o Ho _; exists o]. }
  unfold Reconcile in Hr. pose proof (Get_HTTPScaledObject_law (view := view) req w0) as Hg.
  destruct (Get_HTTPScaledObject req w0) as [x w1] eqn:Eg.
  assert (view w1 = view w0) as Hv by (destruct x as [|?|]; [by destruct Hg|by destruct Hg as [?|(? & ? & _)]|done]).
  assert (settled w1) as H1.
  { eapply settled_same; [apply (numbers_Get_HTTPScaledObject view generation req)|exact Eg|by rewrite Hv|done]. }
  destruct x as [o|e|p]; [|destruct (IsNotFound e); by simplify_eq|done].
  destruct (reconcile_object c (mkRstate w1 t o)) as [y s] eqn:Er. injection Hr as <- <- <-.
  eapply still_reconcile_object, Er. split; [done|]. intros _ cur. simpl. destruct Hg as [_ Ho].
  rewrite Hv, (Hok _ _ Ho), Ho. by intros [= <-].
Qed.
End still.

(** ** The controller's queue *)

(** A controller with one worker: the cluster, the operator's table, and the
    requests, which the queue keeps without duplicates. *)
Record controller (W : Type) : Type := mkController {
  c_world : W;
  c_table : Table;
  c_requests : gset objKey;
}.
Arguments mkController {W}.
Arguments c_world {W}.
Arguments c_table {W}.
Arguments c_requests {W}.

(** Requests that come of objects that go. *)
Lemma size_join (Q T X Y : gset objKey) :
  T ⊆ X ∖ Y → Y ⊆ X → (size (Q ∪ T) + size Y ≤ size Q + size X)%nat.
Proof.
  intros HT HY. rewrite size_union_alt.
  assert (size (T ∖ Q) ≤ size (X ∖ Y))%nat as H1 by (apply subseteq_size; set_solver).
  rewrite (size_difference X Y HY) in H1. pose proof (subseteq_size Y X HY). lia.
Qed.

Lemma size_trade (Q T X Y : gset objKey) k :
  k ∈ Q → T ⊆ X ∖ Y → Y ⊆ X → (size (Q ∖ {[k]} ∪ T) + size Y < size Q + size X)%nat.
Proof.
  intros Hk HT HY. pose proof (size_join (Q ∖ {[k]}) T X Y HT HY) as H1.
  rewrite (size_difference Q), size_singleton in H1 by set_solver.
  assert (size {[k]} ≤ size Q)%nat as H2 by (apply subseteq_size; set_solver). rewrite size_singleton in H2. lia.
Qed.

Section controller.
Context `{Client W} (view : W → cluster) (generation : W → objKey → Z) (c : reconciler).

(** A request is put back when its reconciliation reports an error or asks for
    a delay; the events of what it wrote come on top. *)
Definition put_back (req : objKey) (x : outcome) : gset objKey :=
  match x with (after, err) => if decide (err = None ∧ after = 0) then ∅ else {[req]} end.

Inductive cstep : controller W → controller W → Prop :=
| c_reconcile s req x w t :
    req ∈ c_requests s → Reconcile c req (c_world s) (c_table s) = (Ok x, (w, t)) →
    cstep s (mkController w t
      ((c_requests s ∖ {[req]}) ∪ put_back req x ∪ triggered view generation (c_world s) w)).

(** The objects that are marked as deleted. *)
Definition doomed (w : W) : gset objKey :=
  dom (filter (λ kv, is_Some (hso_DeletionTimestamp kv.2)) (httpscaledobjects (view w))).

Lemma elem_of_doomed w k :
  k ∈ doomed w ↔ ∃ o, httpscaledobjects (view w) !! k = Some o ∧ is_Some (hso_DeletionTimestamp o).
Proof.
  unfold doomed. rewrite elem_of_dom. split.
  - intros [o Ho]. apply map_lookup_filter_Some in Ho. by exists o.
  - intros (o & Ho & Hd). exists o. by apply map_lookup_filter_Some.
Qed.

Context `{!ClientLaws W view} `{!GenerationLaws view generation}.

(** Only the end of an object that is marked as deleted makes a request. *)
Lemma triggered_doomed req w t r w' t' :
  hso_ok (view w) → Reconcile c req w t = (r, (w', t')) →
  triggered view generation w w' ⊆ doomed w ∖ doomed w' ∧ doomed w' ⊆ doomed w
  ∧ ∀ k, k ∈ triggered view generation w w' → httpscaledobjects (view w') !! k = None.
Proof.
  intros Hok Hr. destruct (Reconcile_settled view generation w c req t r w' t' Hok Hr) as [_ Hs Ht].
  assert (∀ k, k ∈ triggered view generation w w' → k ∈ doomed w ∧ httpscaledobjects (view w') !! k = None) as Htr.
  { intros k [Hk _]%elem_of_filter. unfold event_between in Hk.
    destruct (httpscaledobjects (view w) !! k) as [o|] eqn:Ho, (httpscaledobjects (view w') !! k) as [o'|] eqn:Ho'.
    - destruct (Hs k o' Ho') as (o0 & _ & _ & Hg). cbn in Hk. unfold SetupWithManager, GenerationChanged in Hk.
      rewrite Hg, bool_decide_false in Hk by (by intros ?). by apply elem_of_nil in Hk.
    - split; [|done]. apply elem_of_doomed. exists o. split; [done|].
      destruct (hso_DeletionTimestamp o) as [ts|] eqn:Hd; [by eexists|]. destruct (Ht k o Ho Hd) as [? ?]. congruence.
    - destruct (Hs k o' Ho') as (o0 & Ho0 & _). congruence.
    - by apply elem_of_nil in Hk. }
  split_and!; [|intros k|by intros k Hk; apply Htr].
  - intros k Hk. destruct (Htr k Hk) as [Hd Hn]. apply elem_of_difference. split; [done|].
    intros (o & Ho & _)%elem_of_doomed. congruence.
  - rewrite !elem_of_doomed. intros (o & Ho & Hd). destruct (Hs k o Ho) as (o0 & Ho0 & [_ Hdd] & _).
    exists o0. split; [done|]. by rewrite <-Hdd.
Qed.

(** Requests, and objects that are marked as deleted: fewer after each
    reconciliation that succeeds. *)
Definition rank (s : controller W) : nat := size (c_requests s) + size (doomed (c_world s)).

Lemma cstep_rank s s' :
  hso_ok (view (c_world s)) → cstep s s' →
  (∀ req x w t, req ∈ c_requests s → Reconcile c req (c_world s) (c_table s) = (Ok x, (w, t)) → x = (0%Z, None)) →
  (rank s' < rank s)%nat.
Proof.
  intros Hok Hs Hall. destruct Hs as [s req x w t Hreq Hr]. rewrite (Hall _ _ _ _ Hreq Hr).
  destruct (triggered_doomed req _ _ _ _ _ Hok Hr) as (Hsub & Hd & _). unfold rank. simpl.
  rewrite (union_empty_r_L (c_requests s ∖ {[req]})). by apply size_trade.
Qed.
End controller.

(** ** Running the queue down *)

Section settles.
Context (c : reconciler) (generation : MemCluster → objKey → Z) `{!GenerationLaws mem generation}.
Implicit Types s : controller MemCluster.
#[local] Abbreviation step := (cstep mem generation c).

(** Every object has been reconciled, or there is a request for it. *)
Definition covered (c0 : cluster) (D : list objKey) s : Prop :=
  progress c c0 D (c_world s) (c_table s)
  ∧ ∀ k, is_Some (httpscaledobjects c0 !! k) → k ∈ D ∨ k ∈ c_requests s.

(** Every reconciliation succeeds. *)
Lemma covered_succeeds c0 D s req :
  reconcilable c c0 → covered c0 D s →
  ∃ w t, Reconcile c req (c_world s) (c_table s) = (Ok (0, None), (w, t)) ∧ progress c c0 (req :: D) w t.
Proof. intros Hrc [Hpg _]. by apply progress_step. Qed.

Lemma covered_step c0 D s s' :
  reconcilable c c0 → covered c0 D s → step s s' → (∃ D', covered c0 D' s') ∧ (rank mem s' < rank mem s)%nat.
Proof.
  intros Hrc Hcov Hs. split.
  - destruct Hs as [s req x w t Hreq Hr]. destruct (covered_succeeds c0 D s req Hrc Hcov) as (w1 & t1 & Hr1 & Hpg1).
    rewrite Hr in Hr1. simplify_eq. exists (req :: D). split; [done|]. simpl.
    intros k Hk. destruct (decide (k = req)) as [->|Hne]; [left; left|]. destruct Hcov as [_ Hcov].
    destruct (Hcov k Hk); [left; by right|right; set_solver].
  - apply (cstep_rank mem generation c); [apply Hcov|done|]. intros req x w t _ Hr.
    destruct (covered_succeeds c0 D s req Hrc Hcov) as (w1 & t1 & Hr1 & _). congruence.
Qed.

Lemma covered_run c0 D s s' n :
  reconcilable c c0 → covered c0 D s → nsteps step n s s' → (∃ D', covered c0 D' s') ∧ (n + rank mem s' ≤ rank mem s)%nat.
Proof.
  intros Hrc Hcov Hs. revert D Hcov. induction Hs as [s|n s s1 s2 Hs _ IH]; intros D Hcov; [by eauto with lia|].
  destruct (covered_step c0 D s s1 Hrc Hcov Hs) as [[D1 Hcov1] Hlt]. destruct (IH D1 Hcov1) as [? ?]. split; [done|lia].
Qed.
End settles.

(** ** Properties *)

(** C23: safety. The operator's writes do not make work for it: whatever a
    reconciliation returns and whichever calls of the API fail, no object it
    leaves in the cluster has another generation than before, so no update makes
    a request; the only request it can cause is for an object that was marked as
    deleted and is now gone. *)
Theorem Reconcile_triggers_nothing `{Client W} (view : W → cluster) `{!ClientLaws W view}
    (generation : W → objKey → Z) `{!GenerationLaws view generation}
    (c : reconciler) (req : objKey) (w w' : W) (t t' : Table) (r : res outcome) :
  hso_ok (view w) → Reconcile c req w t = (r, (w', t')) →
  (∀ k o', httpscaledobjects (view w') !! k = Some o' →
     ∃ o, httpscaledobjects (view w) !! k = Some o ∧ hso_Spec o' = hso_Spec o
     ∧ hso_DeletionTimestamp o' = hso_DeletionTimestamp o ∧ generation w' k = generation w k)
  ∧ ∀ k, k ∈ triggered view generation w w' →
     httpscaledobjects (view w') !! k = None
     ∧ ∃ o, httpscaledobjects (view w) !! k = Some o ∧ is_Some (hso_DeletionTimestamp o).
Proof.
  intros Hok Hr. split.
  - intros k o' Ho'. destruct (Reconcile_settled view generation w c req t r w' t' Hok Hr) as [_ Hs _].
    destruct (Hs k o' Ho') as (o & Ho & [? ?] & ?). by exists o.
  - intros k Hk. destruct (triggered_doomed view generation c req w t r w' t' Hok Hr) as (Hsub & _ & Hgone).
    split; [by apply Hgone|]. apply elem_of_doomed. set_solver.
Qed.

(** A server that numbers its objects: 2 once they are marked as deleted. *)
Definition demo_generation (w : MemCluster) (k : objKey) : Z :=
  match httpscaledobjects (mem w) !! k with
  | Some o => match hso_DeletionTimestamp o with Some _ => 2 | None => 1 end
  | None => 0
  end.

#[export] Instance demo_generation_laws : GenerationLaws mem demo_generation.
Proof. split; intros; intros w r w' k' o1 o2 _ H1 H2 [_ Hd]; unfold demo_generation; by rewrite H1, H2, Hd. Qed.

Lemma Reconcile_triggers_nothing_witness :
  ∃ r w' t', Reconcile demo_config (ObjKey "dp-1" "shop") demo_three NewTable = (r, (w', t'))
  ∧ demo_generation w' (ObjKey "dp-1" "shop") = 1
  ∧ (ObjKey "dp-1" "shop" ∉ triggered mem demo_generation demo_three w').
Proof.
  destruct (Reconcile demo_config (ObjKey "dp-1" "shop") demo_three NewTable) as [r [w' t']] eqn:Hr. exists r, w', t'.
  destruct (Reconcile_triggers_nothing mem demo_generation demo_config (ObjKey "dp-1" "shop") demo_three w' NewTable t' r
    (rc_ok _ _ demo_three_reconcilable) Hr) as [H1 H2].
  assert (∃ o', httpscaledobjects (mem w') !! ObjKey "dp-1" "shop" = Some o') as [o' Ho'].
  { apply (f_equal (λ x, httpscaledobjects (mem x.2.1) !! ObjKey "dp-1" "shop")) in Hr.
    vm_compute in Hr. simpl in Hr. eexists. symmetry. exact Hr. }
  split_and!; [done| |].
  - destruct (H1 _ _ Ho') as (o & Ho & _ & _ & ->). reflexivity.
  - intros Hin. destruct (H2 _ Hin) as [Hn _]. by rewrite Ho' in Hn.
Defined.

(** The controller's work ends: on a server that serves every
    call, with objects that can be served or are on their way out and share no
    host, and a request for every object, no run of the controller has more
    reconciliations than there are requests and objects marked as deleted; it
    never gets stuck with requests left; and when none is left the operator has
    converged. *)
Theorem controller_settles (c : reconciler) (generation : MemCluster → objKey → Z) `{!GenerationLaws mem generation}
    (w : MemCluster) (t : Table) (requests : gset objKey) :
  healthy (OperatorConfig.base_CurrentNamespace (BaseConfig c)) w → reconcilable c (mem w) → table_ok t →
  (∀ h x, entries t !! h = Some x → ∃ k o, httpscaledobjects (mem w) !! k = Some o ∧ claims c o h x) →
  (∀ k, is_Some (httpscaledobjects (mem w) !! k) → k ∈ requests) → httpscaledobjects (mem w) ≠ ∅ →
  ∀ n s, nsteps (cstep mem generation c) n (mkController w t requests) s →
  (n ≤ size requests + size (doomed mem w))%nat
  ∧ ((∃ s', cstep mem generation c s s') ∨ (c_requests s = ∅ ∧ converged c (mem w) (c_world s) (c_table s))).
Proof.
  intros Hh Hrc Ht Hs Hreq Hne n s Hn.
  assert (covered c (mem w) [] (mkController w t requests)) as H0.
  { split; [by apply progress_init|]. intros k Hk. right. by apply Hreq. }
  destruct (covered_run c generation _ _ _ _ _ Hrc H0 Hn) as [[D Hcov] Hle]. split; [unfold rank in Hle; simpl in Hle; lia|].
  destruct (decide (c_requests s = ∅)) as [He|He].
  - right. split; [done|]. destruct Hcov as [Hpg Hc]. eapply progress_converged; [done|done| |done].
    intros k Hk. destruct (Hc k Hk); [done|set_solver].
  - left. apply set_choose_L in He as [req Hin].
    destruct (covered_succeeds c _ _ s req Hrc Hcov) as (w1 & t1 & Hr & _). eexists. by eapply c_reconcile.
Qed.

Definition demo_controller : controller MemCluster :=
  mkController demo_three NewTable {[ObjKey "dp-1" "old"; ObjKey "dp-1" "shop"; ObjKey "dp-1" "blog"]}.

Lemma controller_settles_witness :
  (size (c_requests demo_controller) + size (doomed mem demo_three) = 4)%nat
  ∧ ∃ s', cstep mem demo_generation demo_config demo_controller s'.
Proof.
  split; [reflexivity|].
  destruct (controller_settles demo_config demo_generation demo_three NewTable
    {[ObjKey "dp-1" "old"; ObjKey "dp-1" "shop"; ObjKey "dp-1" "blog"]}) with (n := 0%nat) (s := demo_controller)
    as [_ [Hs|[He _]]].
  - split; [done|]. eexists _, _. split_and!; [apply lookup_singleton_eq|done|done].
  - apply demo_three_reconcilable.
  - eexists. split; [done|]. apply map_Forall_empty.
  - intros h x Hx. done.
  - intros k [o [[-> _]|[[-> _]|[-> _]]]%demo_three_lookup]; set_solver.
  - intros Hne. by apply (f_equal (lookup (ObjKey "dp-1" "shop"))) in Hne.
  - constructor.
  - exact Hs.
  - exfalso. assert (ObjKey "dp-1" "old" ∈ c_requests demo_controller) as Hin by (unfold demo_controller; simpl; set_solver).
    rewrite He in Hin. set_solver.
Defined.
