(* ===== verification/OperatorFailures.v ===== *)
(** * Reconciliations that meet failures of the API (operator/controllers/http)

    [Reconcile] on a server with a script of failures: calls that are refused, and
    calls that are served and whose answers are lost. A run that meets none of
    them is the run on the server without them; a run that meets some has an
    outcome still, with the cluster and the table in a state the next run can
    start from, and with every version of the ConfigMap it stored one that readers
    can read. *)

From S2P Require Import Prelude GoStrings GoUrl Json Queue Routing ConfigMaps Net Config K8s Hso Kube Operator OperatorProofs OperatorLive OperatorFrame OperatorConverge.

(** ** Failures that are used up

    A run on a server with a script of failures either meets one of them or is
    the run on the server without them. *)

Section failures.
Implicit Types (w : MemCluster) (s : rstate MemCluster).

Definition is_failure (x : fate) : bool := if x is Served then false else true.

Definition failures w : nat := length (filter is_failure (script w)).
Definition without_failures w : MemCluster := mkMem (mem w) [] (version w) (stored w).
Definition calm s : rstate MemCluster := mkRstate (without_failures (rs_world s)) (rs_table s) (rs_httpso s).

Lemma failures_suffix w w' : script w' `suffix_of` script w → (failures w' ≤ failures w)%nat.
Proof. intros [l Hl]. unfold failures. rewrite Hl, filter_app, length_app. lia. Qed.

(** What a call does to the script, and that it is as without failures when it
    meets none. *)
Definition honest_call {A} (m : ST MemCluster A) : Prop :=
  ∀ w r w', m w = (r, w') →
  script w' `suffix_of` script w ∧ (failures w' = failures w → m (without_failures w) = (r, without_failures w')).

Definition honest {A} (m : ST (rstate MemCluster) A) : Prop :=
  ∀ s r s', m s = (r, s') →
  script (rs_world s') `suffix_of` script (rs_world s)
  ∧ (failures (rs_world s') = failures (rs_world s) → m (calm s) = (r, calm s')).

Lemma honest_served {A} (f : cluster → Z → res A * cluster) : honest_call (served f).
Proof.
  intros w r w' Hr. unfold served in *. simpl. destruct (f (mem w) (version w)) as [x c], (script w) as [|[|e|e] l] eqn:El;
    simplify_eq/=; (split; [by try apply suffix_cons_r|]); unfold failures; rewrite El; simpl; [done|done|lia..].
Qed.

Lemma honest_api {A} (m : ST MemCluster A) : honest_call m → honest (api m).
Proof.
  intros Hm s r s' Hr. apply api_run in Hr as (w & Hw & ->). destruct (Hm _ _ _ Hw) as [H1 H2]. split; [done|].
  intros Hf. unfold api, calm. simpl. by rewrite H2.
Qed.

(** Code that does not look at the server. *)
Lemma honest_local {A} (m : ST (rstate MemCluster) A) :
  (∀ s, rs_world (snd (m s)) = rs_world s ∧ m (calm s) = (fst (m s), calm (snd (m s)))) → honest m.
Proof. intros Hm s r s' Hr. destruct (Hm s) as [H1 H2]. rewrite Hr in *. simpl in *. by rewrite H1. Qed.

Lemma honest_bind {A B} (m : ST (rstate MemCluster) A) (f : A → ST (rstate MemCluster) B) :
  honest m → (∀ a, honest (f a)) → honest (m ≫= f).
Proof.
  intros Hm Hf s r s' Hr. rewrite ST_bind_run in Hr. destruct (m s) as [x s1] eqn:Em. destruct (Hm _ _ _ Em) as [H1 H2].
  destruct x as [a|e|p]; [|simplify_eq/=; split; [done|]; intros Hn; rewrite ST_bind_run; by rewrite H2..].
  destruct (Hf a _ _ _ Hr) as [H3 H4]. split; [by etransitivity|]. intros Hn.
  pose proof (failures_suffix _ _ H1). pose proof (failures_suffix _ _ H3).
  rewrite ST_bind_run, H2 by lia. apply H4. lia.
Qed.

Lemma honest_try {A} (m : ST (rstate MemCluster) A) : honest m → honest (try m).
Proof.
  intros Hm s r s' Hr. unfold try in *. destruct (m s) as [x s1] eqn:Em. destruct (Hm _ _ _ Em) as [H1 H2].
  destruct x; simplify_eq/=; (split; [done|]); intros Hn; by rewrite H2.
Qed.

Lemma honest_wrap {A} msg (m : ST (rstate MemCluster) A) : honest m → honest (wrap_err msg m).
Proof.
  intros Hm s r s' Hr. unfold wrap_err in *. destruct (m s) as [x s1] eqn:Em. destruct (Hm _ _ _ Em) as [H1 H2].
  simplify_eq/=. split; [done|]. intros Hn. by rewrite H2.
Qed.

Lemma honest_deferred {A} (d : ST (rstate MemCluster) unit) (m : ST (rstate MemCluster) A) :
  honest d → honest m → honest (deferred d m).
Proof.
  intros Hd Hm s r s' Hr. unfold deferred in *. destruct (m s) as [x s1] eqn:Em. destruct (Hm _ _ _ Em) as [H1 H2].
  destruct (d s1) as [y s2] eqn:Ed. destruct (Hd _ _ _ Ed) as [H3 H4].
  assert (s' = s2) as -> by (by destruct y; simplify_eq). split; [by etransitivity|]. intros Hn.
  pose proof (failures_suffix _ _ H1). pose proof (failures_suffix _ _ H3).
  rewrite H2, H4 by lia. by destruct y; simplify_eq.
Qed.

Lemma honest_update status (m : ST (rstate MemCluster) unit) (f : res HTTPScaledObject → res unit) :
  (∀ s, m s = let '(x, w) := mem_update status (rs_httpso s) (rs_world s) in
              (f x, mkRstate w (rs_table s) (match x with Ok o => o | _ => rs_httpso s end))) → honest m.
Proof.
  intros Hm s r s' Hr. rewrite Hm in Hr. destruct (mem_update status (rs_httpso s) (rs_world s)) as [x w] eqn:Eu.
  destruct (honest_served _ _ _ _ Eu) as [H1 H2]. simplify_eq/=. split; [done|]. intros Hn. rewrite Hm. simpl.
  unfold mem_update. by rewrite (H2 Hn).
Qed.

Lemma honest_SaveStatus : honest SaveStatus.
Proof.
  apply (honest_update true _ (λ x, match x with Panic p => Panic p | _ => Ok tt end)). intros s. unfold SaveStatus.
  cbn [Status_Update MemCluster_client]. by destruct (mem_update _ _ _) as [[]].
Qed.

Lemma honest_update_httpso : honest update_httpso.
Proof.
  apply (honest_update false _ (λ x, match x with Ok _ => Ok tt | Err e => Err e | Panic p => Panic p end)). intros s.
  unfold update_httpso. cbn [Update_HTTPScaledObject MemCluster_client]. by destruct (mem_update _ _ _) as [[]].
Qed.

Lemma honest_on_table {A} (f : Table → res A * Table) : honest (on_table f).
Proof. apply honest_local. intros s. unfold on_table, calm. simpl. by destruct (f (rs_table s)). Qed.

(** Takes a function apart at its binds, tries and branches. *)
Ltac honest_steps :=
  repeat match goal with
    | |- honest (mbind _ _) => apply honest_bind; [|intros ?]
    | |- honest (try _) => apply honest_try
    | |- honest (wrap_err _ _) => apply honest_wrap
    | |- honest (deferred _ _) => apply honest_deferred
    | |- honest SaveStatus => apply honest_SaveStatus
    | |- honest update_httpso => apply honest_update_httpso
    | |- honest (on_table _) => apply honest_on_table
    | |- honest (match _ with _ => _ end) => case_match
    | |- honest (api (PatchConfigMap _ _)) => apply honest_api
    | |- honest (api _) => apply honest_api, honest_served
    | |- honest _ => by apply honest_local
    end.

Lemma honest_PatchConfigMap o n : honest_call (PatchConfigMap o n).
Proof.
  intros w r w' Hr. unfold PatchConfigMap in *. rewrite ST_bind_run in Hr. destruct (Patch_ConfigMap o n w) as [x w1] eqn:Ep.
  destruct (honest_served _ _ _ _ Ep) as [H1 H2].
  assert (w' = w1) as -> by (destruct x; by injection Hr). split; [done|]. intros Hn. rewrite ST_bind_run.
  cbn [Patch_ConfigMap MemCluster_client] in *. rewrite (H2 Hn). destruct x; by injection Hr as <-.
Qed.

Lemma honest_remove_hosts hosts : honest (remove_hosts hosts).
Proof. induction hosts as [|h hosts IH]; simpl; honest_steps; done. Qed.

Lemma honest_add_hosts hosts x : honest (add_hosts hosts x).
Proof. induction hosts as [|h hosts IH]; simpl; honest_steps; done. Qed.

Lemma honest_updateRoutingMap ns : honest (updateRoutingMap ns).
Proof. unfold updateRoutingMap, GetConfigMap. honest_steps. apply honest_PatchConfigMap. Qed.

Lemma honest_removeApplicationResources base : honest (removeApplicationResources base).
Proof.
  unfold removeApplicationResources, removeAndUpdateRoutingTable.
  honest_steps; auto using honest_remove_hosts, honest_updateRoutingMap.
Qed.

Lemma honest_reconcile_object c : honest (reconcile_object c).
Proof.
  unfold reconcile_object, createOrUpdateApplicationResources, createOrUpdateScaledObject, addAndUpdateRoutingTable,
    scale_target, ensureFinalizer, finalizeScaledObject.
  honest_steps; auto using honest_removeApplicationResources, honest_add_hosts, honest_updateRoutingMap.
  apply honest_local. intros s. unfold sanitize, calm. simpl. by destruct (sanitizeHosts (rs_httpso s)).
Qed.

(** A reconciliation that meets no failure is that of a server without any. *)
Lemma Reconcile_honest c req w t r w' t' :
  Reconcile c req w t = (r, (w', t')) →
  script w' `suffix_of` script w
  ∧ (failures w' = failures w → Reconcile c req (without_failures w) t = (r, (without_failures w', t'))).
Proof.
  intros Hr. unfold Reconcile in *. destruct (Get_HTTPScaledObject req w) as [x w1] eqn:Eg.
  destruct (honest_served _ _ _ _ Eg) as [H1 H2]. cbn [Get_HTTPScaledObject MemCluster_client] in *.
  destruct x as [o|e|p].
  - destruct (reconcile_object c (mkRstate w1 t o)) as [y s] eqn:Er. destruct (honest_reconcile_object c _ _ _ Er) as [H3 H4].
    simplify_eq/=. split; [by etransitivity|]. intros Hn.
    pose proof (failures_suffix _ _ H1). pose proof (failures_suffix _ _ H3).
    rewrite H2 by lia. unfold calm in H4. simpl in H4. by rewrite H4 by lia.
  - destruct (IsNotFound e) eqn:En; simplify_eq/=; (split; [done|]); intros Hn; rewrite (H2 Hn), En; done.
  - simplify_eq/=. split; [done|]. intros Hn. by rewrite (H2 Hn).
Qed.
End failures.

(** ** No outcome is a panic

    Whichever calls fail, a reconciliation keeps the ConfigMap's shape, the
    table's map and the object's scale target, which are what its code could
    panic on; it stores no table that readers cannot read; and an object that is
    on its way out stays until its finalizer goes. *)

Definition cm_good (ns : string) (cl : cluster) : Prop :=
  ∃ cm d, configmaps cl !! routing_key ns = Some cm ∧ cm_key cm = routing_key ns ∧ cm_Data cm = Some d.

(** A version of the routing ConfigMap that readers can use. *)
Definition usable (ns : string) (cm : ConfigMap) : Prop :=
  cm_key cm = routing_key ns ∧ is_Some (match FetchTableFromConfigMap cm with Ok t => Some t | _ => None end).

(** What has been stored of ConfigMaps since [w0]: versions of the routing
    ConfigMap that readers can use, the last of which is there now. *)
Definition told (ns : string) (w0 w : MemCluster) : Prop :=
  ∃ vs, stored w = stored w0 ++ vs ∧ Forall (usable ns) vs
  ∧ configmaps (mem w) !! routing_key ns
    = match last vs with Some cm => Some cm | None => configmaps (mem w0) !! routing_key ns end.

Lemma usable_table ns cm : usable ns cm → ∃ t, FetchTableFromConfigMap cm = Ok t.
Proof. intros [_ [t Ht]]. destruct (FetchTableFromConfigMap cm); by eauto. Qed.

Lemma told_refl ns w : told ns w w.
Proof. exists []. by rewrite app_nil_r. Qed.

Lemma told_same ns w0 w w' :
  told ns w0 w → configmaps (mem w') = configmaps (mem w) → stored w' = stored w → told ns w0 w'.
Proof. intros (vs & H1 & H2 & H3) Hc Hs. exists vs. by rewrite Hc, Hs. Qed.

Lemma told_version ns w0 w w' cm :
  told ns w0 w → usable ns cm → mem w' = set_configmaps (<[routing_key ns := cm]>) (mem w) →
  stored w' = stored w ++ cm_versions (mem w) (mem w') → told ns w0 w'.
Proof.
  intros (vs & H1 & H2 & H3) Hu Hm Hs. rewrite Hm, cm_versions_insert in Hs. case_decide as He.
  - exists vs. rewrite app_nil_r in Hs. split_and!; [by rewrite Hs|done|]. rewrite Hm. simpl. by rewrite lookup_insert_eq, <-He.
  - exists (vs ++ [cm]). split_and!; [by rewrite Hs, H1, (assoc_L _)|by apply Forall_app_2; [|apply Forall_singleton]|].
    rewrite last_snoc, Hm. simpl. apply lookup_insert_eq.
Qed.

(** A call that leaves ConfigMaps alone stores none. *)
Lemma logged_same {A} (m : ST MemCluster A) w r w' :
  logged m → m w = (r, w') → configmaps (mem w') = configmaps (mem w) → stored w' = stored w.
Proof. intros Hm Hr Hc. specialize (Hm w). rewrite Hr in Hm. simpl in Hm. by rewrite Hm, cm_versions_same, app_nil_r. Qed.

Lemma update_stored status o w r w' : mem_update status o w = (r, w') → stored w' = stored w.
Proof.
  intros Hr. assert (configmaps (mem w') = configmaps (mem w)); [|by eapply logged_same; [apply logged_served|exact Hr|]].
  unfold mem_update, served in Hr. destruct (httpscaledobjects (mem w) !! hso_key o); [case_decide|];
    by destruct (script w) as [|[] ?]; simplify_eq/=.
Qed.

Lemma SaveStatus_stored s r s' : SaveStatus s = (r, s') → stored (rs_world s') = stored (rs_world s).
Proof.
  unfold SaveStatus. cbn [Status_Update MemCluster_client]. destruct (mem_update _ _ _) as [x w] eqn:Eu.
  apply update_stored in Eu. destruct x; intros [= <- <-]; done.
Qed.

Section safe.
Context (base : OperatorConfig.Base).
#[local] Abbreviation ns := (OperatorConfig.base_CurrentNamespace base).
(** The object, the server and the table before; [leaves] is set when the object
    is on its way out. *)
Context (o0 : HTTPScaledObject) (w0 : MemCluster) (t0 : Table) (leaves : bool) (ref0 : ScaleTargetRef).
Context (Hleaves : leaves = true → kept o0) (Href : spec_ScaleTargetRef (hso_Spec o0) = Some ref0).
Context (Htables : ∀ t, table_map t ≠ None → routes_framed base o0 t0 t → table_ok t).
Implicit Types (s : rstate MemCluster).

Record core s : Prop := {
  co_cm : cm_good ns (mem (rs_world s));
  co_told : told ns w0 (rs_world s);
  co_leaves : leaves = true → leaving o0 (mem (rs_world s)) (rs_httpso s);
}.

Record sound s : Prop := {
  sd_core : core s;
  sd_run : in_run mem o0 (mem w0) s;
  sd_table : table_map (rs_table s) ≠ None;
  sd_framed : routes_framed base o0 t0 (rs_table s);
}.

Definition safe {A} (m : ST (rstate MemCluster) A) : Prop :=
  ∀ s r s', sound s → m s = (r, s') → sound s' ∧ is_panic r = false.

Lemma safe_framed {A} (m : ST (rstate MemCluster) A) :
  framed mem base o0 (mem w0) m → (∀ s r s', sound s → m s = (r, s') → core s' ∧ is_panic r = false) → safe m.
Proof.
  intros Hf Hm s r s' Hs Hr. destruct (Hm s r s' Hs Hr) as [Hc Hp]. split; [|done].
  destruct (Hf s r s' (sd_run _ Hs) (sd_table _ Hs) Hr) as (H1 & H2 & H3). split; [done..|].
  intros h. destruct (H3 h) as [->|?]; [apply (sd_framed _ Hs)|by right].
Qed.

Lemma safe_pure {A} (m : ST (rstate MemCluster) A) : (∀ s, snd (m s) = s ∧ is_panic (fst (m s)) = false) → safe m.
Proof. intros Hm s r s' Hs Hr. specialize (Hm s). rewrite Hr in Hm. destruct Hm as [<- ?]. done. Qed.

Lemma safe_bind {A B} (m : ST (rstate MemCluster) A) (f : A → ST (rstate MemCluster) B) : safe m → (∀ a, safe (f a)) → safe (m ≫= f).
Proof.
  intros Hm Hf s r s' Hs Hr. rewrite ST_bind_run in Hr. destruct (m s) as [[a|e|p] s1] eqn:Em;
    destruct (Hm _ _ _ Hs Em) as [Hs1 Hp]; [by eapply Hf|by simplify_eq|done].
Qed.

Lemma safe_get {A} (f : HTTPScaledObject → ST (rstate MemCluster) A) :
  (∀ o, version_of o0 o → spec_ScaleTargetRef (hso_Spec o) = Some ref0 → safe (f o)) → safe (get_httpso ≫= f).
Proof.
  intros Hf s r s' Hs Hr. rewrite ST_bind_run in Hr. pose proof (run_mine _ _ _ _ (sd_run _ Hs)) as Hv.
  eapply Hf, Hr; [done| |done]. pose proof Hv as (_ & _ & _ & -> & _). done.
Qed.

Lemma safe_scale_target {A} o (f : ScaleTargetRef → ST (rstate MemCluster) A) :
  spec_ScaleTargetRef (hso_Spec o) = Some ref0 → safe (f ref0) → safe (scale_target o ≫= f).
Proof. intros Ho Hf. unfold scale_target. rewrite Ho. exact Hf. Qed.

Lemma safe_try {A} (m : ST (rstate MemCluster) A) : safe m → safe (try m).
Proof.
  intros Hm s r s' Hs Hr. unfold try in Hr. destruct (m s) as [[a|e|p] s1] eqn:Em;
    destruct (Hm _ _ _ Hs Em) as [Hs1 Hp]; by simplify_eq.
Qed.

Lemma safe_deferred {A} (d : ST (rstate MemCluster) unit) (m : ST (rstate MemCluster) A) : safe d → safe m → safe (deferred d m).
Proof.
  intros Hd Hm s r s' Hs Hr. unfold deferred in Hr. destruct (m s) as [x s1] eqn:Em. destruct (d s1) as [y s2] eqn:Ed.
  destruct (Hm _ _ _ Hs Em) as [Hs1 Hp]. destruct (Hd _ _ _ Hs1 Ed) as [Hs2 Hp2]. destruct y; by simplify_eq.
Qed.

(** Calls that leave ConfigMaps alone, and change the object at hand to one
    that is as far on its way. *)
Lemma core_same s s' :
  core s → configmaps (mem (rs_world s')) = configmaps (mem (rs_world s)) → stored (rs_world s') = stored (rs_world s) →
  (leaves = true → leaving o0 (mem (rs_world s)) (rs_httpso s) → leaving o0 (mem (rs_world s')) (rs_httpso s')) → core s'.
Proof.
  intros [H1 H2 H3] Hc Hs Hl. split; [unfold cm_good; by rewrite Hc|by eapply told_same|auto].
Qed.

Lemma safe_add_condition ty st reason msg : safe (add_condition ty st reason msg).
Proof.
  apply safe_framed; [apply framed_add_condition|]. intros s r s' Hs Hr. apply add_condition_run in Hr as (-> & Hw & _ & Hc).
  split; [|done]. apply (core_same s); [apply Hs|by rewrite Hw|by rewrite Hw|]. rewrite Hw. intros _ (? & ? & ?).
  split_and!; [done| |done]. by etransitivity.
Qed.

(** A call that touches neither ConfigMaps nor HTTPScaledObjects. *)
Lemma safe_api {A} (m : ST MemCluster A) eff :
  effect mem m eff → logged m →
  (∀ c a c', eff c a c' → configmaps c' = configmaps c ∧ httpscaledobjects c' = httpscaledobjects c) → safe (api m).
Proof.
  intros Hm Hlog He. apply safe_framed; [eapply framed_api; [done|]; intros c a c' Hc; by destruct (He c a c' Hc)|].
  intros s r s' Hs Hr. apply api_run in Hr as (w & Hw & ->). specialize (Hm (rs_world s)). rewrite Hw in Hm.
  assert (is_panic r = false) as Hp by (by destruct r). split; [|done].
  assert (configmaps (mem w) = configmaps (mem (rs_world s)) ∧ httpscaledobjects (mem w) = httpscaledobjects (mem (rs_world s)))
    as [Hc Hh] by (destruct r as [a|e|p]; [by eapply He|destruct Hm as [->|[a Ha]]; [done|by eapply He]|done]).
  apply (core_same s); [apply Hs|done|by eapply logged_same|]. intros _. by apply leaving_same_hsos.
Qed.

Lemma safe_Create so : safe (api (Create_ScaledObject so)).
Proof. eapply safe_api; [apply Create_ScaledObject_law|apply logged_served|]. by intros c a c' [_ ->]. Qed.

Lemma safe_Get k : safe (api (Get_ScaledObject k)).
Proof. eapply safe_api; [apply Get_ScaledObject_law|apply logged_served|]. by intros c a c' [-> _]. Qed.

Lemma safe_Patch so : safe (api (Patch_ScaledObject so)).
Proof. eapply safe_api; [apply Patch_ScaledObject_law|apply logged_served|]. by intros c a c' (? & _ & ->). Qed.

Lemma safe_Delete k : safe (api (Delete_ScaledObject k)).
Proof. eapply safe_api; [apply Delete_ScaledObject_law|apply logged_served|]. by intros c a c' [_ ->]. Qed.

Lemma safe_SaveStatus : safe SaveStatus.
Proof.
  apply safe_framed; [apply framed_SaveStatus; apply _|]. intros s r s' Hs Hr. pose proof Hr as Hr'.
  apply (SaveStatus_run mem) in Hr' as (-> & _ & Hf & _). split; [|done].
  apply (core_same s); [apply Hs|apply (sf_configmaps _ _ Hf)|by eapply SaveStatus_stored|]. intros Hl. eapply (SaveStatus_leaving mem); eauto.
Qed.

(** The patch of the ConfigMap that was read with the table in it. *)
Lemma PatchConfigMap_core s cm d w r w' :
  sound s → configmaps (mem (rs_world s)) !! routing_key ns = Some cm → cm_key cm = routing_key ns → cm_Data cm = Some d →
  mem w = mem (rs_world s) → stored w = stored (rs_world s) → PatchConfigMap cm (saved (rs_table s) cm d) w = (r, w') →
  core (mkRstate w' (rs_table s) (rs_httpso s)) ∧ is_panic r = false.
Proof.
  intros [[H1 H2 H3] _ Ht Hf] Hcm Hk Hd Hv Hst Hr. unfold PatchConfigMap in Hr. rewrite ST_bind_run in Hr.
  pose proof (Patch_ConfigMap_law (view := mem) cm (saved (rs_table s) cm d) w) as Hl.
  assert (logged (Patch_ConfigMap cm (saved (rs_table s) cm d))) as Hlog by apply logged_served. specialize (Hlog w).
  destruct (Patch_ConfigMap _ _ w) as [x w1]. cbn [snd] in Hlog. rewrite Hst, Hv in Hlog.
  assert (w' = w1 ∧ is_panic r = false) as [-> Hp] by (by destruct x; [injection Hr as <- <-|injection Hr as <- <-|]).
  split; [|done]. change (cm_key (saved (rs_table s) cm d)) with (cm_key cm) in Hl. rewrite Hk, Hv in Hl.
  assert (mem w1 = mem (rs_world s) ∨ mem w1 = set_configmaps (<[routing_key ns := saved (rs_table s) cm d]>) (mem (rs_world s))) as Hw.
  { destruct x as [a|e|p]; [destruct Hl as (cur & Hc & ->)|destruct Hl as [->|(_ & cur & Hc & ->)]; [by left|]|done];
      right; assert (cur = cm) as -> by congruence; by rewrite merge_saved. }
  destruct Hw as [Hw|Hw].
  { rewrite cm_versions_same, app_nil_r in Hlog by (by rewrite Hw). split; simpl; rewrite ?Hw; [done| |done].
    by eapply told_same; [exact H2|rewrite Hw|]. }
  split; simpl; rewrite ?Hw.
  - eexists _, _. split_and!; [apply lookup_insert_eq|exact Hk|done].
  - eapply told_version; [exact H2| |exact Hw|exact Hlog]. split; [exact Hk|]. rewrite fetch_saved by (by apply Htables). by eexists.
  - intros Hlv. by apply (leaving_same_hsos o0 (mem (rs_world s))), H3.
Qed.

Lemma safe_updateRoutingMap : safe (updateRoutingMap ns).
Proof.
  apply safe_framed; [apply framed_updateRoutingMap; apply _|]. intros s r s' Hs Hr. unfold updateRoutingMap in Hr.
  rewrite ST_bind_run in Hr. unfold wrap_err, api, GetConfigMap in Hr.
  pose proof (Get_ConfigMap_law (view := mem) (routing_key ns) (rs_world s)) as Hg. unfold routing_key in Hg.
  destruct (Get_ConfigMap _ (rs_world s)) as [[cm|e|p] w1] eqn:Eg; [| |done].
  - destruct Hg as [Hv Hcm]. pose proof (co_cm _ (sd_core _ Hs)) as (cm' & d & Hcm' & Hk & Hd).
    assert (cm' = cm) as -> by (unfold routing_key in Hcm'; congruence).
    cbn [map_err] in Hr. rewrite ST_bind_run in Hr. unfold SaveTableToConfigMap in Hr. cbn [MarshalJSON mbind res_bind] in Hr.
    rewrite Hd in Hr. cbn [map_err] in Hr. rewrite ST_bind_run in Hr. simpl in Hr. destruct (PatchConfigMap _ _ w1) as [x w2] eqn:Ep.
    destruct (PatchConfigMap_core s cm d w1 x w2 Hs Hcm' Hk Hd Hv (logged_same _ _ _ _ (logged_served _) Eg (f_equal _ Hv)) Ep) as [Hc Hp].
    assert (s' = mkRstate w2 (rs_table s) (rs_httpso s) ∧ is_panic r = false) as [-> ->]
      by (by destruct x; [injection Hr as <- <-|injection Hr as <- <-|]). done.
  - assert (mem w1 = mem (rs_world s)) as Hv by (destruct Hg as [?|(? & ? & _)]; done).
    simplify_eq/=. split; [|done]. apply (core_same s); simpl; rewrite ?Hv; [apply Hs|done| |done].
    by eapply logged_same; [apply logged_served|exact Eg|rewrite Hv].
Qed.

Lemma safe_hosts (m : ST (rstate MemCluster) unit) :
  framed mem base o0 (mem w0) m →
  (∀ s r s', table_map (rs_table s) ≠ None → m s = (r, s') →
     r = Ok tt ∧ rs_world s' = rs_world s ∧ rs_httpso s' = rs_httpso s) → safe m.
Proof.
  intros Hf Hm. apply safe_framed; [done|]. intros s r s' Hs Hr. destruct (Hm _ _ _ (sd_table _ Hs) Hr) as (-> & Hw & Ho).
  split; [|done]. by apply (core_same s); [apply Hs|rewrite Hw|rewrite Hw|rewrite Hw, Ho].
Qed.

Lemma safe_remove_hosts o : version_of o0 o → safe (remove_hosts (default [] (spec_Hosts (hso_Spec o)))).
Proof.
  intros Hv. apply safe_hosts; [by eapply (framed_remove_hosts mem), (version_hosts mem)|]. intros s r s' Ht Hr.
  by apply remove_hosts_run in Hr as (? & ? & ? & _).
Qed.

Lemma safe_add_hosts o :
  version_of o0 o → safe (add_hosts (default [] (spec_Hosts (hso_Spec o))) (httpso_target base o ref0)).
Proof.
  intros Hv. rewrite (version_target base o0 o ref0 Hv).
  apply safe_hosts; [by apply (framed_add_hosts mem); [apply (version_hosts mem)|]|]. intros s r s' Ht Hr.
  by apply add_hosts_run in Hr as (? & ? & ? & _).
Qed.

(** Takes a function apart at its binds, tries and branches. *)
Ltac safe_steps :=
  repeat match goal with
    | |- safe (mbind _ get_httpso) => apply safe_get; intros ? ? ?
    | H : spec_ScaleTargetRef (hso_Spec ?o) = Some _ |- safe (mbind _ (scale_target ?o)) => apply (safe_scale_target o); [done|]
    | |- safe (mbind _ _) => apply safe_bind; [|intros ?]
    | |- safe (try _) => apply safe_try
    | |- safe (deferred _ _) => apply safe_deferred
    | |- safe (add_condition _ _ _ _) => apply safe_add_condition
    | |- safe SaveStatus => apply safe_SaveStatus
    | |- safe (remove_hosts _) => by apply safe_remove_hosts
    | |- safe (add_hosts _ _) => by apply safe_add_hosts
    | |- safe (updateRoutingMap _) => apply safe_updateRoutingMap
    | |- safe (api (Create_ScaledObject _)) => apply safe_Create
    | |- safe (api (Get_ScaledObject _)) => apply safe_Get
    | |- safe (api (Patch_ScaledObject _)) => apply safe_Patch
    | |- safe (api (Delete_ScaledObject _)) => apply safe_Delete
    | H : spec_ScaleTargetRef (hso_Spec ?o) = Some _ |- safe (match AppScaledObjectName ?o with _ => _ end) =>
        unfold AppScaledObjectName; rewrite H
    | |- safe (match _ with _ => _ end) => case_match
    | |- safe _ => by apply safe_pure
    end.

Lemma safe_removeApplicationResources : safe (removeApplicationResources base).
Proof. unfold removeApplicationResources, removeAndUpdateRoutingTable. safe_steps. Qed.

Lemma safe_createOrUpdateApplicationResources es : safe (createOrUpdateApplicationResources base es).
Proof.
  unfold createOrUpdateApplicationResources, createOrUpdateScaledObject, addAndUpdateRoutingTable. safe_steps.
Qed.
End safe.

(** A reconciliation has an outcome, whichever calls fail: errors are part of
    it. *)
Section outcome.
Context (c : reconciler).
#[local] Abbreviation ns := (OperatorConfig.base_CurrentNamespace (BaseConfig c)).
Implicit Types (s : rstate MemCluster) (w : MemCluster) (o : HTTPScaledObject).

Definition no_err {S A} (m : ST S A) : Prop := ∀ x, if fst (m x) is Err _ then False else True.

Lemma no_err_try {S A} (m : ST S A) : no_err (try m).
Proof. intros s. unfold try. by destruct (m s) as [[] ?]. Qed.

Lemma no_err_bind {S A B} (m : ST S A) (f : A → ST S B) : no_err m → (∀ a, no_err (f a)) → no_err (m ≫= f).
Proof. intros Hm Hf s. specialize (Hm s). rewrite ST_bind_run. destruct (m s) as [[a|e|p] s1]; [apply Hf|done|done]. Qed.

Lemma no_err_SaveStatus : no_err (SaveStatus (W := MemCluster)).
Proof. intros s. unfold SaveStatus. by destruct (Status_Update _ _) as [[] ?]. Qed.

Lemma no_err_reconcile_object : no_err (reconcile_object (W := MemCluster) c).
Proof.
  unfold reconcile_object.
  repeat first [apply no_err_try|apply no_err_SaveStatus|done|apply no_err_bind; [|intros ?]|case_match].
Qed.

(** An update of the object that fails has its effect or none. *)
Lemma update_httpso_fails s e s' :
  update_httpso s = (Err e, s') →
  rs_table s' = rs_table s
  ∧ (mem (rs_world s') = mem (rs_world s)
     ∨ ∃ cur rv, httpscaledobjects (mem (rs_world s)) !! hso_key (rs_httpso s) = Some cur
       ∧ mem (rs_world s') = set_httpscaledobjects (put_hso (stored_update false (rs_httpso s) cur rv)) (mem (rs_world s))).
Proof.
  unfold update_httpso. pose proof (Update_HTTPScaledObject_law (view := mem) (rs_httpso s) (rs_world s)) as Hl.
  destruct (Update_HTTPScaledObject _ _) as [[]]; intros [= <- <-]. split; [done|].
  destruct Hl as [?|(o' & cur & rv & ? & ? & _)]; [by left|right; by exists cur, rv].
Qed.

Lemma update_httpso_configmaps s r s' :
  update_httpso s = (r, s') →
  configmaps (mem (rs_world s')) = configmaps (mem (rs_world s)) ∧ stored (rs_world s') = stored (rs_world s)
  ∧ is_panic r = false.
Proof.
  unfold update_httpso. cbn [Update_HTTPScaledObject MemCluster_client].
  pose proof (Update_HTTPScaledObject_law (view := mem) (rs_httpso s) (rs_world s)) as Hl. cbn [Update_HTTPScaledObject MemCluster_client] in Hl.
  destruct (mem_update _ _ _) as [x w] eqn:Eu. apply update_stored in Eu.
  destruct x as [o|e|p]; intros [= <- <-]; [| |done]; (split_and!; [|done|done]); cbn [rs_world].
  - by destruct Hl as (? & ? & _ & -> & _).
  - by destruct Hl as [->|(? & ? & ? & _ & -> & _)].
Qed.

Section object.
Context (o : HTTPScaledObject) (w0 : MemCluster) (t : Table) (ref : ScaleTargetRef).
Context (Href : spec_ScaleTargetRef (hso_Spec o) = Some ref).
Context (Htables : ∀ t', table_map t' ≠ None → routes_framed (BaseConfig c) o t t' → table_ok t').
#[local] Abbreviation staying := (safe (BaseConfig c) o w0 t false).

Lemma safe_ensureFinalizer : staying ensureFinalizer.
Proof.
  apply safe_framed; [apply framed_ensureFinalizer; apply _|]. intros s r s' Hs Hr. unfold ensureFinalizer in Hr.
  rewrite ST_bind_run in Hr. cbn [get_httpso] in Hr. case_match; [injection Hr as <- <-; split; [apply Hs|done]|].
  rewrite ST_bind_run in Hr. cbn [set_httpso] in Hr. apply update_httpso_configmaps in Hr as (Hc & Hst & Hp). split; [|done].
  by eapply core_same; [apply Hs|exact Hc|exact Hst|].
Qed.

Lemma safe_sanitize : staying sanitize.
Proof.
  apply safe_framed; [apply framed_sanitize|]. intros s r s' Hs Hr. unfold sanitize in Hr.
  assert (is_panic (fst (sanitizeHosts (rs_httpso s))) = false) as Hp by (unfold sanitizeHosts; by repeat case_match).
  destruct (sanitizeHosts (rs_httpso s)) as [x o']. injection Hr as <- <-. split; [|done]. by eapply core_same; [apply Hs|..].
Qed.

Lemma safe_living : hso_DeletionTimestamp o = None → ∀ s r s',
  rs_httpso s = o → sound (BaseConfig c) o w0 t false s → reconcile_object c s = (r, s') →
  core (BaseConfig c) o w0 false s' ∧ is_panic r = false.
Proof.
  intros Hd s r s' Ho Hs Hr. unfold reconcile_object in Hr. rewrite ST_bind_run in Hr. cbn [get_httpso] in Hr. rewrite Ho, Hd in Hr.
  revert s r s' Ho Hs Hr.
  enough (staying _) as Hsafe by (intros s r s' _ Hs Hr; destruct (Hsafe s r s' Hs Hr) as [Hs' ?]; split; [apply Hs'|done]).
  apply safe_bind; [apply safe_try, safe_ensureFinalizer|]. intros [|]; [|by apply safe_pure].
  apply safe_bind; [apply safe_try, safe_sanitize|]. intros [|]; [|by apply safe_pure].
  apply safe_bind; [by eapply safe_try, safe_createOrUpdateApplicationResources|]. intros [|].
  - apply safe_bind; [apply safe_add_condition|]. intros _. apply safe_bind; [by apply safe_SaveStatus|]. intros _.
    by apply safe_pure.
  - apply safe_bind; [by eapply safe_try, safe_removeApplicationResources|]. intros _. by apply safe_pure.
Qed.

(** A reconciliation that fails leaves the object as it was; or the server has
    dropped it, with its routes gone, and only the answer was lost. *)
Definition still_there (cl : cluster) : Prop :=
  ∃ o', httpscaledobjects cl !! hso_key o = Some o' ∧ same_core o o'.

Definition gone_for_good (cl : cluster) (t' : Table) : Prop :=
  httpscaledobjects cl !! hso_key o = None
  ∧ removed (default [] (spec_Hosts (hso_Spec o))) (entries t) (entries t') ∧ published cl ns = Ok t'.

Lemma finalize_outcome ts s r s' :
  hso_DeletionTimestamp o = Some ts → hso_Finalizers o = [httpScaledObjectFinalizer] →
  core (BaseConfig c) o w0 true s → finalizeScaledObject s = (r, s') →
  cm_good ns (mem (rs_world s')) ∧ told ns w0 (rs_world s') ∧ is_panic r = false
  ∧ ∀ e, r = Err e → still_there (mem (rs_world s'))
    ∨ httpscaledobjects (mem (rs_world s')) !! hso_key o = None
      ∧ configmaps (mem (rs_world s')) = configmaps (mem (rs_world s)) ∧ rs_table s' = rs_table s.
Proof.
  intros Hd Hf [H1 H2 H3] Hr. destruct (H3 eq_refl) as (_ & Hc & o1 & Ho1 & Hc1). unfold finalizeScaledObject in Hr.
  rewrite ST_bind_run in Hr. cbn [get_httpso] in Hr. pose proof Hc as (Hns & Hn & Hd' & Hf' & _). rewrite Hf', Hf in Hr.
  change (contains [httpScaledObjectFinalizer] httpScaledObjectFinalizer) with true in Hr.
  change (remove [httpScaledObjectFinalizer] httpScaledObjectFinalizer) with (Ok (A := list string) []) in Hr. cbn iota in Hr.
  rewrite ST_bind_run in Hr. cbn [set_httpso] in Hr. pose proof Hr as Hr'. apply update_httpso_configmaps in Hr' as (Hcm & Hst & Hp).
  cbn [rs_world] in Hcm, Hst.
  split_and!; [unfold cm_good; by rewrite Hcm|by eapply told_same|done|].
  intros e ->. apply update_httpso_fails in Hr as [Htb [Hm|(cur & rv & Hcur & Hm)]]; cbn [rs_world rs_table rs_httpso] in *.
  - left. unfold still_there. rewrite Hm. by exists o1.
  - right. split_and!; [|done|done].
    change (hso_key (set_Finalizers ?x ?y)) with (hso_key y) in Hcur. rewrite (same_core_key _ _ Hc), Ho1 in Hcur.
    injection Hcur as <-. rewrite Hm. cbn [httpscaledobjects set_httpscaledobjects].
    unfold put_hso. cbn [hso_DeletionTimestamp hso_Finalizers stored_update set_Finalizers].
    destruct Hc1 as (Hns1 & Hn1 & Hd1 & _). rewrite Hd1, Hd. unfold hso_key. cbn [hso_Namespace hso_Name stored_update].
    rewrite Hns1, Hn1. apply lookup_delete_eq.
Qed.

Lemma departing_outcome ts s r s' :
  hso_DeletionTimestamp o = Some ts → hso_Finalizers o = [httpScaledObjectFinalizer] → rs_httpso s = o → rs_table s = t →
  sound (BaseConfig c) o w0 t true s → reconcile_object c s = (r, s') →
  cm_good ns (mem (rs_world s')) ∧ told ns w0 (rs_world s') ∧ is_panic r = false
  ∧ ∀ d e, r = Ok (d, Some e) → still_there (mem (rs_world s')) ∨ gone_for_good (mem (rs_world s')) (rs_table s').
Proof.
  intros Hd Hf Ho Ht Hs Hr. unfold reconcile_object in Hr. rewrite ST_bind_run in Hr. cbn [get_httpso] in Hr. rewrite Ho, Hd in Hr.
  assert (true = true → kept o) as Hk by (intros _; right; by rewrite Hf).
  rewrite ST_bind_run in Hr. destruct (try (removeApplicationResources _) s) as [x s1] eqn:E1.
  destruct (safe_try _ _ _ _ _ _ (safe_removeApplicationResources (BaseConfig c) o w0 t true ref Hk Href Htables) _ _ _ Hs E1)
    as [Hsd1 Hp1]. pose proof Hsd1 as [Hs1 _ Hn1 Hf1]. destruct x as [[[]|e]|e|p]; [| | |done].
  - apply try_run in E1. apply (removeApplicationResources_run mem _ o) in E1 as (_ & Hrem & _ & Hpub & _);
      [|by destruct (co_cm _ _ _ _ _ (sd_core _ _ _ _ _ _ Hs)) as (? & ? & ? & ? & _); intros ? ?; congruence
       |apply Hs|by apply Hk|by apply (co_leaves _ _ _ _ _ (sd_core _ _ _ _ _ _ Hs))].
    rewrite Ht in Hrem. specialize (Hpub (Htables _ Hn1 Hf1)).
    rewrite ST_bind_run in Hr. destruct (try finalizeScaledObject s1) as [y s2] eqn:E2. unfold try in E2.
    destruct (finalizeScaledObject s1) as [z s3] eqn:E3. destruct (finalize_outcome ts s1 z s3 Hd Hf Hs1 E3) as (Hg & Hrd & Hp & He).
    destruct z as [[]|e|p]; [| |done]; injection E2 as <- <-; injection Hr as <- <-; (split_and!; [done|done|done|]);
      intros d e' [=]. destruct (He e eq_refl) as [?|(Hgone & Hcm & Htb)]; [by left|right].
    split_and!; [done|by rewrite Htb|]. unfold published. by rewrite Hcm, Htb.
  - injection Hr as <- <-. split_and!; [apply Hs1|apply Hs1|done|]. intros _ _ _. left.
    by destruct (co_leaves _ _ _ _ _ Hs1 eq_refl) as (_ & _ & ?).
  - injection Hr as <- <-. split_and!; [apply Hs1|apply Hs1|done|]. intros d e' [=].
Qed.
End object.

(** Objects that the code can handle, with a table their routes keep readable. *)
Definition sturdy t o : Prop :=
  is_Some (spec_ScaleTargetRef (hso_Spec o))
  ∧ (hso_DeletionTimestamp o = None ∨ hso_Finalizers o = [httpScaledObjectFinalizer])
  ∧ ∀ t', table_map t' ≠ None → routes_framed (BaseConfig c) o t t' → table_ok t'.

Lemma Reconcile_outcome req w t r w' t' :
  cm_good ns (mem w) → hso_ok (mem w) → table_map t ≠ None →
  (∀ o, httpscaledobjects (mem w) !! req = Some o → sturdy t o) → Reconcile c req w t = (r, (w', t')) →
  (∃ x, r = Ok x) ∧ cm_good ns (mem w') ∧ told ns w w'
  ∧ ∀ o d e, httpscaledobjects (mem w) !! req = Some o → is_Some (hso_DeletionTimestamp o) → r = Ok (d, Some e) →
      still_there o (mem w') ∨ gone_for_good o t (mem w') t'.
Proof.
  intros Hg Hok Ht Hst Hr. unfold Reconcile in Hr. pose proof (Get_HTTPScaledObject_law (view := mem) req w) as Hl.
  destruct (Get_HTTPScaledObject req w) as [[o|e|p] w1] eqn:Eg; [| |done].
  - destruct Hl as [Hv Ho]. destruct (reconcile_object c (mkRstate w1 t o)) as [x s] eqn:Er. injection Hr as <- <- <-.
    destruct (Hst o Ho) as ([ref Href] & Hfin & Htables). pose proof (Hok _ _ Ho) as Hk.
    pose proof (no_err_reconcile_object (mkRstate w1 t o)) as Hne. rewrite Er in Hne.
    assert (∀ b, sound (BaseConfig c) o w t b (mkRstate w1 t o)) as Hs.
    { intros b. split; [split; simpl; rewrite ?Hv; [done| |]|split; simpl; rewrite ?Hv; [done| |done]|done|by intros h; left].
      - eapply told_same; [apply told_refl|by rewrite Hv|]. by eapply logged_same; [apply logged_served|exact Eg|rewrite Hv].
      - intros _. split_and!; [done|done|]. exists o. by rewrite Hk.
      - intros o'. rewrite Hk, Ho. by intros [= <-]. }
    destruct (hso_DeletionTimestamp o) as [ts|] eqn:Hd.
    + destruct Hfin as [?|Hfin]; [done|].
      destruct (departing_outcome o w t ref Href Htables ts (mkRstate w1 t o) x s Hd Hfin eq_refl eq_refl (Hs true) Er)
        as (Hg' & Hrd & Hp & He).
      split_and!; [destruct x; by eauto|done|done|]. intros o1 d e Ho1 _ ->. assert (o1 = o) as -> by congruence. by eapply He.
    + destruct (safe_living o w t ref Href Htables Hd (mkRstate w1 t o) x s eq_refl (Hs false) Er) as [[Hg' Hrd _] Hp].
      split_and!; [destruct x; by eauto|done|done|]. intros o1 d e Ho1 Hd1. assert (o1 = o) as -> by congruence.
      by destruct Hd1; congruence.
  - assert (mem w1 = mem w) as Hv by (destruct Hl as [?|(? & ? & _)]; done).
    assert (told ns w w1) as Htold.
    { eapply told_same; [apply told_refl|by rewrite Hv|]. by eapply logged_same; [apply logged_served|exact Eg|rewrite Hv]. }
    destruct (IsNotFound e) eqn:En; injection Hr as <- <- <-; rewrite Hv; (split_and!; [by eexists|done|done|]);
      intros o d e' Ho _ _; left; exists o; by rewrite (Hok _ _ Ho).
Qed.
End outcome.

(** ** Versions a reconciliation stores

    One for the routes it adds or removes, and one more for a roll-back. *)

Section writes.
Implicit Types (w : MemCluster) (s : rstate MemCluster).

Definition writes {A} (n : nat) (m : ST (rstate MemCluster) A) : Prop :=
  ∀ s r s', m s = (r, s') → (length (stored (rs_world s')) ≤ length (stored (rs_world s)) + n)%nat.

Lemma writes_bind {A B} n n' (m : ST (rstate MemCluster) A) (f : A → ST (rstate MemCluster) B) :
  writes n m → (∀ a, writes n' (f a)) → writes (n + n') (m ≫= f).
Proof.
  intros Hm Hf s r s' Hr. rewrite ST_bind_run in Hr. destruct (m s) as [x s1] eqn:Em. pose proof (Hm _ _ _ Em).
  destruct x as [a|e|p]; [pose proof (Hf a _ _ _ Hr); lia|simplify_eq; lia..].
Qed.

Lemma writes_quiet {A B} n (m : ST (rstate MemCluster) A) (f : A → ST (rstate MemCluster) B) :
  writes 0 m → (∀ a, writes n (f a)) → writes n (m ≫= f).
Proof. apply (writes_bind 0). Qed.

Lemma writes_try {A} n (m : ST (rstate MemCluster) A) : writes n m → writes n (try m).
Proof. intros Hm s r s' Hr. unfold try in Hr. destruct (m s) as [[] s1] eqn:Em; simplify_eq; by eapply Hm. Qed.

Lemma writes_wrap {A} n msg (m : ST (rstate MemCluster) A) : writes n m → writes n (wrap_err msg m).
Proof. intros Hm s r s' Hr. unfold wrap_err in Hr. destruct (m s) as [x s1] eqn:Em. simplify_eq. by eapply Hm. Qed.

Lemma writes_deferred {A} n (d : ST (rstate MemCluster) unit) (m : ST (rstate MemCluster) A) :
  writes 0 d → writes n m → writes n (deferred d m).
Proof.
  intros Hd Hm s r s' Hr. unfold deferred in Hr. destruct (m s) as [x s1] eqn:Em. destruct (d s1) as [y s2] eqn:Ed.
  pose proof (Hm _ _ _ Em). pose proof (Hd _ _ _ Ed). destruct y; simplify_eq; lia.
Qed.

(** Code that does not look at the server. *)
Lemma writes_local {A} n (m : ST (rstate MemCluster) A) : (∀ s, rs_world (snd (m s)) = rs_world s) → writes n m.
Proof. intros Hm s r s' Hr. specialize (Hm s). rewrite Hr in Hm. simpl in Hm. rewrite Hm. lia. Qed.

Lemma writes_api {A} n (m : ST MemCluster A) eff :
  effect mem m eff → logged m → (∀ c a c', eff c a c' → configmaps c' = configmaps c) → writes n (api m).
Proof.
  intros Hm Hlog He s r s' Hr. apply api_run in Hr as (w & Hw & ->). simpl. specialize (Hm (rs_world s)). rewrite Hw in Hm.
  rewrite (logged_same m _ _ _ Hlog Hw); [lia|]. destruct r as [a|e|p]; [by eapply He| |done].
  destruct Hm as [->|[a Ha]]; [done|by eapply He].
Qed.

Lemma writes_Patch o n : writes 1 (api (PatchConfigMap o n)).
Proof.
  intros s r s' Hr. apply api_run in Hr as (w & Hw & ->). cbn [rs_world]. unfold PatchConfigMap in Hw. rewrite ST_bind_run in Hw.
  pose proof (Patch_ConfigMap_law (view := mem) o n (rs_world s)) as Hl.
  assert (logged (Patch_ConfigMap o n)) as Hlog by apply logged_served. specialize (Hlog (rs_world s)).
  destruct (Patch_ConfigMap o n (rs_world s)) as [x w1]. assert (w = w1) as -> by (destruct x; by injection Hw).
  cbn [snd] in Hlog. rewrite Hlog, length_app. enough (length (cm_versions (mem (rs_world s)) (mem w1)) ≤ 1)%nat by lia.
  assert (mem w1 = mem (rs_world s) ∨ ∃ k cm, mem w1 = set_configmaps (<[k := cm]>) (mem (rs_world s))) as [->|(k & cm & ->)].
  { destruct x as [a|e|p]; [destruct Hl as (cur & _ & ->); eauto| |done]. destruct Hl as [->|(_ & cur & _ & ->)]; eauto. }
  - rewrite cm_versions_same by done. simpl. lia.
  - rewrite cm_versions_insert. case_decide; simpl; lia.
Qed.

Lemma writes_SaveStatus n : writes n SaveStatus.
Proof. intros s r s' ->%SaveStatus_stored. lia. Qed.

Lemma writes_update_httpso n : writes n update_httpso.
Proof. intros s r s' (_ & -> & _)%update_httpso_configmaps. lia. Qed.

Lemma writes_on_table {A} n (f : Table → res A * Table) : writes n (on_table f).
Proof. apply writes_local. intros s. unfold on_table. by destruct (f _). Qed.

(** Takes code that stores nothing apart. *)
Ltac writes_steps :=
  repeat match goal with
    | |- writes _ (mbind _ _) => apply writes_quiet; [|intros ?]
    | |- writes _ (try _) => apply writes_try
    | |- writes _ (wrap_err _ _) => apply writes_wrap
    | |- writes _ (deferred _ _) => apply writes_deferred
    | |- writes _ SaveStatus => apply writes_SaveStatus
    | |- writes _ update_httpso => apply writes_update_httpso
    | |- writes _ (on_table _) => apply writes_on_table
    | |- writes _ (match _ with _ => _ end) => case_match
    | |- writes _ (api (Get_ConfigMap _)) => eapply writes_api; [apply Get_ConfigMap_law|apply logged_served|by intros ? ? ? [-> _]]
    | |- writes _ (api (Create_ScaledObject _)) => eapply writes_api; [apply Create_ScaledObject_law|apply logged_served|by intros ? ? ? [_ ->]]
    | |- writes _ (api (Get_ScaledObject _)) => eapply writes_api; [apply Get_ScaledObject_law|apply logged_served|by intros ? ? ? [-> _]]
    | |- writes _ (api (Patch_ScaledObject _)) => eapply writes_api; [apply Patch_ScaledObject_law|apply logged_served|by intros ? ? ? (? & _ & ->)]
    | |- writes _ (api (Delete_ScaledObject _)) => eapply writes_api; [apply Delete_ScaledObject_law|apply logged_served|by intros ? ? ? [_ ->]]
    | |- writes _ _ => by apply writes_local
    end.

Lemma writes_remove_hosts n hosts : writes n (remove_hosts hosts).
Proof. induction hosts as [|h hosts IH]; simpl; writes_steps; done. Qed.

Lemma writes_add_hosts n hosts x : writes n (add_hosts hosts x).
Proof. induction hosts as [|h hosts IH]; simpl; writes_steps; done. Qed.

Lemma writes_updateRoutingMap ns : writes 1 (updateRoutingMap ns).
Proof.
  unfold updateRoutingMap, GetConfigMap. do 2 (apply writes_quiet; [writes_steps|intros ?]).
  apply (writes_bind 1 0); [apply writes_wrap, writes_Patch|]. intros _. by apply writes_local.
Qed.

Lemma writes_removeApplicationResources base : writes 1 (removeApplicationResources base).
Proof.
  unfold removeApplicationResources, removeAndUpdateRoutingTable.
  writes_steps; auto using writes_remove_hosts, writes_updateRoutingMap.
Qed.

Lemma writes_createOrUpdateApplicationResources base es : writes 1 (createOrUpdateApplicationResources base es).
Proof.
  unfold createOrUpdateApplicationResources, createOrUpdateScaledObject, addAndUpdateRoutingTable, scale_target.
  writes_steps; auto using writes_add_hosts, writes_updateRoutingMap.
Qed.

Lemma writes_reconcile_object c : writes 2 (reconcile_object c).
Proof.
  unfold reconcile_object. apply writes_quiet; [by apply writes_local|]. intros o. case_match.
  - apply (writes_bind 1 1); [apply writes_try, writes_removeApplicationResources|]. intros [[]|e]; [|by apply writes_local].
    unfold finalizeScaledObject. writes_steps.
  - apply writes_quiet; [unfold ensureFinalizer; writes_steps|]. intros [[]|e]; [|by apply writes_local].
    apply writes_quiet; [apply writes_try, writes_local; intros s; unfold sanitize; by destruct (sanitizeHosts _)|].
    intros [[]|e]; [|by apply writes_local].
    apply (writes_bind 1 1); [apply writes_try, writes_createOrUpdateApplicationResources|]. intros [[]|e]; [writes_steps|].
    apply (writes_bind 1 0); [apply writes_try, writes_removeApplicationResources|]. intros _. by apply writes_local.
Qed.

Lemma Reconcile_writes c req w t r w' t' :
  Reconcile c req w t = (r, (w', t')) → (length (stored w') ≤ length (stored w) + 2)%nat.
Proof.
  intros Hr. unfold Reconcile in Hr. pose proof (Get_HTTPScaledObject_law (view := mem) req w) as Hl.
  destruct (Get_HTTPScaledObject req w) as [x w1] eqn:Eg.
  assert (stored w1 = stored w) as Hs.
  { eapply logged_same; [apply logged_served|exact Eg|]. destruct x as [o|e|p]; [by destruct Hl as [-> _]| |done].
    by destruct Hl as [->|(? & -> & _)]. }
  destruct x as [o|e|p].
  - destruct (reconcile_object c (mkRstate w1 t o)) as [y s] eqn:Er. injection Hr as <- <- <-.
    apply writes_reconcile_object in Er. simpl in Er. by rewrite Hs in Er.
  - destruct (IsNotFound e); injection Hr as <- <- <-; rewrite Hs; lia.
  - injection Hr as <- <- <-. rewrite Hs. lia.
Qed.
End writes.

(** ** Failures and retries *)

Section resilient.
Context (c : reconciler).
#[local] Abbreviation base := (BaseConfig c).
#[local] Abbreviation ns := (OperatorConfig.base_CurrentNamespace (BaseConfig c)).
Implicit Types (w : MemCluster) (o : HTTPScaledObject) (t : Table).

(** Objects to serve, or on their way out, with routes that JSON carries. *)
Definition handled o : Prop := (living c o ∨ departing o) ∧ object_ok base o.

Lemma claims_all_hosts o h ref :
  living c o ∨ departing o → spec_ScaleTargetRef (hso_Spec o) = Some ref → h ∈ all_hosts o → claims c o h (httpso_target base o ref).
Proof.
  intros Hk Href Hh. unfold all_hosts in Hh. exists (all_hosts o), ref. split_and!; [|done|done|done].
  unfold all_hosts, hosts_of in *. destruct Hk as [(_ & [hs Hs] & _)|(_ & _ & _ & Hn)].
  - unfold hosts_of in Hs. destruct (spec_Hosts _), (spec_Host _); simplify_eq/=; by rewrite ?app_nil_r.
  - rewrite Hn in *. destruct (spec_Hosts _); simpl in *; [by rewrite app_nil_r|by apply elem_of_nil in Hh].
Qed.

Lemma handled_ref o : handled o → is_Some (spec_ScaleTargetRef (hso_Spec o)).
Proof. intros [[(_ & _ & ? & _)|(_ & _ & ? & _)] _]; done. Qed.

Lemma framed_table_ok o t t' :
  handled o → routes_framed base o t t' → table_ok t → table_map t' ≠ None → table_ok t'.
Proof.
  intros [Hk [Hu Htg]] Hf Ht Hn. apply table_ok_entries; [done|]. intros h x Hx.
  destruct (Hf h) as [He|[Hh [He|(ref & Href & He)]]]; rewrite Hx in He; [by apply (table_ok_Forall t Ht)|done|].
  injection He as ->. split; [|by apply Htg].
  destruct (claims_all_hosts o h ref Hk Href Hh) as (hosts & _ & Hhosts & Hin & _).
  by apply (proj1 (Forall_forall _ _) (Hu hosts Hhosts)).
Qed.

Lemma handled_sturdy o t : handled o → table_ok t → sturdy c t o.
Proof.
  intros Ho Ht. split_and!; [by apply handled_ref| |intros t' Hn Hf; by eapply framed_table_ok].
  destruct Ho as [[(? & _)|(_ & ? & _)] _]; auto.
Qed.

(** Without failures every reconciliation succeeds. *)
Lemma calm_succeeds req w t :
  cm_good ns (mem w) → hso_ok (mem w) → table_ok t →
  (∀ o, httpscaledobjects (mem w) !! req = Some o → handled o) →
  ∃ w' t', Reconcile c req (without_failures w) t = (Ok (0, None), (w', t')).
Proof.
  intros Hcm Hok Ht Hh. assert (healthy ns (without_failures w)) as Hhl by done. pose proof (table_ok_not_nil _ Ht) as Hn.
  destruct (httpscaledobjects (mem w) !! req) as [o|] eqn:Ho.
  - destruct (Hh o eq_refl) as [[(Hd & Hhs & Href & _)|([ts Hts] & Hf & Href & _)] _].
    + destruct (reconcile_succeeds c req _ t o Hhl Ho (Hok _ _ Ho) Hok Hd Hhs Href Hn) as (w' & t' & ? & _). by eauto.
    + destruct (reconcile_deletion_succeeds c req _ t o ts Hhl Ho (Hok _ _ Ho) Hts) as (w' & t' & ? & _); [..|by eauto];
        rewrite ?Hf; [done|apply NoDup_singleton|done|done].
  - unfold Reconcile. cbn [Get_HTTPScaledObject MemCluster_client]. rewrite served_nil by done. simpl. rewrite Ho. by eexists _, _.
Qed.

(** Whatever fails: an outcome, a state to go on from, and, when there is work
    to do again, fewer failures to come. *)
Lemma Reconcile_resilient req w t r w' t' :
  cm_good ns (mem w) → hso_ok (mem w) → table_ok t →
  (∀ o, httpscaledobjects (mem w) !! req = Some o → handled o) → Reconcile c req w t = (r, (w', t')) →
  ∃ after err, r = Ok (after, err)
  ∧ cm_good ns (mem w') ∧ told ns w w' ∧ hso_ok (mem w') ∧ table_ok t'
  ∧ (failures w' ≤ failures w)%nat ∧ ((after, err) ≠ (0%Z, None) → failures w' < failures w)%nat
  ∧ ∀ o, httpscaledobjects (mem w) !! req = Some o → departing o → err ≠ None →
      still_there o (mem w') ∨ gone_for_good c o t (mem w') t'.
Proof.
  intros Hcm Hok Ht Hh Hr. pose proof (table_ok_not_nil _ Ht) as Hn.
  destruct (Reconcile_outcome c req w t r w' t' Hcm Hok Hn) as ([[after err] ->] & Hcm' & Hrd & Hkeep);
    [by intros o Ho; apply handled_sturdy; [apply Hh|]|done|]. exists after, err.
  destruct (Reconcile_honest c req w t _ w' t' Hr) as [Hsuf Hcalm]. pose proof (failures_suffix _ _ Hsuf) as Hle.
  destruct (reconcile_others c req w t _ w' t' Hok Ht Hr) as (Hok' & Hn' & _).
  split_and!; [done|done|done|done| |done| |].
  - destruct (Reconcile_framed mem c req w t _ w' t' Hok Hn Hr) as [[_ ->]|(o & Ho & _ & _ & _ & _ & Hf)]; [done|].
    eapply framed_table_ok; [by apply Hh|done..].
  - intros Hx. destruct (decide (failures w' = failures w)) as [He|]; [|lia].
    destruct (calm_succeeds req w t Hcm Hok Ht Hh) as (w1 & t1 & Hr1). rewrite (Hcalm He) in Hr1. destruct Hx. by simplify_eq.
  - intros o Ho [Hd _] He. destruct err as [e|]; [|done]. by eapply Hkeep.
Qed.
End resilient.

(** ** Properties *)

(** C22: error. A reconciliation withstands failures. Any calls of the API server
    fail, before they had an effect or after it with the answer lost; the object
    of the request is missing, or to be served, or on its way out (being deleted,
    written with [spec.hosts] and not [spec.host], held by the operator's finalizer
    and no other), with hosts and a target that JSON carries; the routing ConfigMap
    exists with data, and the operator's table is one JSON can carry. Then the
    reconciliation does not panic and returns an outcome; the ConfigMap keeps its
    shape; it stores at most two versions of the ConfigMap, each of which readers
    can read, and the last of them, if any, is the one that is there; the
    operator's table can still be published; an outcome that makes the controller
    try again has used up a failure; and an object on its way out whose
    reconciliation reports an error is still there, with its finalizer, for the
    next attempt, or it is gone with its hosts out of the table and of the
    published one, and only the answer was lost. *)
Theorem Reconcile_withstands (c : reconciler) (req : objKey) (w w' : MemCluster) (t t' : Table) (r : res outcome) :
  let ns := OperatorConfig.base_CurrentNamespace (BaseConfig c) in
  cm_good ns (mem w) → hso_ok (mem w) → table_ok t →
  (∀ o, httpscaledobjects (mem w) !! req = Some o → handled c o) →
  Reconcile c req w t = (r, (w', t')) →
  ∃ after err, r = Ok (after, err)
  ∧ cm_good ns (mem w')
  ∧ (∃ vs, stored w' = stored w ++ vs ∧ (length vs ≤ 2)%nat
     ∧ Forall (λ cm, cm_key cm = routing_key ns ∧ ∃ t2, FetchTableFromConfigMap cm = Ok t2) vs
     ∧ configmaps (mem w') !! routing_key ns
       = match last vs with Some cm => Some cm | None => configmaps (mem w) !! routing_key ns end)
  ∧ table_ok t'
  ∧ ((after, err) ≠ (0%Z, None) → failures w' < failures w)%nat
  ∧ ∀ o, httpscaledobjects (mem w) !! req = Some o → departing o → err ≠ None →
      (∃ o', httpscaledobjects (mem w') !! req = Some o' ∧ hso_Finalizers o' = [httpScaledObjectFinalizer]
       ∧ hso_DeletionTimestamp o' = hso_DeletionTimestamp o ∧ hso_Spec o' = hso_Spec o)
      ∨ (httpscaledobjects (mem w') !! req = None
         ∧ removed (default [] (spec_Hosts (hso_Spec o))) (entries t) (entries t') ∧ published (mem w') ns = Ok t').
Proof.
  intros ns Hcm Hok Ht Hh Hr.
  destruct (Reconcile_resilient c req w t r w' t' Hcm Hok Ht Hh Hr)
    as (after & err & Hx & Hcm' & (vs & Hst & Hu & Hlast) & _ & Ht' & _ & Hlt & Hkeep).
  exists after, err. split_and!; [done|done| |done|done|].
  - exists vs. split_and!; [done| | |done].
    + apply Reconcile_writes in Hr. rewrite Hst, length_app in Hr. lia.
    + eapply Forall_impl; [exact Hu|]. intros cm Hcmu. split; [apply Hcmu|by eapply usable_table].
  - intros o Ho Hd He. pose proof (Hok _ _ Ho) as Hk.
    destruct (Hkeep o Ho Hd He) as [(o' & Ho' & _ & _ & Hdt & Hf & Hs)|(Hgone & ? & ?)]; rewrite Hk in *; [left|by right].
    exists o'. split_and!; [done| |done|done]. rewrite Hf. by destruct Hd as (_ & ? & _).
Qed.

(** The three objects, and a server that refuses a call and loses the answers of
    two. *)
Definition demo_fates : list fate :=
  [Served; Refused (ApiOther "refused"); Served; Served; Lost (ApiOther "timeout"); Served; Served; Lost (ApiOther "timeout")].

Definition demo_flaky : MemCluster := mkMem (mem demo_three) demo_fates 1 [].

Lemma demo_three_whole k o : httpscaledobjects (mem demo_three) !! k = Some o → object_ok (BaseConfig demo_config) o.
Proof.
  intros [[-> ->]|[[-> ->]|[-> ->]]]%demo_three_lookup; apply demo_object_ok; intros hs [= <-];
    (apply Forall_cons_2; [solve_utf8|by apply Forall_nil]).
Qed.

Lemma Reconcile_withstands_witness :
  ∃ w' t' e, Reconcile demo_config (ObjKey "dp-1" "old") demo_flaky NewTable = (Ok (1000 * Millisecond, Some e), (w', t'))
  ∧ (failures w' < failures demo_flaky)%nat ∧ is_Some (httpscaledobjects (mem w') !! ObjKey "dp-1" "old").
Proof.
  destruct (Reconcile demo_config (ObjKey "dp-1" "old") demo_flaky NewTable) as [r [w' t']] eqn:Hr.
  pose proof (f_equal fst Hr) as Hx. vm_compute in Hx. simpl in Hx.
  destruct (Reconcile_withstands demo_config (ObjKey "dp-1" "old") demo_flaky w' NewTable t' r)
    as (after & err & Hre & _ & _ & _ & Hlt & Hkeep); [| | | |exact Hr|].
  - eexists _, _. split_and!; [apply lookup_singleton_eq|done|done].
  - apply demo_three_reconcilable.
  - eexists. split; [done|]. apply map_Forall_empty.
  - intros o Ho. split; [by apply (rc_kinds _ _ demo_three_reconcilable _ _ Ho)|by eapply demo_three_whole].
  - rewrite Hre in Hx. injection Hx as <- <-. exists w', t'. eexists. rewrite Hre. split_and!; [reflexivity|by apply Hlt|].
    destruct (Hkeep (demo_hso "old" (Some ["old.dp-1"]) None (Some "2023-01-02T00:00:00Z") [httpScaledObjectFinalizer]))
      as [(o' & Ho' & _)|(Hgone & _)]; [by vm_compute|split_and!; by eauto|done|by exists o'|].
    exfalso. pose proof (f_equal (λ x, httpscaledobjects (mem (fst (snd x))) !! ObjKey "dp-1" "old") Hr) as Hp.
    cbn [fst snd] in Hp. rewrite Hgone in Hp. by vm_compute in Hp.
Defined.
