(* ===== verification/OperatorRecover.v ===== *)
(** * The controller recovers from failures of the API (operator/controllers/http)

    OperatorController runs the controller's queue on a server that serves every
    call. Here calls fail, at any point and any finite number of times: requests
    are put back, creations rolled back, and the controller still ends with the
    table it should have. *)

From S2P Require Import Prelude GoStrings GoUrl Json Queue Routing ConfigMaps Net Config K8s Hso Kube Operator OperatorProofs OperatorLive OperatorFrame OperatorConverge OperatorController OperatorFailures.

(** ** What is left to do

    As [progress], with failures to come: [D] has the objects that are as they
    should be; one whose reconciliation failed leaves it. *)

Section recover.
Context (c : reconciler) (c0 : cluster).
#[local] Abbreviation base := (BaseConfig c).
#[local] Abbreviation ns := (OperatorConfig.base_CurrentNamespace (BaseConfig c)).
Context (Hrc : reconcilable c c0) (Hwhole : ∀ k o, httpscaledobjects c0 !! k = Some o → object_ok (BaseConfig c) o).
Implicit Types (o : HTTPScaledObject) (w : MemCluster) (t : Table) (D : list objKey).

(** No failure is taken for the absence of an object. *)
Definition transient (x : fate) : Prop :=
  match x with Served => True | Refused e | Lost e => IsNotFound e = false end.

Record recovering D w t : Prop := {
  rv_script : Forall transient (script w);
  rv_cm : cm_good ns (mem w);
  rv_ok : hso_ok (mem w);
  rv_table : table_ok t;
  rv_living : ∀ k o, httpscaledobjects c0 !! k = Some o → living c o →
    ∃ o', httpscaledobjects (mem w) !! k = Some o' ∧ alike o o';
  rv_gone : ∀ k o, httpscaledobjects c0 !! k = Some o → departing o → k ∈ D → httpscaledobjects (mem w) !! k = None;
  rv_waiting : ∀ k o, httpscaledobjects c0 !! k = Some o → departing o → k ∉ D →
    ∃ o', httpscaledobjects (mem w) !! k = Some o' ∧ same_core o o';
  rv_absent : ∀ k, httpscaledobjects c0 !! k = None → httpscaledobjects (mem w) !! k = None;
  rv_routed : routed c c0 D t;
  rv_published : published (mem w) ns = Ok t ∨ ∃ k, (k ∉ D) ∧ is_Some (httpscaledobjects c0 !! k);
}.

(** An object of the cluster, and what has become of it. *)
Lemma recovering_object D w t k o :
  recovering D w t → httpscaledobjects (mem w) !! k = Some o →
  ∃ o0, httpscaledobjects c0 !! k = Some o0 ∧ alike o0 o
  ∧ (living c o0 ∨ departing o0 ∧ (k ∉ D) ∧ hso_Finalizers o = [httpScaledObjectFinalizer]).
Proof.
  intros [_ _ _ _ Hl Hg Hw Ha _ _] Ho. destruct (httpscaledobjects c0 !! k) as [o0|] eqn:Ho0; [|by rewrite (Ha k Ho0) in Ho].
  exists o0. split; [done|]. destruct (rc_kinds _ _ Hrc k o0 Ho0) as [Hlv|Hdp].
  - destruct (Hl k o0 Ho0 Hlv) as (o' & Ho' & Hal). assert (o' = o) as -> by congruence. split; [done|by left].
  - destruct (decide (k ∈ D)) as [Hin|Hin]; [by rewrite (Hg k o0 Ho0 Hdp Hin) in Ho|].
    destruct (Hw k o0 Ho0 Hdp Hin) as (o' & Ho' & Hns & Hn & Hd & Hf & Hs). assert (o' = o) as -> by congruence.
    split; [done|]. right. split_and!; [done|done|]. rewrite Hf. by destruct Hdp as (_ & ? & _).
Qed.

Lemma recovering_present D w t k o :
  recovering D w t → httpscaledobjects c0 !! k = Some o → k ∈ D ∨ is_Some (httpscaledobjects (mem w) !! k).
Proof.
  intros Hrv Ho. destruct (decide (k ∈ D)) as [?|Hin]; [by left|right]. destruct (rc_kinds _ _ Hrc k o Ho) as [Hlv|Hdp].
  - destruct (rv_living _ _ _ Hrv k o Ho Hlv) as (o' & ? & _). by exists o'.
  - destruct (rv_waiting _ _ _ Hrv k o Ho Hdp Hin) as (o' & ? & _). by exists o'.
Qed.

Lemma recovering_handled D w t k o :
  recovering D w t → httpscaledobjects (mem w) !! k = Some o → handled c o.
Proof.
  intros Hrv Ho. destruct (recovering_object D w t k o Hrv Ho) as (o0 & Ho0 & Hal & Hk). pose proof Hal as (_ & _ & Hd & Hs).
  split; [destruct Hk as [Hlv|((? & _ & ? & ?) & _ & Hf)]; [left; by eapply alike_living|right]|].
  - unfold departing. by rewrite Hd, Hs.
  - destruct (Hwhole k o0 Ho0) as [Hu Ht]. split; [by rewrite (alike_hosts _ _ Hal)|].
    intros ref. rewrite Hs, (alike_target _ _ _ _ Hal). apply Ht.
Qed.

(** What a reconciliation leaves, whatever it meets. *)
Lemma recovering_resilient D k w t r w' t' :
  recovering D w t → Reconcile c k w t = (r, (w', t')) →
  ∃ after err, r = Ok (after, err)
  ∧ Forall transient (script w') ∧ cm_good ns (mem w') ∧ told ns w w' ∧ hso_ok (mem w') ∧ table_ok t'
  ∧ (∀ k', k' ≠ k → httpscaledobjects (mem w') !! k' = httpscaledobjects (mem w) !! k')
  ∧ (failures w' ≤ failures w)%nat ∧ ((after, err) ≠ (0%Z, None) → failures w' < failures w)%nat
  ∧ ∀ o, httpscaledobjects (mem w) !! k = Some o → departing o → err ≠ None →
      still_there o (mem w') ∨ gone_for_good c o t (mem w') t'.
Proof.
  intros Hrv Hr. pose proof Hrv as [Hscr Hcm Hok Ht _ _ _ _ _ _].
  destruct (Reconcile_resilient c k w t r w' t' Hcm Hok Ht (λ o, recovering_handled D w t k o Hrv) Hr)
    as (after & err & -> & Hcm' & Hrd & Hok' & Ht' & Hle & Hlt & Hkeep). exists after, err.
  destruct (Reconcile_honest c k w t _ w' t' Hr) as [[l Hl] _]. destruct (reconcile_others c k w t _ w' t' Hok Ht Hr) as (_ & _ & Hne).
  split_and!; try done. rewrite Hl in Hscr. by apply Forall_app in Hscr as [_ ?].
Qed.

(** The routes of a failed reconciliation are those of its object. *)
Lemma routed_failed D k o t t' :
  routed c c0 D t → httpscaledobjects c0 !! k = Some o → routes_framed base o t t' → routed c c0 (filter (.≠ k) D) t'.
Proof.
  intros [Hs Hc] Ho Hf. pose proof (rc_kinds _ _ Hrc k o Ho) as Hk. split.
  - intros h x Hx. destruct (Hf h) as [He|[Hh [He|(ref & Href & He)]]]; rewrite Hx in He; [|done|].
    + destruct (Hs h x (eq_sym He)) as (k' & o' & Ho' & Hcl & Hd). exists k', o'. split_and!; [done|done|].
      intros Hdp [_ Hin]%list_elem_of_filter. by apply Hd.
    + injection He as ->. exists k, o. split_and!; [done|by apply (claims_all_hosts c)|]. by intros _ [Hne _]%list_elem_of_filter.
  - intros k' o' h x [Hne Hin]%list_elem_of_filter Ho' Hlv Hcl. destruct (Hf h) as [->|[Hh _]]; [by eapply Hc|]. exfalso.
    assert (is_Some (spec_ScaleTargetRef (hso_Spec o))) as [ref Href] by (destruct Hk as [(_ & _ & ? & _)|(_ & _ & ? & _)]; done).
    by destruct (claims_unique c c0 _ _ _ _ _ _ _ Hrc Ho Ho' (claims_all_hosts c o h ref Hk Href Hh) Hcl).
Qed.

Lemma alike_framed o o' t t' : alike o o' → routes_framed base o' t t' → routes_framed base o t t'.
Proof.
  intros Ha Hf h. pose proof Ha as (_ & _ & _ & Hs). destruct (Hf h) as [?|[Hh Hx]]; [by left|right].
  unfold all_hosts in *. rewrite Hs in *. split; [done|]. destruct Hx as [?|(ref & Href & Hx)]; [by left|right].
  exists ref. split; [done|]. by rewrite <-(alike_target _ _ _ _ Ha).
Qed.

Context (generation : MemCluster → objKey → Z) `{!GenerationLaws mem generation}.

(** The other objects, and the specs, whatever the outcome. *)
Lemma recovering_alike D k w t r w' t' k' o :
  recovering D w t → Reconcile c k w t = (r, (w', t')) → httpscaledobjects c0 !! k' = Some o → living c o →
  ∃ o', httpscaledobjects (mem w') !! k' = Some o' ∧ alike o o'.
Proof.
  intros Hrv Hr Ho Hlv. destruct (rv_living _ _ _ Hrv k' o Ho Hlv) as (o1 & Ho1 & Hal). pose proof (rv_ok _ _ _ Hrv) as Hok.
  destruct (Reconcile_settled mem generation w c k t r w' t' Hok Hr) as [Hok' Hs Ht].
  pose proof (alike_living c _ _ Hal Hlv) as [Hd1 _]. destruct (Ht k' o1 Ho1 Hd1) as [o2 Ho2]. exists o2. split; [done|].
  destruct (Hs k' o2 Ho2) as (o1' & Ho1' & [Hsp Hd] & _). assert (o1' = o1) as -> by congruence.
  pose proof (Hok _ _ Ho1) as Hk1. pose proof (Hok' _ _ Ho2) as Hk2. rewrite <-Hk1 in Hk2. injection Hk2 as Hns Hn.
  destruct Hal as (? & ? & ? & ?). unfold alike. split_and!; congruence.
Qed.

(** A reconciliation that reports an error, of an object that is there, and stays
    if it is on its way out. *)
Lemma recovering_failed D k w t d e w' t' o1 :
  recovering D w t → httpscaledobjects (mem w) !! k = Some o1 → Reconcile c k w t = (Ok (d, Some e), (w', t')) →
  (departing o1 → still_there o1 (mem w')) → recovering (filter (.≠ k) D) w' t'.
Proof.
  intros Hrv Ho1 Hr Hkeep. pose proof Hrv as [Hscr Hcm Hok Ht _ Hg Hw Ha Hrt _].
  destruct (recovering_object D w t k o1 Hrv Ho1) as (o & Ho & Hal & Hkind).
  destruct (recovering_resilient D k w t _ w' t' Hrv Hr)
    as (d' & e' & [= <- <-] & Hscr' & Hcm' & _ & Hok' & Ht' & Hne & _).
  assert (routes_framed base o t t') as Hf.
  { apply (alike_framed o o1); [done|]. destruct (Reconcile_framed mem c k w t _ w' t' Hok (table_ok_not_nil _ Ht) Hr)
      as [[_ ->]|(o2 & Ho2 & _ & _ & _ & _ & Hf)]; [by intros h; left|]. by assert (o2 = o1) as -> by congruence. }
  split; [done|done|done|done| | | | | |].
  - intros k' o2 Ho2 Hlv. by eapply (recovering_alike D k w t).
  - intros k' o2 Ho2 Hdp [Hk' Hin]%list_elem_of_filter. rewrite Hne by done. by eapply Hg.
  - intros k' o2 Ho2 Hdp Hin. destruct (decide (k' = k)) as [->|Hk'].
    + assert (o2 = o) as -> by congruence. destruct Hkind as [Hlv|(_ & Hin' & _)]; [by destruct (living_departing c o)|].
      destruct (Hw k o Ho Hdp Hin') as (o1' & Ho1' & Hc1). assert (o1' = o1) as -> by congruence.
      destruct Hkeep as (o' & Ho' & Hc'); [|rewrite (Hok _ _ Ho1) in Ho'; exists o'; split; [done|by etransitivity]].
      destruct Hc1 as (_ & _ & Hd1 & Hf1 & Hs1). unfold departing. by rewrite Hd1, Hf1, Hs1.
    + rewrite Hne by done. apply (Hw k' o2 Ho2 Hdp). intros Hin'. apply Hin. by apply list_elem_of_filter.
  - intros k' Hk'. rewrite Hne by congruence. by apply Ha.
  - by eapply routed_failed.
  - right. exists k. split; [by intros [? _]%list_elem_of_filter|by exists o].
Qed.

Lemma recovering_same D w t w' :
  recovering D w t → mem w' = mem w → script w' `suffix_of` script w → recovering D w' t.
Proof.
  intros [H1 H2 H3 H4 H5 H6 H7 H8 H9 H10] Hm [l Hl]. split; rewrite ?Hm; try done. rewrite Hl in H1. by apply Forall_app in H1 as [_ ?].
Qed.

(** The object a call does not find is not there. *)
Lemma get_missing w k e w1 :
  Forall transient (script w) → Get_HTTPScaledObject k w = (Err e, w1) → IsNotFound e = true →
  httpscaledobjects (mem w) !! k = None.
Proof.
  cbn [Get_HTTPScaledObject MemCluster_client]. unfold served. intros Hf Hg He.
  destruct (httpscaledobjects (mem w) !! k); [|done]. cbn [found] in Hg.
  destruct (script w) as [|[|e'|e'] l]; simplify_eq/=; apply Forall_cons in Hf as [Hf _]; simpl in Hf; congruence.
Qed.

Lemma cm_good_ok cl : cm_good ns cl → routing_cm_ok cl ns.
Proof. intros (cm & d & Hcm & Hk & _) cm' Hcm'. congruence. Qed.

(** A reconciliation that reports none, of an object to serve. *)
Lemma recovering_living D k w t d w' t' o1 o w1 :
  recovering D w t → Get_HTTPScaledObject k w = (Ok o1, w1) → httpscaledobjects c0 !! k = Some o → alike o o1 → living c o →
  Reconcile c k w t = (Ok (d, None), (w', t')) → recovering (k :: D) w' t'.
Proof.
  intros Hrv Hget Ho Hal Hlv Hr. pose proof Hrv as [Hscr Hcm Hok Ht _ Hg Hw Ha Hrt _].
  pose proof (alike_living c _ _ Hal Hlv) as (Hd1 & _ & _ & Hobj).
  destruct (recovering_resilient D k w t _ w' t' Hrv Hr) as (d' & e' & _ & Hscr' & Hcm' & _ & Hok' & Ht' & Hne & _).
  destruct (reconcile_creation mem c k w w1 w' t t' o1 d Hget Hd1 Hok (cm_good_ok _ Hcm) Ht Hobj Hr)
    as (hosts & ref & so & Hhosts & Href & Hadd & Hpub & _).
  rewrite (alike_hosts _ _ Hal) in Hhosts. rewrite (alike_target _ _ _ _ Hal) in Hadd.
  pose proof Hal as (_ & _ & _ & Hsp). rewrite Hsp in Href.
  assert (∀ k' o2, httpscaledobjects c0 !! k' = Some o2 → departing o2 → k' ≠ k) as Hdk
    by (intros k' o2 Ho2 Hdp ->; apply (living_departing c o); [done|congruence]).
  split; [done|done|done|done| | | | | |by left].
  - intros k' o2 Ho2 Hl2. by eapply (recovering_alike D k w t).
  - intros k' o2 Ho2 Hdp Hin. pose proof (Hdk k' o2 Ho2 Hdp). rewrite Hne by done. eapply Hg; [done|done|set_solver].
  - intros k' o2 Ho2 Hdp Hin. pose proof (Hdk k' o2 Ho2 Hdp). rewrite Hne by done. eapply Hw; [done|done|set_solver].
  - intros k' Hk'. rewrite Hne by congruence. by apply Ha.
  - by eapply routed_living.
Qed.

(** One that is on its way out and is gone with its routes. *)
Lemma recovering_departed D k w t r w' t' o1 o :
  recovering D w t → httpscaledobjects (mem w) !! k = Some o1 → httpscaledobjects c0 !! k = Some o → departing o → k ∉ D →
  Reconcile c k w t = (r, (w', t')) → gone_for_good c o1 t (mem w') t' → recovering (k :: D) w' t'.
Proof.
  intros Hrv Ho1 Ho Hdp HkD Hr (Hgone & Hrem & Hpub). pose proof Hrv as [Hscr Hcm Hok Ht _ Hg Hw Ha Hrt _].
  rewrite (Hok _ _ Ho1) in Hgone.
  destruct (Hw k o Ho Hdp HkD) as (o1' & Ho1' & Hc1). assert (o1' = o1) as -> by congruence.
  destruct Hc1 as (_ & _ & _ & _ & Hs1). rewrite Hs1 in Hrem.
  destruct (recovering_resilient D k w t _ w' t' Hrv Hr) as (d' & e' & _ & Hscr' & Hcm' & _ & Hok' & Ht' & Hne & _).
  split; [done|done|done|done| | | | | |by left].
  - intros k' o2 Ho2 Hl2. by eapply (recovering_alike D k w t).
  - intros k' o2 Ho2 Hdp2 Hin. destruct (decide (k' = k)) as [->|Hk']; [done|].
    rewrite Hne by done. eapply Hg; [done|done|set_solver].
  - intros k' o2 Ho2 Hdp2 Hin. rewrite Hne by set_solver. eapply Hw; [done|done|set_solver].
  - intros k' Hk'. rewrite Hne by congruence. by apply Ha.
  - by eapply routed_departing.
Qed.

Lemma recovering_departing D k w t d w' t' o1 o w1 :
  recovering D w t → Get_HTTPScaledObject k w = (Ok o1, w1) → httpscaledobjects (mem w) !! k = Some o1 →
  httpscaledobjects c0 !! k = Some o → departing o → k ∉ D → Reconcile c k w t = (Ok (d, None), (w', t')) →
  recovering (k :: D) w' t'.
Proof.
  intros Hrv Hget Ho1 Ho Hdp HkD Hr. eapply recovering_departed; [done..|]. pose proof Hrv as [_ Hcm Hok Ht _ _ Hw _ _ _].
  destruct (Hw k o Ho Hdp HkD) as (o1' & Ho1' & Hc1). assert (o1' = o1) as -> by congruence.
  destruct Hc1 as (_ & _ & Hd1 & Hf1 & _). pose proof Hdp as ([ts Hts] & Hfin & _). rewrite Hts in Hd1. rewrite Hfin in Hf1.
  destruct (reconcile_deletion mem c k w w1 w' t t' o1 d ts Hget Hd1) as (Hrem & Hpub & _ & _ & Hgone);
    [by rewrite Hf1|done|by apply cm_good_ok|done|exact Hr|].
  split_and!; [|done|done]. rewrite (Hok _ _ Ho1). by apply Hgone.
Qed.

(** Any outcome: what was as it should be stays so, but for the object of a
    reconciliation that reports an error. *)
Lemma recovering_step D k w t d err w' t' :
  recovering D w t → Reconcile c k w t = (Ok (d, err), (w', t')) →
  ∃ D', recovering D' w' t' ∧ (∀ k', k' ∈ D → k' ≠ k → k' ∈ D') ∧ (err = None → is_Some (httpscaledobjects c0 !! k) → k ∈ D').
Proof.
  intros Hrv Hr. pose proof Hr as Hr'. unfold Reconcile in Hr'. pose proof (Get_HTTPScaledObject_law (view := mem) k w) as Hl.
  destruct (Get_HTTPScaledObject k w) as [[o1|e|p] w1] eqn:Eg; [| |done].
  - clear Hr'. destruct Hl as [_ Ho1]. destruct (recovering_object D w t k o1 Hrv Ho1) as (o & Ho & Hal & Hkind).
    destruct err as [e|].
    { destruct (recovering_resilient D k w t _ w' t' Hrv Hr) as (d' & e' & [= <- <-] & _ & _ & _ & _ & _ & _ & _ & _ & Hkeep).
      assert (recovering (k :: D) w' t' ∨ (departing o1 → still_there o1 (mem w'))) as [Hrv'|Hst].
      { destruct Hkind as [Hlv|(Hdp & Hin & Hf)].
        - right. intros Hd1. destruct (living_departing c o1); [by eapply alike_living|done].
        - destruct (Hkeep o1 Ho1) as [?|?]; [|done|by right|left; by eapply recovering_departed].
          pose proof Hal as (_ & _ & Hd & Hs). destruct Hdp as (? & _ & ? & ?). unfold departing. by rewrite Hd, Hs. }
      - exists (k :: D). split_and!; [done|set_solver|done].
      - exists (filter (.≠ k) D). split_and!; [by eapply recovering_failed| |done]. intros k' Hin Hne. by apply list_elem_of_filter. }
    exists (k :: D). split_and!; [|set_solver|set_solver]. destruct Hkind as [Hlv|(Hdp & Hin & _)];
      [by eapply recovering_living|by eapply recovering_departing].
  - destruct (honest_served _ _ _ _ Eg) as [Hsuf _]. assert (mem w1 = mem w) as Hm by (destruct Hl as [?|(? & ? & _)]; done).
    exists D. destruct (IsNotFound e) eqn:En; injection Hr' as <- <- <- <-; (split_and!; [by eapply recovering_same|done|]); [|done].
    intros _ [o Ho]. pose proof (get_missing w k e w1 (rv_script _ _ _ Hrv) Eg En) as Hnone.
    destruct (recovering_present D w t k o Hrv Ho) as [?|[o' ?]]; [done|congruence].
Qed.

(** ** The controller's queue *)

(** Every object is as it should be, or there is a request for it. *)
Definition pursued D (s : controller MemCluster) : Prop :=
  recovering D (c_world s) (c_table s) ∧ ∀ k, is_Some (httpscaledobjects c0 !! k) → k ∈ D ∨ k ∈ c_requests s.

(** The work that is left at most. *)
Definition work (s : controller MemCluster) : nat := rank mem s + failures (c_world s).

Lemma pursued_step D s s' : pursued D s → cstep mem generation c s s' → (∃ D', pursued D' s') ∧ (work s' < work s)%nat.
Proof.
  intros [Hrv Hcov] Hs. destruct Hs as [s k [d err] w t Hk Hr]. split.
  - destruct (recovering_step D k _ _ d err w t Hrv Hr) as (D' & Hrv' & HD & Hdone). exists D'. split; [done|]. simpl.
    intros k' Hk'. destruct (decide (k' = k)) as [->|Hne]; [|destruct (Hcov k' Hk'); [left; by apply HD|right; set_solver]].
    destruct err as [e|]; [right|left; by apply Hdone]. rewrite decide_False by (intros [? _]; done). set_solver.
  - destruct (triggered_doomed mem generation c k _ _ _ _ _ (rv_ok _ _ _ Hrv) Hr) as (Hsub & Hd & _).
    destruct (recovering_resilient D k _ _ _ _ _ Hrv Hr) as (d' & e' & [= <- <-] & _ & _ & _ & _ & _ & _ & Hle & Hlt & _). unfold work, rank, put_back. cbn [c_requests c_world].
    case_decide as Hx.
    + destruct Hx as [-> ->]. rewrite (union_empty_r_L (c_requests s ∖ {[k]})).
      pose proof (size_trade (c_requests s) _ _ _ k Hk Hsub Hd). lia.
    + assert (failures w < failures (c_world s))%nat by (apply Hlt; intros [=]; auto).
      assert (c_requests s ∖ {[k]} ∪ {[k]} = c_requests s) as -> by (rewrite difference_union_L; set_solver).
      pose proof (size_join (c_requests s) _ _ _ Hsub Hd). lia.
Qed.

Lemma pursued_run D s s' n :
  pursued D s → nsteps (cstep mem generation c) n s s' → (∃ D', pursued D' s') ∧ (n + work s' ≤ work s)%nat.
Proof.
  intros Hp Hs. revert D Hp. induction Hs as [s|n s s1 s2 Hs _ IH]; intros D Hp; [by eauto with lia|].
  destruct (pursued_step D s s1 Hp Hs) as [[D1 Hp1] Hlt]. destruct (IH D1 Hp1) as [? ?]. split; [done|lia].
Qed.

(** No request is one the controller cannot take. *)
Lemma pursued_takes D s k : pursued D s → k ∈ c_requests s → ∃ s', cstep mem generation c s s'.
Proof.
  intros [Hrv _] Hk. destruct (Reconcile c k (c_world s) (c_table s)) as [r [w t]] eqn:Hr.
  destruct (recovering_resilient D k _ _ _ _ _ Hrv Hr) as (d & e & -> & _). eexists. by eapply c_reconcile.
Qed.

Lemma pursued_converged D s :
  pursued D s → c_requests s = ∅ → converged c c0 (c_world s) (c_table s).
Proof.
  intros [[_ _ _ _ Hl Hg _ Ha [Hsn Hcm] Hp] Hcov] He.
  assert (∀ k, is_Some (httpscaledobjects c0 !! k) → k ∈ D) as Hin by (intros k Hk; destruct (Hcov k Hk); set_solver).
  split_and!.
  - destruct Hp as [?|(k & Hk & Hi)]; [done|]. by destruct Hk; apply Hin.
  - intros h x. split.
    + intros (k & o & Ho & Hc & Hdn)%Hsn. exists k, o. split_and!; [done| |done].
      destruct (rc_kinds _ _ Hrc k o Ho) as [?|Hdp]; [done|]. destruct (Hdn Hdp). apply Hin. by exists o.
    + intros (k & o & Ho & Hlv & Hc). eapply Hcm; [apply Hin; by exists o|done..].
  - intros k. split.
    + intros [o' Ho']. destruct (httpscaledobjects c0 !! k) as [o|] eqn:Ho; [|by rewrite (Ha k Ho) in Ho'].
      exists o. split; [done|]. destruct (rc_kinds _ _ Hrc k o Ho) as [?|Hdp]; [done|].
      rewrite (Hg k o Ho Hdp) in Ho'; [done|]. apply Hin. by exists o.
    + intros (o & Ho & Hlv). destruct (Hl k o Ho Hlv) as (o' & Ho' & _). by exists o'.
Qed.

(** The ConfigMap between two states: at most two new versions, which readers
    can read. *)
Lemma pursued_told D s s' :
  pursued D s → cstep mem generation c s s' →
  told ns (c_world s) (c_world s') ∧ (length (stored (c_world s')) ≤ length (stored (c_world s)) + 2)%nat.
Proof.
  intros [Hrv _] Hs. destruct Hs as [s k x w t _ Hr]. split; [|by apply Reconcile_writes in Hr].
  by destruct (recovering_resilient D k _ _ _ _ _ Hrv Hr) as (d & e & _ & _ & _ & ? & _).
Qed.
End recover.

(** Before the first request. *)
Lemma pursued_init c w t requests :
  cm_good (OperatorConfig.base_CurrentNamespace (BaseConfig c)) (mem w) → Forall transient (script w) →
  reconcilable c (mem w) → table_ok t →
  (∀ h x, entries t !! h = Some x → ∃ k o, httpscaledobjects (mem w) !! k = Some o ∧ claims c o h x) →
  (∀ k, is_Some (httpscaledobjects (mem w) !! k) → k ∈ requests) → httpscaledobjects (mem w) ≠ ∅ →
  pursued c (mem w) [] (mkController w t requests).
Proof.
  intros Hcm Hscr Hrc Ht Hs Hreq Hne. split; [|intros k Hk; right; by apply Hreq]. simpl.
  split; [done|done|apply Hrc|done|by intros k o Ho _; exists o|by intros k o _ _ ?%elem_of_nil|by intros k o Ho _ _; exists o|done| |].
  - split; [|by intros k o h x ?%elem_of_nil]. intros h x Hx. destruct (Hs h x Hx) as (k & o & ? & ?).
    exists k, o. split_and!; [done|done|]. intros _. apply not_elem_of_nil.
  - right. destruct (map_choose _ Hne) as (k & o & Ho). exists k. split; [apply not_elem_of_nil|by exists o].
Qed.

(** ** Properties *)

(** The controller recovers: when calls of the API server fail, at
    any point and any finite number of times, with or without effect (other than by
    reporting an object as missing), with objects that can be served or are on their way out and
    share no host, and a request for every object, no run of the controller has
    more reconciliations than there are requests, objects marked as deleted and
    failures; none panics, so it never gets stuck with requests left; and when
    none is left, the table is exactly the union of the routes of the objects to
    serve, it is published, and the objects on their way out are gone. *)
Theorem controller_recovers (c : reconciler) (generation : MemCluster → objKey → Z) `{!GenerationLaws mem generation}
    (w : MemCluster) (t : Table) (requests : gset objKey) :
  cm_good (OperatorConfig.base_CurrentNamespace (BaseConfig c)) (mem w) → Forall transient (script w) →
  reconcilable c (mem w) → (∀ k o, httpscaledobjects (mem w) !! k = Some o → object_ok (BaseConfig c) o) → table_ok t →
  (∀ h x, entries t !! h = Some x → ∃ k o, httpscaledobjects (mem w) !! k = Some o ∧ claims c o h x) →
  (∀ k, is_Some (httpscaledobjects (mem w) !! k) → k ∈ requests) → httpscaledobjects (mem w) ≠ ∅ →
  ∀ n s, nsteps (cstep mem generation c) n (mkController w t requests) s →
  (n ≤ size requests + size (doomed mem w) + failures w)%nat
  ∧ ((∃ s', cstep mem generation c s s') ∨ (c_requests s = ∅ ∧ converged c (mem w) (c_world s) (c_table s))).
Proof.
  intros Hcm Hscr Hrc Hwhole Ht Hs Hreq Hne n s Hn.
  pose proof (pursued_init c w t requests Hcm Hscr Hrc Ht Hs Hreq Hne) as H0.
  destruct (pursued_run c (mem w) Hrc Hwhole generation _ _ _ _ H0 Hn) as [[D Hp] Hle].
  split; [unfold work, rank in Hle; simpl in Hle; lia|]. destruct (decide (c_requests s = ∅)) as [He|He].
  - right. split; [done|]. by eapply pursued_converged.
  - left. apply set_choose_L in He as [k Hk]. by eapply (pursued_takes c (mem w) Hrc Hwhole generation D s k).
Qed.

Lemma demo_timeouts : Forall transient demo_fates.
Proof. by repeat constructor. Qed.

Lemma controller_recovers_witness :
  (size (c_requests demo_controller) + size (doomed mem demo_flaky) + failures demo_flaky = 7)%nat
  ∧ ∃ s', cstep mem demo_generation demo_config (mkController demo_flaky NewTable (c_requests demo_controller)) s'.
Proof.
  split; [reflexivity|].
  destruct (controller_recovers demo_config demo_generation demo_flaky NewTable (c_requests demo_controller))
    with (n := 0%nat) (s := mkController demo_flaky NewTable (c_requests demo_controller)) as [_ [Hs|[He _]]].
  - eexists _, _. split_and!; [apply lookup_singleton_eq|done|done].
  - exact demo_timeouts.
  - apply demo_three_reconcilable.
  - exact demo_three_whole.
  - eexists. split; [done|]. apply map_Forall_empty.
  - intros h x Hx. done.
  - intros k [o [[-> _]|[[-> _]|[-> _]]]%demo_three_lookup]; unfold demo_controller; simpl; set_solver.
  - intros Hne. by apply (f_equal (lookup (ObjKey "dp-1" "shop"))) in Hne.
  - constructor.
  - exact Hs.
  - exfalso. assert (ObjKey "dp-1" "old" ∈ c_requests demo_controller) as Hin by (unfold demo_controller; simpl; set_solver).
    change (c_requests demo_controller = ∅) in He. rewrite He in Hin. set_solver.
Defined.
