(* ===== verification/OperatorPing.v ===== *)
(** * Pinging the interceptors with goroutines (operator/controllers/http/ping.go)

    [pingInterceptors] starts one goroutine per endpoint in an error group and
    waits for the group. Operator has it as a function that visits the endpoints
    in order; here the goroutines answer in any order. *)

From S2P Require Import Prelude GoStrings GoUrl Json Queue Routing ConfigMaps Net Config K8s Hso Kube Operator Supervise.

Section ping.
Context `{ErrgroupLaws G}.
(** What a GET of an address may return; nil when there was an answer, whatever
    its status. *)
Context (answers : string → option error → Prop).

(** The goroutines that are running, by address; the group; what the others
    returned, in this order. *)
Record ping_sys : Type := mkPing {
  running : list string;
  group : G;
  results : list (string * option error);
}.
Implicit Type s : ping_sys.

Definition ping_addr (u : URL) : string := URL_String u +:+ "/routing_ping".

Definition ping_init (urls : list URL) : ping_sys := mkPing (ping_addr <$> urls) (eg_Go (length urls)) [].

Inductive ping_step : ping_sys → ping_sys → Prop :=
| ping_returns s before a after r :
    running s = before ++ a :: after → answers a r →
    ping_step s (mkPing (before ++ after) (eg_return r (group s)) (results s ++ [(a, r)])).

(** [errGrp.Wait()], unless it blocks. *)
Definition ping_result s : option (option error) := eg_Wait (group s).

Record ping_inv (urls : list URL) s : Prop := {
  pi_group : group s = eg_run (length urls) (results s).*2;
  pi_all : running s ++ (results s).*1 ≡ₚ ping_addr <$> urls;
  pi_answers : Forall (λ x, answers x.1 x.2) (results s);
}.

Lemma ping_inv_init urls : ping_inv urls (ping_init urls).
Proof. split; simpl; [done|by rewrite app_nil_r|constructor]. Qed.

Lemma ping_inv_step urls s s' : ping_inv urls s → ping_step s s' → ping_inv urls s'.
Proof.
  intros [Hg Hp Ha] Hs. destruct Hs as [s before a after r Hr Hans]. split; simpl.
  - rewrite Hg. unfold eg_run. by rewrite fmap_app, foldl_app.
  - rewrite <-Hp, Hr, fmap_app. simpl. solve_Permutation.
  - apply Forall_app. by split; [|constructor].
Qed.

Lemma ping_inv_run urls s : rtc ping_step (ping_init urls) s → ping_inv urls s.
Proof.
  intros Hr. pose proof (ping_inv_init urls) as Hi. induction Hr as [|? ? ? Hs _ IH]; eauto using ping_inv_step.
Qed.

(** Every goroutine that is left, or has returned, is one endpoint's. *)
Lemma ping_inv_length urls s : ping_inv urls s → (length (running s) + length (results s) = length urls)%nat.
Proof. intros [_ Hp _]. apply Permutation_length in Hp. by rewrite length_app, !length_fmap in Hp. Qed.

Lemma first_of_None rs : first_of rs = None ↔ Forall (λ r, r = None) rs.
Proof.
  unfold first_of. induction rs as [|[e|] rs IH]; csimpl; [done| |].
  - split; [done|]. intros Hf. by apply Forall_cons in Hf as [? _].
  - rewrite IH. split; [by constructor|]. by intros [_ ?]%Forall_cons.
Qed.

Lemma first_of_Some rs e : first_of rs = Some e → Some e ∈ rs.
Proof.
  unfold first_of. induction rs as [|[e'|] rs IH]; csimpl; [done| |].
  - intros [= ->]. left.
  - intros He. right. by apply IH.
Qed.
End ping.

(** ** Properties *)

(** Whatever the order in which the interceptors answer: the caller waits until
    every one has, each is asked once, the result is nil exactly when all
    answered, and else the error of one of them; there are as many steps as
    endpoints, and none is stuck while each endpoint can answer. *)
Theorem ping_schedules `{ErrgroupLaws G} (answers : string → option error → Prop) (urls : list URL) (n : nat) (s : ping_sys) :
  nsteps (ping_step answers) n (ping_init (G := G) urls) s →
  (n ≤ length urls)%nat
  ∧ (ping_result s = None ↔ running s ≠ [])
  ∧ (running s ≠ [] → (∀ a, ∃ r, answers a r) → ∃ s', ping_step answers s s')
  ∧ (running s = [] →
     (results s).*1 ≡ₚ ping_addr <$> urls
     ∧ (ping_result s = Some None ↔ Forall (λ x, x.2 = None) (results s))
     ∧ ∀ e, ping_result s = Some (Some e) → ∃ a, (a, Some e) ∈ results s ∧ answers a (Some e)).
Proof.
  intros Hn. assert (ping_inv answers urls s) as Hi by (apply ping_inv_run, rtc_nsteps; by exists n).
  pose proof (ping_inv_length _ _ _ Hi) as Hl. destruct Hi as [Hg Hp Ha].
  assert (n = length (results s)) as ->.
  { clear Hg Hp Ha Hl. assert (∀ s0 : ping_sys, nsteps (ping_step answers) n s0 s → length (results s) = (n + length (results s0))%nat) as Hlen.
    { clear Hn. intros s0. induction 1 as [|m x y z Hs _ IH]; [done|]. rewrite IH. destruct Hs. simpl. rewrite length_app. simpl. lia. }
    rewrite (Hlen _ Hn). simpl. lia. }
  unfold ping_result. rewrite Hg. split_and!.
  - lia.
  - destruct (decide (length (results s) < length urls)%nat) as [Hlt|Hge].
    + rewrite Wait_blocks by (by rewrite length_fmap). split; [|done]. intros _ Hr. rewrite Hr in Hl. simpl in Hl. lia.
    + rewrite Wait_first by (rewrite length_fmap; lia). split; [done|]. intros Hr. destruct (running s); [done|simpl in Hl; lia].
  - intros Hr Hans. destruct (running s) as [|a l] eqn:E; [done|]. destruct (Hans a) as [r Har].
    eexists. by apply (ping_returns answers s [] a l r).
  - intros Hr. rewrite Hr in Hp, Hl. simpl in Hp, Hl. rewrite Wait_first by (rewrite length_fmap; lia). split_and!; [done| |].
    + rewrite (inj_iff Some), first_of_None, Forall_fmap. done.
    + intros e [= He%first_of_Some]. apply list_elem_of_fmap in He as ([a r] & -> & Hin). exists a. split; [done|].
      rewrite Forall_forall in Ha. by apply (Ha _ Hin).
Qed.

Lemma ping_schedules_witness :
  ∃ s : ping_sys (G := simple_group),
    nsteps (ping_step (λ _ r, r = None)) 1 (ping_init [mkURL "http" "" None "10.0.0.1:9090" "" "" ""]) s
    ∧ ping_result s = Some None.
Proof.
  set (urls := [mkURL "http" "" None "10.0.0.1:9090" "" "" ""]).
  assert (nsteps (ping_step (λ _ r, r = None)) 1 (ping_init (G := simple_group) urls)
    (mkPing [] (eg_return None (eg_Go 1)) [("http://10.0.0.1:9090/routing_ping", None)])) as Hn.
  { eapply nsteps_l; [|apply nsteps_O]. by apply (ping_returns _ (ping_init urls) [] "http://10.0.0.1:9090/routing_ping" [] None). }
  eexists. split; [exact Hn|]. destruct (ping_schedules (λ _ r, r = None) urls 1 _ Hn) as (_ & _ & _ & Hd).
  apply Hd; [done|]. by constructor.
Defined.
