(* ===== verification/OperatorProcess.v ===== *)
(** * The operator process (main of operator/main.go)

    Start-up, and the running process: the controller manager, which calls
    [Reconcile], and the admin server, over the cluster and one routing table
    that starts empty. *)

From S2P Require Import Prelude GoStrings GoUrl Json Http Queue Routing ConfigMaps Net Config K8s Admin Supervise InterceptorProcess Hso Kube Operator OperatorProofs OperatorFrame.

(** [NewBaseFromEnv]: what [envconfig.Process] reads. *)
Definition NewBaseFromEnv (process : res OperatorConfig.Base) : res OperatorConfig.Base := process.

(** [ensureConfigMap]: a clientset of its own, and one [Get]. *)
Definition ensureConfigMap (clientset : res unit) (get : string → string → res ConfigMap) (ns name : string) : res unit :=
  _ ← clientset;
  _ ← get ns name;
  Ok tt.

(** The controllers and the table, and the rest of the world. *)
Record ostate (W : Type) : Type := mkOperatorState {
  o_table : Table;
  o_world : W;
}.
Arguments mkOperatorState {W}.
Arguments o_table {W}.
Arguments o_world {W}.

Inductive otask : Type := OManager | OAdmin.

#[export] Instance otask_eq_dec : EqDecision otask.
Proof. solve_decision. Defined.

Definition otasks : list otask := [OManager; OAdmin].

(** Up to the group: configuration, manager (and [GetConfigOrDie], which exits
    with 1 too), controller, health checks, the ConfigMap. *)
Definition operator_main {W} (os_Getenv : environ) (base : res OperatorConfig.Base)
    (getConfig newManager setupWithManager addHealthz addReadyz clientset : res unit)
    (get : W → string → string → res ConfigMap) (w : W) : startup (reconciler * ostate W) :=
  interceptorCfg ← or_exit (OperatorConfig.NewInterceptorFromEnv os_Getenv);
  externalScalerCfg ← or_exit (OperatorConfig.NewExternalScalerFromEnv os_Getenv);
  baseConfig ← or_exit (NewBaseFromEnv base);
  _ ← or_exit getConfig;
  _ ← or_exit newManager;
  let routingTable := NewTable in
  _ ← or_exit setupWithManager;
  _ ← or_exit addHealthz;
  _ ← or_exit addReadyz;
  _ ← or_exit (ensureConfigMap clientset (get w) (OperatorConfig.base_CurrentNamespace baseConfig)
                 ConfigMapRoutingTableName);
  Started (mkReconciler interceptorCfg externalScalerCfg baseConfig, mkOperatorState routingTable w).

Section main.
Context `{Client W} (c : reconciler).

Inductive owork : otask → bool → ostate W → loop unit → ostate W → Prop :=
| o_reconcile done s req r w t :
    Reconcile c req (o_world s) (o_table s) = (r, (w, t)) → is_panic r = false →
    owork OManager done s Waiting (mkOperatorState t w)
(** the manager does not recover a controller's panic *)
| o_reconcile_panic done s req m w t :
    Reconcile c req (o_world s) (o_table s) = (Panic m, (w, t)) →
    owork OManager done s (Returned (Panic m)) (mkOperatorState t w)
(** [mgr.Start] blocks until the context is done, or fails *)
| o_manager_failed done s e :
    owork OManager done s (Returned (Err e)) s
| o_manager_stopped s :
    owork OManager true s (Returned (Ok tt)) s
| o_admin done s listen :
    owork OAdmin done s (ServeContext listen done) s.

Context (world : W → W → Prop).

(** What others do to the cluster. The admin server's routes only read. *)
Inductive obackground : ostate W → ostate W → Prop :=
| o_world_step s w : world (o_world s) w → obackground s (mkOperatorState (o_table s) w).

(** The context ends on a signal, too; main returns after [Wait]. *)
Definition operator_step `{Errgroup G} : process otask G (ostate W) → process otask G (ostate W) → Prop :=
  pstep owork obackground true 0.
End main.

(** ** Lemmas *)

Lemma operator_main_ok {W} env base x1 x2 x3 x4 x5 x6 get (w : W) c s :
  operator_main env base x1 x2 x3 x4 x5 x6 get w = Started (c, s) →
  o_table s = NewTable ∧ o_world s = w
  ∧ is_ok (get w (OperatorConfig.base_CurrentNamespace (BaseConfig c)) ConfigMapRoutingTableName) = true.
Proof.
  unfold operator_main, ensureConfigMap. intros Hs.
  destruct (OperatorConfig.NewInterceptorFromEnv env) as [i|?|?]; [|done..]. simpl in Hs.
  destruct (OperatorConfig.NewExternalScalerFromEnv env) as [e|?|?]; [|done..]. simpl in Hs.
  destruct base as [b|?|?], x1 as [[]|?|?], x2 as [[]|?|?], x3 as [[]|?|?], x4 as [[]|?|?], x5 as [[]|?|?], x6 as [[]|?|?];
    try done. simpl in Hs.
  destruct (get w _ _) eqn:Eg; simplify_eq/=. by rewrite Eg.
Qed.

(** The routes an object asks for. *)
Definition asks_for (base : OperatorConfig.Base) (o : HTTPScaledObject) (h : string) (x : Target) : Prop :=
  h ∈ all_hosts o ∧ ∃ ref, spec_ScaleTargetRef (hso_Spec o) = Some ref ∧ x = httpso_target base o ref.

Section lemmas.
Context `{Client W} (view : W → cluster) `{!ClientLaws W view} `{ErrgroupLaws G}.
Context (c : reconciler) (world : W → W → Prop) (P : string → Target → Prop).

(** Every object asks for routes with [P] only. *)
Definition admits (cl : cluster) : Prop :=
  hso_ok cl ∧ ∀ k o h x, httpscaledobjects cl !! k = Some o → asks_for (BaseConfig c) o h x → P h x.

Definition routes_ok (s : ostate W) : Prop :=
  admits (view (o_world s)) ∧ table_map (o_table s) ≠ None
  ∧ ∀ h x, entries (o_table s) !! h = Some x → P h x.

Lemma asks_for_version o o' h x : version_of o o' → asks_for (BaseConfig c) o' h x → asks_for (BaseConfig c) o h x.
Proof.
  intros Hv (Hh & ref & Href & ->). pose proof Hv as (_ & _ & Hs & Hr & _). split; [by apply Hs|].
  exists ref. split; [congruence|]. symmetry. by rewrite (version_target _ o o').
Qed.

Lemma Reconcile_routes_ok req s r w t :
  routes_ok s → Reconcile c req (o_world s) (o_table s) = (r, (w, t)) → routes_ok (mkOperatorState t w).
Proof.
  intros ([Hok Hadm] & Hn & Hr) Hrec.
  destruct (Reconcile_framed view c req _ _ _ _ _ Hok Hn Hrec) as [[Hv ->]|(o & Ho & Hk & Hn' & Hne & Hver & Hf)].
  - split; [simpl; rewrite Hv; by split|done].
  - split_and!; [split; simpl|done|]; simpl.
    + by apply (version_hso_ok (view (o_world s)) (view w) o req).
    + intros k o' h x Ho' Ha. destruct (decide (k = req)) as [->|Hnk].
      * eapply Hadm; [exact Ho|]. eapply asks_for_version; [by apply Hver|done].
      * eapply Hadm; [|exact Ha]. by rewrite <-Hne.
    + intros h x Hx. destruct (Hf h) as [He|[Hh [He|(ref & Href & He)]]].
      * apply Hr. by rewrite <-He.
      * congruence.
      * eapply Hadm; [exact Ho|]. split; [done|]. exists ref. split; congruence.
Qed.

Lemma operator_reach (s : ostate W) (p : process otask G (ostate W)) :
  (∀ w w', world w w' → admits (view w) → admits (view w')) →
  routes_ok s → rtc (operator_step c world) (launch otasks s) p → routes_ok (p_state p).
Proof.
  intros Hw Hs Hr. eapply (process_invariant (owork c) _ _ _ routes_ok); [| | |exact Hr]; [| |exact Hs].
  - intros t d s1 l s2 Hi Hwork. destruct Hwork; try done; by eapply Reconcile_routes_ok.
  - intros s1 s2 (Ha & Hn & Hx) Hb. destruct Hb as [s1 w' Hstep]. split_and!; [by eapply Hw|done|done].
Qed.

Lemma operator_tasks_stop t (s : ostate W) : t ∈ otasks → ∃ r, is_panic r = false ∧ owork c t true s (Returned r) s.
Proof.
  intros _. destruct t.
  - exists (Ok tt). split; [done|]. apply o_manager_stopped.
  - eexists (Err _). split; [done|]. apply (o_admin _ true _ None).
Qed.

Lemma otasks_nodup : NoDup otasks.
Proof. apply (bool_decide_unpack _). by vm_compute. Qed.
End lemmas.

(** ** Properties *)

(** C15: invariant. Every route comes from an object: in every state the operator
    process reaches after a successful start, whatever reconciliations ran, with
    any outcome, every route of the routing table is one that some
    HTTPScaledObject of the cluster asked for at some time: it has every property
    [P] that the routes asked for have throughout. *)
Theorem operator_routes_from_objects `{Client W} (view : W → cluster) `{!ClientLaws W view} `{ErrgroupLaws G}
    (world : W → W → Prop) (P : string → Target → Prop) os_Getenv base getConfig newManager setupWithManager
    addHealthz addReadyz clientset (get : W → string → string → res ConfigMap) (w : W) (c : reconciler) (s0 : ostate W)
    (p : process otask G (ostate W)) :
  operator_main os_Getenv base getConfig newManager setupWithManager addHealthz addReadyz clientset get w
    = Started (c, s0) →
  admits c P (view w) → (∀ w w', world w w' → admits c P (view w) → admits c P (view w')) →
  rtc (operator_step c world) (launch otasks s0) p →
  ∀ h x, entries (o_table (p_state p)) !! h = Some x → P h x.
Proof.
  intros Hs Ha Hw Hr. apply operator_main_ok in Hs as (Ht & Hw0 & _).
  destruct (operator_reach view c world P s0 p Hw) as (_ & _ & Hx); [|exact Hr|exact Hx].
  split_and!; [by rewrite Hw0|by rewrite Ht|]. rewrite Ht. by intros h x.
Qed.

(** C37: error. A restarted operator forgets: when the very first reconciliation
    after a start is that of an existing object that is not being deleted, and it
    ends without error, then the ConfigMap holds, whatever it held before, a table
    with that one object's hosts and no others. *)
Theorem operator_restart_forgets `{Client W} (view : W → cluster) `{!ClientLaws W view}
    os_Getenv base getConfig newManager setupWithManager addHealthz addReadyz clientset
    (get : W → string → string → res ConfigMap) (w w1 w' : W) (c : reconciler) (s0 : ostate W)
    (req : objKey) (o : HTTPScaledObject) (t' : Table) (d : Duration) :
  let ns := OperatorConfig.base_CurrentNamespace (BaseConfig c) in
  operator_main os_Getenv base getConfig newManager setupWithManager addHealthz addReadyz clientset get w
    = Started (c, s0) →
  Get_HTTPScaledObject req w = (Ok o, w1) → hso_DeletionTimestamp o = None →
  hso_ok (view w) → routing_cm_ok (view w) ns → object_ok (BaseConfig c) o →
  Reconcile c req (o_world s0) (o_table s0) = (Ok (d, None), (w', t')) →
  published (view w') ns = Ok t'
  ∧ ∃ hosts, hosts_of o = Some hosts ∧ ∀ h, is_Some (entries t' !! h) ↔ h ∈ hosts.
Proof.
  intros ns Hs Hg Hd Hok Hcm Hobj Hr. apply operator_main_ok in Hs as (Ht & Hw & _). rewrite Ht, Hw in Hr.
  destruct (reconcile_creation view c req w w1 w' NewTable t' o d Hg Hd Hok Hcm demo_empty_ok Hobj Hr)
    as (hosts & ref & so & Hh & _ & Hadd & Hpub & _).
  split; [done|]. exists hosts. split; [done|]. intros h. rewrite (Hadd h). simpl.
  case_decide; split; by try (intros [? [=]]); eauto.
Qed.

(** An operator with two objects in the cluster, one of them published. *)
Definition demo_env : environ := λ name,
  if decide (name = "KEDAHTTP_INTERCEPTOR_SERVICE") then "int"
  else if decide (name = "KEDAHTTP_OPERATOR_EXTERNAL_SCALER_SERVICE") then "scaler" else "".

Definition demo_cluster : MemCluster :=
  mkMem (mkCluster {[routing_key "keda" := mkConfigMap "keda" ConfigMapRoutingTableName
                       (Some {[configMapRoutingTableKey := print_json (table_json demo_routes)]})]}
           {[hso_key demo_shop := demo_shop;
             ObjKey "dp-1" "blog" := demo_hso "blog" (Some ["blog.dp-1"]) None None []]} ∅ ∅) [] 1 [].

Definition demo_operator : reconciler :=
  mkReconciler (OperatorConfig.mkInterceptor "int" 8091 8090) (OperatorConfig.mkExternalScaler "scaler" 8091)
    (OperatorConfig.mkBase 100 "keda" "").

Definition demo_get (w : MemCluster) (ns name : string) : res ConfigMap := fst (GetConfigMap ns name w).

Lemma demo_operator_started :
  operator_main demo_env (Ok (OperatorConfig.mkBase 100 "keda" "")) (Ok tt) (Ok tt) (Ok tt) (Ok tt) (Ok tt) (Ok tt)
    demo_get demo_cluster = Started (demo_operator, mkOperatorState NewTable demo_cluster).
Proof. by vm_compute. Qed.

Lemma demo_cluster_hso_ok : hso_ok (mem demo_cluster).
Proof. intros k o. simpl. intros [[<- <-]|[_ [<- <-]%lookup_singleton_Some]]%lookup_insert_Some; done. Qed.

Lemma demo_reconciled :
  let out := Reconcile demo_operator (ObjKey "dp-1" "blog") demo_cluster NewTable in
  fst out = Ok (0, None) ∧ is_Some (entries (snd (snd out)) !! "blog.dp-1").
Proof. split; [by vm_compute|]. apply not_eq_None_Some. by vm_compute. Qed.

Lemma operator_restart_forgets_witness :
  ∃ w' t', Reconcile demo_operator (ObjKey "dp-1" "blog") demo_cluster NewTable = (Ok (0, None), (w', t'))
  ∧ published (mem w') "keda" = Ok t' ∧ is_Some (entries t' !! "blog.dp-1") ∧ ¬ is_Some (entries t' !! "app.dp-1").
Proof.
  pose proof demo_reconciled as [Hok _].
  destruct (Reconcile demo_operator (ObjKey "dp-1" "blog") demo_cluster NewTable) as [r [w' t']] eqn:Hr. simpl in Hok. subst r.
  destruct (operator_restart_forgets mem demo_env (Ok (OperatorConfig.mkBase 100 "keda" "")) (Ok tt) (Ok tt) (Ok tt) (Ok tt)
    (Ok tt) (Ok tt) demo_get demo_cluster (mkMem (mem demo_cluster) [] 2 []) w' demo_operator
    (mkOperatorState NewTable demo_cluster) (ObjKey "dp-1" "blog")
    (demo_hso "blog" (Some ["blog.dp-1"]) None None []) t' 0 demo_operator_started) as (Hp & hosts & Hh & Hd).
  - by vm_compute.
  - done.
  - apply demo_cluster_hso_ok.
  - intros cm. simpl. intros [_ <-]%lookup_singleton_Some. done.
  - apply (demo_object_ok "blog" (Some ["blog.dp-1"]) None None []).
    intros hs [= <-]. apply Forall_cons_2; [solve_utf8|by apply Forall_nil].
  - exact Hr.
  - injection Hh as <-. exists w', t'. split_and!; [reflexivity|exact Hp| |].
    + apply Hd. left.
    + rewrite Hd. intros Hin. apply list_elem_of_singleton in Hin. discriminate.
Defined.

(** After one reconciliation the table has a route. *)
Lemma operator_routes_from_objects_witness :
  ∃ p x, rtc (operator_step demo_operator (λ _ _, False))
           (launch (G := simple_group) otasks (mkOperatorState NewTable demo_cluster)) p
  ∧ entries (o_table (p_state p)) !! "blog.dp-1" = Some x ∧ Namespace x = "dp-1".
Proof.
  pose proof demo_reconciled as [Hok [x Hx]].
  destruct (Reconcile demo_operator (ObjKey "dp-1" "blog") demo_cluster NewTable) as [r [w' t']] eqn:Hr. simpl in Hok, Hx. subst r.
  set (p := with_state (mkOperatorState t' w') (launch (G := simple_group) otasks (mkOperatorState NewTable demo_cluster))).
  assert (rtc (operator_step demo_operator (λ _ _, False))
            (launch (G := simple_group) otasks (mkOperatorState NewTable demo_cluster)) p) as Hp.
  { apply rtc_once. apply (p_work _ _ _ _ _ OManager); [done|left|]. by eapply o_reconcile. }
  exists p, x. split; [exact Hp|split; [exact Hx|]].
  refine (operator_routes_from_objects mem (λ _ _, False) (λ _ x, Namespace x = "dp-1")
    demo_env (Ok (OperatorConfig.mkBase 100 "keda" "")) (Ok tt) (Ok tt) (Ok tt) (Ok tt)
    (Ok tt) (Ok tt) demo_get demo_cluster demo_operator (mkOperatorState NewTable demo_cluster) p demo_operator_started
    _ _ Hp "blog.dp-1" x Hx).
  - split; [apply demo_cluster_hso_ok|]. intros k o h y Ho (_ & ref & _ & ->). simpl in Ho. revert Ho.
    intros [[_ <-]|[_ [_ <-]%lookup_singleton_Some]]%lookup_insert_Some; reflexivity.
  - intros ? ? [].
Defined.

(** The operator ends with status 0 whatever happened, when both tasks have
    been recorded; once one has ended, or a signal has come, it can end. *)
Theorem operator_process_exit `{Client W} `{ErrgroupLaws G} (c : reconciler) (world : W → W → Prop) (s0 : ostate W)
    (p : process otask G (ostate W)) :
  rtc (operator_step c world) (launch otasks s0) p →
  (∀ code e, p_status p = Exited code e →
     code = 0 ∧ (p_returned p).*1 ≡ₚ otasks ∧ e = first_of (p_returned p).*2)
  ∧ (p_ended p ≠ [] → ctx_done p = true)
  ∧ (p_status p = Up → ctx_done p = true →
     ∃ p' e, rtc (operator_step c world) p p' ∧ p_status p' = Exited 0 e).
Proof.
  intros Hr. pose proof (supervised_reach _ _ _ _ _ otasks_nodup _ _ Hr) as Hp. split_and!.
  - intros code e He. by destruct (sup_status _ _ _ _ Hp _ _ He) as (-> & _ & ? & ->).
  - intros Hn. unfold ctx_done. by rewrite (sup_cancelled _ _ _ _ Hp Hn).
  - intros Hup Hd.
    destruct (process_stops _ (obackground world) true 0 otasks otasks_nodup p (operator_tasks_stop c) Hp Hup Hd)
      as (p' & e & ? & ? & _). eauto using rtc_nsteps_2.
Qed.

Lemma operator_process_exit_witness :
  ∃ p' e, rtc (operator_step demo_operator (λ _ _, False))
            (launch (G := simple_group) otasks (mkOperatorState NewTable demo_cluster)) p'
  ∧ p_status p' = Exited 0 e.
Proof.
  set (p := mkProcess (mkOperatorState NewTable demo_cluster) otasks [] [] (mkGroup 2 None) true Up).
  assert (rtc (operator_step demo_operator (λ _ _, False))
            (launch (G := simple_group) otasks (mkOperatorState NewTable demo_cluster)) p) as Hp.
  { apply rtc_once. refine (p_signal (G := simple_group) _ _ _ _ (launch otasks _) eq_refl eq_refl). }
  destruct (operator_process_exit demo_operator (λ _ _, False) _ p Hp) as (_ & _ & H).
  destruct (H eq_refl eq_refl) as (p' & e & Hs & He). exists p', e. split; [|exact He].
  by etransitivity; [exact Hp|].
Defined.
