(* ===== verification/System.v ===== *)
(** * The system end to end

    The components together: what the operator writes is what the interceptors
    route by and what the scaler is asked about, and what the interceptors count
    is what the scaler answers with. *)

From S2P Require Import Prelude GoStrings GoUrl Json Http Queue QueueRpc Routing ConfigMaps Net Config K8s Pinger Scaler Admin Supervise InterceptorProcess Hso Kube Operator OperatorProofs.

(** ** From the operator to the interceptors *)

(** What the interceptor's updater receives for the events an informer
    broadcasts. *)
Definition updater_inputs (evs : list event) : list updater_input :=
  (λ e, match ev_Object e with ObjConfigMap cm => EventConfigMap cm | _ => EventOther end) <$> evs.

(** The watch of the routing ConfigMap, on a run of notifications that ends with
    the ConfigMap's last version. *)
Lemma watch_last ns cm (before : ConfigMap) :
  cm_key cm = routing_key ns →
  cm_Watch ns ConfigMapRoutingTableName (cm_broadcast [OnUpdate (ObjConfigMap before) (ObjConfigMap cm)])
  = Ok [mkEvent Modified (ObjConfigMap cm)].
Proof.
  intros Hk. unfold cm_Watch, cm_broadcast, broadcast. simpl.
  injection Hk as -> ->. by rewrite !bool_decide_true.
Qed.

(** ** From the interceptors to the scaler *)

(** Every interceptor serves its admin mux [m] at its address. *)
Definition interceptor_serves {W} (m : mux (interceptor_state W)) (ps : gmap string (interceptor_state W))
    (u : URL) : res string :=
  match ps !! Host u with
  | Some s => http_get m s u
  | None => Err (ApiOther "connection refused")
  end.

Definition address_of (port : string) (a : EndpointAddress) : string := addr_IP a +:+ ":" +:+ port.

Lemma fetch_all_serves {W} getter dj sc tc v (m : mux (interceptor_state W)) ps port addrs procs :
  interceptor_admin getter dj sc tc v = Ok m →
  Forall2 (λ a s, ps !! address_of port a = Some s ∧ counts_ok (countMap (is_queue s))) addrs procs →
  fetch_all (interceptor_serves m ps) ((λ a, mkURL "http" "" None (address_of port a) "" "" "") <$> addrs)
  = Ok (countMap <$> (is_queue <$> procs)).
Proof.
  intros Hm. induction 1 as [|a s addrs procs [Hs Hok] _ IH]; [done|]. csimpl.
  rewrite (GetCounts_served _ _ (countMap (is_queue s))); [|done|].
  - simpl. by rewrite IH.
  - unfold interceptor_serves. change (Host (counts_url _)) with (address_of port a). rewrite Hs.
    by rewrite (http_get_counts getter dj sc tc v m s _ Hm).
Qed.

Lemma zsum_int64 l : int64 (zsum (int64 <$> l)) = int64 (zsum l).
Proof.
  induction l as [|x l IH]; [done|]. csimpl. rewrite int64_add_l, <-int64_add_r, IH. apply int64_add_r.
Qed.

(** The pending requests of some hosts over some queues. *)
Definition pending (hosts : list string) (queues : list Memory) : Z :=
  zsum ((λ h, zsum ((λ q, Count h q) <$> queues)) <$> hosts).

(** Counts that are small add up without overflow, to a positive number when
    there is one. *)
Lemma pending_bounds (queues : list Memory) (hosts : list string) (B : Z) :
  0 ≤ B → Forall (λ q, ∀ h, 0 ≤ Count h q ≤ B) queues →
  Z.of_nat (length hosts) * (Z.of_nat (length queues) * B) < 2 ^ 63 →
  in_int64 (pending hosts queues)
  ∧ ∀ h q, h ∈ hosts → q ∈ queues → 0 < Count h q → 0 < pending hosts queues.
Proof.
  intros HB Hq Hb.
  assert (∀ h, Forall (λ z, 0 ≤ z ≤ B) ((λ y : Memory, Count h y) <$> queues)) as Hc.
  { intros h. apply Forall_fmap. eapply Forall_impl; [exact Hq|]. intros q Hr. apply Hr. }
  assert (Forall (λ z, 0 ≤ z ≤ Z.of_nat (length queues) * B)
            ((λ h, zsum ((λ y : Memory, Count h y) <$> queues)) <$> hosts)) as Hh.
  { apply Forall_fmap, Forall_true. intros h. simpl. pose proof (zsum_bounds _ _ (Hc h)) as Hz.
    rewrite length_fmap in Hz. exact Hz. }
  split.
  - pose proof (zsum_bounds _ _ Hh) as Hz. rewrite length_fmap in Hz. unfold in_int64, pending. lia.
  - intros h q Hin Hqin Hpos. unfold pending.
    assert (0 < zsum ((λ y : Memory, Count h y) <$> queues)) as Hone.
    { apply (zsum_pos (Count h q)); [|apply list_elem_of_fmap; by exists q|done].
      eapply Forall_impl; [apply Hc|]. simpl. lia. }
    eapply zsum_pos; [|apply list_elem_of_fmap; by exists h|exact Hone].
    eapply Forall_impl; [exact Hh|]. simpl. lia.
Qed.

Lemma count_of_sum queues h :
  count_of (fst (sum_counts (countMap <$> queues))) h = int64 (zsum ((λ q, Count h q) <$> queues)).
Proof.
  unfold count_of at 1. rewrite (proj1 (sum_counts_spec _)).
  assert (host_total (countMap <$> queues) h = zsum ((λ q, Count h q) <$> queues)) as Ht.
  { unfold host_total. by rewrite <-list_fmap_compose. }
  case_decide as He; simpl; [by rewrite Ht|]. rewrite <-Ht, host_total_absent by done. done.
Qed.

(** The decision, from the queues of the interceptors. *)
Lemma counts_decide {W V} (fn : GetEndpointsFunc W) (Now : W → Time) (p : queuePinger) (w w' : W)
    (ep : Endpoints) (getter : V → string → res ConfigMap) (dj : V → res string)
    (sc : InterceptorConfig.Serving) (tc : InterceptorConfig.Timeouts) (version : string)
    (mx : mux (interceptor_state V)) (ps : gmap string (interceptor_state V))
    (procs : list (interceptor_state V)) (table : Table) (a b : Z) (m : gmap string string) (hosts : list string) :
  fn (interceptorNS p) (interceptorSvcName p) w = (Ok ep, w') →
  Forall (λ s, Forall plain_address (sub_Addresses s)) (Subsets ep) →
  str_all is_digit (adminPort p) = true →
  interceptor_admin getter dj sc tc version = Ok mx →
  Forall2 (λ x s, ps !! address_of (adminPort p) x = Some s ∧ counts_ok (countMap (is_queue s)))
    (Subsets ep ≫= sub_Addresses) procs →
  m !! "hosts" = Some (Join hosts ",") → hosts ≠ [] → Forall (no_char ",") hosts →
  Forall (λ h, h ≠ interceptor ∧ is_Some (entries table !! h)) hosts →
  ∃ p', fetchAndSaveCounts fn (λ _, interceptor_serves mx ps) Now (p, w) = (Ok tt, (p', w'))
  ∧ IsActive (newImpl p' table a b) m = Ok (bool_decide (0 < int64 (pending hosts (is_queue <$> procs)))).
Proof.
  intros Hf Hpl Hport Hmx Hq Hm Hn Hc Hk. unfold fetchAndSaveCounts, fetchCounts, EndpointsForService.
  rewrite Hf, subset_urls_ok by done.
  pose proof (fetch_all_serves _ _ _ _ _ _ ps _ _ _ Hmx Hq) as Hall. unfold address_of in Hall. rewrite Hall.
  set (queues := is_queue <$> procs).
  cbn [fmap res_fmap]. destruct (sum_counts (countMap <$> queues)) as [total agg] eqn:Es.
  eexists. split; [done|]. unfold IsActive. rewrite (ref_hosts m hosts) by done. simpl.
  rewrite (is_active_known entries); [|eapply Forall_impl; [exact Hk|]; intros h [??]; split; [done|by right]|done].
  assert (∀ z, bool_decide (0 < int64 (0 + z)) = bool_decide (0 < int64 z)) as -> by (intros; by rewrite Z.add_0_l).
  assert (int64 (hosts_total (newImpl (mkPinger (interceptorNS p) (interceptorSvcName p) (interceptorDeplName p)
            (adminPort p) (Now w') total agg) table a b) hosts) = int64 (pending hosts queues)) as ->; [|done].
  unfold hosts_total, pending. simpl. etransitivity; [|apply zsum_int64]. do 2 f_equal.
  rewrite <-list_fmap_compose. apply list_fmap_ext. intros i h _. simpl.
  rewrite <-count_of_sum, Es. done.
Qed.

(** ** Properties *)



(** What the operator puts into a ScaledObject's trigger is what
    the scaler reads out of the reference KEDA passes it: the same hosts, as
    long as there is one and none contains a comma. *)
Theorem scaler_reads_hosts (ns name depl addr : string) (hosts : list string) (mn mx cd : option Z) :
  hosts ≠ [] → Forall (no_char ",") hosts →
  getHostsFromScaledObjectRef <$> (trig_Metadata <$> so_Triggers (NewScaledObject ns name depl addr hosts mn mx cd))
  = [Ok hosts].
Proof.
  intros Hn Hc. simpl. do 2 f_equal. apply ref_hosts; [|done|done].
  rewrite lookup_insert_ne by done. apply lookup_singleton_eq.
Qed.

Lemma scaler_reads_hosts_witness :
  getHostsFromScaledObjectRef <$> (trig_Metadata <$> so_Triggers
    (NewScaledObject "dp-1" "shop-app" "web" "scaler.keda:9090" ["app.dp-1"; "www.dp-1"] None None None))
  = [Ok ["app.dp-1"; "www.dp-1"]].
Proof. apply scaler_reads_hosts; [done|]. repeat constructor; done. Defined.

(** C13: refinement. From the queues to a scaling decision: when the endpoints of
    the interceptors can be read and have plain addresses, every one of them serves
    the interceptor's admin routes over its queue (counts in range, hosts UTF-8),
    and the ScaledObject's hosts are one or more, without commas, all in the
    scaler's table and none the reserved name [interceptor], then the pinger's
    fetch succeeds, and [IsActive] answers from it whether the sum of the queues'
    counts for these hosts over all interceptors, wrapped to 64 bits, is positive.
    That a queue's count is the number of requests in flight is not part of this
    (see C2 and C27). *)
Theorem counts_to_decision {W V} (fn : GetEndpointsFunc W) (Now : W → Time) (p : queuePinger) (w w' : W)
    (ep : Endpoints) (getter : V → string → res ConfigMap) (dj : V → res string)
    (sc : InterceptorConfig.Serving) (tc : InterceptorConfig.Timeouts) (version : string)
    (mx : mux (interceptor_state V)) (ps : gmap string (interceptor_state V))
    (procs : list (interceptor_state V)) (table : Table) (a b : Z) (m : gmap string string) (hosts : list string) :
  fn (interceptorNS p) (interceptorSvcName p) w = (Ok ep, w') →
  Forall (λ s, Forall plain_address (sub_Addresses s)) (Subsets ep) →
  str_all is_digit (adminPort p) = true →
  interceptor_admin getter dj sc tc version = Ok mx →
  Forall2 (λ x s, ps !! address_of (adminPort p) x = Some s ∧ counts_ok (countMap (is_queue s)))
    (Subsets ep ≫= sub_Addresses) procs →
  m !! "hosts" = Some (Join hosts ",") → hosts ≠ [] → Forall (no_char ",") hosts →
  Forall (λ h, h ≠ interceptor ∧ is_Some (entries table !! h)) hosts →
  ∃ p', fetchAndSaveCounts fn (λ _, interceptor_serves mx ps) Now (p, w) = (Ok tt, (p', w'))
  ∧ IsActive (newImpl p' table a b) m = Ok (bool_decide (0 < int64 (pending hosts (is_queue <$> procs)))).
Proof. exact (counts_decide fn Now p w w' ep getter dj sc tc version mx ps procs table a b m hosts). Qed.

Definition demo_process : interceptor_state unit := mkIState demo_queue demo_table tt.

Lemma counts_to_decision_witness :
  ∃ p', fetchAndSaveCounts (λ _ _ w, (Ok demo_two, w))
          (λ _, interceptor_serves demo_mux {["10.0.0.1:9090" := demo_process; "10.0.0.2:9090" := demo_process]}) (λ _, 0)
          (mkPinger "keda" "int" "int" "9090" 0 ∅ 0, tt) = (Ok tt, (p', tt))
  ∧ IsActive (newImpl p' demo_table 100 100) (ref_for ["app.dp-1"]) = Ok true.
Proof.
  destruct (counts_to_decision (λ _ _ w, (Ok demo_two, w)) (λ _, 0)
    (mkPinger "keda" "int" "int" "9090" 0 ∅ 0) tt tt demo_two
    demo_api (λ _, Ok "[]") demo_serving demo_timeouts "main" demo_mux
    {["10.0.0.1:9090" := demo_process; "10.0.0.2:9090" := demo_process]} [demo_process; demo_process]
    demo_table 100 100 (ref_for ["app.dp-1"]) ["app.dp-1"]) as (p' & Hf & Ha).
  - done.
  - repeat constructor; done.
  - done.
  - done.
  - simpl. do 2 (apply Forall2_cons_2; [split; [done|apply counts_ok_demo]|]). apply Forall2_nil_2.
  - done.
  - done.
  - repeat constructor; done.
  - apply Forall_cons_2; [split; [done|by eexists]|by apply Forall_nil].
  - exists p'. split; [exact Hf|]. rewrite Ha. by vm_compute.
Defined.
