(* ===== verification/Deployment.v ===== *)
(** * The operator and its followers as one system

    The operator writes the routing table into a ConfigMap; interceptors and the
    scaler follow it through informers, and interceptors are also pinged. Here
    they run together: the controller of operator/controllers/http, the versions
    of the ConfigMap the API server has stored, and any number of followers that
    run the updater of pkg/routing, see versions late, skip some, see one again
    at a resync and restart. *)

From S2P Require Import Prelude GoStrings GoUrl Json Http Queue QueueRpc Routing ConfigMaps Net Config K8s Hso Kube Operator OperatorProofs OperatorLive OperatorFrame OperatorConverge OperatorController OperatorFailures OperatorRecover System.

(** ** Followers *)

(** An interceptor reads the ConfigMap before it starts its updater, the scaler
    does not. *)
Inductive follower_kind : Type := IsInterceptor | IsScaler.

(** [f_seen]: how many of the versions the informer is past. [f_up]: the updater
    is still in its loop; a process whose updater returns exits. *)
Record follower : Type := mkFollower {
  f_kind : follower_kind;
  f_table : Table;
  f_seen : nat;
  f_up : bool;
}.

Section follower.
Context (ns : string).
Implicit Types (f : follower) (history : list ConfigMap).

(** What the informer calls its handlers with. *)
Definition informer_notification (seen : option ConfigMap) (cm : ConfigMap) : notification :=
  match seen with
  | None => OnAdd (ObjConfigMap cm)
  | Some old => OnUpdate (ObjConfigMap old) (ObjConfigMap cm)
  end.

(** A version goes through the informer's handlers, the broadcaster, the watch
    on the routing ConfigMap and the updater's loop. The callback of the scaler's
    updater fetches counts: it does not touch the table and its error is logged,
    so it is left out here. *)
Definition follower_deliver (seen : option ConfigMap) (cm : ConfigMap) (j : nat) f : follower :=
  match cm_Watch ns ConfigMapRoutingTableName (cm_broadcast [informer_notification seen cm]) with
  | Ok evs =>
      match updater_loop (W := unit) None (updater_inputs evs) (f_table f) tt with
      | (Waiting, (t, _)) => mkFollower (f_kind f) t (S j) (f_up f)
      | (Returned _, (t, _)) => mkFollower (f_kind f) t (S j) false
      end
  | _ => mkFollower (f_kind f) (f_table f) (S j) false
  end.

(** The Kubernetes client of a follower. *)
Definition cluster_getter (cl : cluster) (name : string) : res ConfigMap :=
  match configmaps cl !! ObjKey ns name with
  | Some cm => Ok cm
  | None => Err (ApiNotFound "not found")
  end.

(** A request to [/routing_ping]; a panic ends the request, not the process. *)
Definition follower_ping (cl : cluster) (q : Memory) f : follower :=
  let '(_, (t, _)) := pingHandler (cluster_getter cl) (f_table f) q NewWriter in
  mkFollower (f_kind f) t (f_seen f) (f_up f).

(** An interceptor starts with an empty table, which it replaces by the stored
    one, or exits. *)
Definition interceptor_start (cl : cluster) (q : Memory) : follower :=
  match GetTable (cluster_getter cl) NewTable q with
  | (Ok _, (t, _)) => mkFollower IsInterceptor t 0 true
  | (_, (t, _)) => mkFollower IsInterceptor t 0 false
  end.

(** The scaler starts with an empty table. *)
Definition scaler_start : follower := mkFollower IsScaler NewTable 0 true.

Definition follower_start (cl : cluster) (q : Memory) (k : follower_kind) : follower :=
  match k with
  | IsInterceptor => interceptor_start cl q
  | IsScaler => scaler_start
  end.

Lemma follower_deliver_usable seen cm j f t :
  usable ns cm → FetchTableFromConfigMap cm = Ok t → follower_deliver seen cm j f = mkFollower (f_kind f) t (S j) (f_up f).
Proof.
  intros [Hk _] Ht. unfold follower_deliver.
  assert (∃ ty, cm_Watch ns ConfigMapRoutingTableName (cm_broadcast [informer_notification seen cm])
    = Ok [mkEvent ty (ObjConfigMap cm)]) as [ty ->].
  { destruct seen as [old|]; [exists Modified; by apply watch_last|exists Added].
    unfold cm_Watch, cm_broadcast, broadcast. simpl. injection Hk as -> ->. by rewrite !bool_decide_true. }
  simpl. rewrite Ht. by destruct t.
Qed.

Lemma GetTable_usable cl cm q t t0 :
  configmaps cl !! routing_key ns = Some cm → FetchTableFromConfigMap cm = Ok t →
  GetTable (cluster_getter cl) t0 q = (Ok tt, (t, q)).
Proof.
  intros Hcm Ht. unfold GetTable, cluster_getter.
  change (ObjKey ns ConfigMapRoutingTableName) with (routing_key ns). rewrite Hcm. simpl. rewrite Ht. by destruct t.
Qed.

(** A follower that is past the last version has its table. *)
Record follows history f : Prop := {
  fl_up : f_up f = true;
  fl_seen : (f_seen f ≤ length history)%nat;
  fl_table : ∀ cm, last history = Some cm → f_seen f = length history → FetchTableFromConfigMap cm = Ok (f_table f);
}.

Lemma follows_deliver history f seen cm j :
  follows history f → history !! j = Some cm → usable ns cm → follows history (follower_deliver seen cm j f).
Proof.
  intros [Hup _ _] Hj Hu. destruct (usable_table ns cm Hu) as [t Ht]. rewrite (follower_deliver_usable _ _ _ _ t) by done.
  split; simpl; [done|by apply lookup_lt_Some in Hj|]. intros cm' Hl Hlen. rewrite last_lookup, <-Hlen in Hl.
  simpl in Hl. congruence.
Qed.

Lemma follows_ping history f cl q cm :
  follows history f → configmaps cl !! routing_key ns = Some cm → last history = Some cm → usable ns cm →
  follows history (follower_ping cl q f).
Proof.
  intros [Hup Hs _] Hcm Hl Hu. destruct (usable_table ns cm Hu) as [t Ht]. unfold follower_ping, pingHandler.
  rewrite (GetTable_usable cl cm q t) by done. split; simpl; [done|done|]. intros cm' Hl'. congruence.
Qed.

Lemma follows_start history cl q cm k :
  configmaps cl !! routing_key ns = Some cm → last history = Some cm → usable ns cm →
  follows history (follower_start cl q k).
Proof.
  intros Hcm Hl Hu. destruct (usable_table ns cm Hu) as [t Ht].
  assert (length history ≠ 0%nat) by (by destruct history).
  destruct k; simpl; [unfold interceptor_start; rewrite (GetTable_usable cl cm q t) by done|]; (split; simpl; [done|lia|]); intros; lia.
Qed.

(** New versions leave a follower where it is in the history. *)
Lemma follows_append history vs f : follows history f → follows (history ++ vs) f.
Proof.
  intros [Hup Hs Ht]. destruct vs as [|v vs]; [by rewrite app_nil_r; split|].
  split; [done|rewrite length_app; lia|]. intros cm' _. rewrite length_app. simpl. lia.
Qed.
End follower.

(** ** The system *)

(** [d_history]: the versions of the routing ConfigMap, oldest first. *)
Record deployment : Type := mkDeployment {
  d_controller : controller MemCluster;
  d_history : list ConfigMap;
  d_followers : list follower;
}.

Inductive label : Type := LReconcile | LDeliver | LResync | LPing | LRestart.

#[export] Instance label_eq_dec : EqDecision label.
Proof. solve_decision. Defined.

Section deployment.
Context (c : reconciler) (generation : MemCluster → objKey → Z).
#[local] Abbreviation ns := (OperatorConfig.base_CurrentNamespace (BaseConfig c)).
Implicit Types (d : deployment) (f : follower) (s : controller MemCluster).

Definition d_cluster d : cluster := mem (c_world (d_controller d)).

(** The versions the API server stored between two states. *)
Definition new_versions (w w' : MemCluster) : list ConfigMap := drop (length (stored w)) (stored w').

Definition set_follower (i : nat) (f : follower) d : deployment :=
  mkDeployment (d_controller d) (d_history d) (<[i := f]> (d_followers d)).

(** The version before the ones the informer has not seen. *)
Definition seen_version d f : option ConfigMap :=
  match f_seen f with O => None | S j => d_history d !! j end.

Inductive dstep : label → deployment → deployment → Prop :=
| d_reconcile d s :
    cstep mem generation c (d_controller d) s →
    dstep LReconcile d
      (mkDeployment s (d_history d ++ new_versions (c_world (d_controller d)) (c_world s)) (d_followers d))
| d_deliver d i f j cm :
    d_followers d !! i = Some f → f_up f = true → (f_seen f ≤ j)%nat → d_history d !! j = Some cm →
    dstep LDeliver d (set_follower i (follower_deliver ns (seen_version d f) cm j f) d)
| d_resync d i f j cm :
    d_followers d !! i = Some f → f_up f = true → f_seen f = S j → d_history d !! j = Some cm →
    dstep LResync d (set_follower i (follower_deliver ns (Some cm) cm j f) d)
| d_ping d i f q :
    d_followers d !! i = Some f → f_up f = true → f_kind f = IsInterceptor →
    dstep LPing d (set_follower i (follower_ping ns (d_cluster d) q f) d)
| d_restart d i f q :
    d_followers d !! i = Some f →
    dstep LRestart d (set_follower i (follower_start ns (d_cluster d) q (f_kind f)) d).

Inductive druns : list label → deployment → deployment → Prop :=
| druns_nil d : druns [] d d
| druns_cons l ls d d1 d2 : dstep l d d1 → druns ls d1 d2 → druns (l :: ls) d d2.

(** The steps that make progress, and those that undo some. *)
Definition works (ls : list label) : nat := length (filter (λ l, l = LReconcile ∨ l = LDeliver) ls).
Definition restarts (ls : list label) : nat := length (filter (λ l, l = LRestart) ls).

(** Versions to deliver. *)
Definition behind (n : nat) (fs : list follower) : nat := sum_list ((λ f, n - f_seen f)%nat <$> fs).

(** Work left: each reconciliation can make two versions that go to everyone. *)
Definition work_left d : nat :=
  work (d_controller d) * (1 + 2 * length (d_followers d)) + behind (length (d_history d)) (d_followers d).

Lemma behind_insert n fs i f f' :
  fs !! i = Some f → (behind n (<[i := f']> fs) + (n - f_seen f) = behind n fs + (n - f_seen f'))%nat.
Proof.
  unfold behind. revert i. induction fs as [|g fs IH]; intros [|i] Hi; csimpl in *; [done|done|simplify_eq; lia|].
  specialize (IH i Hi). lia.
Qed.

Lemma behind_grow n m fs : (behind (n + m) fs ≤ behind n fs + m * length fs)%nat.
Proof. unfold behind. induction fs as [|g fs IH]; csimpl; [lia|]. rewrite Nat.mul_succ_r. lia. Qed.

(** ** The invariant *)

Record deployed (c0 : cluster) d : Prop := {
  dp_pursued : ∃ D, pursued c c0 D (d_controller d);
  dp_last : last (d_history d) = configmaps (d_cluster d) !! routing_key ns;
  dp_usable : Forall (usable ns) (d_history d);
  dp_follow : Forall (follows (d_history d)) (d_followers d);
}.

Lemma deployed_current c0 d :
  deployed c0 d → ∃ cm, configmaps (d_cluster d) !! routing_key ns = Some cm ∧ last (d_history d) = Some cm ∧ usable ns cm.
Proof.
  intros [[D [Hpg _]] Hl Hu _]. destruct (rv_cm _ _ _ _ _ Hpg) as (cm & _ & Hcm & _).
  unfold d_cluster in *. rewrite Hcm in Hl. exists cm. split_and!; [done|done|].
  apply last_Some_elem_of in Hl. by eapply Forall_forall.
Qed.

Lemma deployed_set c0 d i f' : deployed c0 d → follows (d_history d) f' → deployed c0 (set_follower i f' d).
Proof. intros [Hc Hl Hu Hf] Hf'. split; [done..|]. simpl. by apply Forall_insert. Qed.

Lemma deployed_follower c0 d i f : deployed c0 d → d_followers d !! i = Some f → follows (d_history d) f.
Proof. intros [_ _ _ Hf]. by apply Forall_lookup_1. Qed.

Lemma deployed_version c0 d j cm : deployed c0 d → d_history d !! j = Some cm → usable ns cm.
Proof. intros [_ _ Hu _]. by apply Forall_lookup_1. Qed.

(** What a follower step leaves. *)
Lemma deployed_follower_step c0 l d d' :
  deployed c0 d → dstep l d d' → l ≠ LReconcile → deployed c0 d'.
Proof.
  intros Hd Hs Hl. destruct (deployed_current _ _ Hd) as (cm0 & Hcm0 & Hl0 & Hu0).
  destruct Hs as [|d i f j cm Hi _ _ Hj|d i f j cm Hi _ _ Hj|d i f q Hi|d i f q Hi]; [done|apply deployed_set; [done|]..].
  - eauto using follows_deliver, deployed_follower, deployed_version.
  - eauto using follows_deliver, deployed_follower, deployed_version.
  - eauto using follows_ping, deployed_follower.
  - eauto using follows_start.
Qed.

Context `{!GenerationLaws mem generation} (c0 : cluster).
Context (Hrc : reconcilable c c0) (Hwhole : ∀ k o, httpscaledobjects c0 !! k = Some o → object_ok (BaseConfig c) o).

(** A reconciliation stores versions to use, the last of which is there then. *)
Lemma new_versions_spec D s s' :
  pursued c c0 D s → cstep mem generation c s s' →
  let vs := new_versions (c_world s) (c_world s') in
  (length vs ≤ 2)%nat ∧ Forall (usable ns) vs
  ∧ configmaps (mem (c_world s')) !! routing_key ns
    = match last vs with Some cm => Some cm | None => configmaps (mem (c_world s)) !! routing_key ns end.
Proof.
  intros Hp Hs vs. destruct (pursued_told c c0 Hrc Hwhole generation D s s' Hp Hs) as [(vs' & Hst & Hu & Hl) Hlen].
  assert (vs = vs') as -> by (unfold vs, new_versions; by rewrite Hst, drop_app_length).
  split_and!; [|done|done]. rewrite Hst, length_app in Hlen. lia.
Qed.

Lemma deployed_reconcile d s :
  deployed c0 d → cstep mem generation c (d_controller d) s →
  deployed c0 (mkDeployment s (d_history d ++ new_versions (c_world (d_controller d)) (c_world s)) (d_followers d))
  ∧ (work s < work (d_controller d))%nat
  ∧ (length (new_versions (c_world (d_controller d)) (c_world s)) ≤ 2)%nat.
Proof.
  intros [[D Hp] Hl Hu Hf] Hs. destruct (pursued_step c c0 Hrc Hwhole generation D _ s Hp Hs) as [Hp' Hrk].
  destruct (new_versions_spec D _ s Hp Hs) as (Hlen & Huv & Hcm). split_and!; [|done|done].
  split; simpl; unfold d_cluster in *; simpl; [done| |by apply Forall_app_2|].
  - rewrite last_app, Hcm. destruct (last (new_versions _ _)); done.
  - eapply Forall_impl; [exact Hf|]. intros f. apply follows_append.
Qed.

Lemma deployed_step l d d' : deployed c0 d → dstep l d d' → deployed c0 d'.
Proof.
  intros Hd Hs. destruct (decide (l = LReconcile)) as [->|Hl]; [|by eapply deployed_follower_step].
  inversion Hs; subst. by apply deployed_reconcile.
Qed.

(** ** The work left *)

(** Versions there are, and can still be. *)
Definition versions_bound d : nat := length (d_history d) + 2 * work (d_controller d).

Lemma dstep_work l d d' :
  deployed c0 d → dstep l d d' →
  (works [l] + work_left d' ≤ work_left d + restarts [l] * versions_bound d)%nat
  ∧ (versions_bound d' ≤ versions_bound d)%nat.
Proof.
  intros Hd Hs. unfold work_left, versions_bound.
  destruct Hs as [d s Hs|d i f j cm Hi _ Hj Hcm|d i f j cm Hi _ Hj Hcm|d i f q Hi|d i f q Hi]; simpl.
  - destruct (deployed_reconcile d s Hd Hs) as (_ & Hrk & Hlen). rewrite length_app.
    pose proof (behind_grow (length (d_history d)) (length (new_versions (c_world (d_controller d)) (c_world s))) (d_followers d)).
    change (works [LReconcile]) with 1%nat. change (restarts [LReconcile]) with 0%nat. nia.
  - rewrite length_insert. pose proof (lookup_lt_Some _ _ _ Hcm) as Hlt.
    destruct (usable_table _ _ (deployed_version c0 d j cm Hd Hcm)) as [t Ht].
    pose proof (behind_insert (length (d_history d)) _ i f (follower_deliver ns (seen_version d f) cm j f) Hi) as Hb.
    rewrite (follower_deliver_usable ns _ _ _ _ t) in * by (done || by eapply deployed_version). simpl in Hb.
    change (works [LDeliver]) with 1%nat. change (restarts [LDeliver]) with 0%nat. lia.
  - rewrite length_insert.
    destruct (usable_table _ _ (deployed_version c0 d j cm Hd Hcm)) as [t Ht].
    pose proof (behind_insert (length (d_history d)) _ i f (follower_deliver ns (Some cm) cm j f) Hi) as Hb.
    rewrite (follower_deliver_usable ns _ _ _ _ t) in * by (done || by eapply deployed_version). simpl in Hb.
    change (works [LResync]) with 0%nat. change (restarts [LResync]) with 0%nat. lia.
  - rewrite length_insert.
    pose proof (behind_insert (length (d_history d)) _ i f (follower_ping ns (d_cluster d) q f) Hi) as Hb.
    assert (f_seen (follower_ping ns (d_cluster d) q f) = f_seen f) as Hsn
      by (unfold follower_ping; by destruct (pingHandler _ _ _ _) as [? []]).
    change (works [LPing]) with 0%nat. change (restarts [LPing]) with 0%nat. lia.
  - rewrite length_insert.
    pose proof (behind_insert (length (d_history d)) _ i f (follower_start ns (d_cluster d) q (f_kind f)) Hi) as Hb.
    change (works [LRestart]) with 0%nat. change (restarts [LRestart]) with 1%nat. lia.
Qed.

Lemma works_cons l ls : works (l :: ls) = (works [l] + works ls)%nat.
Proof. unfold works. by destruct l. Qed.

Lemma restarts_cons l ls : restarts (l :: ls) = (restarts [l] + restarts ls)%nat.
Proof. unfold restarts. by destruct l. Qed.

Lemma druns_work ls d d' :
  deployed c0 d → druns ls d d' →
  deployed c0 d' ∧ (works ls + work_left d' ≤ work_left d + restarts ls * versions_bound d)%nat.
Proof.
  intros Hd Hr. induction Hr as [d|l ls d d1 d2 Hs _ IH]; [split; [done|change (works []) with 0%nat; lia]|].
  destruct (dstep_work l d d1 Hd Hs) as [Hw Hv]. destruct IH as [Hd2 Hw2]; [by eapply deployed_step|].
  split; [done|]. rewrite works_cons, restarts_cons. nia.
Qed.

(** ** Never stuck *)

Definition synced d : Prop :=
  c_requests (d_controller d) = ∅ ∧ Forall (λ f, f_seen f = length (d_history d)) (d_followers d).

Lemma deployed_progress d :
  deployed c0 d →
  (∃ l d', (l = LReconcile ∨ l = LDeliver) ∧ dstep l d d') ∨ synced d.
Proof.
  intros Hd. destruct (decide (c_requests (d_controller d) = ∅)) as [He|He].
  - destruct (decide (Forall (λ f, f_seen f = length (d_history d)) (d_followers d))) as [Hf|Hf]; [by right|left].
    apply not_Forall_Exists, Exists_exists in Hf as (f & [i Hi]%list_elem_of_lookup & Hne); [|apply _].
    pose proof (deployed_follower c0 d i f Hd Hi) as [Hup Hs _].
    destruct (lookup_lt_is_Some_2 (d_history d) (f_seen f)) as [cm Hcm]; [simpl in Hne; lia|].
    eexists LDeliver, _. split; [by right|]. by apply (d_deliver d i f (f_seen f) cm).
  - left. apply set_choose_L in He as [req Hin]. destruct Hd as [[D Hp] _ _ _].
    destruct (pursued_takes c c0 Hrc Hwhole generation D _ req Hp Hin) as [s Hs].
    eexists LReconcile, _. split; [by left|]. by apply d_reconcile.
Qed.

Lemma synced_converged d :
  deployed c0 d → synced d →
  converged c c0 (c_world (d_controller d)) (c_table (d_controller d))
  ∧ Forall (λ f, f_table f = c_table (d_controller d)) (d_followers d).
Proof.
  intros Hd [He Hf]. destruct (deployed_current c0 d Hd) as (cm & Hcm & Hl & _).
  pose proof Hd as [[D Hpd] _ _ Hfo].
  assert (converged c c0 (c_world (d_controller d)) (c_table (d_controller d))) as Hcv.
  { by eapply pursued_converged. }
  split; [done|]. destruct Hcv as [Hp _]. unfold published in Hp. unfold d_cluster in Hcm. rewrite Hcm in Hp.
  apply Forall_forall. intros f Hin. rewrite Forall_forall in Hf, Hfo. destruct (Hfo f Hin) as [_ _ Ht].
  specialize (Ht cm Hl (Hf f Hin)). congruence.
Qed.
End deployment.

(** ** Properties *)

(** C12: liveness. The operator and its followers converge, also when calls of the
    operator to the API server fail, at any point and any finite number of times,
    before or after their effect (no failure claims that an object is missing).
    Assumed of the objects: each can be served (not deleted, one of [host] and
    [hosts] set), or is on its way out, which means being deleted, written with
    [spec.hosts] and not [spec.host], and held by the operator's finalizer and no
    other; all have a scale target and hosts that JSON carries; no two share a
    host; there is at least one object, a request for every object, and in the
    operator's table no route but theirs. The routing ConfigMap exists with data,
    and its versions so far can all be decoded. Followers (interceptors and
    scalers) start anywhere in the versions of the ConfigMap. Then every run of
    reconciliations and deliveries mixed with resyncs, pings and restarts has a
    bounded number of the first two, given by the numbers of failures and restarts;
    no follower's updater ever returns; until everything is reconciled and
    delivered there is a reconciliation or a delivery to make; and then the
    operator has converged, every follower has exactly the operator's table, and
    looking up a host (without a colon) of an object to serve gives its target in
    each of them. *)
Theorem system_converges (c : reconciler) (generation : MemCluster → objKey → Z) `{!GenerationLaws mem generation}
    (w : MemCluster) (t : Table) (requests : gset objKey) (history : list ConfigMap) (followers : list follower) :
  let ns := OperatorConfig.base_CurrentNamespace (BaseConfig c) in
  let d0 := mkDeployment (mkController w t requests) history followers in
  cm_good ns (mem w) → Forall transient (script w) → reconcilable c (mem w) →
  (∀ k o, httpscaledobjects (mem w) !! k = Some o → object_ok (BaseConfig c) o) → table_ok t →
  (∀ h x, entries t !! h = Some x → ∃ k o, httpscaledobjects (mem w) !! k = Some o ∧ claims c o h x) →
  (∀ k, is_Some (httpscaledobjects (mem w) !! k) → k ∈ requests) → httpscaledobjects (mem w) ≠ ∅ →
  last history = configmaps (mem w) !! routing_key ns → Forall (usable ns) history → Forall (follows history) followers →
  ∀ ls d, druns c generation ls d0 d →
  let left := (size requests + size (doomed mem w) + failures w)%nat in
  (works ls ≤ left * (1 + 2 * length followers) + behind (length history) followers
              + restarts ls * (length history + 2 * left))%nat
  ∧ Forall (λ f, f_up f = true) (d_followers d)
  ∧ ((∃ l d', (l = LReconcile ∨ l = LDeliver) ∧ dstep c generation l d d') ∨ synced d)
  ∧ (synced d →
     converged c (mem w) (c_world (d_controller d)) (c_table (d_controller d))
     ∧ ∀ f, f ∈ d_followers d → f_table f = c_table (d_controller d)
       ∧ ∀ k o h x, httpscaledobjects (mem w) !! k = Some o → living c o → claims c o h x → no_char ":" h →
         Lookup h (f_table f) = Ok x).
Proof.
  intros ns d0 Hcm Hscr Hrc Hwhole Ht Hs Hreq Hne Hl Hu Hf ls d Hr left.
  assert (deployed c (mem w) d0) as Hd0.
  { split; [|done|done|done]. exists []. by apply pursued_init. }
  destruct (druns_work c generation (mem w) Hrc Hwhole ls d0 d Hd0 Hr) as [Hd Hw].
  split_and!; [unfold work_left, versions_bound, work, rank in Hw; simpl in Hw |- *; lia| |by eapply deployed_progress|].
  - eapply Forall_impl; [apply Hd|]. by intros f [? _ _].
  - intros Hsy. destruct (synced_converged c generation (mem w) Hrc Hwhole d Hd Hsy) as [Hcv Hft]. split; [done|].
    intros f Hin. rewrite Forall_forall in Hft. split; [by apply Hft|]. intros k o h x Ho Hlv Hcl Hc.
    rewrite Lookup_plain, (Hft f Hin) by done. destruct Hcv as (_ & He & _).
    assert (entries (c_table (d_controller d)) !! h = Some x) as Hx by (apply He; by exists k, o). by rewrite Hx.
Qed.

(** The three objects, with the route of the one on its way out still stored. *)
Definition demo_stored : ConfigMap :=
  mkConfigMap "keda" ConfigMapRoutingTableName
    (Some {[configMapRoutingTableKey := print_json (table_json (mkTable (Some {["old.dp-1" := demo_route]})))]}).

Definition demo_deployed : MemCluster :=
  mkMem (mkCluster {[routing_key "keda" := demo_stored]} (httpscaledobjects (mem demo_three)) ∅ ∅) demo_fates 1 [].

Definition demo_deployment : deployment :=
  mkDeployment (mkController demo_deployed NewTable {[ObjKey "dp-1" "old"; ObjKey "dp-1" "shop"; ObjKey "dp-1" "blog"]})
    [demo_stored] [mkFollower IsInterceptor NewTable 0 true; mkFollower IsScaler NewTable 0 true].

Lemma system_converges_witness :
  (work_left demo_deployment = 37)%nat
  ∧ ∃ l d', (l = LReconcile ∨ l = LDeliver) ∧ dstep demo_config demo_generation l demo_deployment d'.
Proof.
  split; [vm_compute; reflexivity|].
  destruct (system_converges demo_config demo_generation demo_deployed NewTable
    {[ObjKey "dp-1" "old"; ObjKey "dp-1" "shop"; ObjKey "dp-1" "blog"]} [demo_stored]
    [mkFollower IsInterceptor NewTable 0 true; mkFollower IsScaler NewTable 0 true]) with (ls := @nil label) (d := demo_deployment)
    as (_ & _ & [Hstep|[He _]] & _).
  - eexists _, _. split_and!; [apply lookup_singleton_eq|done|done].
  - exact demo_timeouts.
  - destruct demo_three_reconcilable as [H1 H2 H3]. by split.
  - exact demo_three_whole.
  - eexists. split; [done|]. apply map_Forall_empty.
  - intros h x Hx. done.
  - intros k [o [[-> _]|[[-> _]|[-> _]]]%demo_three_lookup]; set_solver.
  - intros Hne. by apply (f_equal (lookup (ObjKey "dp-1" "shop"))) in Hne.
  - done.
  - apply Forall_singleton. split; [done|]. vm_compute. by eexists.
  - repeat constructor; done.
  - constructor.
  - exact Hstep.
  - exfalso. assert (ObjKey "dp-1" "old" ∈ c_requests (d_controller demo_deployment)) as Hin by (unfold demo_deployment; simpl; set_solver).
    rewrite He in Hin. set_solver.
Defined.
