(* ===== verification/ColdStart.v ===== *)
(** * A cold start, end to end (interceptor, scaler, pkg/k8s)

    A request for an application that is scaled to zero: it is counted, so the
    scaler reports the application active; it waits, and the wait ends when the
    deployment cache hears of a ready replica; then it is forwarded. *)

From S2P Require Import Prelude GoStrings GoUrl Json Http Queue QueueRpc CountProtocol CountBounds Routing ConfigMaps Net Config K8s Forward Interceptor Pinger Scaler Admin Supervise InterceptorProcess Hso Kube Operator OperatorProofs System.

(** ** The wait, on the informer-backed cache *)

(** What a notification says of the Deployment [k]. *)
Definition reports (n : notification) (k : objKey) : option (option Depl) :=
  match n with
  | OnAdd (ObjDeployment d) | OnUpdate _ (ObjDeployment d) =>
      if decide ((dep_Namespace d, dep_Name d) = k) then Some (Some d) else None
  | OnDelete (ObjDeployment d) =>
      if decide ((dep_Namespace d, dep_Name d) = k) then Some None else None
  | _ => None
  end.

(** The informer's store is the last it was told of each object. The store
    belongs to client-go; this is what its documentation promises of it. *)
Class InformerStore (store : list notification → objKey → option Depl) : Prop := {
  store_nil k : store [] k = None;
  store_snoc l n k : store (l ++ [n]) k = match reports n k with Some x => x | None => store l k end;
}.

Definition demo_store (l : list notification) (k : objKey) : option Depl :=
  foldl (λ x n, match reports n k with Some y => y | None => x end) None l.

#[export] Instance demo_store_ok : InformerStore demo_store.
Proof. split; [done|]. intros l n k. unfold demo_store. by rewrite foldl_app. Qed.

Definition from_store (x : option Depl) : res Depl :=
  match x with Some d => Ok d | None => Err (ApiNotFound "not found") end.

Definition wait_events (evs : list event) : list wait_input := (λ e, WaitEvent (ev_Object e)) <$> evs.

Section wait.
Context (store : list notification → objKey → option Depl) `{!InformerStore store}.

(** Nothing was said of [k] since. *)
Lemma store_silent l1 l2 k : Forall (λ n, reports n k = None) l2 → store (l1 ++ l2) k = store l1 k.
Proof.
  induction l2 as [|n l2 IH] using rev_ind; intros Hl; [by rewrite app_nil_r|].
  apply Forall_app in Hl as [Hl Hn]. rewrite app_assoc, store_snoc. inversion Hn as [|? ? Hn1]; subst. rewrite Hn1. by apply IH.
Qed.

(** A watch delivers what is said of its Deployment. *)
Lemma watch_delivers ns name (l : list notification) n d :
  n ∈ l → reports n (ns, name) = Some (Some d) →
  ∃ evs, depl_Watch ns name (depl_broadcast l) = Ok evs ∧ Exists (λ e, ev_Object e = ObjDeployment d) evs.
Proof.
  intros Hn Hr. eexists. split; [apply depl_watch_ok|]. apply Exists_exists.
  assert (∃ e, e ∈ handle InformerBackedDeploymentCache.addEvtHandler InformerBackedDeploymentCache.updateEvtHandler
                     InformerBackedDeploymentCache.deleteEvtHandler n
             ∧ ev_Object e = ObjDeployment d ∧ event_key e = Some (ns, name)) as (e & He & Ho & Hk).
  { destruct n as [[]|? []|[]]; simpl in Hr; try done; case_decide as Hd; try done; injection Hr as ->;
      eexists; (split; [by left|]); (split; [done|]); unfold event_key; simpl; by rewrite <-Hd. }
  exists e. split; [|done]. apply list_elem_of_In, filter_In. split.
  - apply list_elem_of_In. unfold depl_broadcast, broadcast. apply list_elem_of_bind. eauto.
  - by apply bool_decide_eq_true.
Qed.

Lemma wait_loop_served name evs rest d :
  Exists (λ e, ev_Object e = ObjDeployment d) evs → deploymentCanServe d = true →
  wait_loop name (wait_events evs ++ rest) = Returned (Ok 0).
Proof.
  intros He Hd. induction evs as [|e evs IH]; [by apply Exists_nil in He|]. simpl.
  apply Exists_cons in He as [He|He]; [by rewrite He, Hd|].
  destruct (ev_Object e) as [|d'|]; [|destruct (deploymentCanServe d')|]; eauto.
Qed.

(** A wait whose watch hears [heard], whatever comes after that: when the ready
    replica was reported before the read, or is among what is heard, it ends with a
    number of replicas, 0 unless the Deployment was ready when it was read. *)
Lemma wait_wakes ns name (pre post heard : list notification) (n : notification) (d d0 : Depl) (g : nat) (rest : list wait_input) :
  let l := pre ++ n :: post in
  reports n (ns, name) = Some (Some d) → deploymentCanServe d = true →
  Forall (λ n, reports n (ns, name) = None) post →
  (length pre < g)%nat ∨ n ∈ heard → store (take g l) (ns, name) = Some d0 →
  ∃ evs, depl_Watch ns name (depl_broadcast heard) = Ok evs
  ∧ newDeployReplicasForwardWaitFunc (Ok tt) (from_store (store (take g l) (ns, name))) ns name (wait_events evs ++ rest)
    = Returned (Ok (if deploymentCanServe d0 then dep_ReadyReplicas d0 else 0)).
Proof.
  intros l Hn Hd Hpost Hin Hst. rewrite Hst. simpl. destruct (decide (length pre < g)%nat) as [Hg|Hg].
  - assert (d0 = d) as ->.
    { assert (take g l = (pre ++ [n]) ++ take (g - length (pre ++ [n])) post) as Ht.
      { unfold l. change (n :: post) with ([n] ++ post). rewrite app_assoc, take_app.
        rewrite (take_ge (pre ++ [n])); [done|]. rewrite length_app. simpl. lia. }
      rewrite Ht, store_silent in Hst by (by apply Forall_take). rewrite store_snoc, Hn in Hst. congruence. }
    eexists. split; [apply depl_watch_ok|]. by rewrite Hd.
  - destruct Hin as [?|Hin]; [done|]. destruct (watch_delivers ns name heard n d) as (evs & Hev & Hex); [done|done|].
    exists evs. split; [done|]. destruct (deploymentCanServe d0); [done|]. by eapply wait_loop_served.
Qed.

(** The object a notification carries to the watchers; a deletion carries the
    object as it was. *)
Definition carried (n : notification) : object :=
  match n with OnAdd o | OnUpdate _ o | OnDelete o => o end.

Definition not_ready (k : objKey) (n : notification) : Prop :=
  ∀ d, carried n = ObjDeployment d → (dep_Namespace d, dep_Name d) = k → deploymentCanServe d = false.

(** A wait that hears of no ready replica before its context ends. *)
Lemma wait_times_out ns name (heard : list notification) (d0 : Depl) e :
  Forall (not_ready (ns, name)) heard → deploymentCanServe d0 = false →
  ∃ evs, depl_Watch ns name (depl_broadcast heard) = Ok evs
  ∧ newDeployReplicasForwardWaitFunc (Ok tt) (Ok d0) ns name (wait_events evs ++ [WaitDone e])
    = Returned (Err (wait_error name e)).
Proof.
  intros Hh Hd. eexists. split; [apply depl_watch_ok|]. simpl. rewrite Hd. clear d0 Hd.
  induction Hh as [|n heard Hn _ IH]; [done|]. unfold depl_broadcast, broadcast in *. csimpl.
  destruct n as [[|d|]|o [|d|]|[|d|]]; simpl; try exact IH; (case_bool_decide as Hk; [|exact IH]); simpl;
    (rewrite (Hn d eq_refl); [exact IH|]); unfold event_key in Hk; simpl in Hk; by injection Hk as -> ->.
Qed.
End wait.

(** ** Counts of several interceptors *)

(** An interceptor process with the cooldown off, in some state it can reach. *)
Definition running_interceptor {V} `{Errgroup G} (delivers : V → ConfigMap → Prop) (env : ienv V)
    (max_requests : Z) (world : V → V → Prop) (m : mux (interceptor_state V)) (q : process itask G (istate V)) : Prop :=
  ∃ d s0, i_sys s0 = initial d false ∧ rtc (interceptor_step delivers env max_requests world m) (launch itasks s0) q.

Section several.
Context {V : Type} `{ErrgroupLaws G}.
Context (getter : V → string → res ConfigMap) (dj : V → res string) (sc : InterceptorConfig.Serving)
  (tc : InterceptorConfig.Timeouts) (version : string) (mx : mux (interceptor_state V))
  (Hmx : interceptor_admin getter dj sc tc version = Ok mx).
Context (delivers : V → ConfigMap → Prop) (env : ienv V) (max_requests : Z) (world : V → V → Prop)
  (Hmax : 0 ≤ max_requests < 2 ^ 63 - 1).
Implicit Types (q : process itask G (istate V)).

Lemma running_counts q h :
  running_interceptor delivers env max_requests world mx q →
  Count h (queue (i_sys (p_state q))) = inflight (i_sys (p_state q)) h
  ∧ 0 ≤ Count h (queue (i_sys (p_state q))) ≤ max_requests + 1.
Proof.
  intros (d & s0 & Hs & Hr). pose proof (interceptor_sys_reach _ _ _ _ _ _ _ _ _ _ Hmx _ _ Hr) as Hsys.
  rewrite Hs in Hsys. pose proof (inv_off_reachable _ Hmax _ _ Hsys) as Hinv.
  destruct (inv_off_count _ Hmax _ h Hinv) as [Hc Hp]. split; [done|].
  pose proof (inv_bounds _ _ h (off_inv _ _ Hinv)) as Hb. rewrite <-(inv_count _ _ (off_inv _ _ Hinv)) in Hb. lia.
Qed.

(** Pending requests add up without overflow, to a positive number when there
    is one. *)
Lemma pending_range (procs : list (process itask G (istate V))) hosts :
  Forall (running_interceptor delivers env max_requests world mx) procs →
  Z.of_nat (length hosts) * (Z.of_nat (length procs) * (max_requests + 1)) < 2 ^ 63 →
  let queues := is_queue <$> (admin_view <$> (p_state <$> procs)) in
  in_int64 (pending hosts queues)
  ∧ ∀ h q, h ∈ hosts → q ∈ procs → 0 < inflight (i_sys (p_state q)) h → 0 < pending hosts queues.
Proof.
  intros Hp Hb queues.
  destruct (pending_bounds queues hosts (max_requests + 1)) as [Hr Hpos]; [lia| | |].
  - unfold queues. apply Forall_fmap, Forall_fmap, Forall_fmap. eapply Forall_impl; [exact Hp|]. intros q Hq h. by apply running_counts.
  - unfold queues. by rewrite !length_fmap.
  - split; [done|]. intros h q Hh Hq Hone. apply (Hpos h (queue (i_sys (p_state q)))); [done| |].
    + unfold queues. rewrite <-!list_fmap_compose. apply list_elem_of_fmap. by exists q.
    + rewrite Forall_forall in Hp. by rewrite (proj1 (running_counts q h (Hp q Hq))).
Qed.

(** What the interceptors serve can be encoded. *)
Lemma running_served (ps : gmap string (interceptor_state V)) port addrs (procs : list (process itask G (istate V))) :
  Forall (running_interceptor delivers env max_requests world mx) procs →
  Forall2 (λ x q, ps !! address_of port x = Some (admin_view (p_state q))
                  ∧ map_Forall (λ h _, valid_utf8 h) (countMap (queue (i_sys (p_state q))))) addrs procs →
  Forall2 (λ x s, ps !! address_of port x = Some s ∧ counts_ok (countMap (is_queue s))) addrs
    (admin_view <$> (p_state <$> procs)).
Proof.
  intros Hrun Hps. induction Hps as [|x q addrs procs [Hx Hu] _ IH]; [constructor|].
  apply Forall_cons in Hrun as [Hq Hrun]. csimpl. constructor; [|by apply IH]. split; [done|].
  intros h c Hc. split; [by eapply Hu|]. destruct (running_counts q h Hq) as [_ Hb].
  unfold Count in Hb. simpl in Hc. rewrite Hc in Hb. unfold in_int64. lia.
Qed.
End several.

(** ** Properties *)

(** A request in flight activates its application: when the pinger
    has fetched from interceptors that run as main runs them with the cooldown
    off, and one of them has a request in flight for one of the ScaledObject's
    hosts, [IsActive] answers true. *)
Theorem pending_request_activates {W V} `{ErrgroupLaws G} (fn : GetEndpointsFunc W) (Now : W → Time) (p : queuePinger)
    (w w' : W) (ep : Endpoints) (getter : V → string → res ConfigMap) (dj : V → res string)
    (sc : InterceptorConfig.Serving) (tc : InterceptorConfig.Timeouts) (version : string)
    (mx : mux (interceptor_state V)) (delivers : V → ConfigMap → Prop) (env : ienv V) (max_requests : Z) (world : V → V → Prop)
    (ps : gmap string (interceptor_state V)) (procs : list (process itask G (istate V))) (table : Table) (a b : Z)
    (m : gmap string string) (hosts : list string) (h : string) (q : process itask G (istate V)) :
  fn (interceptorNS p) (interceptorSvcName p) w = (Ok ep, w') →
  Forall (λ s, Forall plain_address (sub_Addresses s)) (Subsets ep) →
  str_all is_digit (adminPort p) = true →
  interceptor_admin getter dj sc tc version = Ok mx → 0 ≤ max_requests < 2 ^ 63 - 1 →
  Forall (running_interceptor delivers env max_requests world mx) procs →
  Forall2 (λ x q, ps !! address_of (adminPort p) x = Some (admin_view (p_state q))
                  ∧ map_Forall (λ h _, valid_utf8 h) (countMap (queue (i_sys (p_state q)))))
    (Subsets ep ≫= sub_Addresses) procs →
  Z.of_nat (length hosts) * (Z.of_nat (length procs) * (max_requests + 1)) < 2 ^ 63 →
  m !! "hosts" = Some (Join hosts ",") → Forall (no_char ",") hosts →
  Forall (λ h, h ≠ interceptor ∧ is_Some (entries table !! h)) hosts →
  h ∈ hosts → q ∈ procs → 0 < inflight (i_sys (p_state q)) h →
  ∃ p', fetchAndSaveCounts fn (λ _, interceptor_serves mx ps) Now (p, w) = (Ok tt, (p', w'))
  ∧ IsActive (newImpl p' table a b) m = Ok true.
Proof.
  intros Hf Hpl Hport Hmx Hmax Hrun Hps Hb Hm Hc Hk Hh Hq Hpos.
  destruct (pending_range _ _ _ _ _ _ Hmx _ _ _ _ Hmax procs hosts Hrun Hb) as [Hr Hp].
  destruct (counts_decide fn Now p w w' ep getter dj sc tc version mx ps (admin_view <$> (p_state <$> procs))
              table a b m hosts Hf Hpl Hport Hmx) as (p' & H1 & H2); [|done|by intros ->; apply elem_of_nil in Hh|done|done|].
  { by eapply running_served. }
  exists p'. split; [done|]. rewrite H2, int64_id by done. by rewrite bool_decide_true by eauto.
Qed.

Definition demo_ps : gmap string (interceptor_state unit) :=
  {["10.0.0.1:9090" := admin_view demo_istate; "10.0.0.2:9090" := admin_view demo_busy]}.

Lemma pending_request_activates_witness :
  ∃ p', fetchAndSaveCounts (λ _ _ w, (Ok demo_two, w)) (λ _, interceptor_serves demo_mux demo_ps) (λ _, 0)
          (mkPinger "keda" "int" "int" "9090" 0 ∅ 0, tt) = (Ok tt, (p', tt))
  ∧ IsActive (newImpl p' demo_table 100 100) (ref_for [demo_host]) = Ok true.
Proof.
  apply (pending_request_activates (G := simple_group) (λ _ _ w, (Ok demo_two, w)) (λ _, 0)
    (mkPinger "keda" "int" "int" "9090" 0 ∅ 0) tt tt demo_two
    demo_api (λ _, Ok "[]") demo_serving demo_timeouts "main" demo_mux (λ _ _, False) demo_env 100 (λ _ _, False) demo_ps
    [launch itasks demo_istate; launch itasks demo_busy] demo_table 100 100 (ref_for [demo_host]) [demo_host] demo_host
    (launch itasks demo_busy)); try done.
  - repeat constructor; done.
  - repeat apply Forall_cons_2; [..|by apply Forall_nil].
    + exists 0, demo_istate. split; [done|apply rtc_refl].
    + exists 0, demo_istate. split; [done|apply demo_busy_reached].
  - simpl. apply Forall2_cons_2; [split; [done|apply map_Forall_empty]|].
    apply Forall2_cons_2; [split; [done|]|apply Forall2_nil_2].
    apply (map_Forall_singleton (λ h _, valid_utf8 h) demo_host 1). solve_utf8.
  - repeat constructor; done.
  - apply Forall_cons_2; [split; [done|by eexists]|by apply Forall_nil].
  - left.
  - right. left.
Defined.

(** No wake-up is lost: the watch is opened before the cache is
    read, so when the last the informer reports of the Deployment is that it has
    a ready replica, the wait returns without an error, however the
    notifications fall before the watch ([b] of them), between the watch and the
    read ([g] by then in the store, which is never behind the watchers), and
    after; unless the Deployment is not in the store when it is read. *)
Theorem wait_no_lost_wakeup (store : list notification → objKey → option Depl) `{!InformerStore store}
    (ns name : string) (pre post : list notification) (n : notification) (d d0 : Depl) (b g : nat) :
  let l := pre ++ n :: post in
  reports n (ns, name) = Some (Some d) → deploymentCanServe d = true →
  Forall (λ n, reports n (ns, name) = None) post →
  (b ≤ g)%nat → store (take g l) (ns, name) = Some d0 →
  ∃ evs r, depl_Watch ns name (depl_broadcast (drop b l)) = Ok evs
  ∧ newDeployReplicasForwardWaitFunc (Ok tt) (from_store (store (take g l) (ns, name))) ns name (wait_events evs)
    = Returned (Ok r).
Proof.
  intros l Hn Hd Hpost Hbg Hst.
  destruct (wait_wakes store ns name pre post (drop b l) n d d0 g [] Hn Hd Hpost) as (evs & Hev & Hw); [|done|].
  { destruct (decide (length pre < g)%nat); [by left|right]. unfold l. rewrite drop_app_le by lia. set_solver. }
  rewrite app_nil_r in Hw. eauto.
Qed.

Definition demo_scaled (ready : Z) : Depl := mkDeployment "dp-1" "web" (Some 1) ready.

Lemma wait_no_lost_wakeup_witness :
  ∃ evs r, depl_Watch "dp-1" "web" (depl_broadcast [OnUpdate (ObjDeployment (demo_scaled 0)) (ObjDeployment (demo_scaled 1))]) = Ok evs
  ∧ newDeployReplicasForwardWaitFunc (Ok tt) (Ok (demo_scaled 0)) "dp-1" "web" (wait_events evs) = Returned (Ok r).
Proof.
  apply (wait_no_lost_wakeup demo_store "dp-1" "web" [OnAdd (ObjDeployment (demo_scaled 0))] []
    (OnUpdate (ObjDeployment (demo_scaled 0)) (ObjDeployment (demo_scaled 1))) (demo_scaled 1) (demo_scaled 0) 1 1); try done.
Defined.

(** An interceptor with the cooldown on. *)
Definition demo_cooled : InterceptorConfig.Serving := InterceptorConfig.mkServing "keda" 8080 9090 0 250 20 0 true.
Definition demo_cooled_mux : mux (interceptor_state unit) :=
  match interceptor_admin demo_api (λ _, Ok "[]") demo_cooled demo_timeouts "main" with Ok m => m | _ => [] end.

(** One interceptor. *)
Definition demo_one : Endpoints := mkEndpoints "keda" "int" [mkSubset [mkAddress "" "10.0.0.1"] []].

(** Requests and enforcer rounds, as steps of the process. *)
Lemma background_run {V} `{Errgroup G} (delivers : V → ConfigMap → Prop) (env : ienv V) (max_requests : Z) (world : V → V → Prop)
    (m : mux (interceptor_state V)) t w y y' :
  rtc (step max_requests) y y' →
  rtc (interceptor_step (G := G) delivers env max_requests world m)
    (launch itasks (mkInterceptorState y t w)) (launch itasks (mkInterceptorState y' t w)).
Proof.
  induction 1 as [|y y1 y2 Hs _ IH]; [apply rtc_refl|]. eapply rtc_l; [|exact IH].
  apply (p_background _ _ _ _ (launch itasks (mkInterceptorState y t w)) (mkInterceptorState y1 t w)); [done|].
  by apply i_count.
Qed.

(** C35: error. A request can wait for an application that is never scaled up: an
    interceptor started with the cooldown on reaches a state in which a request
    is in flight, and the pinger's next fetch makes [IsActive] answer false,
    because the enforcer reset the host between its two critical sections. *)
Theorem race_starves_request :
  ∃ (s0 : istate unit) (q : process itask simple_group (istate unit)) (p' : queuePinger),
  interceptor_main demo_api (Ok tt) (Ok demo_timeouts) (Ok demo_cooled) (Ok tt) (Ok tt) tt
    = Started (demo_cooled, demo_timeouts, s0)
  ∧ rtc (interceptor_step (λ _ _, False) demo_env 100 (λ _ _, False) demo_cooled_mux) (launch itasks s0) q
  ∧ inflight (i_sys (p_state q)) demo_host = 1
  ∧ fetchAndSaveCounts (λ _ _ w, (Ok demo_one, w))
      (λ _, interceptor_serves demo_cooled_mux {["10.0.0.1:9090" := admin_view (p_state q)]}) (λ _, 0)
      (mkPinger "keda" "int" "int" "9090" 0 ∅ 0, tt) = (Ok tt, (p', tt))
  ∧ IsActive (newImpl p' demo_table 100 100) (ref_for [demo_host]) = Ok false.
Proof.
  exists (mkInterceptorState (initial 20 true) (mkTable (Some ∅)) tt),
    (launch itasks (mkInterceptorState race_applied (mkTable (Some ∅)) tt)),
    (mkPinger "keda" "int" "int" "9090" 0 {[demo_host := 0]} 0).
  split_and!; [by vm_compute|apply background_run, race_reached|by vm_compute..].
Qed.
