(* ===== verification/ProxyRequest.v ===== *)
(** * A request through the whole proxy (interceptor/main.go, middleware.go, proxy_handlers.go)

    The handler that [runProxyServer] serves, with the wait function of main on
    the informer-backed deployment cache: counted, held until the Deployment is
    ready, forwarded, answered, and counted off. *)

From S2P Require Import Prelude GoStrings GoUrl Json Http Queue QueueRpc CountProtocol CountBounds Routing ConfigMaps Net Config K8s Forward Interceptor Pinger Scaler Admin Supervise InterceptorProcess Hso Kube Operator OperatorProofs System ColdStart.

(** ** The wait function main builds *)

(** Notifications of the informer, each with the time at which it comes. *)
Abbreviation timed := (Time * notification)%type (only parsing).

(** What a watch hears that is opened after [b] of the notifications, before a
    deadline. *)
Definition heard (l : list timed) (b : nat) (deadline : Time) : list notification :=
  (filter (λ x, x.1 < deadline) (drop b l)).*2.

(** [waitFunc] under the timeout of the forwarding handler, entered at [t0]: the
    context is done when the timeout has passed, and what the watch hears before
    that comes first. [b] of the notifications came before the watch and [g]
    before the read of the cache. *)
Definition informer_wait {W} (store : list notification → objKey → option Depl) (l : list timed) (t0 : Time) (b g : nat) :
    Duration → string → string → ST W Z := λ timeout ns name w,
  match depl_Watch ns name (depl_broadcast (heard l b (t0 + timeout))) with
  | Err e => (Err e, w)
  | Panic p => (Panic p, w)
  | Ok evs =>
      match newDeployReplicasForwardWaitFunc (Ok tt) (from_store (store (take g l.*2) (ns, name))) ns name
              (wait_events evs ++ [WaitDone DeadlineExceeded]) with
      | Returned r => (r, w)
      | Waiting => (Err DeadlineExceeded, w)
      end
  end.

(** The end of the context ends the wait: the last case does not arise. *)
Lemma wait_loop_returns name l e : ∃ r, wait_loop name (l ++ [WaitDone e]) = Returned r.
Proof.
  induction l as [|[[|d|]|e'] l IH]; simpl; [by eexists|done| |done|by eexists].
  destruct (deploymentCanServe d); [by eexists|done].
Qed.

Lemma informer_wait_returns {W} store l t0 b g (timeout : Duration) ns name (w : W) evs :
  depl_Watch ns name (depl_broadcast (heard l b (t0 + timeout))) = Ok evs →
  ∃ r, newDeployReplicasForwardWaitFunc (Ok tt) (from_store (store (take g l.*2) (ns, name))) ns name
         (wait_events evs ++ [WaitDone DeadlineExceeded]) = Returned r
       ∧ informer_wait store l t0 b g timeout ns name w = (r, w).
Proof.
  intros Hev. unfold informer_wait. rewrite Hev.
  assert (∃ r, newDeployReplicasForwardWaitFunc (Ok tt) (from_store (store (take g l.*2) (ns, name))) ns name
            (wait_events evs ++ [WaitDone DeadlineExceeded]) = Returned r) as [r Hr].
  { unfold newDeployReplicasForwardWaitFunc. destruct (from_store _) as [d|e|p]; [|by eexists..].
    destruct (deploymentCanServe d); [by eexists|apply wait_loop_returns]. }
  exists r. by rewrite Hr.
Qed.

(** A notification that comes in time is heard, unless it came before the watch. *)
Lemma heard_in (pre post : list timed) t n b deadline :
  t < deadline → (b ≤ length pre)%nat → n ∈ heard (pre ++ (t, n) :: post) b deadline.
Proof.
  intros Ht Hb. unfold heard. rewrite drop_app_le by lia. apply list_elem_of_fmap. exists (t, n). split; [done|].
  apply list_elem_of_filter. split; [done|]. set_solver.
Qed.

(** ** The handler *)

Section proxy.
Context {W Conn : Type}.
Context (LookupAddr : string → ST W (list string)) (Now : W → Time).
Context (transport : (string → string → ST W (option Conn)) → Request → ST W Response).
Context (DefaultRoundTrip : Request → ST W Response) (Sleep : Duration → W → W) (ReadFrom : Response → ST W string).
Context (waitFunc : Duration → string → string → ST W Z).
Context (DialContext : string → string → ST W Conn) (Step : Backoff → Duration * Backoff)
        (sleep : Duration → W → option error * W).
Context (table : Table) (timeouts : InterceptorConfig.Timeouts).

#[local] Abbreviation proxy :=
  (proxyHandler LookupAddr Now transport DefaultRoundTrip Sleep ReadFrom waitFunc DialContext Step sleep table timeouts).
#[local] Abbreviation roundTrip :=
  (transport (DialContextWithRetry DialContext Step sleep (InterceptorConfig.DefaultBackoff timeouts))).

(** The host is resolved twice, for the count and for the route. *)
Lemma proxy_run r (q : Memory) w w1 w2 w3 w4 host host' x n u resp :
  getHost LookupAddr r w = (Ok host, w1) → getHost LookupAddr r w1 = (Ok host', w2) → Lookup host' table = Ok x →
  waitFunc (InterceptorConfig.waitTimeout (InterceptorConfig.newForwardingConfigFromTimeouts timeouts)) (Namespace x) (Deployment x) w2 = (Ok n, w3) →
  target_url ServiceURL r x = inl u → roundTrip (outgoing r u) w3 = (Ok resp, w4) →
  resp_StatusCode resp ≠ 503 → resp_Header resp !! coldStartHeader = None →
  ∃ rw, let q1 := snd (Resize host 1 q) in
  proxy r NewWriter (q, w)
  = (Ok rw, (if postpone_guard host q1 then PostponeResize host (Now w4 + PostponeDuration q1) q1
             else snd (Resize host (-1) q1), w4))
  ∧ rw_status rw = Some (resp_StatusCode resp) ∧ rw_body rw = resp_Body resp
  ∧ rw_header rw !! coldStartHeader = Some [if decide (n = 0) then "true" else "false"]
  ∧ ∀ k, k ≠ coldStartHeader → rw_header rw !! k = removeHopByHopHeaders (resp_Header resp) !! k.
Proof.
  intros Hg Hg' Hl Hw Hu Hr Hs Hh.
  destruct (forward_run roundTrip DefaultRoundTrip Sleep ReadFrom LookupAddr waitFunc ServiceURL table
              (InterceptorConfig.newForwardingConfigFromTimeouts timeouts) r w1 w2 w3 w4 host' x n u resp Hg' Hl Hw Hu Hr Hs Hh)
    as (rw & Hrun & Hst & Hb & Hc & Hk).
  exists rw. split_and!; [|done..]. unfold proxyHandler. erewrite countMiddleware_run by done.
  by rewrite Hrun.
Qed.

(** The wait fails: nothing is forwarded. *)
Lemma proxy_wait_fails r (q : Memory) w w1 w2 w3 host host' x e :
  getHost LookupAddr r w = (Ok host, w1) → getHost LookupAddr r w1 = (Ok host', w2) → Lookup host' table = Ok x →
  waitFunc (InterceptorConfig.waitTimeout (InterceptorConfig.newForwardingConfigFromTimeouts timeouts)) (Namespace x) (Deployment x) w2 = (Err e, w3) →
  let q1 := snd (Resize host 1 q) in
  proxy r NewWriter (q, w)
  = (Ok (reply 502 ("error on backend (" +:+ Error_string e +:+ ")") NewWriter),
     (if postpone_guard host q1 then PostponeResize host (Now w3 + PostponeDuration q1) q1
      else snd (Resize host (-1) q1), w3)).
Proof.
  intros Hg Hg' Hl Hw q1. unfold proxyHandler. erewrite countMiddleware_run by done.
  unfold newForwardingHandler. by rewrite Hg', Hl, Hw.
Qed.
End proxy.

(** A resolver that answers the same each time, and leaves the world alone. *)
Definition stable_dns {W} (dns : string → res (list string)) : string → ST W (list string) := λ a w, (dns a, w).

Lemma getHost_stable {W} (dns : string → res (list string)) r (w w1 : W) h :
  getHost (stable_dns dns) r w = (Ok h, w1) → w1 = w.
Proof.
  unfold getHost, stable_dns. repeat (case_decide; [done|]).
  destruct (dns _) as [[|n l]|e|p]; [done| |done|done]. by intros [= _ ->].
Qed.

(** ** A cold start is served *)

(** C16: liveness. A request for an application without a ready replica, with the
    cooldown off, reverse DNS that gives the same answer twice, and a Deployment
    that is in the informer's store when it is read. If the informer reports a ready
    replica, and nothing else of the Deployment after that, before the wait timeout
    has passed, then the wait ends, and when the backend then answers, with
    anything but 503, the answer is relayed, with a cold-start header that says
    whether the request found a ready replica. If no notification before the timeout
    carries a Deployment with a ready replica and none was ready when it was read,
    the request is answered with 502 and not forwarded. Either way every count is
    what it was before the request. *)
Theorem cold_start_served {W Conn : Type} (Now : W → Time)
    (transport : (string → string → ST W (option Conn)) → Request → ST W Response)
    (DefaultRoundTrip : Request → ST W Response) (Sleep : Duration → W → W) (ReadFrom : Response → ST W string)
    (DialContext : string → string → ST W Conn) (Step : Backoff → Duration * Backoff)
    (sleep : Duration → W → option error * W) (table : Table) (timeouts : InterceptorConfig.Timeouts)
    (dns : string → res (list string))
    (store : list notification → objKey → option Depl) `{!InformerStore store}
    (l : list (Time * notification)) (t0 : Time) (d0 : Depl) (b g : nat)
    (r : Request) (q : Memory) (w : W) (host : string) (x : Target) :
  let k := (Namespace x, Deployment x) in
  let deadline := t0 + InterceptorConfig.waitTimeout (InterceptorConfig.newForwardingConfigFromTimeouts timeouts) in
  let proxy := proxyHandler (stable_dns dns) Now transport DefaultRoundTrip Sleep ReadFrom (informer_wait store l t0 b g)
                 DialContext Step sleep table timeouts r NewWriter (q, w) in
  shouldPostpone q = false → queue_wf q →
  getHost (stable_dns dns) r w = (Ok host, w) → Lookup host table = Ok x →
  (b ≤ g)%nat → store (take g l.*2) k = Some d0 →
  (∀ pre post t n d u resp w', l = pre ++ (t, n) :: post →
     reports n k = Some (Some d) → deploymentCanServe d = true → Forall (λ y, reports y.2 k = None) post → t < deadline →
     target_url ServiceURL r x = inl u →
     transport (DialContextWithRetry DialContext Step sleep (InterceptorConfig.DefaultBackoff timeouts)) (outgoing r u) w
       = (Ok resp, w') →
     resp_StatusCode resp ≠ 503 → resp_Header resp !! coldStartHeader = None →
     ∃ rw q', proxy = (Ok rw, (q', w'))
     ∧ rw_status rw = Some (resp_StatusCode resp) ∧ rw_body rw = resp_Body resp
     ∧ rw_header rw !! coldStartHeader = Some [if deploymentCanServe d0 then "false" else "true"]
     ∧ ∀ h, Count h q' = Count h q)
  ∧ (deploymentCanServe d0 = false → Forall (λ y, y.1 < deadline → not_ready k y.2) (drop b l) →
     ∃ rw q', proxy = (Ok rw, (q', w)) ∧ rw_status rw = Some 502 ∧ ∀ h, Count h q' = Count h q).
Proof.
  intros k deadline proxy Hp Hwf Hg Hl Hbg Hst. split.
  - intros pre post t n d u resp w' -> Hn Hd Hpost Ht Hu Hr Hs Hh.
    assert ((pre ++ (t, n) :: post).*2 = pre.*2 ++ n :: post.*2) as Hfm by (by rewrite fmap_app). rewrite Hfm in Hst.
    destruct (wait_wakes store _ _ pre.*2 post.*2 (heard (pre ++ (t, n) :: post) b deadline) n d d0 g
                [WaitDone DeadlineExceeded] Hn Hd) as (evs & Hev & Hw); [by apply Forall_fmap| |done|].
    { rewrite length_fmap. destruct (decide (length pre < g)%nat); [by left|right]. by apply heard_in; [|lia]. }
    destruct (proxy_run (stable_dns dns) Now transport DefaultRoundTrip Sleep ReadFrom (informer_wait store (pre ++ (t, n) :: post) t0 b g)
                DialContext Step sleep table timeouts r q w w w w w' host host x
                (if deploymentCanServe d0 then dep_ReadyReplicas d0 else 0) u resp)
      as (rw & Hrun & Hrs & Hb & Hc & _); try done.
    { unfold informer_wait. fold deadline. by rewrite Hev, Hfm, Hw. }
    do 2 eexists. split; [exact Hrun|]. split_and!; [done|done| |intros h; by apply finish_balanced].
    rewrite Hc. destruct (deploymentCanServe d0) eqn:E; [|done].
    apply bool_decide_eq_true in E. by rewrite decide_False by lia.
  - intros Hd0 Hnone.
    destruct (wait_times_out (Namespace x) (Deployment x) (heard l b deadline) d0 DeadlineExceeded) as (evs & Hev & Hw); [|done|].
    { unfold heard. apply Forall_fmap, Forall_forall. intros y [Hy1 Hy2]%list_elem_of_filter.
      rewrite Forall_forall in Hnone. by apply Hnone. }
    do 2 eexists. split; [eapply proxy_wait_fails; [exact Hg|exact Hg|exact Hl|]|split; [done|intros h; by apply finish_balanced]].
    unfold informer_wait. fold deadline. rewrite Hev. fold k. rewrite Hst. cbn [from_store]. by rewrite Hw.
Qed.

Definition demo_depl (ready : Z) : Depl := mkDeployment "dp-1" "app-depl" (Some 1) ready.
Definition demo_names : string → res (list string) := λ _, Ok ["10-1-2-3.web.dp-1.pod.cluster.local."].

(** The replica is ready [ready_at] after the request; the wait timeout is one
    second and a half. *)
Definition demo_notified (ready_at : Time) : list (Time * notification) :=
  [(0, OnAdd (ObjDeployment (demo_depl 0)));
   (ready_at, OnUpdate (ObjDeployment (demo_depl 0)) (ObjDeployment (demo_depl 1)))].

#[local] Abbreviation demo_proxy l :=
  (proxyHandler (stable_dns demo_names) (λ n : nat, Z.of_nat n) (λ (_ : string → string → ST nat (option unit)) _ n, (Ok demo_200, S n))
     (λ _ n, (Ok demo_200, n)) (λ _ n, n) (λ resp n, (Ok (resp_Body resp), n)) (informer_wait demo_store l 0 1 1)
     (λ _ _ n, (Ok tt, n)) (λ b, (0, b)) (λ _ n, (None, n)) demo_table demo_timeouts (demo_request "app") NewWriter
     (NewMemory 0 false, 0%nat)).

#[local] Abbreviation demo_cold l :=
  (cold_start_served (λ n : nat, Z.of_nat n) (λ (_ : string → string → ST nat (option unit)) _ n, (Ok demo_200, S n))
    (λ _ n, (Ok demo_200, n)) (λ _ n, n) (λ resp n, (Ok (resp_Body resp), n)) (λ _ _ n, (Ok tt, n)) (λ b, (0, b))
    (λ _ n, (None, n)) demo_table demo_timeouts demo_names demo_store l 0 (demo_depl 0) 1 1
    (demo_request "app") (NewMemory 0 false) 0%nat "app.dp-1" demo_target).

Lemma cold_start_served_witness :
  (∃ rw q', demo_proxy (demo_notified (1000 * Millisecond)) = (Ok rw, (q', 1%nat)) ∧ rw_status rw = Some 200)
  ∧ ∃ rw q', demo_proxy (demo_notified (4500 * Millisecond)) = (Ok rw, (q', 0%nat)) ∧ rw_status rw = Some 502.
Proof.
  split.
  - destruct (demo_cold (demo_notified (1000 * Millisecond))) as [H _]; [done|apply map_Forall_empty|by vm_compute..|].
    destruct (H [(0, OnAdd (ObjDeployment (demo_depl 0)))] [] (1000 * Millisecond)
      (OnUpdate (ObjDeployment (demo_depl 0)) (ObjDeployment (demo_depl 1))) (demo_depl 1)
      (mkURL "http" "" None "app.dp-1:8080" "" "" "") demo_200 1%nat) as (rw & q' & Hrun & Hs & _);
      [done|by vm_compute|done|by apply Forall_nil|by vm_compute..|].
    exists rw, q'. split; [exact Hrun|exact Hs].
  - destruct (demo_cold (demo_notified (4500 * Millisecond))) as [_ H]; [done|apply map_Forall_empty|by vm_compute..|].
    destruct H as (rw & q' & Hrun & Hs & _); [done|apply Forall_singleton; intros Hlt; vm_compute in Hlt; discriminate|].
    exists rw, q'. split; [exact Hrun|exact Hs].
Defined.

(** ** The host is resolved twice *)

(** The name a request comes from changes between its two look-ups. *)
Definition demo_moving : string → ST nat (list string) := λ _ n,
  (Ok [match n with O => "10-1-2-3.web.dp-1.pod.cluster.local." | _ => "10-1-2-3.web.dp-2.pod.cluster.local." end], S n).

(** The request is counted under the host of its first reverse look-up
    and routed by that of its second: when the answers differ it is forwarded to
    an application for which it was never counted, while another is counted. *)
Theorem proxy_counts_other_host :
  let table := mkTable (Some {["app.dp-2" := NewTarget "dp-2" "app" 8080 "app-depl" 100]}) in
  ∃ rw, proxyHandler (W := nat) demo_moving (λ n : nat, Z.of_nat n)
    (λ (_ : string → string → ST nat (option unit)) req n, (Ok (mkResponse 200 ∅ (Host (req_URL req))), n))
    (λ _ n, (Ok demo_200, n)) (λ _ n, n) (λ resp n, (Ok (resp_Body resp), n)) (λ _ _ _ n, (Ok 1, n))
    (λ _ _ n, (Ok tt, n)) (λ b, (0, b)) (λ _ n, (None, n)) table demo_timeouts (demo_request "app") NewWriter
    (NewMemory 20 true, 0%nat)
    = (Ok rw, (PostponeResize "app.dp-1" (2 + PostponeDuration (NewMemory 20 true)) (snd (Resize "app.dp-1" 1 (NewMemory 20 true))), 2%nat))
  ∧ rw_body rw = "app.dp-2:8080".
Proof. eexists. split; vm_compute; reflexivity. Qed.
