(* ===== verification/ProxyServer.v ===== *)
(** * Many requests at once in the proxy server (interceptor/main.go, middleware.go, proxy_handlers.go)

    [net/http] runs the proxy's handler in one goroutine per request, while the
    updater replaces the routing table and the enforcer settles postponed
    resizes. Here the handler is taken apart at the points where another
    goroutine can come in between: each call on the queue, each look-up, the
    wait, the forwarding. One thread alone is the handler of Interceptor; the
    server as a whole is a run of the counting protocol of CountProtocol. *)

From S2P Require Import Prelude GoStrings GoUrl Http Queue QueueRpc CountProtocol Routing ConfigMaps Net Config K8s Forward Interceptor Pinger Scaler Admin Supervise InterceptorProcess.

(** ** A request's goroutine *)

Abbreviation answer := (res ResponseWriter).

(** What it does next. [host] is the host it was counted under; [out] is what
    the forwarding handler left, written or panicking. *)
Inductive thread : Type :=
| TGetHost (r : Request)
| TIncrement (r : Request) (host : string)
| TRoute (r : Request) (host : string)
| TLookup (r : Request) (host host' : string)
| TWait (r : Request) (host host' : string) (x : Target)
| TForward (r : Request) (host host' : string) (x : Target) (replicas : Z)
| TShould (host : string) (out : answer)
| TCount (host : string) (out : answer)
| TNow (host : string) (out : answer)
| TDuration (host : string) (out : answer) (now : Time)
| TPostpone (host : string) (out : answer) (t : Time)
| TDecrement (host : string) (out : answer)
| TDone (out : answer).

(** What the goroutines share: the queue, the routing table, the network and the
    clock. *)
Record shared (W : Type) : Type := mkShared {
  sh_queue : Memory;
  sh_table : Table;
  sh_world : W;
}.
Arguments mkShared {W}.
Arguments sh_queue {W}.
Arguments sh_table {W}.
Arguments sh_world {W}.

Section server.
Context {W Conn : Type}.
Context (LookupAddr : string → ST W (list string)) (Now : W → Time).
Context (transport : (string → string → ST W (option Conn)) → Request → ST W Response).
Context (DefaultRoundTrip : Request → ST W Response) (Sleep : Duration → W → W) (ReadFrom : Response → ST W string).
Context (waitFunc : Duration → string → string → ST W Z).
Context (DialContext : string → string → ST W Conn) (Step : Backoff → Duration * Backoff)
        (sleep : Duration → W → option error * W).
Context (timeouts : InterceptorConfig.Timeouts).
Implicit Types (s : shared W) (th : thread).

#[local] Abbreviation fwdCfg := (InterceptorConfig.newForwardingConfigFromTimeouts timeouts).
#[local] Abbreviation roundTrip :=
  (transport (DialContextWithRetry DialContext Step sleep (InterceptorConfig.DefaultBackoff timeouts))).

(** The end of the forwarding handler, once the replicas are there. *)
Definition dispatch (r : Request) (x : Target) (replicas : Z) : ST W ResponseWriter := λ w,
  match target_url ServiceURL r x with
  | inr msg => (Ok (reply 500 msg NewWriter), w)
  | inl targetURL =>
      let isColdStart := if decide (replicas = 0) then "true" else "false" in
      forwardRequest roundTrip DefaultRoundTrip Sleep ReadFrom r targetURL
        (InterceptorConfig.serviceUnavailableRetry fwdCfg) (HeaderAdd coldStartHeader isColdStart NewWriter) w
  end.

Definition set_world (w : W) s : shared W := mkShared (sh_queue s) (sh_table s) w.
Definition set_queue (q : Memory) s : shared W := mkShared q (sh_table s) (sh_world s).

(** One step inside the forwarding handler. *)
Definition forward_step th s : thread * shared W :=
  match th with
  | TRoute r host =>
      match getHost LookupAddr r (sh_world s) with
      | (Ok host', w) => (TLookup r host host', set_world w s)
      | (Err _, w) => (TShould host (Ok (reply 400 "Host not found in request" NewWriter)), set_world w s)
      | (Panic p, w) => (TShould host (Panic p), set_world w s)
      end
  | TLookup r host host' =>
      (match Lookup host' (sh_table s) with
       | Ok x => TWait r host host' x
       | Err _ => TShould host (Ok (reply 404 ("Host " +:+ req_Host r +:+ " not found") NewWriter))
       | Panic p => TShould host (Panic p)
       end, s)
  | TWait r host host' x =>
      match waitFunc (InterceptorConfig.waitTimeout fwdCfg) (Namespace x) (Deployment x) (sh_world s) with
      | (Ok n, w) => (TForward r host host' x n, set_world w s)
      | (Err e, w) => (TShould host (Ok (reply 502 ("error on backend (" +:+ Error_string e +:+ ")") NewWriter)), set_world w s)
      | (Panic p, w) => (TShould host (Panic p), set_world w s)
      end
  | TForward r host host' x n =>
      let '(out, w) := dispatch r x n (sh_world s) in (TShould host out, set_world w s)
  | _ => (th, s)
  end.

(** One step of a goroutine: the middleware's own, or the handler's it calls. *)
Definition thread_step th s : thread * shared W :=
  match th with
  | TGetHost r =>
      match getHost LookupAddr r (sh_world s) with
      | (Ok host, w) => (TIncrement r host, set_world w s)
      | (Err _, w) => (TDone (Ok (reply 400 "Host not found, not forwarding request" NewWriter)), set_world w s)
      | (Panic p, w) => (TDone (Panic p), set_world w s)
      end
  | TIncrement r host => (TRoute r host, set_queue (snd (Resize host 1 (sh_queue s))) s)
  | TRoute _ _ | TLookup _ _ _ | TWait _ _ _ _ | TForward _ _ _ _ _ => forward_step th s
  | TShould host out => (if ShouldPostponeResize (sh_queue s) then TCount host out else TDecrement host out, s)
  | TCount host out => (if decide (Count host (sh_queue s) = 1) then TNow host out else TDecrement host out, s)
  | TNow host out => (TDuration host out (Now (sh_world s)), s)
  | TDuration host out now => (TPostpone host out (now + PostponeDuration (sh_queue s)), s)
  | TPostpone host out t => (TDone out, set_queue (PostponeResize host t (sh_queue s)) s)
  | TDecrement host out => (TDone out, set_queue (snd (Resize host (-1) (sh_queue s))) s)
  | TDone out => (TDone out, s)
  end.

(** A goroutine that runs alone. *)
Fixpoint thread_run (n : nat) th s : thread * shared W :=
  match n with O => (th, s) | S n => let '(th, s) := thread_step th s in thread_run n th s end.

Lemma thread_run_done n out s : thread_run n (TDone out) s = (TDone out, s).
Proof. induction n as [|n IH]; [done|]. simpl. done. Qed.

(** The deferred function takes at most five steps. *)
Lemma thread_run_finish n host out q t w :
  thread_run (5 + n) (TShould host out) (mkShared q t w)
  = (TDone out, mkShared (if postpone_guard host q then PostponeResize host (Now w + PostponeDuration q) q
                          else snd (Resize host (-1) q)) t w).
Proof.
  unfold postpone_guard. simpl. destruct (ShouldPostponeResize q) eqn:Hs; simpl; [|apply thread_run_done].
  destruct (decide (Count host q = 1)) as [Hc|Hc]; simpl.
  - rewrite bool_decide_true by done. apply thread_run_done.
  - rewrite bool_decide_false by done. apply thread_run_done.
Qed.

(** Computes a goroutine's next step, leaving what it calls folded. *)
#[local] Ltac thread_simpl := cbn [thread_run thread_step forward_step]; unfold set_world, set_queue; cbn [sh_queue sh_table sh_world].

(** The forwarding handler takes at most four. *)
Lemma thread_run_forward r host q t w :
  let '(x, w') := newForwardingHandler roundTrip DefaultRoundTrip Sleep ReadFrom LookupAddr waitFunc ServiceURL t fwdCfg
                    r NewWriter w in
  ∃ n, (n ≤ 4)%nat ∧ thread_run n (TRoute r host) (mkShared q t w) = (TShould host x, mkShared q t w').
Proof.
  unfold newForwardingHandler. destruct (getHost LookupAddr r w) as [[host'|e|p] w1] eqn:Hg.
  2,3: exists 1%nat; split; [lia|]; thread_simpl; by rewrite Hg.
  destruct (Lookup host' t) as [x|e|p] eqn:Hl.
  2,3: exists 2%nat; split; [lia|]; thread_simpl; rewrite Hg; thread_simpl; by rewrite Hl.
  destruct (waitFunc _ _ _ w1) as [[n|e|p] w2] eqn:Hw.
  2,3: exists 3%nat; split; [lia|]; thread_simpl; rewrite Hg; thread_simpl; rewrite Hl; thread_simpl; by rewrite Hw.
  assert (∀ out w3, dispatch r x n w2 = (out, w3) →
    ∃ k, (k ≤ 4)%nat ∧ thread_run k (TRoute r host) (mkShared q t w) = (TShould host out, mkShared q t w3)) as Hd.
  { intros out w3 Hd. exists 4%nat. split; [lia|]. thread_simpl. rewrite Hg. thread_simpl. rewrite Hl. thread_simpl. rewrite Hw. thread_simpl. by rewrite Hd. }
  unfold dispatch in Hd. destruct (target_url ServiceURL r x) as [u|msg]; [|by apply Hd].
  destruct (forwardRequest _ _ _ _ _ _ _ _ _) as [out w3]. by apply Hd.
Qed.

Lemma thread_run_add n m th s :
  thread_run (n + m) th s = let '(th, s) := thread_run n th s in thread_run m th s.
Proof. revert th s. induction n as [|n IH]; intros th s; simpl; [done|]. destruct (thread_step th s). apply IH. Qed.

(** Eleven steps are enough for a whole request. *)
Lemma thread_run_handler r q t w x q' w' n :
  proxyHandler LookupAddr Now transport DefaultRoundTrip Sleep ReadFrom waitFunc DialContext Step sleep t timeouts
    r NewWriter (q, w) = (x, (q', w')) →
  thread_run (11 + n) (TGetHost r) (mkShared q t w) = (TDone x, mkShared q' t w').
Proof.
  intros Hp. unfold proxyHandler in Hp. change (11 + n)%nat with (S (10 + n)). thread_simpl.
  destruct (getHost LookupAddr r w) as [[host|e|p] w1] eqn:Hg.
  2,3: unfold countMiddleware in Hp; rewrite Hg in Hp; simplify_eq/=; apply thread_run_done.
  erewrite countMiddleware_run in Hp by done. change (10 + n)%nat with (S (9 + n)). thread_simpl.
  pose proof (thread_run_forward r host (snd (Resize host 1 q)) t w1) as Hf.
  destruct (newForwardingHandler _ _ _ _ _ _ _ _ _ _ _ _) as [y w2]. destruct Hf as (k & Hk & Hf).
  replace (9 + n)%nat with (k + (5 + (4 - k + n)))%nat by lia. rewrite thread_run_add, Hf, thread_run_finish. by simplify_eq.
Qed.

(** ** The server *)

(** [sv_tables]: the routing tables there have been, the current one included. *)
Record server : Type := mkServer {
  sv_shared : shared W;
  sv_threads : gmap nat thread;
  sv_enforcer : option (list string);
  sv_tables : list Table;
  sv_answers : list (nat * answer);
}.
Implicit Types sv : server.

Definition server_init (d : Duration) (b : bool) (t : Table) (w : W) : server :=
  mkServer (mkShared (NewMemory d b) t w) ∅ None [t] [].

Definition sv_queue sv : Memory := sh_queue (sv_shared sv).

Definition with_queue (q : Memory) (e : option (list string)) sv : server :=
  mkServer (set_queue q (sv_shared sv)) (sv_threads sv) e (sv_tables sv) (sv_answers sv).

Section steps.
(** How many requests the process can hold at once. *)
Context (max_requests : Z).

Inductive server_step : server → server → Prop :=
| sv_arrive sv id r :
    sv_threads sv !! id = None → Z.of_nat (size (sv_threads sv)) < max_requests →
    server_step sv (mkServer (sv_shared sv) (<[id := TGetHost r]> (sv_threads sv)) (sv_enforcer sv) (sv_tables sv) (sv_answers sv))
| sv_run sv id th th' s' :
    sv_threads sv !! id = Some th → thread_step th (sv_shared sv) = (th', s') →
    server_step sv (mkServer s' (<[id := th']> (sv_threads sv)) (sv_enforcer sv) (sv_tables sv) (sv_answers sv))
| sv_answer sv id out :
    sv_threads sv !! id = Some (TDone out) →
    server_step sv (mkServer (sv_shared sv) (delete id (sv_threads sv)) (sv_enforcer sv) (sv_tables sv) (sv_answers sv ++ [(id, out)]))
(** the updater, with any table it has decoded *)
| sv_update sv t :
    let t' := Replace t (sh_table (sv_shared sv)) in
    server_step sv (mkServer (mkShared (sv_queue sv) t' (sh_world (sv_shared sv))) (sv_threads sv) (sv_enforcer sv)
                      (sv_tables sv ++ [t']) (sv_answers sv))
(** the network and the clock *)
| sv_move sv w :
    server_step sv (mkServer (set_world w (sv_shared sv)) (sv_threads sv) (sv_enforcer sv) (sv_tables sv) (sv_answers sv))
| sv_scan sv now :
    sv_enforcer sv = None →
    server_step sv (with_queue (sv_queue sv) (Some (scanPostponed now (sv_queue sv))) sv)
| sv_apply sv hosts :
    sv_enforcer sv = Some hosts →
    server_step sv (with_queue (applyPostponed hosts (sv_queue sv)) None sv).
End steps.

(** ** The protocol behind it *)

(** Where a goroutine is in the counting protocol. *)
Definition thread_phase th : option (string * phase) :=
  match th with
  | TGetHost _ | TIncrement _ _ | TDone _ => None
  | TRoute _ host | TLookup _ host _ | TWait _ host _ _ | TForward _ host _ _ _
  | TShould host _ | TCount host _ => Some (host, Serving)
  | TNow host _ | TDuration host _ _ | TPostpone host _ _ => Some (host, Deciding true)
  | TDecrement host _ => Some (host, Deciding false)
  end.

Definition protocol_of sv : sys := mkSys (sv_queue sv) (omap thread_phase (sv_threads sv)) (sv_enforcer sv).

(** A goroutine that has read the configuration of the queue has read it right,
    and one that has a target has it from a table. *)
Definition thread_ok (d : Duration) (b : bool) (tables : list Table) th : Prop :=
  match th with
  | TCount _ _ => b = true
  | TPostpone _ _ t => ∃ now, t = now + d
  | TWait _ _ host' x | TForward _ _ host' x _ => ∃ t, t ∈ tables ∧ Lookup host' t = Ok x
  | _ => True
  end.

Record served_by (max_requests : Z) (d : Duration) (b : bool) sv : Prop := {
  sb_duration : PostponeDuration (sv_queue sv) = d;
  sb_postpone : ShouldPostponeResize (sv_queue sv) = b;
  sb_table : sh_table (sv_shared sv) ∈ sv_tables sv;
  sb_threads : map_Forall (λ _ th, thread_ok d b (sv_tables sv) th) (sv_threads sv);
  sb_size : Z.of_nat (size (sv_threads sv)) ≤ max_requests;
}.

Lemma thread_ok_more d b ts ts' th : thread_ok d b ts th → thread_ok d b (ts ++ ts') th.
Proof. destruct th; simpl; try done; intros (t & Ht & ?); exists t; (split; [by apply elem_of_app; left|done]). Qed.

Lemma thread_ok_step d b ts th s th' s' :
  thread_step th s = (th', s') → thread_ok d b ts th → sh_table s ∈ ts →
  ShouldPostponeResize (sh_queue s) = b → PostponeDuration (sh_queue s) = d →
  thread_ok d b ts th' ∧ sh_table s' = sh_table s
  ∧ ShouldPostponeResize (sh_queue s') = b ∧ PostponeDuration (sh_queue s') = d.
Proof.
  intros Hs Hok Ht Hb Hd. destruct th; simpl in Hs; repeat case_match; simplify_eq/=; split_and!; try done; by eauto.
Qed.

Lemma size_omap_lt {A B} (f : A → option B) (m : gmap nat A) i x :
  m !! i = Some x → f x = None → (size (omap f m) < size m)%nat.
Proof.
  intros Hi Hf. rewrite <-(insert_delete_id m i x Hi), omap_insert_None by done.
  rewrite delete_id by (by rewrite lookup_omap, lookup_delete_eq).
  rewrite map_size_insert_None by apply lookup_delete_eq.
  assert (size (omap f (delete i m)) ≤ size (delete i m))%nat; [|lia].
  rewrite <-!size_dom. apply subseteq_size. intros j. rewrite !elem_of_dom, lookup_omap.
  destruct (delete i m !! j); [by eauto|]. by intros [? [=]].
Qed.

Section simulation.
Context (max_requests : Z) (d : Duration) (b : bool).

Definition sv_after sv id th' (s' : shared W) : server :=
  mkServer s' (<[id := th']> (sv_threads sv)) (sv_enforcer sv) (sv_tables sv) (sv_answers sv).

Lemma protocol_lookup sv id th :
  sv_threads sv !! id = Some th → reqs (protocol_of sv) !! id = thread_phase th.
Proof. intros Hid. simpl. by rewrite lookup_omap, Hid. Qed.

Lemma protocol_stay sv id th th' s' :
  sv_threads sv !! id = Some th → thread_phase th' = thread_phase th → sh_queue s' = sv_queue sv →
  protocol_of (sv_after sv id th' s') = protocol_of sv.
Proof.
  intros Hid Hph Hq. unfold protocol_of, sv_after. simpl. f_equal; [done|]. apply map_eq. intros j.
  rewrite !lookup_omap. destruct (decide (j = id)) as [->|Hj]; [by rewrite lookup_insert_eq, Hid|by rewrite lookup_insert_ne].
Qed.

Lemma protocol_insert sv id th' s' p :
  thread_phase th' = Some p →
  protocol_of (sv_after sv id th' s') = mkSys (sh_queue s') (<[id := p]> (reqs (protocol_of sv))) (sv_enforcer sv).
Proof. intros Hp. unfold protocol_of, sv_after. simpl. by rewrite (omap_insert_Some _ _ _ _ p). Qed.

Lemma protocol_delete sv id th' s' :
  thread_phase th' = None →
  protocol_of (sv_after sv id th' s') = mkSys (sh_queue s') (delete id (reqs (protocol_of sv))) (sv_enforcer sv).
Proof. intros Hp. unfold protocol_of, sv_after. simpl. by rewrite omap_insert_None. Qed.

(** The guard is evaluated when the count is read, or when the cooldown is found
    to be off. *)
Lemma guard_evaluated sv id th th' s' host b' :
  sv_threads sv !! id = Some th → thread_phase th = Some (host, Serving) →
  thread_phase th' = Some (host, Deciding b') → sh_queue s' = sv_queue sv → postpone_guard host (sv_queue sv) = b' →
  rstep max_requests (protocol_of sv) (protocol_of (sv_after sv id th' s')).
Proof.
  intros Hid Hph Hph' Hq <-. rewrite (protocol_insert _ _ _ _ _ Hph'), Hq.
  apply (step_return max_requests (protocol_of sv) id host). by rewrite (protocol_lookup sv id th Hid).
Qed.

(** A step of a goroutine is a step of the protocol, or none. *)
Lemma thread_simulates sv id th th' s' :
  served_by max_requests d b sv → sv_threads sv !! id = Some th → thread_step th (sv_shared sv) = (th', s') →
  protocol_of (sv_after sv id th' s') = protocol_of sv
  ∨ rstep max_requests (protocol_of sv) (protocol_of (sv_after sv id th' s')).
Proof.
  intros [Hd Hb _ Hth Hsz] Hid Hs. pose proof (Hth id th Hid) as Hok. pose proof (protocol_lookup sv id th Hid) as Hph.
  destruct th; simpl in Hs; try (left; repeat case_match; simplify_eq/=; by eapply protocol_stay).
  - right. simplify_eq/=. erewrite protocol_insert by done.
    apply (step_begin max_requests (protocol_of sv) id host); [done|].
    assert (size (reqs (protocol_of sv)) < size (sv_threads sv))%nat by (eapply size_omap_lt; [exact Hid|done]). lia.
  - fold (sv_queue sv) in Hs. destruct (ShouldPostponeResize (sv_queue sv)) eqn:E; simplify_eq/=;
      [left; by eapply protocol_stay|right].
    eapply guard_evaluated; [exact Hid|done..|]. unfold postpone_guard. by rewrite E.
  - fold (sv_queue sv) in Hs. assert (ShouldPostponeResize (sv_queue sv) = true) as E by (by rewrite Hb).
    right. case_decide; simplify_eq/=; (eapply guard_evaluated; [exact Hid|done..|]); unfold postpone_guard; rewrite E; simpl;
      [by rewrite bool_decide_true|by rewrite bool_decide_false].
  - right. destruct Hok as [now ->]. simplify_eq/=. erewrite protocol_delete by done.
    by apply (step_postpone max_requests (protocol_of sv) id host now).
  - right. simplify_eq/=. erewrite protocol_delete by done.
    by apply (step_decrement max_requests (protocol_of sv) id host).
Qed.

Lemma served_step sv sv' :
  served_by max_requests d b sv → server_step max_requests sv sv' → served_by max_requests d b sv'.
Proof.
  intros [Hd Hb Ht Hth Hsz] Hs. destruct Hs as [sv id r Hid Hlt|sv id th th' s' Hid Hs|sv id out Hid|sv t t'|sv w|sv now He|sv hosts He];
    split; simpl; try done.
  - by apply map_Forall_insert_2.
  - rewrite map_size_insert_None by done. lia.
  - by eapply thread_ok_step; [exact Hs|by eapply Hth|..].
  - by eapply thread_ok_step; [exact Hs|by eapply Hth|..].
  - destruct (thread_ok_step d b _ _ _ _ _ Hs (Hth _ _ Hid) Ht Hb Hd) as (_ & -> & _). done.
  - apply map_Forall_insert_2; [|done]. by eapply thread_ok_step; [exact Hs|by eapply Hth|..].
  - by rewrite map_size_insert_Some by eauto.
  - by apply map_Forall_delete.
  - pose proof (map_subseteq_size _ _ (delete_subseteq (sv_threads sv) id)). lia.
  - apply elem_of_app. right. by left.
  - eapply map_Forall_impl; [exact Hth|]. intros ? ?. apply thread_ok_more.
  - unfold sv_queue in *. simpl. unfold PostponeDuration in *. by rewrite (proj2 (apply_flags hosts _)).
  - unfold sv_queue in *. simpl. unfold ShouldPostponeResize in *. by rewrite (proj1 (apply_flags hosts _)).
Qed.

Lemma server_simulates sv sv' :
  served_by max_requests d b sv → server_step max_requests sv sv' →
  rtc (step max_requests) (protocol_of sv) (protocol_of sv').
Proof.
  intros Hsb Hs. destruct Hs as [sv id r Hid Hlt|sv id th th' s' Hid Hs|sv id out Hid|sv t t'|sv w|sv now He|sv hosts He].
  - replace (protocol_of (mkServer _ _ _ _ _)) with (protocol_of sv); [apply rtc_refl|].
    unfold protocol_of. simpl. rewrite omap_insert_None by done. by rewrite delete_id by (by rewrite lookup_omap, Hid).
  - destruct (thread_simulates sv id th th' s' Hsb Hid Hs) as [Heq|Hr]; unfold sv_after in *;
      [rewrite Heq; apply rtc_refl|by apply rtc_once, step_request].
  - replace (protocol_of (mkServer _ _ _ _ _)) with (protocol_of sv); [apply rtc_refl|].
    unfold protocol_of, sv_queue. simpl. rewrite omap_delete. by rewrite delete_id by (by rewrite lookup_omap, Hid).
  - apply rtc_refl.
  - apply rtc_refl.
  - apply rtc_once. by apply (step_scan max_requests (protocol_of sv) now).
  - apply rtc_once. by apply (step_apply max_requests (protocol_of sv) hosts).
Qed.

Lemma served_run t w sv :
  0 ≤ max_requests → rtc (server_step max_requests) (server_init d b t w) sv →
  served_by max_requests d b sv ∧ rtc (step max_requests) (initial d b) (protocol_of sv).
Proof.
  intros Hm Hr. pattern sv. revert sv Hr. apply rtc_ind_r.
  - split; [split; simpl; [done|done|by left|apply map_Forall_empty|done]|].
    unfold protocol_of, server_init. simpl. rewrite omap_empty. apply rtc_refl.
  - intros sv1 sv2 _ Hs [H1 H2]. split; [by eapply served_step|]. etransitivity; [exact H2|by apply server_simulates].
Qed.
End simulation.
End server.

(** ** Properties *)

Section theorems.
Context {W Conn : Type}.
Context (LookupAddr : string → ST W (list string)) (Now : W → Time).
Context (transport : (string → string → ST W (option Conn)) → Request → ST W Response).
Context (DefaultRoundTrip : Request → ST W Response) (Sleep : Duration → W → W) (ReadFrom : Response → ST W string).
Context (waitFunc : Duration → string → string → ST W Z).
Context (DialContext : string → string → ST W Conn) (Step : Backoff → Duration * Backoff)
        (sleep : Duration → W → option error * W).
Context (timeouts : InterceptorConfig.Timeouts).

#[local] Abbreviation sstep :=
  (server_step LookupAddr Now transport DefaultRoundTrip Sleep ReadFrom waitFunc DialContext Step sleep timeouts).

(** C31: equivalence. A request's goroutine is the proxy's handler: run alone, from
    any queue, table and world, it is done after eleven steps at most, with the
    answer (or the panic), the queue and the world of [proxyHandler]. *)
Theorem thread_runs_handler (r : Request) (q : Memory) (t : Table) (w : W) (n : nat) :
  let '(x, (q', w')) :=
    proxyHandler LookupAddr Now transport DefaultRoundTrip Sleep ReadFrom waitFunc DialContext Step sleep t timeouts
      r NewWriter (q, w) in
  thread_run LookupAddr Now transport DefaultRoundTrip Sleep ReadFrom waitFunc DialContext Step sleep timeouts
    (11 + n) (TGetHost r) (mkShared q t w) = (TDone x, mkShared q' t w').
Proof. destruct (proxyHandler _ _ _ _ _ _ _ _ _ _ _ _ _ _ _) as [x [q' w']] eqn:Hp. by apply thread_run_handler. Qed.

(** C19: refinement. The proxy server implements the counting protocol: however the
    goroutines of the requests, the updater of the routing table, the enforcer,
    the network and the clock take turns, the queue goes through a run of the
    protocol in which the requests in flight are the goroutines between their
    increment and the end of their deferred function; a goroutine that waits for
    or forwards to a target has it from a routing table the server has had; and
    with the cooldown off the count of a host is the number of its goroutines,
    so that it is 0 for every host once every goroutine is done. *)
Theorem server_refines_protocol (max_requests : Z) (d : Duration) (b : bool) (t : Table) (w : W) (sv : server) :
  0 ≤ max_requests < 2 ^ 63 - 1 →
  rtc (sstep max_requests) (server_init d b t w) sv →
  rtc (step max_requests) (initial d b) (protocol_of sv)
  ∧ (∀ id r host host' x n,
       sv_threads sv !! id = Some (TWait r host host' x) ∨ sv_threads sv !! id = Some (TForward r host host' x n) →
       ∃ t, t ∈ sv_tables sv ∧ Lookup host' t = Ok x)
  ∧ (b = false → ∀ h, Count h (sv_queue sv) = host_count (fst <$> omap thread_phase (sv_threads sv)) h)
  ∧ (b = false → (∀ id th, sv_threads sv !! id = Some th → ∃ out, th = TDone out) → ∀ h, Count h (sv_queue sv) = 0).
Proof.
  intros Hm Hr.
  destruct (served_run LookupAddr Now transport DefaultRoundTrip Sleep ReadFrom waitFunc DialContext Step sleep timeouts
    max_requests d b t w sv) as [Hsb Hp]; [lia|done|].
  assert (b = false → ∀ h, Count h (sv_queue sv) = host_count (fst <$> omap thread_phase (sv_threads sv)) h) as Hc.
  { intros -> h. apply (inv_off_count max_requests Hm (protocol_of sv) h). by eapply inv_off_reachable. }
  split_and!; [done| |done|].
  - intros id r host host' x n [Hid|Hid]; exact (sb_threads _ _ _ _ Hsb id _ Hid).
  - intros Hb Hdone h. rewrite (Hc Hb). replace (omap thread_phase (sv_threads sv)) with (∅ : gmap nat (string * phase)).
    + by rewrite fmap_empty, host_count_empty.
    + apply map_eq. intros i. rewrite lookup_empty, lookup_omap. destruct (sv_threads sv !! i) as [th|] eqn:E; [|done].
      by destruct (Hdone i th E) as [out ->].
Qed.
End theorems.

(** Two requests, the second counted while the first is already done. *)
#[local] Abbreviation demo_server_step :=
  (server_step (λ _ n, (Ok ["10-1-2-3.web.dp-1.pod.cluster.local."], n)) (λ n : nat, Z.of_nat n)
    (λ (_ : string → string → ST nat (option unit)) _ n, (Ok demo_200, S n)) (λ _ n, (Ok demo_200, n)) (λ _ n, n)
    (λ resp n, (Ok (resp_Body resp), n)) (λ _ _ _ n, (Ok 1, n)) (λ _ _ n, (Ok tt, n)) (λ b, (0, b)) (λ _ n, (None, n))
    demo_timeouts).

Definition demo_run_step (th : thread) (s : shared nat) : thread * shared nat :=
  thread_step (λ _ n, (Ok ["10-1-2-3.web.dp-1.pod.cluster.local."], n)) (λ n : nat, Z.of_nat n)
    (λ (_ : string → string → ST nat (option unit)) _ n, (Ok demo_200, S n)) (λ _ n, (Ok demo_200, n)) (λ _ n, n)
    (λ resp n, (Ok (resp_Body resp), n)) (λ _ _ _ n, (Ok 1, n)) (λ _ _ n, (Ok tt, n)) (λ b, (0, b)) (λ _ n, (None, n))
    demo_timeouts th s.

(** Every goroutine in [ids] takes a step, in this order. *)
Fixpoint demo_schedule (ids : list nat) (sv : server (W := nat)) : server :=
  match ids with
  | [] => sv
  | id :: ids =>
      match sv_threads sv !! id with
      | Some th => let '(th', s') := demo_run_step th (sv_shared sv) in
          demo_schedule ids (mkServer s' (<[id := th']> (sv_threads sv)) (sv_enforcer sv) (sv_tables sv) (sv_answers sv))
      | None => demo_schedule ids sv
      end
  end.

Lemma demo_schedule_steps ids sv : rtc (demo_server_step 100) sv (demo_schedule ids sv).
Proof.
  revert sv. induction ids as [|id ids IH]; intros sv; [apply rtc_refl|]. simpl.
  destruct (sv_threads sv !! id) as [th|] eqn:Hid; [|apply IH].
  destruct (demo_run_step th (sv_shared sv)) as [th' s'] eqn:Hs. eapply rtc_l; [|apply IH]. by eapply sv_run.
Qed.

Definition demo_arrived : server (W := nat) :=
  mkServer (mkShared (NewMemory 0 false) demo_table 0%nat) {[0%nat := TGetHost (demo_request "app"); 1%nat := TGetHost (demo_request "app")]}
    None [demo_table] [].

Definition demo_pair : server := demo_schedule ([0; 1; 0; 1] ++ replicate 9 0)%nat demo_arrived.

Lemma demo_pair_reached : rtc (demo_server_step 100) (server_init 0 false demo_table 0%nat) demo_pair.
Proof.
  eapply rtc_l; [by apply (sv_arrive _ _ _ _ _ _ _ _ _ _ _ 100 (server_init 0 false demo_table 0%nat) 1 (demo_request "app"))|].
  eapply rtc_l; [eapply (sv_arrive _ _ _ _ _ _ _ _ _ _ _ 100 _ 0 (demo_request "app")); by vm_compute|].
  apply demo_schedule_steps.
Qed.

Lemma server_refines_protocol_witness :
  rtc (step 100) (initial 0 false) (protocol_of demo_pair)
  ∧ Count "app.dp-1" (sv_queue demo_pair) = host_count (fst <$> omap thread_phase (sv_threads demo_pair)) "app.dp-1"
  ∧ Count "app.dp-1" (sv_queue demo_pair) = 1.
Proof.
  assert (0 ≤ 100 < 2 ^ 63 - 1) as Hm by lia.
  destruct (server_refines_protocol _ _ _ _ _ _ _ _ _ _ _ 100 0 false demo_table 0%nat demo_pair Hm demo_pair_reached)
    as (Hp & _ & Hc & _).
  split_and!; [exact Hp|by apply Hc|by vm_compute].
Defined.
