(* ===== verification/ScaleFromZero.v ===== *)
(** * From a waiting request to KEDA's answer

    The chain that wakes an application: the operator's ScaledObject carries the
    hosts of the HTTPScaledObject to KEDA; a goroutine of an interceptor's proxy
    that waits for the application is in the interceptor's count; the scaler's
    pinger fetches the counts of all interceptors; and KEDA, asking over gRPC with
    the metadata of the ScaledObject, is told to scale up. *)

From S2P Require Import Prelude GoStrings GoUrl Json Http Queue QueueRpc CountProtocol Routing ConfigMaps Net Config K8s Forward Interceptor Pinger Scaler Admin Supervise InterceptorProcess Proto Hso Kube Operator OperatorProofs System ProxyServer.

Section chain.
(** The proxies: what they run on. *)
Context {V Conn : Type}.
Context (LookupAddr : string → ST V (list string)) (Now : V → Time).
Context (transport : (string → string → ST V (option Conn)) → Request → ST V Response).
Context (DefaultRoundTrip : Request → ST V Response) (Sleep : Duration → V → V) (ReadFrom : Response → ST V string).
Context (waitFunc : Duration → string → string → ST V Z).
Context (DialContext : string → string → ST V Conn) (Step : Backoff → Duration * Backoff)
        (sleep : Duration → V → option error * V).
Context (timeouts : InterceptorConfig.Timeouts) (max_requests : Z) (Hmax : 0 ≤ max_requests < 2 ^ 63 - 1).

#[local] Abbreviation sstep :=
  (server_step LookupAddr Now transport DefaultRoundTrip Sleep ReadFrom waitFunc DialContext Step sleep timeouts max_requests).

(** A proxy server with the cooldown off, in some state it can reach. *)
Definition running_server (sv : server (W := V)) : Prop :=
  ∃ d t w, rtc sstep (server_init d false t w) sv.

(** What its admin server sees. *)
Definition server_view (sv : server (W := V)) : interceptor_state V :=
  mkIState (sv_queue sv) (sh_table (sv_shared sv)) (sh_world (sv_shared sv)).

Lemma running_server_count sv h :
  running_server sv →
  Count h (sv_queue sv) = host_count (fst <$> omap thread_phase (sv_threads sv)) h
  ∧ 0 ≤ Count h (sv_queue sv) ≤ max_requests + 1.
Proof.
  intros (d & t & w & Hr).
  destruct (served_run LookupAddr Now transport DefaultRoundTrip Sleep ReadFrom waitFunc DialContext Step sleep timeouts
    max_requests d false t w sv) as [_ Hp]; [lia|done|].
  pose proof (inv_off_reachable _ Hmax _ _ Hp) as Hi. destruct (inv_off_count _ Hmax _ h Hi) as [Hc H0].
  split; [exact Hc|]. pose proof (inv_bounds _ _ h (off_inv _ _ Hi)) as Hb. rewrite <-(inv_count _ _ (off_inv _ _ Hi)) in Hb.
  change (queue (protocol_of sv)) with (sv_queue sv) in *. lia.
Qed.

(** A goroutine that has been counted and is not done is in the count. *)
Lemma counted_goroutine sv id th h ph :
  running_server sv → sv_threads sv !! id = Some th → thread_phase th = Some (h, ph) → 0 < Count h (sv_queue sv).
Proof.
  intros Hr Hid Hph. rewrite (proj1 (running_server_count sv h Hr)).
  assert (1 ≤ host_count (fst <$> omap thread_phase (sv_threads sv)) h); [|lia].
  apply (host_count_pos _ id). by rewrite lookup_fmap, lookup_omap, Hid; simpl; rewrite Hph.
Qed.

Lemma servers_served (ps : gmap string (interceptor_state V)) port addrs (servers : list (server (W := V))) :
  Forall running_server servers →
  Forall2 (λ x sv, ps !! address_of port x = Some (server_view sv)
                   ∧ map_Forall (λ h _, valid_utf8 h) (countMap (sv_queue sv))) addrs servers →
  Forall2 (λ x s, ps !! address_of port x = Some s ∧ counts_ok (countMap (is_queue s))) addrs (server_view <$> servers).
Proof.
  intros Hrun Hps. induction Hps as [|x sv addrs servers [Hx Hu] _ IH]; [constructor|].
  apply Forall_cons in Hrun as [Hq Hrun]. csimpl. constructor; [|by apply IH]. split; [done|].
  intros h n Hn. split; [by eapply Hu|]. destruct (running_server_count sv h Hq) as [_ Hb].
  unfold Count in Hb. simpl in Hn. rewrite Hn in Hb. unfold in_int64. lia.
Qed.

(** C4: liveness. A waiting request wakes its application, when the interceptors
    run without a cooldown (with one, the enforcer can hide the request: C35).
    Let a reconciliation without error be that of an HTTPScaledObject that is not
    being deleted and whose hosts contain no comma and are not the reserved name
    [interceptor]; let a goroutine of some interceptor's proxy be between its
    increment and the end of its deferred function under one of these hosts; and
    let the scaler hold the operator's table. If the endpoints of the interceptors
    can be read, have plain addresses and all serve their admin routes, all hosts
    counted are UTF-8, and the interceptors can hold fewer than 2^63 requests for
    the object's hosts together, then the scaler's next fetch succeeds, and KEDA's
    next call of [IsActive] through the gRPC stub, with the metadata of the
    ScaledObject that the reconciliation wrote, is answered with true. *)
Theorem waiting_request_wakes `{Client W} (view : W → cluster) `{!ClientLaws W view} `{Grpc} `{!GrpcLaws} {P : Type}
    (c : reconciler) (req : objKey) (w w1 w' : W) (t t' : Table) (o : HTTPScaledObject) (delay : Duration) (hosts : list string)
    (fn : GetEndpointsFunc P) (NowP : P → Time) (p : queuePinger) (v v' : P) (ep : Endpoints)
    (getter : V → string → res ConfigMap) (dj : V → res string) (sc : InterceptorConfig.Serving) (version : string)
    (mx : mux (interceptor_state V)) (ps : gmap string (interceptor_state V)) (servers : list (server (W := V)))
    (sv : server (W := V)) (id : nat) (th : thread) (h : string) (ph : phase) (a b : Z)
    (ins : list (stream_input (T := Table))) :
  let ns := OperatorConfig.base_CurrentNamespace (BaseConfig c) in
  (* the operator *)
  Get_HTTPScaledObject req w = (Ok o, w1) → hso_DeletionTimestamp o = None → hso_ok (view w) → routing_cm_ok (view w) ns →
  table_ok t → object_ok (BaseConfig c) o → Reconcile c req w t = (Ok (delay, None), (w', t')) →
  hosts_of o = Some hosts → Forall (λ h, h ≠ interceptor ∧ no_char "," h) hosts →
  (* the interceptors *)
  Forall running_server servers → sv ∈ servers → sv_threads sv !! id = Some th → thread_phase th = Some (h, ph) → h ∈ hosts →
  interceptor_admin getter dj sc timeouts version = Ok mx →
  Forall2 (λ x sv, ps !! address_of (adminPort p) x = Some (server_view sv)
                   ∧ map_Forall (λ h _, valid_utf8 h) (countMap (sv_queue sv))) (Subsets ep ≫= sub_Addresses) servers →
  Z.of_nat (length hosts) * (Z.of_nat (length servers) * (max_requests + 1)) < 2 ^ 63 →
  (* the scaler *)
  fn (interceptorNS p) (interceptorSvcName p) v = (Ok ep, v') →
  Forall (λ s, Forall plain_address (sub_Addresses s)) (Subsets ep) → str_all is_digit (adminPort p) = true →
  ∃ so metadata p',
    scaledobjects (view w') !! ObjKey (hso_Namespace o) (hso_Name o +:+ "-app") = Some so
    ∧ so_Triggers so = [mkTrigger soTriggerType metadata]
    ∧ fetchAndSaveCounts fn (λ _, interceptor_serves mx ps) NowP (p, v) = (Ok tt, (p', v'))
    ∧ ∀ ref, sor_ScalerMetadata ref = metadata → ref_valid ref →
      client_IsActive (RegisterExternalScalerServer (impl_server (newImpl p' t' a b) ins) NewServer) ref
      = Ok (mkIsActiveResponse true).
Proof.
  intros ns Hg Hd Hok Hcm Ht Hobj Hr Hhosts Hplain Hrun Hsv Hid Hph Hh Hmx Hps Hb Hf Hpl Hport.
  destruct (reconcile_creation view c req w w1 w' t t' o delay Hg Hd Hok Hcm Ht Hobj Hr)
    as (hosts' & ref' & so & Hh' & _ & Hadd & _ & Hso & _ & Htr & _).
  assert (hosts' = hosts) as -> by congruence.
  set (metadata := <[mkScalerAddress := _]> {[mkHosts := Join hosts ","]}) in Htr.
  assert (metadata !! "hosts" = Some (Join hosts ",")) as Hm.
  { unfold metadata. rewrite lookup_insert_ne by done. apply lookup_singleton_eq. }
  assert (is_queue <$> (server_view <$> servers) = sv_queue <$> servers) as Hqs by (by rewrite <-list_fmap_compose).
  destruct (pending_bounds (sv_queue <$> servers) hosts (max_requests + 1)) as [Hin Hpos]; [lia| |by rewrite length_fmap|].
  { apply Forall_fmap. eapply Forall_impl; [exact Hrun|]. intros x Hx h'. by apply running_server_count. }
  destruct (counts_decide fn NowP p v v' ep getter dj sc timeouts version mx ps (server_view <$> servers)
    t' a b metadata hosts Hf Hpl Hport Hmx) as (p' & Hfetch & Hact); [by apply servers_served|done|by intros ->; apply elem_of_nil in Hh| | |].
  { eapply Forall_impl; [exact Hplain|]. naive_solver. }
  { apply Forall_forall. intros h' Hin'. rewrite Forall_forall in Hplain. split; [by apply Hplain|].
    rewrite (Hadd h'). destruct (entries t !! h'); [by eexists|]. rewrite decide_True by done. by eexists. }
  exists so, metadata, p'. split_and!; [done|done|done|]. intros ref Href Hv.
  rewrite client_IsActive_calls by done. simpl. unfold impl_IsActive. simpl. rewrite Href, Hact, Hqs. simpl.
  rewrite int64_id by done. rewrite bool_decide_true; [done|].
  apply (Hpos h (sv_queue sv)); [done|by apply list_elem_of_fmap_2|].
  rewrite Forall_forall in Hrun. by eapply counted_goroutine; [apply Hrun|..].
Qed.
End chain.

#[local] Existing Instance demo_grpc.
#[local] Existing Instance demo_grpc_laws.

(** One interceptor, whose proxy has one goroutine left. *)
Definition demo_one : Endpoints := mkEndpoints "keda" "int" [mkSubset [mkAddress "" "10.0.0.1"] []].

Definition demo_nat_mux : mux (interceptor_state nat) :=
  match interceptor_admin (λ (_ : nat) name, Ok (mkConfigMap "keda" name (Some ∅))) (λ _, Ok "[]") demo_serving demo_timeouts "main" with
  | Ok m => m
  | _ => []
  end.

Definition demo_admins : gmap string (interceptor_state nat) := {["10.0.0.1:9090" := server_view demo_pair]}.

Lemma demo_pair_running :
  running_server (λ _ n, (Ok ["10-1-2-3.web.dp-1.pod.cluster.local."], n)) (λ n : nat, Z.of_nat n)
    (λ (_ : string → string → ST nat (option unit)) _ n, (Ok demo_200, S n)) (λ _ n, (Ok demo_200, n)) (λ _ n, n)
    (λ resp n, (Ok (resp_Body resp), n)) (λ _ _ _ n, (Ok 1, n)) (λ _ _ n, (Ok tt, n)) (λ b, (0, b)) (λ _ n, (None, n))
    demo_timeouts 100 demo_pair.
Proof. eexists 0, demo_table, 0%nat. apply demo_pair_reached. Qed.

Lemma demo_pair_counts : countMap (sv_queue demo_pair) = {["app.dp-1" := 1]}.
Proof. vm_compute. reflexivity. Qed.

Lemma waiting_request_wakes_witness :
  ∃ w' t' so metadata p',
    Reconcile demo_config (ObjKey "dp-1" "shop") (demo_world (demo_hso "shop" (Some ["app.dp-1"]) None None []) ∅) NewTable
      = (Ok (0, None), (w', t'))
    ∧ scaledobjects (mem w') !! ObjKey "dp-1" "shop-app" = Some so ∧ so_Triggers so = [mkTrigger soTriggerType metadata]
    ∧ ∀ ref, sor_ScalerMetadata ref = metadata → ref_valid ref →
      client_IsActive (RegisterExternalScalerServer (impl_server (newImpl p' t' 100 100) []) NewServer) ref
      = Ok (mkIsActiveResponse true).
Proof.
  destruct (Reconcile demo_config (ObjKey "dp-1" "shop") (demo_world (demo_hso "shop" (Some ["app.dp-1"]) None None []) ∅) NewTable)
    as [r [w' t']] eqn:Hr.
  assert (r = Ok (0, None)) as -> by (vm_compute in Hr; by injection Hr as <- _ _).
  assert (object_ok (BaseConfig demo_config) (demo_hso "shop" (Some ["app.dp-1"]) None None [])) as Hobj.
  { apply demo_object_ok. intros hs [= <-]. apply Forall_cons_2; [solve_utf8 | by apply Forall_nil]. }
  assert (0 ≤ 100 < 2 ^ 63 - 1) as Hm by lia.
  destruct (sv_threads demo_pair !! 1%nat) as [th|] eqn:Hth; [|by vm_compute in Hth].
  assert (thread_phase th = Some ("app.dp-1", Serving)) as Hph by (vm_compute in Hth; by injection Hth as <-).
  destruct (waiting_request_wakes (λ _ n, (Ok ["10-1-2-3.web.dp-1.pod.cluster.local."], n)) (λ n : nat, Z.of_nat n)
    (λ (_ : string → string → ST nat (option unit)) _ n, (Ok demo_200, S n)) (λ _ n, (Ok demo_200, n)) (λ _ n, n)
    (λ resp n, (Ok (resp_Body resp), n)) (λ _ _ _ n, (Ok 1, n)) (λ _ _ n, (Ok tt, n)) (λ b, (0, b)) (λ _ n, (None, n))
    demo_timeouts 100 Hm mem demo_config _ _ _ w' NewTable t'
    (demo_hso "shop" (Some ["app.dp-1"]) None None []) 0 ["app.dp-1"] (λ _ _ v, (Ok demo_one, v)) (λ _, 0)
    (mkPinger "keda" "int" "int" "9090" 0 ∅ 0) tt tt demo_one (λ (_ : nat) name, Ok (mkConfigMap "keda" name (Some ∅))) (λ _, Ok "[]")
    demo_serving "main" demo_nat_mux demo_admins [demo_pair] demo_pair 1%nat th "app.dp-1" Serving 100 100 []
    (demo_get_hso (demo_hso "shop" (Some ["app.dp-1"]) None None []) ∅) eq_refl (demo_hso_ok _ _) (demo_cm_ok _ _) demo_empty_ok Hobj Hr)
    as (so & md & p' & Hso & Htr & _ & Hkeda).
  - reflexivity.
  - apply Forall_singleton. split; [discriminate|reflexivity].
  - apply Forall_singleton, demo_pair_running.
  - left.
  - exact Hth.
  - exact Hph.
  - left.
  - reflexivity.
  - apply Forall2_cons_2; [|apply Forall2_nil_2]. split; [vm_compute; reflexivity|].
    rewrite demo_pair_counts. apply map_Forall_singleton. clear. solve_utf8.
  - simpl. lia.
  - reflexivity.
  - clear. repeat constructor; done.
  - reflexivity.
  - exists w', t', so, md, p'. split_and!; [reflexivity|exact Hso|exact Htr|exact Hkeda].
Defined.
